(* ===== verification/_CoqProject ===== *)
-Q . S2P
Prelude.v
PyValue.v
Codec.v
Json.v
Topology.v
Placement.v
Routing.v
Monitor.v
Router.v
LocalPipes.v
Broker.v
Intervals.v
TimingMetrics.v
Steady.v
Retry.v
Worker.v
Proxy.v
WorkerTasks.v
Supervisor.v
DistributedYaml.v
MlpReference.v
Host.v
Matrices.v
Patches.v
SwarmStack.v
Feedback.v
Platform.v
Csv.v
Experiments.v
Traces.v
Swarm.v
Imported.v
Remote.v
MlpDpMatrix.v
Scalability.v
Probes.v
Latency.v
Summaries.v
ScaleOut.v
Reports.v
Maintenance.v
Collected.v
NativeFiles.v
RouterLogs.v
ProbeLogs.v
Wire.v
RegressionTests.v
