(* ===== verification/Prelude.v ===== *)
(** * ChipSystemSim: the distributed simulation scripts, verified

    ChipSystemSim runs a chiplet simulation (LEGOSim) on several Docker nodes.  InterChiplet starts
    simulator processes, among them a stand-in on another node (the process proxy), and the
    processes exchange payloads over named pipes (PipeComm), which the scripts carry
    between the nodes over SimBricks channels.  This library models the Python code of the
    repository and proves what it promises.  Everything is a function of explicit state that
    evaluates on concrete inputs; exceptions are values of [Prelude.result].

    ** The parts and how they meet

    - Generation.  [Topology] (src/real/generate_simbricks_topology.py) makes the full mesh of
      channels between worker slots, [Placement] (src/real/generate_placement.py) assigns the
      processes of a workload to nodes, [Routing] (src/real/generate_simbricks_routing.py)
      turns both into the routing table a router loads, [DistributedYaml]
      (src/real/generate_distributed_yaml.py, src/real/ns3_phase2_runner.py) replaces every process by a call
      of the proxy, and [SwarmStack] (src/real/generate_swarm_stack.py) writes the services that run it.
      [Matrices] (src/scripts/generate_matmul_dp_dind_matrix.py, generate_mlp_dp_matrix.py and
      generate_native_mlp_dind_matrix.py) makes whole families of workloads, [MlpReference]
      (src/scripts/mlp_dp_reference.py) the numbers they must print, and [Patches]
      (src/real/patch_*.py, apply_overlay.py) edits the upstream sources they run.
    - Run time.  [Router] (src/real/simbricks_pipe_router.py) answers the pipe requests of the processes
      on its node or forwards them to the peer's gateway; [LocalPipes] is the same code under
      concurrent requests, [Broker] (src/real/fifo_broker.py, fifo_client.py) the single-host service.
      Both are instances of the [Monitor] interface, in which a request may wait under an
      asyncio condition.  [Supervisor] (src/real/simbricks_worker_supervisor.py) starts and stops the
      transports of a node; [Worker] (src/real/worker.py) starts a simulator on request of [Proxy]
      (src/real/process_proxy.py), and [WorkerTasks] is the same worker with several requests at a
      time.  [Retry] has the waiting loops the three share.  [Platform]
      (src/platform/node.py) is the self-contained demonstration workload.
    - Between the parts.  Programs meet through texts: [Json] has the decoder that reads them and that
      what is printed is read back.  [NativeFiles] joins the generators and the router through
      the files between them, [Wire] proxy, worker, broker and client through their connections,
      [RouterLogs] the router and the four readers of its log, [ProbeLogs] the latency probes and their
      summaries.
    - Experiments.  [Host] gives scripts a file system and a trace of commands, [Traces] a polling
      loop and a logic of traces.  [Experiments] (src/scripts/run_experiments.py), [Swarm]
      (run_real_swarm.py), [Imported] (run_imported_swarm.py), [Remote] (run_remote_functional_matrix.py),
      [MlpDpMatrix] (run_mlp_dp_matrix.py) and [Scalability] (run_mlp_scalability.py) deploy stacks,
      watch them, keep evidence and remove them.  [Probes] (pipecomm_latency_probe.py,
      tcp_latency_probe.py) measure a deployed transport.
    - Evaluation.  [Intervals], [TimingMetrics] and [Collected] (collect_timing_metrics.py), [Steady]
      (summarize_steady_measurement.py), [Feedback] (validate_ns3_timing_feedback.py,
      validate_matmul_dp_results.py), [Latency] (summarize_pipecomm_latency_probe.py,
      summarize_tcp_latency_probe.py), [Summaries] (summarize_functional_metrics.py,
      summarize_native_matrix.py, collect_steady_matrix.py), [ScaleOut] (summarize_dind_mlp_dp.py) and
      [Reports] (analyze_results.py, src/real/verify_workloads.py, src/real/mnsim_compat.py) read logs and
      artifacts and compute tables.
    - Tests.  [RegressionTests] evaluates the assertions of src/tests/ on the model.
    - Maintenance.  [Maintenance] (src/scripts/commit_cuda_bootstrap.py, diagnose_cuda_runtime.py) makes an
      image from a finished container and keeps the transcript of one run.
    - Shared.  This file has exceptions, text, searching, sorting and sums; [PyValue] the values of JSON
      and YAML; [Codec] UTF-8 and base64; [Json] the JSON decoder; [Csv] tables and the interface of floats.

    ** State and operations

    A document a script reads or writes is a record with the script's keys or a [PyValue.pydict].
    The queues of a router or broker are a [gmap] from pipe names to lists of payloads, the files
    of a host a [Worker.filesystem], a script a function of the state monad [Host.H] over files,
    commands run and clock readings taken, a worker, supervisor, proxy or probe a function of the
    world it runs in.  Definitions have the names of the Python functions; where a
    function is long its loops and blocks are definitions of their own, composed as the
    code composes them.

    What is not Python of this repository is an argument: [yaml.safe_load], sockets, the clock,
    Docker, SSH and other commands, the order in which a directory lists its files.  Where a
    theorem relies on one of them, a hypothesis says what it relies on (for example that a clock
    advances).  The components take [json.loads] as an argument too; [Json.loads] is the
    decoder of the standard library, with which the files between the parts apply them.
    Floats are used through the class [Csv.Floats]; the reduction of the reference model is
    generic in its numbers.

    ** What the theorems show

    - Generated artifacts are complete and consistent: [Topology.generate_full_mesh],
      [Placement.place_all_balanced], [Placement.communication_aware_optimal],
      [Routing.routing_table_exact], [SwarmStack.stack_matches_runtime], [Experiments.placement_sound],
      and the lemmas on the matrices of [Matrices].
    - Messages and files mean the same on both sides: [Json.loads_render] for every printer of the
      repository, [NativeFiles.native_files_resolve], [Wire.remote_process],
      [RouterLogs.router_log_collected], [ProbeLogs.latency_measured], [Router.request_roundtrip],
      [DistributedYaml.wrapped_call_parsed], [Probes.probes_meet], [Collected.metrics_read_back].
    - Pipes are FIFO queues under concurrency, nothing is lost or duplicated and nobody who could
      run sleeps: [LocalPipes.local_pipes_fifo], [LocalPipes.single_reader_served],
      [Broker.broker_fifo], [Broker.broker_no_lost_wakeup].  They refine the sequential queue of
      [Monitor].  The requests of a worker share assets as if they came one after the other:
      [WorkerTasks.Assets.assets_as_if_sequential], [WorkerTasks.Assets.asset_whole].
    - Errors are answered or end the run, and what was started is stopped: [Router.handle_answers],
      [Supervisor.cleanup_complete], [Platform.controller_outcome], [Platform.handle_well_formed],
      [Experiments.experiment_cleans_up], [Swarm.deployed_stack_removed].
    - Loops end: [Worker.workdir_fresh], [Supervisor.startup_terminates].
    - Runs are judged by their evidence: [Imported.screened_honestly], [MlpDpMatrix.job_validated],
      [Scalability.coordinator_after_ready], [ScaleOut.completed_runs_only], [Feedback.matmul_log_validated].
    - Numbers are what they are called: [Intervals.union_routines_agree],
      [TimingMetrics.transfer_records_pair], [TimingMetrics.transport_conservation],
      [Steady.steady_report_exact], [Platform.measurement_bounds], [Latency.percentiles_ranked],
      [Reports.report_of_summary], [MlpReference.reductions_agree].
    - Edits are safe to repeat: [Patches.patches_idempotent].

    ** Fuel

    Python loops without a structural measure take fuel, and a theorem says how much is enough.
    [Retry] loops and the polling loops of [Traces] run at most once per unit of a clock that
    advances: [Retry.retry_fuel] and [Traces.poll_fuel] are the span to the deadline and one more
    ([Traces.h_poll_enough], [Traces.h_loop_enough]).  [Worker.workdir_fuel] is one more than the
    number of names taken.  [scan] of this file takes the length of the text and one more
    ([scan_enough]).  Reading a socket takes one step for each byte that is missing, the header of a
    reply at most the 512 the code allows.  Decoding a JSON text takes at most two calls for each
    character ([Json.loads_total]), and the proxy reads at most one line for each character of
    its connection ([Wire.relay_text_enough]).

    ** Not modelled

    - The native parts: C++ and CUDA workloads and transports, shell and PowerShell scripts; they are
      another language and appear as the commands and peers above.
    - The plotting scripts (plot_*.py): their results are pictures made by Matplotlib and pandas.
    - The vendored MNSIM simulator.  Of the unit tests, starting scripts as processes and parsing YAML text.
    - Argument parsing by argparse (choices and the checks after it are modelled), the text of
      tracebacks, time zones beyond one offset function, Unicode beyond what the text
      definitions of this file say. *)

From stdpp Require Export base gmap strings list pretty numbers fin_maps.
From Stdlib Require Export ZArith Lia Ascii.

#[global] Open Scope Z_scope.
#[global] Arguments String.append !_ _ / : simpl nomatch.

(** * Exceptions and results *)

(** The Python exception classes the modelled code raises or catches. *)
Inductive exn : Type :=
  | ValueError (msg : string)
  | RuntimeError (msg : string)
  | KeyError (key : string)
  | IndexError
  | TypeError
  | AttributeError
  | FileNotFoundError (msg : string)
  | TimeoutError (msg : string)
  | OSError (msg : string)
  | IncompleteReadError (got expected : Z)
  | UnicodeDecodeError (msg : string)
  | AssertionError
  | StopIteration
  | SystemExit (msg : string).

Inductive result (A : Type) : Type :=
  | Ok (a : A)
  | Err (e : exn).
Arguments Ok {A} a.
Arguments Err {A} e.

#[export] Instance result_ret : MRet result := λ A, @Ok A.
#[export] Instance result_bind : MBind result :=
  λ A B f m, match m with Ok a => f a | Err e => Err e end.
#[export] Instance result_fmap : FMap result :=
  λ A B f m, match m with Ok a => Ok (f a) | Err e => Err e end.

(** [raise_if b e] is the early exit [if b: raise e]. *)
Definition raise_if (b : bool) (e : exn) : result unit := if b then Err e else Ok ().

(** [o ?! e] reads a value that the code expects to be present and raises [e] otherwise. *)
Definition of_option {A} (e : exn) (o : option A) : result A :=
  match o with Some a => Ok a | None => Err e end.

Declare Scope py_scope.
Delimit Scope py_scope with py.
Notation "o '?!' e" := (of_option e o) (at level 60, no associativity) : py_scope.
#[global] Open Scope py_scope.

Definition is_ok {A} (r : result A) : bool := match r with Ok _ => true | Err _ => false end.

(** [for x in l: s = f(s, x)] with early exit on an exception. *)
Fixpoint fold_result {A S} (f : S → A → result S) (s : S) (l : list A) : result S :=
  match l with
  | [] => Ok s
  | x :: r => match f s x with Ok s' => fold_result f s' r | Err e => Err e end
  end.

Lemma bind_Ok {A B} (m : result A) (f : A → result B) b :
  (m ≫= f) = Ok b ↔ ∃ a, m = Ok a ∧ f a = Ok b.
Proof. destruct m; simpl; naive_solver. Qed.

Lemma raise_if_Ok b e u : raise_if b e = Ok u ↔ b = false.
Proof. destruct b, u; simpl; naive_solver. Qed.

Lemma raise_if_Err b e e' : raise_if b e = Err e' ↔ b = true ∧ e = e'.
Proof. destruct b; simpl; naive_solver. Qed.

Lemma of_option_Ok {A} e (o : option A) a : of_option e o = Ok a ↔ o = Some a.
Proof. destruct o; simpl; naive_solver. Qed.

Lemma bind_Err {A B} (m : result A) (f : A → result B) e :
  (m ≫= f) = Err e ↔ m = Err e ∨ ∃ a, m = Ok a ∧ f a = Err e.
Proof. destruct m; simpl; naive_solver. Qed.

Lemma of_option_Err {A} e (o : option A) e' : of_option e o = Err e' ↔ o = None ∧ e = e'.
Proof. destruct o; simpl; naive_solver. Qed.

Lemma fold_result_app {A S} (f : S → A → result S) s l1 l2 :
  fold_result f s (l1 ++ l2) = (s' ← fold_result f s l1; fold_result f s' l2).
Proof. revert s; induction l1 as [|x l1 IH]; intros s; simpl; [done|]. destruct (f s x); [apply IH|done]. Qed.

(** Induction principle: an invariant indexed by the processed prefix. *)
Lemma fold_result_inv {A S} (f : S → A → result S) (P : list A → S → Prop) l s s' :
  P [] s →
  (∀ done_ x st st', P done_ st → (∃ rest, l = done_ ++ x :: rest) → f st x = Ok st' → P (done_ ++ [x]) st') →
  fold_result f s l = Ok s' → P l s'.
Proof.
  intros H0 Hstep.
  enough (∀ pre suf st, l = pre ++ suf → P pre st → fold_result f st suf = Ok s' → P l s') as Haux
    by (intros Hl; exact (Haux [] l s eq_refl H0 Hl)).
  intros pre suf; revert pre; induction suf as [|x suf IH]; intros pre st Hl HP; simpl.
  - rewrite app_nil_r in Hl. subst pre. by intros [= <-].
  - destruct (f st x) as [st1|] eqn:Hf; [|done]. intros Hr.
    apply (IH (pre ++ [x]) st1); [by rewrite <- app_assoc| |done]. eauto.
Qed.

Lemma mapM_result_cons {A B} (f : A → result B) x l :
  mapM f (x :: l) = (y ← f x; k ← mapM f l; Ok (y :: k)).
Proof. done. Qed.

Lemma mapM_result_Ok {A B} (f : A → result B) l k :
  mapM f l = Ok k ↔ Forall2 (λ x y, f x = Ok y) l k.
Proof.
  split.
  - revert k; induction l as [|x l IH]; intros k; simpl.
    + intros [= <-]; constructor.
    + intros [y [Hy (k' & Hk & [= <-])%bind_Ok]]%bind_Ok. constructor; auto.
  - induction 1 as [|x y l k Hxy _ IH]; simpl; [done|]. by rewrite Hxy; simpl; rewrite IH.
Qed.

Lemma mapM_result_pure {A B} (f : A → result B) (g : A → B) l :
  (∀ x, x ∈ l → f x = Ok (g x)) → mapM f l = Ok (g <$> l).
Proof.
  intros H. apply mapM_result_Ok. induction l as [|x l IH]; simpl; constructor; set_solver.
Qed.

(** Break a successful chain of binds and guards into its steps. *)
Ltac result_step :=
  match goal with
  | H : (_ ≫= _) = Ok _ |- _ =>
      let a := fresh "a" in let Ha := fresh "Ha" in
      apply bind_Ok in H; destruct H as (a & Ha & H)
  | H : raise_if _ _ = Ok ?a |- _ => apply raise_if_Ok in H; try destruct a
  | H : of_option _ _ = Ok _ |- _ => apply of_option_Ok in H
  | H : Ok _ = Ok _ |- _ => injection H as H
  | H : Err _ = Ok _ |- _ => discriminate H
  | H : mret _ = Ok _ |- _ => injection H as H
  end.
Ltac result_inv := repeat result_step; subst.

(** * Characters and text *)

(** A Python [str] or [bytes] is a list of characters below 256. *)

Abbreviation ord := Ascii.nat_of_ascii.
Definition NL : ascii := "010"%char.
Definition nl : string := String NL "".

Definition is_digit (c : ascii) : bool := (48 <=? ord c)%nat && (ord c <=? 57)%nat.
Definition digit_val (c : ascii) : Z := Z.of_nat (ord c) - 48.
(** ASCII members of [str.isspace]. *)
Definition is_space (c : ascii) : bool :=
  ((9 <=? ord c)%nat && (ord c <=? 13)%nat) || ((28 <=? ord c)%nat && (ord c <=? 32)%nat).

Fixpoint str_forallb (p : ascii → bool) (s : string) : bool :=
  match s with EmptyString => true | String c s' => p c && str_forallb p s' end.

(** [str.isdigit] *)
Definition isdigit (s : string) : bool := negb (String.eqb s "") && str_forallb is_digit s.

Fixpoint str_length (s : string) : nat :=
  match s with EmptyString => 0%nat | String _ s' => S (str_length s') end.

Fixpoint str_drop (n : nat) (s : string) : string :=
  match n, s with
  | S n', String _ s' => str_drop n' s'
  | _, _ => s
  end.

Fixpoint str_take (n : nat) (s : string) : string :=
  match n, s with
  | S n', String c s' => String c (str_take n' s')
  | _, _ => EmptyString
  end.

(** [s.startswith(p)] and the text after the prefix. *)
Fixpoint strip_prefix (p s : string) : option string :=
  match p, s with
  | EmptyString, _ => Some s
  | String a p', String b s' => if Ascii.eqb a b then strip_prefix p' s' else None
  | String _ _, EmptyString => None
  end.
Definition startswith (p s : string) : bool := bool_decide (is_Some (strip_prefix p s)).

(** [p in s] *)
Fixpoint contains (p s : string) : bool :=
  startswith p s || match s with EmptyString => false | String _ s' => contains p s' end.

Fixpoint endswith (p s : string) : bool :=
  String.eqb p s || match s with EmptyString => false | String _ s' => endswith p s' end.

(** [s.replace(old, new, 1)] for a non-empty [old]. *)
Fixpoint replace_first (old new s : string) : string :=
  match strip_prefix old s with
  | Some rest => new +:+ rest
  | None => match s with
            | EmptyString => EmptyString
            | String c s' => String c (replace_first old new s')
            end
  end.

(** [s.replace(old, new)] for a non-empty [old]: left to right, without overlap.
    [skip] counts the characters of the current occurrence still to be dropped. *)
Fixpoint replace_all_go (old new : string) (skip : nat) (s : string) : string :=
  match s with
  | EmptyString => EmptyString
  | String c s' =>
      match skip with
      | S k => replace_all_go old new k s'
      | O => if startswith old s
             then new +:+ replace_all_go old new (str_length old - 1) s'
             else String c (replace_all_go old new 0 s')
      end
  end.
Definition replace_all (old new s : string) : string := replace_all_go old new 0 s.

(** [s.split(c)] for a one-character separator. *)
Fixpoint split_on (c : ascii) (s : string) : list string :=
  match s with
  | EmptyString => [EmptyString]
  | String a s' =>
      if Ascii.eqb a c then EmptyString :: split_on c s'
      else match split_on c s' with
           | [] => [String a EmptyString]
           | w :: ws => String a w :: ws
           end
  end.

(** [s.partition(c)]: the text before the first separator, and after it when there is one. *)
Fixpoint partition_on (c : ascii) (s : string) : string * option string :=
  match s with
  | EmptyString => (EmptyString, None)
  | String a s' =>
      if Ascii.eqb a c then (EmptyString, Some s')
      else let '(l, r) := partition_on c s' in (String a l, r)
  end.

(** [s.rpartition(c)] and [s.rsplit(c, 1)]: cut at the last separator. *)
Fixpoint rpartition_on (c : ascii) (s : string) : option (string * string) :=
  match s with
  | EmptyString => None
  | String a s' =>
      match rpartition_on c s' with
      | Some (l, r) => Some (String a l, r)
      | None => if Ascii.eqb a c then Some (EmptyString, s') else None
      end
  end.

(** [s.rsplit(c, 1)[-1]] *)
Definition after_last (c : ascii) (s : string) : string :=
  match rpartition_on c s with Some (_, r) => r | None => s end.

(** [sep.join(l)] *)
Fixpoint join (sep : string) (l : list string) : string :=
  match l with
  | [] => EmptyString
  | [w] => w
  | w :: ws => w +:+ sep +:+ join sep ws
  end.

Fixpoint lstrip (s : string) : string :=
  match s with
  | EmptyString => EmptyString
  | String c s' => if is_space c then lstrip s' else s
  end.

(** [s.rstrip()] drops the longest suffix of characters satisfying [p]. *)
Fixpoint rstrip_by (p : ascii → bool) (s : string) : string :=
  match s with
  | EmptyString => EmptyString
  | String c s' => match rstrip_by p s' with
                   | EmptyString => if p c then EmptyString else String c EmptyString
                   | r => String c r
                   end
  end.
Definition rstrip (s : string) : string := rstrip_by is_space s.
Definition strip (s : string) : string := rstrip (lstrip s).

(** [s.splitlines()] on the ASCII line boundaries; a carriage return followed by a line feed is one boundary. *)
Definition is_line_break (c : ascii) : bool :=
  ((10 <=? ord c)%nat && (ord c <=? 13)%nat) || ((28 <=? ord c)%nat && (ord c <=? 30)%nat).

Fixpoint splitlines_go (cur : string) (after_cr : bool) (s : string) : list string :=
  match s with
  | EmptyString => if String.eqb cur "" then [] else [cur]
  | String c s' =>
      if after_cr && Ascii.eqb c NL then splitlines_go "" false s'
      else if is_line_break c then cur :: splitlines_go "" (ord c =? 13)%nat s'
      else splitlines_go (cur +:+ String c "") false s'
  end.
Definition splitlines (s : string) : list string := splitlines_go "" false s.

(** * Integers as text *)

(** [int(text)] on ASCII text: optional surrounding white space, an optional sign,
    digits with single underscores between them. *)
Fixpoint parse_digits (acc : Z) (last_digit : bool) (s : string) : option Z :=
  match s with
  | EmptyString => if last_digit then Some acc else None
  | String c s' =>
      if is_digit c then parse_digits (10 * acc + digit_val c) true s'
      else if last_digit && Ascii.eqb c "_"%char then parse_digits acc false s'
      else None
  end.

Definition py_int (text : string) : option Z :=
  match strip text with
  | String c s' =>
      if Ascii.eqb c "-"%char then Z.opp <$> parse_digits 0 false s'
      else if Ascii.eqb c "+"%char then parse_digits 0 false s'
      else parse_digits 0 false (String c s')
  | EmptyString => None
  end.

Definition hex_digit (n : nat) : ascii :=
  Ascii.ascii_of_nat (if (n <? 10)%nat then (48 + n)%nat else (87 + n)%nat).

(** [repr(s)] of an ASCII text. *)
Definition DQUOTE : ascii := "034"%char.

Fixpoint repr_chars (quote : ascii) (s : string) : string :=
  match s with
  | EmptyString => EmptyString
  | String c s' =>
      (if Ascii.eqb c quote || Ascii.eqb c "\"%char then String "\"%char (String c "")
       else if (ord c =? 10)%nat then "\n"
       else if (ord c =? 13)%nat then "\r"
       else if (ord c =? 9)%nat then "\t"
       else if (ord c <? 32)%nat || (ord c =? 127)%nat
            then "\x" +:+ String (hex_digit (ord c / 16)) (String (hex_digit (ord c mod 16)) "")
       else String c "") +:+ repr_chars quote s'
  end.

Definition repr_str (s : string) : string :=
  let quote := if contains "'" s && negb (contains (String DQUOTE "") s) then DQUOTE else "'"%char in
  String quote "" +:+ repr_chars quote s +:+ String quote "".

(** [int(text)], raising as Python does: the message quotes at most 200 characters of the
    literal's [repr]. *)
Definition py_int_exn (text : string) : result Z :=
  py_int text ?! ValueError ("invalid literal for int() with base 10: " +:+ str_take 200 (repr_str text)).

(** [str(z)] is [pretty z]. *)
Definition str_of_Z (z : Z) : string := pretty z.

(** [str(error)], as the handlers that report an error to their client print it. *)
Definition exn_str (e : exn) : string :=
  match e with
  | ValueError m | RuntimeError m | FileNotFoundError m | TimeoutError m | OSError m
  | UnicodeDecodeError m | SystemExit m => m
  | KeyError k => "'" +:+ k +:+ "'"
  | IncompleteReadError got expected =>
      str_of_Z got +:+ " bytes read on a total of " +:+ str_of_Z expected +:+ " expected bytes"
  | IndexError => "list index out of range"
  | TypeError | AttributeError | AssertionError | StopIteration => ""
  end.

(** ** Byte streams *)

(** The bytes a peer has sent, up to its end of file.  [StreamReader.readline] returns the
    text up to and including the first line feed, or everything that is left; a line longer
    than the reader's limit of 65536 bytes raises [ValueError]. *)
Definition STREAM_LIMIT : nat := Z.to_nat 65536.

Fixpoint cut_line (s : string) : string * option string :=
  match s with
  | EmptyString => (EmptyString, None)
  | String c s' =>
      if Ascii.eqb c NL then (nl, Some s')
      else let '(l, r) := cut_line s' in (String c l, r)
  end.

Definition readline (s : string) : result (string * string) :=
  match cut_line s with
  | (line, Some rest) =>
      _ ← raise_if (STREAM_LIMIT <? str_length line - 1)%nat
            (ValueError "Separator is found, but chunk is longer than limit");
      Ok (line, rest)
  | (line, None) =>
      _ ← raise_if (STREAM_LIMIT <? str_length line)%nat
            (ValueError "Separator is not found, and chunk exceed the limit");
      Ok (line, EmptyString)
  end.

(** [StreamReader.readexactly(n)] for [0 <= n]. *)
Definition readexactly (n : Z) (s : string) : result (string * string) :=
  let k := Z.to_nat n in
  _ ← raise_if (str_length s <? k)%nat (IncompleteReadError (Z.of_nat (str_length s)) n);
  Ok (str_take k s, str_drop k s).

(** [line.decode("ascii")]: the position of the first byte above 127. *)
Fixpoint first_non_ascii (i : Z) (s : string) : option (Z * ascii) :=
  match s with
  | EmptyString => None
  | String c s' => if (127 <? ord c)%nat then Some (i, c) else first_non_ascii (i + 1) s'
  end.

Definition decode_ascii (s : string) : result string :=
  match first_non_ascii 0 s with
  | None => Ok s
  | Some (i, c) => Err (UnicodeDecodeError
      ("'ascii' codec can't decode byte 0x"
       +:+ String (hex_digit (ord c / 16)) (String (hex_digit (ord c mod 16)) "")
       +:+ " in position " +:+ str_of_Z i +:+ ": ordinal not in range(128)"))
  end.

Lemma str_app_nil_r s : s +:+ "" = s.
Proof. induction s as [|c s IH]; simpl; [done|]. by f_equal. Qed.

Lemma str_app_assoc s1 s2 s3 : (s1 +:+ s2) +:+ s3 = s1 +:+ (s2 +:+ s3).
Proof. induction s1 as [|c s1 IH]; simpl; [done|]. by f_equal. Qed.

Lemma str_length_app s1 s2 : str_length (s1 +:+ s2) = (str_length s1 + str_length s2)%nat.
Proof. induction s1; simpl; lia. Qed.

Lemma str_forallb_app p s1 s2 : str_forallb p (s1 +:+ s2) = str_forallb p s1 && str_forallb p s2.
Proof. induction s1 as [|c s1 IH]; simpl; [done|]. by rewrite IH, andb_assoc. Qed.

Lemma str_forallb_impl (p q : ascii → bool) s :
  (∀ c, p c = true → q c = true) → str_forallb p s = true → str_forallb q s = true.
Proof.
  intros H. induction s as [|c s IH]; simpl; [done|]. rewrite !andb_true_iff. intros [Hc Hs]; auto.
Qed.

Lemma pretty_N_char_digit x : (x < 10)%N → is_digit (pretty_N_char x) = true.
Proof.
  intros Hx.
  assert (x = 0 ∨ x = 1 ∨ x = 2 ∨ x = 3 ∨ x = 4 ∨ x = 5 ∨ x = 6 ∨ x = 7 ∨ x = 8 ∨ x = 9)%N by lia.
  by destruct_or!; subst.
Qed.

Lemma pretty_N_char_val x : (x < 10)%N → digit_val (pretty_N_char x) = Z.of_N x.
Proof.
  intros Hx.
  assert (x = 0 ∨ x = 1 ∨ x = 2 ∨ x = 3 ∨ x = 4 ∨ x = 5 ∨ x = 6 ∨ x = 7 ∨ x = 8 ∨ x = 9)%N by lia.
  by destruct_or!; subst.
Qed.

Lemma pretty_N_go_digits x s :
  str_forallb is_digit s = true → str_forallb is_digit (pretty_N_go x s) = true.
Proof.
  revert s. induction (N.lt_wf_0 x) as [x _ IH]; intros s Hs.
  assert (x = 0 ∨ 0 < x)%N as [->|Hx] by lia.
  - by rewrite pretty_N_go_0.
  - rewrite pretty_N_go_step by done. apply IH; [apply N.div_lt; lia|].
    simpl. rewrite pretty_N_char_digit by (apply N.mod_lt; lia). done.
Qed.

Lemma pretty_N_go_parse x s : ∃ k, ∀ acc b,
  parse_digits acc b (pretty_N_go x s) =
  parse_digits (acc * 10 ^ Z.of_nat k + Z.of_N x) (b || (0 <? x)%N) s.
Proof.
  revert s. induction (N.lt_wf_0 x) as [x _ IH]; intros s.
  assert (x = 0 ∨ 0 < x)%N as [->|Hx] by lia.
  - exists 0%nat. intros acc b. rewrite pretty_N_go_0. simpl. rewrite orb_false_r. f_equal. lia.
  - rewrite pretty_N_go_step by done.
    destruct (IH (x `div` 10)%N) with (s := String (pretty_N_char (x `mod` 10)) s) as [k Hk].
    { apply N.div_lt; lia. }
    exists (S k). intros acc b. rewrite Hk. simpl.
    rewrite pretty_N_char_digit, pretty_N_char_val by (apply N.mod_lt; lia).
    assert (Hd : Z.of_N x = 10 * Z.of_N (x / 10) + Z.of_N (x `mod` 10)).
    { pose proof (N.div_mod x 10). lia. }
    replace (b || (0 <? x)%N) with true by (symmetry; rewrite (proj2 (N.ltb_lt 0 x)), orb_true_r; done).
    f_equal. rewrite Hd. replace (Z.of_nat (S k)) with (Z.of_nat k + 1) by lia.
    rewrite Z.pow_add_r by lia. lia.
Qed.

Lemma pretty_N_digits (x : N) : str_forallb is_digit (pretty x) = true.
Proof. unfold pretty, pretty_N. case_decide; [done|]. by apply pretty_N_go_digits. Qed.

Lemma pretty_N_parse (x : N) : parse_digits 0 false (pretty x) = Some (Z.of_N x).
Proof.
  unfold pretty, pretty_N. case_decide; [by subst|].
  destruct (pretty_N_go_parse x "") as [k Hk]. rewrite Hk.
  replace (0 <? x)%N with true by (symmetry; apply N.ltb_lt; lia). simpl. f_equal.
Qed.

Lemma pretty_N_cons (x : N) : ∃ c s, pretty x = String c s ∧ is_digit c = true.
Proof.
  pose proof (pretty_N_digits x) as Hd. pose proof (pretty_N_parse x) as Hp.
  destruct (pretty x) as [|c s]; [done|]. simpl in Hd. apply andb_true_iff in Hd. naive_solver.
Qed.

Definition is_int_char (c : ascii) : bool := is_digit c || Ascii.eqb c "-"%char.

Lemma is_digit_range c : is_digit c = true ↔ (48 ≤ ord c ≤ 57)%nat.
Proof. unfold is_digit. rewrite andb_true_iff, !Nat.leb_le. done. Qed.

Lemma int_char_no_space c : is_int_char c = true → is_space c = false.
Proof.
  unfold is_int_char, is_space. rewrite orb_true_iff, is_digit_range.
  intros [H|H%Ascii.eqb_eq]; [|by subst].
  apply orb_false_iff; split; apply andb_false_iff; rewrite !Nat.leb_gt; lia.
Qed.

Lemma strip_no_space s : str_forallb (λ c, negb (is_space c)) s = true → strip s = s.
Proof.
  intros H. unfold strip.
  assert (lstrip s = s) as ->.
  { destruct s as [|c s]; simpl in *; [done|]. apply andb_true_iff in H as [Hc _].
    destruct (is_space c); done. }
  unfold rstrip. induction s as [|c s IH]; simpl in *; [done|].
  apply andb_true_iff in H as [Hc H]. rewrite IH by done.
  destruct s; [|done]. by destruct (is_space c).
Qed.

Lemma pretty_Z_cases (z : Z) :
  (0 ≤ z ∧ str_of_Z z = pretty (Z.to_N z)) ∨
  (z < 0 ∧ str_of_Z z = String "-"%char (pretty (Z.to_N (- z)))).
Proof. unfold str_of_Z. destruct z; [left|left|right]; split; try lia; done. Qed.

Lemma str_of_Z_int_chars z : str_forallb is_int_char (str_of_Z z) = true.
Proof.
  assert (Hd : ∀ n : N, str_forallb is_int_char (pretty n) = true).
  { intros n. eapply str_forallb_impl; [|apply pretty_N_digits].
    intros c Hc. unfold is_int_char. by rewrite Hc. }
  destruct (pretty_Z_cases z) as [[_ ->]|[_ ->]]; simpl; auto.
Qed.

Lemma py_int_str z : py_int (str_of_Z z) = Some z.
Proof.
  unfold py_int. rewrite strip_no_space.
  2:{ eapply str_forallb_impl; [|apply str_of_Z_int_chars].
      intros c Hc. by rewrite int_char_no_space. }
  destruct (pretty_Z_cases z) as [[Hz ->]|[Hz ->]].
  - destruct (pretty_N_cons (Z.to_N z)) as (c & s & Hcs & Hc).
    pose proof (pretty_N_parse (Z.to_N z)) as Hp. rewrite Hcs in Hp |- *.
    assert (Ascii.eqb c "-"%char = false ∧ Ascii.eqb c "+"%char = false) as [-> ->].
    { apply is_digit_range in Hc. split; apply Ascii.eqb_neq; intros ->; vm_compute in Hc; lia. }
    rewrite Hp. f_equal. lia.
  - simpl. rewrite pretty_N_parse. simpl. f_equal. lia.
Qed.

Lemma py_int_exn_str z : py_int_exn (str_of_Z z) = Ok z.
Proof. unfold py_int_exn. by rewrite py_int_str. Qed.

Lemma str_of_Z_inj z1 z2 : str_of_Z z1 = str_of_Z z2 → z1 = z2.
Proof. intros H. pose proof (py_int_str z1). pose proof (py_int_str z2). congruence. Qed.

Lemma str_of_Z_nonempty z : str_of_Z z ≠ "".
Proof. intros H. pose proof (py_int_str z) as Hp. rewrite H in Hp. done. Qed.

Lemma str_take_app s1 s2 : str_take (str_length s1) (s1 +:+ s2) = s1.
Proof. induction s1 as [|c s1 IH]; simpl; [by destruct s2|]. by rewrite IH. Qed.

Lemma str_drop_app s1 s2 : str_drop (str_length s1) (s1 +:+ s2) = s2.
Proof. induction s1 as [|c s1 IH]; simpl; [by destruct s2|done]. Qed.

Lemma str_length_take n s : (n ≤ str_length s)%nat → str_length (str_take n s) = n.
Proof. revert s; induction n; intros [|c s]; simpl; intros; try lia. rewrite IHn; lia. Qed.

Lemma readexactly_app s1 s2 : readexactly (Z.of_nat (str_length s1)) (s1 +:+ s2) = Ok (s1, s2).
Proof.
  unfold readexactly. rewrite Nat2Z.id, str_length_app.
  replace (_ <? _)%nat with false by (symmetry; apply Nat.ltb_ge; lia). simpl.
  by rewrite str_take_app, str_drop_app.
Qed.

Lemma cut_line_app s1 s2 :
  str_forallb (λ c, negb (Ascii.eqb c NL)) s1 = true →
  cut_line (s1 +:+ nl +:+ s2) = (s1 +:+ nl, Some s2).
Proof.
  induction s1 as [|c s1 IH]; [done|].
  cbn [cut_line String.append str_forallb]. intros [Hc H]%andb_true_iff.
  destruct (Ascii.eqb c NL); [done|]. by rewrite IH.
Qed.

Lemma readline_app s1 s2 :
  str_forallb (λ c, negb (Ascii.eqb c NL)) s1 = true → (str_length s1 ≤ STREAM_LIMIT)%nat →
  readline (s1 +:+ nl +:+ s2) = Ok (s1 +:+ nl, s2).
Proof.
  intros H Hl. unfold readline. rewrite cut_line_app by done. rewrite str_length_app.
  change (str_length nl) with 1%nat. rewrite Nat.add_sub.
  by replace (_ <? _)%nat with false by (symmetry; by apply Nat.ltb_ge).
Qed.

Lemma decode_ascii_Ok s : str_forallb (λ c, (ord c <=? 127)%nat) s = true → decode_ascii s = Ok s.
Proof.
  unfold decode_ascii. intros H.
  assert (∀ i, first_non_ascii i s = None) as ->; [|done].
  induction s as [|c s IH]; intros i; simpl in *; [done|]. apply andb_true_iff in H as [Hc H].
  apply Nat.leb_le in Hc. replace (127 <? ord c)%nat with false by (symmetry; by apply Nat.ltb_ge). auto.
Qed.

(** ** Cutting and joining *)

(** No character of [s] is [c]. *)
Definition lacks (c : ascii) (s : string) : bool := str_forallb (λ a, negb (Ascii.eqb a c)) s.

Lemma str_take_drop n s : str_take n s +:+ str_drop n s = s.
Proof. revert s; induction n as [|n IH]; intros [|c s]; simpl; try done. by rewrite IH. Qed.

Lemma readexactly_Ok n s a b :
  0 ≤ n → readexactly n s = Ok (a, b) → s = a +:+ b ∧ Z.of_nat (str_length a) = n.
Proof.
  unfold readexactly. intros Hn H. result_inv. apply Nat.ltb_ge in Ha.
  rewrite str_take_drop. split; [done|]. rewrite str_length_take by done. lia.
Qed.

Lemma split_on_cons c s1 s2 : lacks c s1 = true → split_on c (s1 +:+ String c s2) = s1 :: split_on c s2.
Proof.
  unfold lacks. induction s1 as [|a s1 IH]; simpl; [by rewrite Ascii.eqb_refl|].
  intros [Ha H]%andb_true_iff. destruct (Ascii.eqb a c); [done|]. by rewrite IH.
Qed.

Lemma split_on_lacks c s : lacks c s = true → split_on c s = [s].
Proof.
  unfold lacks. induction s as [|a s IH]; simpl; [done|]. intros [Ha H]%andb_true_iff.
  destruct (Ascii.eqb a c); [done|]. by rewrite IH.
Qed.

Lemma split_on_nonnil c s : split_on c s ≠ [].
Proof. destruct s as [|a s]; simpl; [done|]. destruct (Ascii.eqb a c); [done|]. by destruct (split_on c s). Qed.

Lemma join_cons sep w ws : ws ≠ [] → join sep (w :: ws) = w +:+ sep +:+ join sep ws.
Proof. by destruct ws. Qed.

Lemma join_split_on c s : join (String c "") (split_on c s) = s.
Proof.
  induction s as [|a s IH]; [done|]. cbn [split_on].
  destruct (Ascii.eqb_spec a c) as [->|Hne].
  - rewrite join_cons by apply split_on_nonnil. rewrite IH. done.
  - pose proof (split_on_nonnil c s) as Hn. destruct (split_on c s) as [|w ws]; [done|].
    destruct ws as [|w' ws]; simpl in *; by rewrite <- IH.
Qed.

Lemma rpartition_on_lacks c s : lacks c s = true → rpartition_on c s = None.
Proof.
  unfold lacks. induction s as [|a s IH]; simpl; [done|]. intros [Ha H]%andb_true_iff.
  rewrite IH by done. by destruct (Ascii.eqb a c).
Qed.

Lemma rpartition_on_app c s1 s2 : lacks c s2 = true → rpartition_on c (s1 +:+ String c s2) = Some (s1, s2).
Proof.
  intros H. induction s1 as [|a s1 IH]; simpl; [|by rewrite IH].
  by rewrite rpartition_on_lacks, Ascii.eqb_refl.
Qed.

Lemma after_last_lacks c s : lacks c s = true → after_last c s = s.
Proof. intros. unfold after_last. by rewrite rpartition_on_lacks. Qed.

Lemma after_last_app c s1 s2 : lacks c s2 = true → after_last c (s1 +:+ String c s2) = s2.
Proof. intros. unfold after_last. by rewrite rpartition_on_app. Qed.

Lemma rstrip_by_last p c s : p c = true → rstrip_by p (s +:+ String c "") = rstrip_by p s.
Proof. intros Hc. induction s as [|a s IH]; simpl; [by rewrite Hc|]. by rewrite IH. Qed.

Lemma rstrip_by_none p s : str_forallb (λ a, negb (p a)) s = true → rstrip_by p s = s.
Proof.
  induction s as [|a s IH]; simpl; [done|]. intros [Ha H]%andb_true_iff. rewrite IH by done.
  destruct s; [|done]. by destruct (p a).
Qed.

Lemma strip_prefix_Some p s r : strip_prefix p s = Some r ↔ s = p +:+ r.
Proof.
  revert s. induction p as [|a p IH]; intros s; simpl; [naive_solver|].
  destruct s as [|b s]; [done|]. destruct (Ascii.eqb_spec a b) as [->|Hne].
  - rewrite IH. naive_solver.
  - naive_solver.
Qed.

Lemma str_of_Z_lacks c z : is_int_char c = false → lacks c (str_of_Z z) = true.
Proof.
  intros Hc. eapply str_forallb_impl; [|apply str_of_Z_int_chars].
  intros a Ha. simpl. destruct (Ascii.eqb_spec a c); [congruence|done].
Qed.

Lemma str_app_cons_inj (c : ascii) s1 s2 t1 t2 :
  lacks c s1 = true → lacks c s2 = true →
  s1 +:+ String c t1 = s2 +:+ String c t2 → s1 = s2 ∧ t1 = t2.
Proof.
  unfold lacks. revert s2. induction s1 as [|a s1 IH]; intros [|b s2] H1 H2; simpl; intros [=]; subst; try done.
  - simpl in H2. by rewrite Ascii.eqb_refl in H2.
  - simpl in H1. by rewrite Ascii.eqb_refl in H1.
  - simpl in H1, H2. apply andb_true_iff in H1 as [_ ?], H2 as [_ ?].
    destruct (IH s2) as [-> ->]; done.
Qed.

Lemma split_on_sep c s1 s2 :
  lacks c s1 = true → split_on c (s1 +:+ String c "" +:+ s2) = s1 :: split_on c s2.
Proof. apply split_on_cons. Qed.

Lemma split_on_lacks_elem c s w : w ∈ split_on c s → lacks c w = true.
Proof.
  revert w. induction s as [|a s IH]; intros w; cbn [split_on].
  - by intros ->%list_elem_of_singleton.
  - destruct (Ascii.eqb a c) eqn:E.
    + intros [->|Hw]%elem_of_cons; [done|auto].
    + destruct (split_on c s) as [|w' ws] eqn:Es; [by destruct (split_on_nonnil c s)|].
      intros [->|Hw]%elem_of_cons; [|apply IH; by apply list_elem_of_further].
      unfold lacks. cbn [str_forallb]. rewrite E. cbn [negb andb]. apply IH, list_elem_of_here.
Qed.

Lemma lacks_contained c s w : lacks c s = true → ∀ d, w ∈ split_on d s → lacks c w = true.
Proof.
  intros H d. revert w H. induction s as [|a s IH]; intros w H; cbn [split_on].
  - by intros ->%list_elem_of_singleton.
  - unfold lacks in H. cbn [str_forallb] in H. apply andb_true_iff in H as [Ha H].
    destruct (Ascii.eqb a d).
    + intros [->|Hw]%elem_of_cons; [done|auto].
    + destruct (split_on d s) as [|w' ws] eqn:Es; [by destruct (split_on_nonnil d s)|].
      intros [->|Hw]%elem_of_cons; [|apply IH; [done|by apply list_elem_of_further]].
      unfold lacks. cbn [str_forallb]. rewrite Ha. cbn [andb]. apply IH; [done|apply list_elem_of_here].
Qed.

(** * Lists *)

(** [enumerate(l)] *)
Fixpoint enumerate_from {A} (i : Z) (l : list A) : list (Z * A) :=
  match l with [] => [] | x :: r => (i, x) :: enumerate_from (i + 1) r end.
Definition enumerate {A} (l : list A) : list (Z * A) := enumerate_from 0 l.

Definition zlen {A} (l : list A) : Z := Z.of_nat (length l).

Lemma enumerate_from_lookup {A} i (l : list A) k :
  enumerate_from i l !! k = (λ x, (i + Z.of_nat k, x)) <$> l !! k.
Proof.
  revert i k; induction l as [|x l IH]; intros i [|k]; simpl; [done|done|f_equal; f_equal; lia|].
  rewrite IH. destruct (l !! k); simpl; [|done]. do 2 f_equal. lia.
Qed.

Lemma length_enumerate_from {A} i (l : list A) : length (enumerate_from i l) = length l.
Proof. revert i; induction l; intros i; simpl; auto. Qed.

Lemma enumerate_from_fst {A} i (l : list A) : (enumerate_from i l).*1 = seqZ i (zlen l).
Proof.
  revert i; induction l as [|x l IH]; intros i; simpl; [done|].
  rewrite IH. unfold zlen. simpl. rewrite (seqZ_cons i) by lia. f_equal. f_equal; lia.
Qed.

Lemma enumerate_from_snd {A} i (l : list A) : (enumerate_from i l).*2 = l.
Proof. revert i; induction l as [|x l IH]; intros i; simpl; [done|]. by rewrite IH. Qed.

Lemma elem_of_enumerate {A} (l : list A) i x :
  (i, x) ∈ enumerate l ↔ 0 ≤ i ∧ l !! Z.to_nat i = Some x.
Proof.
  unfold enumerate. rewrite list_elem_of_lookup. setoid_rewrite enumerate_from_lookup. split.
  - intros [k Hk]. destruct (l !! k) as [y|] eqn:Hy; simpl in Hk; [|done].
    injection Hk as <- <-. split; [lia|]. rewrite <- Hy. f_equal. lia.
  - intros [Hi Hx]. exists (Z.to_nat i). rewrite Hx. simpl. do 2 f_equal. lia.
Qed.

(** Stable insertion sort, [sorted(l, key=...)] with [leb] comparing the keys. *)
Fixpoint insert_sorted {A} (leb : A → A → bool) (x : A) (l : list A) : list A :=
  match l with
  | [] => [x]
  | y :: r => if leb x y then x :: l else y :: insert_sorted leb x r
  end.
Definition py_sorted {A} (leb : A → A → bool) (l : list A) : list A :=
  foldr (insert_sorted leb) [] l.

Lemma insert_sorted_perm {A} (leb : A → A → bool) x l : insert_sorted leb x l ≡ₚ x :: l.
Proof.
  induction l as [|y l IH]; simpl; [done|]. destruct (leb x y); [done|].
  rewrite IH. apply perm_swap.
Qed.

Lemma py_sorted_perm {A} (leb : A → A → bool) l : py_sorted leb l ≡ₚ l.
Proof. induction l as [|x l IH]; simpl; [done|]. by rewrite insert_sorted_perm, IH. Qed.

Section sorted.
Context {A : Type} (leb : A → A → bool).
Context (leb_total : ∀ x y, leb x y = true ∨ leb y x = true).
Context (leb_trans : ∀ x y z, leb x y = true → leb y z = true → leb x z = true).

(** Every element is below all later ones. *)
Definition ordered (l : list A) : Prop :=
  ∀ i j x y, (i < j)%nat → l !! i = Some x → l !! j = Some y → leb x y = true.

Lemma ordered_cons x l : ordered (x :: l) ↔ (∀ y, y ∈ l → leb x y = true) ∧ ordered l.
Proof using Type.
  split.
  - intros H. split.
    + intros y [k Hk]%list_elem_of_lookup. apply (H 0%nat (S k)); [lia|done|done].
    + intros i j a b Hij Ha Hb. apply (H (S i) (S j)); [lia|done|done].
  - intros [Hx Hl] [|i] [|j] a b Hij Ha Hb; simpl in *; try lia.
    + injection Ha as <-. apply Hx, list_elem_of_lookup; eauto.
    + apply (Hl i j); [lia|done|done].
Qed.

Lemma insert_sorted_ordered x l : ordered l → ordered (insert_sorted leb x l).
Proof using leb_total leb_trans.
  induction l as [|y l IH]; simpl.
  - intros _. apply ordered_cons. split; [set_solver|intros ????; set_solver].
  - intros [Hy Hl]%ordered_cons. destruct (leb x y) eqn:Hxy.
    + apply ordered_cons. split; [|by apply ordered_cons].
      intros z [->|Hz]%elem_of_cons; [done|]. eauto.
    + assert (leb y x = true) by (destruct (leb_total x y); congruence).
      apply ordered_cons. split; [|auto].
      intros z Hz. rewrite insert_sorted_perm in Hz. apply elem_of_cons in Hz as [->|Hz]; auto.
Qed.

Lemma py_sorted_ordered l : ordered (py_sorted leb l).
Proof using leb_total leb_trans.
  induction l as [|x l IH]; simpl; [intros ????; set_solver|]. by apply insert_sorted_ordered.
Qed.
End sorted.

Lemma NoDup_fmap_elem_inj {A B} (f : A → B) l x y : NoDup (f <$> l) → x ∈ l → y ∈ l → f x = f y → x = y.
Proof.
  intros Hnd [i Hi]%list_elem_of_lookup [j Hj]%list_elem_of_lookup Hf.
  assert (i = j) as ->; [|congruence].
  apply (NoDup_lookup (f <$> l) i j (f x)); [done| |]; rewrite list_lookup_fmap; [by rewrite Hi|by rewrite Hj, Hf].
Qed.

(** Sums over lists of integers. *)
Definition zsum (l : list Z) : Z := foldr Z.add 0 l.

Lemma zsum_cons x l : zsum (x :: l) = x + zsum l.
Proof. done. Qed.

Lemma zsum_app l1 l2 : zsum (l1 ++ l2) = zsum l1 + zsum l2.
Proof. induction l1; simpl; lia. Qed.

#[export] Instance zsum_perm : Proper ((≡ₚ) ==> (=)) zsum.
Proof. induction 1; simpl; lia. Qed.

Lemma zsum_nonneg l : (∀ x, x ∈ l → 0 ≤ x) → 0 ≤ zsum l.
Proof.
  induction l as [|x l IH]; simpl; [lia|]. intros H.
  assert (0 ≤ x) by (apply H; set_solver). assert (0 ≤ zsum l) by (apply IH; set_solver). lia.
Qed.

Lemma zsum_le_pointwise {A} (f g : A → Z) l :
  (∀ x, x ∈ l → f x ≤ g x) → zsum (f <$> l) ≤ zsum (g <$> l).
Proof.
  induction l as [|x l IH]; csimpl; [lia|]. intros H.
  assert (f x ≤ g x) by (apply H; set_solver).
  assert (zsum (f <$> l) ≤ zsum (g <$> l)) by (apply IH; set_solver). lia.
Qed.

(** [count p l]: how many elements satisfy [p]. *)
Definition count {A} (p : A → bool) (l : list A) : Z := zsum ((λ x, if p x then 1 else 0) <$> l).

Lemma count_nil {A} (p : A → bool) : count p [] = 0.
Proof. done. Qed.

Lemma count_cons {A} (p : A → bool) x l : count p (x :: l) = (if p x then 1 else 0) + count p l.
Proof. done. Qed.

Lemma count_app {A} (p : A → bool) l1 l2 : count p (l1 ++ l2) = count p l1 + count p l2.
Proof. unfold count. by rewrite fmap_app, zsum_app. Qed.

Lemma count_nonneg {A} (p : A → bool) l : 0 ≤ count p l.
Proof. apply zsum_nonneg. intros x (y & -> & _)%list_elem_of_fmap. by destruct (p y). Qed.

Lemma count_filter {A} (p : A → bool) l : count p l = zlen (filter (λ x, p x = true) l).
Proof.
  unfold zlen. induction l as [|x l IH]; [done|]. rewrite count_cons, IH.
  destruct (p x) eqn:Hp; [rewrite filter_cons_True by done|rewrite filter_cons_False by congruence];
    simpl; lia.
Qed.

#[export] Instance count_perm {A} (p : A → bool) : Proper ((≡ₚ) ==> (=)) (count p).
Proof. intros l1 l2 Hl. unfold count. by rewrite Hl. Qed.

Lemma count_fmap {A B} (f : A → B) (p : B → bool) l : count p (f <$> l) = count (p ∘ f) l.
Proof. unfold count. by rewrite <- list_fmap_compose. Qed.

Lemma count_all {A} (p : A → bool) l : (∀ x, x ∈ l → p x = true) → count p l = zlen l.
Proof.
  unfold zlen. induction l as [|x l IH]; intros H; [done|]. rewrite count_cons, H, IH by set_solver.
  simpl. lia.
Qed.

Lemma count_none {A} (p : A → bool) l : (∀ x, x ∈ l → p x = false) → count p l = 0.
Proof.
  induction l as [|x l IH]; intros H; [done|]. rewrite count_cons, H, IH by set_solver. done.
Qed.

Lemma count_impl {A} (p q : A → bool) l :
  (∀ x, x ∈ l → p x = true → q x = true) → count p l ≤ count q l.
Proof.
  intros H. unfold count. apply zsum_le_pointwise. intros x Hx. specialize (H x Hx).
  destruct (p x), (q x); naive_solver lia.
Qed.

Lemma count_pos {A} (p : A → bool) x l : x ∈ l → p x = true → 0 < count p l.
Proof.
  intros [l' ->]%elem_of_Permutation Hp. rewrite count_cons, Hp. pose proof (count_nonneg p l'). lia.
Qed.

Lemma count_ext {A} (p q : A → bool) l : (∀ x, x ∈ l → p x = q x) → count p l = count q l.
Proof.
  induction l as [|x l IH]; intros H; [done|]. rewrite !count_cons, H, IH by set_solver. done.
Qed.

Lemma zlen_nonneg {A} (l : list A) : 0 ≤ zlen l.
Proof. unfold zlen. lia. Qed.

Lemma zlen_cons {A} (x : A) l : zlen (x :: l) = 1 + zlen l.
Proof. unfold zlen. simpl. lia. Qed.

Lemma zlen_app {A} (l1 l2 : list A) : zlen (l1 ++ l2) = zlen l1 + zlen l2.
Proof. unfold zlen. rewrite length_app. lia. Qed.

#[export] Instance zlen_perm {A} : Proper ((≡ₚ) ==> (=)) (@zlen A).
Proof. intros l1 l2 Hl. unfold zlen. by rewrite Hl. Qed.

Lemma zlen_seqZ a n : 0 ≤ n → zlen (seqZ a n) = n.
Proof. intros. unfold zlen. rewrite length_seqZ. lia. Qed.

(** Cutting [0, n * k) into blocks of [k]: every block has [k] elements. *)
Lemma count_div_block n k s : 0 < k → 0 ≤ s < n → count (λ i, i / k =? s) (seqZ 0 (n * k)) = k.
Proof.
  intros Hk Hs.
  replace (n * k) with (s * k + (k + (n - s - 1) * k)) by lia.
  rewrite seqZ_app by nia. rewrite (seqZ_app _ k) by nia. rewrite !count_app.
  rewrite (count_none _ (seqZ 0 (s * k))), (count_all _ (seqZ (0 + s * k) k)), (count_none _ (seqZ _ ((n - s - 1) * k))).
  - rewrite zlen_seqZ by lia. lia.
  - intros x Hx%elem_of_seqZ. apply Z.eqb_neq. intros Hd.
    assert (k * (x / k) ≤ x < k * (x / k) + k) by (pose proof (Z.div_mod x k); pose proof (Z.mod_pos_bound x k); lia).
    nia.
  - intros x Hx%elem_of_seqZ. apply Z.eqb_eq. symmetry. apply (Z.div_unique _ _ _ (x - s * k)); lia.
  - intros x Hx%elem_of_seqZ. apply Z.eqb_neq. intros Hd.
    assert (k * (x / k) ≤ x < k * (x / k) + k) by (pose proof (Z.div_mod x k); pose proof (Z.mod_pos_bound x k); lia).
    nia.
Qed.

(** * Automation *)

Create HintDb py.
Create Rewrite HintDb py.
#[export] Hint Resolve str_of_Z_nonempty py_int_str py_int_exn_str py_sorted_perm : py.
#[export] Hint Rewrite @length_enumerate_from @enumerate_from_fst @enumerate_from_snd
  @length_fmap @length_app str_app_nil_r str_app_assoc str_length_app py_int_str py_int_exn_str : py.

(** Case analysis on the booleans and tests of a goal. *)
Ltac bool_facts :=
  repeat match goal with
  | H : _ && _ = true |- _ => apply andb_true_iff in H as [? ?]
  | H : _ || _ = false |- _ => apply orb_false_iff in H as [? ?]
  | H : negb _ = true |- _ => apply negb_true_iff in H
  | H : negb _ = false |- _ => apply negb_false_iff in H
  | H : (_ =? _) = true |- _ => apply Z.eqb_eq in H
  | H : (_ =? _) = false |- _ => apply Z.eqb_neq in H
  | H : (_ <? _) = true |- _ => apply Z.ltb_lt in H
  | H : (_ <? _) = false |- _ => apply Z.ltb_ge in H
  | H : (_ <=? _) = true |- _ => apply Z.leb_le in H
  | H : (_ <=? _) = false |- _ => apply Z.leb_gt in H
  | H : String.eqb _ _ = true |- _ => apply String.eqb_eq in H
  | H : String.eqb _ _ = false |- _ => apply String.eqb_neq in H
  | H : bool_decide _ = true |- _ => apply bool_decide_eq_true in H
  | H : bool_decide _ = false |- _ => apply bool_decide_eq_false in H
  end.

(** * Searching a text *)

(** The matches of a pattern from the left, each beginning where the last one ended: [re.findall]
    and [re.finditer].  [at_ s] is the match at the beginning of [s] and the text after it. *)
Section Scan.
Context {A : Type} (at_ : string → option (A * string)).

Fixpoint scan_go (fuel : nat) (s : string) : list A :=
  match fuel with
  | O => []
  | S fuel =>
      match at_ s with
      | Some (a, rest) => a :: scan_go fuel rest
      | None => match s with EmptyString => [] | String _ s' => scan_go fuel s' end
      end
  end.

Definition scan (s : string) : list A := scan_go (S (str_length s)) s.

(** [re.search(s) is not None] *)
Definition found (s : string) : bool := match scan s with [] => false | _ => true end.

Lemma scan_go_nil fuel s :
  (str_length s < fuel)%nat → scan_go fuel s = [] ↔ ∀ a rest, s = a +:+ rest → at_ rest = None.
Proof using Type.
  revert s. induction fuel as [|fuel IH]; intros s Hf; [lia|]. cbn [scan_go].
  destruct (at_ s) as [[d rest]|] eqn:E.
  - split; [done|]. intros H. by rewrite (H "" s eq_refl) in E.
  - destruct s as [|c s]; cbn [str_length] in Hf.
    + split; [|done]. intros _ a rest Hr. by destruct a, rest.
    + rewrite IH by lia. split.
      * intros H [|x a] rest Hr; [cbn in Hr; by subst|]. injection Hr as -> ->. eauto.
      * intros H a rest ->. apply (H (String c a)). done.
Qed.

Lemma scan_nil s : scan s = [] ↔ ∀ a rest, s = a +:+ rest → at_ rest = None.
Proof using Type. apply scan_go_nil. lia. Qed.

(** A pattern whose matches are not empty never runs out of fuel: more changes nothing. *)
Lemma scan_enough fuel s :
  (∀ s a rest, at_ s = Some (a, rest) → (str_length rest < str_length s)%nat) →
  (str_length s < fuel)%nat → scan_go fuel s = scan s.
Proof using Type.
  intros Hat. unfold scan. assert (Hgo : ∀ n fuel s, (str_length s < n)%nat → (str_length s < fuel)%nat → scan_go fuel s = scan_go n s).
  { clear fuel s. induction n as [|n IH]; intros [|fuel] s Hn Hf; try lia. cbn [scan_go].
    destruct (at_ s) as [[a rest]|] eqn:E.
    - apply Hat in E. f_equal. apply IH; lia.
    - destruct s as [|c s]; [done|]. cbn [str_length] in *. apply IH; lia. }
  intros Hf. apply Hgo; lia.
Qed.

End Scan.

(** A text without special characters as a pattern. *)
Definition literal_at (marker s : string) : option (() * string) := (λ rest, ((), rest)) <$> strip_prefix marker s.

(** ** Concatenation *)

Lemma join_nothing_cons s l : join "" (s :: l) = s +:+ join "" l.
Proof. destruct l; [by rewrite str_app_nil_r|done]. Qed.

Lemma join_app l k : join "" (l ++ k) = join "" l +:+ join "" k.
Proof. induction l as [|s l IH]; [done|]. cbn [app]. by rewrite !join_nothing_cons, IH, str_app_assoc. Qed.
