(* ===== verification/PyValue.v ===== *)
(** * Dynamic Python values

    The values [json.loads] and [yaml.safe_load] return, with the operations the code applies
    to them: [int()], [str()], truth, [isinstance], [dict.get] and [dict[...]].  Objects keep
    their keys in insertion order. *)

From S2P Require Import Prelude.

Inductive pyval : Type :=
  | PNone
  | PBool (b : bool)
  | PInt (z : Z)
  | PFloat (num : Z) (den : positive) (text : string)   (** a finite float and its [repr] *)
  | PStr (s : string)
  | PList (l : list pyval)
  | PDict (d : list (string * pyval)).

Abbreviation pydict := (list (string * pyval)).

(** [d.get(k)] *)
Fixpoint dict_get {A} (k : string) (d : list (string * A)) : option A :=
  match d with
  | [] => None
  | (k', v) :: r => if String.eqb k' k then Some v else dict_get k r
  end.

(** [d[k] = v] keeps the position of an existing key and appends a new one. *)
Fixpoint dict_set {A} (k : string) (v : A) (d : list (string * A)) : list (string * A) :=
  match d with
  | [] => [(k, v)]
  | (k', v') :: r => if String.eqb k' k then (k', v) :: r else (k', v') :: dict_set k v r
  end.

(** [d.pop(k, None)] *)
Fixpoint dict_pop {A} (k : string) (d : list (string * A)) : list (string * A) :=
  match d with
  | [] => []
  | (k', v') :: r => if String.eqb k' k then r else (k', v') :: dict_pop k r
  end.

(** [d[k]] *)
Definition dict_item {A} (k : string) (d : list (string * A)) : result A := dict_get k d ?! KeyError k.

(** [d.get(k, default)] *)
Definition dict_get_default {A} (k : string) (default_ : A) (d : list (string * A)) : A :=
  default default_ (dict_get k d).

(** [{**d1, **d2}] *)
Definition dict_update {A} (d1 d2 : list (string * A)) : list (string * A) :=
  foldl (λ d kv, dict_set kv.1 kv.2 d) d1 d2.

(** [bool(v)] *)
Definition truthy (v : pyval) : bool :=
  match v with
  | PNone => false
  | PBool b => b
  | PInt z => negb (z =? 0)
  | PFloat n _ _ => negb (n =? 0)
  | PStr s => negb (String.eqb s "")
  | PList l => negb (length l =? 0)%nat
  | PDict d => negb (length d =? 0)%nat
  end.

(** [int(v)]: text is parsed, floats are truncated towards zero. *)
Definition int_of (v : pyval) : result Z :=
  match v with
  | PBool b => Ok (if b then 1 else 0)
  | PInt z => Ok z
  | PFloat n d _ => Ok (Z.quot n (Z.pos d))
  | PStr s => py_int_exn s
  | PNone | PList _ | PDict _ => Err TypeError
  end.

(** [isinstance(v, int)] holds for booleans too. *)
Definition is_int (v : pyval) : option Z :=
  match v with PInt z => Some z | PBool b => Some (if b then 1 else 0) | _ => None end.
Definition is_str (v : pyval) : option string := match v with PStr s => Some s | _ => None end.
Definition is_list (v : pyval) : option (list pyval) := match v with PList l => Some l | _ => None end.
Definition is_dict (v : pyval) : option pydict := match v with PDict d => Some d | _ => None end.

(** [v == s] for a text [s] *)
Definition eq_str (v : pyval) (s : string) : bool :=
  match v with PStr t => String.eqb t s | _ => false end.

(** [v == z] for an integer [z]; booleans and integral floats compare equal. *)
Definition eq_int (v : pyval) (z : Z) : bool :=
  match v with
  | PInt y => y =? z
  | PBool b => (if b then 1 else 0) =? z
  | PFloat n d _ => n =? z * Z.pos d
  | _ => false
  end.

Fixpoint repr (v : pyval) : string :=
  match v with
  | PNone => "None"
  | PBool b => if b then "True" else "False"
  | PInt z => str_of_Z z
  | PFloat _ _ text => text
  | PStr s => repr_str s
  | PList l => "[" +:+ join ", " (repr <$> l) +:+ "]"
  | PDict d => "{" +:+ join ", " ((λ kv, repr_str kv.1 +:+ ": " +:+ repr kv.2) <$> d) +:+ "}"
  end.

(** [str(v)] *)
Definition py_str (v : pyval) : string := match v with PStr s => s | _ => repr v end.

(** [json.dumps(v, separators=(",", ":"))] of ASCII text. *)
Fixpoint json_chars (s : string) : string :=
  match s with
  | EmptyString => EmptyString
  | String c s' =>
      (if Ascii.eqb c DQUOTE || Ascii.eqb c "\"%char then String "\"%char (String c "")
       else if (ord c =? 10)%nat then "\n"
       else if (ord c =? 13)%nat then "\r"
       else if (ord c =? 9)%nat then "\t"
       else if (ord c =? 8)%nat then "\b"
       else if (ord c =? 12)%nat then "\f"
       else if (ord c <? 32)%nat
            then "\u00" +:+ String (hex_digit (ord c / 16)) (String (hex_digit (ord c mod 16)) "")
       else String c "") +:+ json_chars s'
  end.

Definition json_str (s : string) : string := String DQUOTE (json_chars s) +:+ String DQUOTE "".

Fixpoint json_dumps (v : pyval) : string :=
  match v with
  | PNone => "null"
  | PBool b => if b then "true" else "false"
  | PInt z => str_of_Z z
  | PFloat _ _ text => text
  | PStr s => json_str s
  | PList l => "[" +:+ join "," (json_dumps <$> l) +:+ "]"
  | PDict d => "{" +:+ join "," ((λ kv, json_str kv.1 +:+ ":" +:+ json_dumps kv.2) <$> d) +:+ "}"
  end.

Example repr_example :
  py_str (PList [PStr "it's"; PInt (-3); PDict [("k", PNone)]])
  = "[" +:+ String DQUOTE "it's" +:+ String DQUOTE ", -3, {'k': None}]".
Proof. reflexivity. Qed.

(** ** Dictionary laws *)

Lemma dict_get_set {A} k (v : A) d : dict_get k (dict_set k v d) = Some v.
Proof.
  induction d as [|[k' v'] d IH]; simpl; [by rewrite String.eqb_refl|].
  destruct (String.eqb k' k) eqn:E; simpl; by rewrite ?E.
Qed.

Lemma dict_get_set_ne {A} k k' (v : A) d : k ≠ k' → dict_get k' (dict_set k v d) = dict_get k' d.
Proof.
  intros Hne. induction d as [|[k1 v1] d IH]; simpl.
  - by rewrite (proj2 (String.eqb_neq k k') Hne).
  - destruct (String.eqb_spec k1 k); simpl; [|by rewrite IH].
    subst. by rewrite (proj2 (String.eqb_neq k k') Hne).
Qed.

Lemma dict_get_update {A} k (d1 d2 : list (string * A)) :
  dict_get k d2 = None → dict_get k (dict_update d1 d2) = dict_get k d1.
Proof.
  unfold dict_update. revert d1; induction d2 as [|[k2 v2] d2 IH]; intros d1; simpl; [done|].
  destruct (String.eqb_spec k2 k); [done|]. intros H. by rewrite IH, dict_get_set_ne.
Qed.

Lemma is_dict_Some v d : is_dict v = Some d ↔ v = PDict d.
Proof. destruct v; simpl; naive_solver. Qed.

Lemma is_str_Some v s : is_str v = Some s ↔ v = PStr s.
Proof. destruct v; simpl; naive_solver. Qed.

Lemma is_list_Some v l : is_list v = Some l ↔ v = PList l.
Proof. destruct v; simpl; naive_solver. Qed.

Lemma dict_get_default_ne {A} k (x v : A) d : dict_get_default k x d = v → v ≠ x → dict_get k d = Some v.
Proof. unfold dict_get_default. destruct (dict_get k d); simpl; congruence. Qed.

#[export] Hint Rewrite @dict_get_set : py.
#[export] Hint Rewrite @dict_get_set_ne using done : py.

Lemma dict_get_None {A} k (d : list (string * A)) : k ∉ d.*1 → dict_get k d = None.
Proof.
  induction d as [|[k' v'] d IH]; intros Hk; [done|]. cbn [dict_get]. destruct (String.eqb_spec k' k); [set_solver|].
  apply IH. set_solver.
Qed.

Lemma dict_get_update_in {A} k (v : A) d1 d2 :
  NoDup d2.*1 → dict_get k d2 = Some v → dict_get k (dict_update d1 d2) = Some v.
Proof.
  unfold dict_update. revert d1. induction d2 as [|[k2 v2] d2 IH]; intros d1 Hd Hk; [done|].
  apply NoDup_cons in Hd as [Hn Hd]. cbn [foldl fst snd]. cbn [dict_get] in Hk. destruct (String.eqb_spec k2 k) as [->|Hne].
  - injection Hk as ->. change (foldl _ _ d2) with (dict_update (dict_set k v d1) d2).
    rewrite dict_get_update; [apply dict_get_set|by apply dict_get_None].
  - by apply IH.
Qed.

Lemma dict_get_not_in {A} k (d : list (string * A)) v : dict_get k d = Some v → k ∈ d.*1.
Proof. intros Hk. destruct (decide (k ∈ d.*1)); [done|]. by rewrite dict_get_None in Hk. Qed.

Lemma dict_set_fst {A} k (v : A) d : (dict_set k v d).*1 = if bool_decide (k ∈ d.*1) then d.*1 else d.*1 ++ [k].
Proof.
  induction d as [|[k' v'] d IH]; [done|]. cbn [dict_set fmap list_fmap fst].
  destruct (String.eqb_spec k' k) as [->|Hne].
  - rewrite bool_decide_eq_true_2 by set_solver. done.
  - cbn [fmap list_fmap fst]. change (list_fmap _ _ fst ?l) with (l.*1). rewrite IH.
    destruct (decide (k ∈ d.*1)).
    + rewrite !bool_decide_eq_true_2 by set_solver. done.
    + rewrite !bool_decide_eq_false_2 by set_solver. done.
Qed.

Lemma dict_set_NoDup {A} k (v : A) d : NoDup d.*1 → NoDup (dict_set k v d).*1.
Proof.
  intros Hd. rewrite dict_set_fst. case_bool_decide; [done|]. apply NoDup_app. split; [done|]. split; [set_solver|].
  apply NoDup_singleton.
Qed.

Lemma dict_set_fresh {A} k (v : A) d : k ∉ d.*1 → dict_set k v d = d ++ [(k, v)].
Proof.
  induction d as [|[k' v'] d IH]; intros Hk; [done|]. cbn [dict_set]. destruct (String.eqb_spec k' k); [set_solver|].
  rewrite IH by set_solver. done.
Qed.

Lemma dict_update_NoDup {A} (d1 d2 : list (string * A)) : NoDup d1.*1 → NoDup (dict_update d1 d2).*1.
Proof.
  unfold dict_update. revert d1. induction d2 as [|[k v] d2 IH]; intros d1 Hd; [done|]. cbn [foldl]. apply IH, dict_set_NoDup, Hd.
Qed.

Lemma dict_update_fresh {A} (d1 d2 : list (string * A)) : NoDup (d1 ++ d2).*1 → dict_update d1 d2 = d1 ++ d2.
Proof.
  unfold dict_update. revert d1. induction d2 as [|[k v] d2 IH]; intros d1 Hd; [by rewrite app_nil_r|]. cbn [foldl fst snd].
  rewrite dict_set_fresh.
  - rewrite IH; rewrite <- app_assoc; done.
  - rewrite fmap_app, fmap_cons in Hd. apply NoDup_app in Hd as (_ & Hd & _). intros Hk. by apply (Hd _ Hk), elem_of_cons; left.
Qed.

Lemma dict_update_head {A} k (v : A) d2 d : ∃ v' rest, dict_update ((k, v) :: d) d2 = (k, v') :: rest.
Proof.
  unfold dict_update. revert v d. induction d2 as [|[k2 v2] d2 IH]; intros v d; [eauto|]. cbn [foldl dict_set fst snd].
  destruct (String.eqb k k2); apply IH.
Qed.

Lemma dict_get_In {A} k (v : A) d : NoDup d.*1 → (k, v) ∈ d → dict_get k d = Some v.
Proof.
  induction d as [|[k' v'] d IH]; [set_solver|]. cbn. intros [Hnot Hnd]%NoDup_cons [[= <- <-]|Hin]%elem_of_cons.
  - by rewrite String.eqb_refl.
  - destruct (String.eqb_spec k' k) as [->|]; [|by apply IH].
    exfalso. apply Hnot, list_elem_of_fmap. by exists (k, v).
Qed.

Lemma dict_set_set {A} k (v w : A) d : dict_set k v (dict_set k w d) = dict_set k v d.
Proof.
  induction d as [|[k' x] d IH]; simpl; [by rewrite String.eqb_refl|].
  destruct (String.eqb k' k) eqn:E; simpl; rewrite E; congruence.
Qed.

(** Setting an existing key and another one commute. *)
Lemma dict_set_comm {A} k k' (v w : A) d :
  k ≠ k' → is_Some (dict_get k d) → dict_set k v (dict_set k' w d) = dict_set k' w (dict_set k v d).
Proof.
  intros Hne. induction d as [|[k'' x] d IH]; simpl; [by intros [? ?]|]. intros Hk.
  destruct (String.eqb_spec k'' k) as [->|H1].
  - rewrite (proj2 (String.eqb_neq k k') Hne). simpl. rewrite String.eqb_refl, (proj2 (String.eqb_neq k k') Hne). done.
  - destruct (String.eqb_spec k'' k') as [->|H2]; simpl.
    + by rewrite (proj2 (String.eqb_neq k' k) H1), String.eqb_refl.
    + rewrite (proj2 (String.eqb_neq k'' k) H1), (proj2 (String.eqb_neq k'' k') H2). f_equal. by apply IH.
Qed.

Lemma dict_set_pop {A} k k' (v : A) d : k ≠ k' → dict_set k v (dict_pop k' d) = dict_pop k' (dict_set k v d).
Proof.
  intros Hne. induction d as [|[k'' x] d IH]; simpl.
  - by rewrite (proj2 (String.eqb_neq k k') Hne).
  - destruct (String.eqb_spec k'' k') as [->|H2].
    + rewrite (proj2 (String.eqb_neq k' k) (not_eq_sym Hne)). simpl. by rewrite String.eqb_refl.
    + simpl. destruct (String.eqb k'' k) eqn:E; simpl; rewrite (proj2 (String.eqb_neq k'' k') H2); congruence.
Qed.
