(* ===== verification/Codec.v ===== *)
(** * Text and byte encodings of the standard library

    [bytes.decode("utf-8")], [base64.b64encode] and [base64.b64decode(..., validate=True)], as
    the FIFO broker and its client use them. *)

From S2P Require Import Prelude.

#[local] Ltac Zify.zify_post_hook ::= Z.to_euclidean_division_equations.

(** ** UTF-8 *)

Definition in_range (lo hi : nat) (c : ascii) : bool := (lo <=? ord c)%nat && (ord c <=? hi)%nat.

(** The admissible ranges of the bytes that follow a leading byte; [None]: not a leading byte. *)
Definition continuation_ranges (c : ascii) : option (list (nat * nat)) :=
  let any := (128, 191)%nat in
  if (ord c <? 128)%nat then Some []
  else if in_range 194 223 c then Some [any]
  else if (ord c =? 224)%nat then Some [(160, 191)%nat; any]
  else if (ord c =? 237)%nat then Some [(128, 159)%nat; any]
  else if in_range 225 239 c then Some [any; any]
  else if (ord c =? 240)%nat then Some [(144, 191)%nat; any; any]
  else if in_range 241 243 c then Some [any; any; any]
  else if (ord c =? 244)%nat then Some [(128, 143)%nat; any; any]
  else None.

Definition utf8_error (first : ascii) (start seen : Z) (reason : string) : exn :=
  UnicodeDecodeError ("'utf-8' codec can't decode " +:+
    (if seen =? 1
     then "byte 0x" +:+ String (hex_digit (ord first / 16)) (String (hex_digit (ord first mod 16)) "")
          +:+ " in position " +:+ str_of_Z start
     else "bytes in position " +:+ str_of_Z start +:+ "-" +:+ str_of_Z (start + seen - 1))
    +:+ ": " +:+ reason).

(** [pending] are the ranges still expected for the character that began with [first] at
    position [start], of which [seen] bytes were read. *)
Fixpoint utf8_check (first : ascii) (start seen : Z) (pending : list (nat * nat)) (s : string) : option exn :=
  match s, pending with
  | EmptyString, [] => None
  | EmptyString, _ :: _ => Some (utf8_error first start seen "unexpected end of data")
  | String c s', (lo, hi) :: rest =>
      if in_range lo hi c then utf8_check first start (seen + 1) rest s'
      else Some (utf8_error first start seen "invalid continuation byte")
  | String c s', [] =>
      match continuation_ranges c with
      | None => Some (utf8_error c (start + seen) 1 "invalid start byte")
      | Some ranges => utf8_check c (start + seen) 1 ranges s'
      end
  end.

(** The decoded text is kept as its bytes. *)
Definition decode_utf8 (s : string) : result string :=
  match utf8_check NL 0 0 [] s with None => Ok s | Some e => Err e end.

Lemma decode_utf8_ascii s : str_forallb (λ c, (ord c <=? 127)%nat) s = true → decode_utf8 s = Ok s.
Proof.
  intros H. unfold decode_utf8.
  assert (∀ first start seen, utf8_check first start seen [] s = None) as ->; [|done].
  induction s as [|c s IH]; intros; simpl in *; [done|]. apply andb_true_iff in H as [Hc H].
  apply Nat.leb_le in Hc. unfold continuation_ranges.
  replace (ord c <? 128)%nat with true by (symmetry; apply Nat.ltb_lt; lia). auto.
Qed.

(** ** Base64 *)

Definition b64_char (x : Z) : ascii :=
  Ascii.ascii_of_nat (Z.to_nat
    (if x <? 26 then 65 + x else if x <? 52 then 71 + x else if x <? 62 then x - 4 else if x =? 62 then 43 else 47)).

Definition b64_value (c : ascii) : option Z :=
  let n := Z.of_nat (ord c) in
  if (65 <=? n) && (n <=? 90) then Some (n - 65)
  else if (97 <=? n) && (n <=? 122) then Some (n - 71)
  else if (48 <=? n) && (n <=? 57) then Some (n + 4)
  else if n =? 43 then Some 62 else if n =? 47 then Some 63 else None.

Definition byte (z : Z) : ascii := Ascii.ascii_of_nat (Z.to_nat z).
Abbreviation ordz c := (Z.of_nat (ord c)).

Fixpoint b64encode (s : string) : string :=
  match s with
  | String a (String b (String c rest)) =>
      String (b64_char (ordz a / 4)) (String (b64_char (ordz a mod 4 * 16 + ordz b / 16))
        (String (b64_char (ordz b mod 16 * 4 + ordz c / 64)) (String (b64_char (ordz c mod 64)) (b64encode rest))))
  | String a (String b EmptyString) =>
      String (b64_char (ordz a / 4)) (String (b64_char (ordz a mod 4 * 16 + ordz b / 16))
        (String (b64_char (ordz b mod 16 * 4)) "="))
  | String a EmptyString =>
      String (b64_char (ordz a / 4)) (String (b64_char (ordz a mod 4 * 16)) "==")
  | EmptyString => EmptyString
  end.

(** The decoder, strict with [validate=True]: position in the current group of four, the bits carried over, the
    padding seen in this group and at all, and the bytes written so far. *)
Fixpoint b64_go (strict : bool) (quad left_ pads : Z) (padding : bool) (written : Z) (s : string) : result string :=
  match s with
  | EmptyString =>
      if quad =? 0 then Ok ""
      else if quad =? 1 then
        Err (ValueError ("Invalid base64-encoded string: number of data characters ("
          +:+ str_of_Z (written / 3 * 4 + 1) +:+ ") cannot be 1 more than a multiple of 4"))
      else Err (ValueError "Incorrect padding")
  | String c s' =>
      if Ascii.eqb c "="%char then
        if (2 <=? quad) && (4 <=? quad + (pads + 1)) then
          _ ← raise_if (strict && negb (String.eqb s' "")) (ValueError "Excess data after padding"); Ok ""
        else b64_go strict quad left_ (if 2 <=? quad then pads + 1 else pads) true written s'
      else
        match b64_value c with
        | None => if strict then Err (ValueError "Only base64 data is allowed")
                  else b64_go strict quad left_ pads padding written s'
        | Some x =>
            _ ← raise_if (strict && padding) (ValueError "Discontinuous padding not allowed");
            if quad =? 0 then b64_go strict 1 x 0 padding written s'
            else if quad =? 1 then
              r ← b64_go strict 2 (x mod 16) 0 padding (written + 1) s'; Ok (String (byte (left_ * 4 + x / 16)) r)
            else if quad =? 2 then
              r ← b64_go strict 3 (x mod 4) 0 padding (written + 1) s'; Ok (String (byte (left_ * 16 + x / 4)) r)
            else r ← b64_go strict 0 0 0 padding (written + 1) s'; Ok (String (byte (left_ * 64 + x)) r)
        end
  end.

Definition b64decode (validate : bool) (s : string) : result string :=
  _ ← raise_if (validate && startswith "=" s) (ValueError "Leading padding not allowed");
  b64_go validate 0 0 0 false 0 s.

Example b64decode_errors :
  b64decode true "ab=c" = Err (ValueError "Discontinuous padding not allowed") ∧
  b64decode true "abcd=" = b64decode true "abcd" ∧ b64decode true "ab==" = Ok "i" ∧ b64decode false "=a!b==cd" = Ok "i" ∧
  b64decode true "abcde" = Err (ValueError "Invalid base64-encoded string: number of data characters (5) cannot be 1 more than a multiple of 4").
Proof. vm_compute. done. Qed.

Lemma b64_char_table :
  forallb (λ x, negb (Ascii.eqb (b64_char x) "="%char) && bool_decide (b64_value (b64_char x) = Some x)) (seqZ 0 64) = true.
Proof. vm_compute. done. Qed.

Lemma b64_char_value x : 0 ≤ x < 64 → Ascii.eqb (b64_char x) "="%char = false ∧ b64_value (b64_char x) = Some x.
Proof.
  intros Hx. pose proof (proj1 (forallb_forall _ _) b64_char_table x) as H.
  assert (In x (seqZ 0 64)) as Hin by (apply list_elem_of_In, elem_of_seqZ; lia).
  specialize (H Hin). cbv beta in H. bool_facts. by split.
Qed.

Lemma ordz_range c : 0 ≤ ordz c < 256.
Proof. pose proof (Ascii.nat_ascii_bounded c). lia. Qed.

Lemma byte_ordz c z : z = ordz c → byte z = c.
Proof. intros ->. unfold byte. by rewrite Nat2Z.id, Ascii.ascii_nat_embedding. Qed.

(** One data character advances the decoder. *)
Lemma b64_go_char strict quad l written x s :
  0 ≤ x < 64 →
  b64_go strict quad l 0 false written (String (b64_char x) s) =
  (if quad =? 0 then b64_go strict 1 x 0 false written s
   else if quad =? 1 then r ← b64_go strict 2 (x mod 16) 0 false (written + 1) s; Ok (String (byte (l * 4 + x / 16)) r)
   else if quad =? 2 then r ← b64_go strict 3 (x mod 4) 0 false (written + 1) s; Ok (String (byte (l * 16 + x / 4)) r)
   else r ← b64_go strict 0 0 0 false (written + 1) s; Ok (String (byte (l * 64 + x)) r)).
Proof. intros Hx. cbn [b64_go]. destruct (b64_char_value x Hx) as [-> ->]. rewrite andb_false_r. done. Qed.

(** Induction three characters at a time. *)
Lemma string_ind3 (P : string → Prop) :
  P "" → (∀ a, P (String a "")) → (∀ a b, P (String a (String b ""))) →
  (∀ a b c s, P s → P (String a (String b (String c s)))) → ∀ s, P s.
Proof.
  intros H0 H1 H2 H3 s. enough (P s ∧ (∀ a, P (String a s)) ∧ ∀ a b, P (String a (String b s))) as [? _] by done.
  induction s as [|c s (IH0 & IH1 & IH2)]; auto.
Qed.

Lemma b64_go_encode strict s written : b64_go strict 0 0 0 false written (b64encode s) = Ok s.
Proof.
  revert written. induction s as [|a|a b|a b c s IH] using string_ind3; intros written; [done| | |];
    cbn [b64encode]; pose proof (ordz_range a); try (pose proof (ordz_range b)); try (pose proof (ordz_range c)).
  - do 2 (rewrite b64_go_char by lia; cbn [Z.eqb Pos.eqb]).
    replace (b64_go _ 2 _ _ _ _ _) with (Ok "" : result string) by (by destruct strict).
    cbn [mbind result_bind]. f_equal. f_equal. apply byte_ordz. lia.
  - do 3 (rewrite b64_go_char by lia; cbn [Z.eqb Pos.eqb]).
    replace (b64_go _ 3 _ _ _ _ _) with (Ok "" : result string) by (by destruct strict).
    cbn [mbind result_bind]. repeat (f_equal; try (apply byte_ordz; lia)).
  - do 4 (rewrite b64_go_char by lia; cbn [Z.eqb Pos.eqb]). rewrite IH.
    cbn [mbind result_bind]. repeat (f_equal; try (apply byte_ordz; lia)).
Qed.

Lemma b64decode_encode validate s : b64decode validate (b64encode s) = Ok s.
Proof.
  unfold b64decode. replace (startswith "=" (b64encode s)) with false; [rewrite andb_false_r; apply b64_go_encode|].
  symmetry. unfold startswith. apply bool_decide_eq_false. intros [r Hr%strip_prefix_Some].
  assert (Hne : ∀ x t, 0 ≤ x < 64 → String (b64_char x) t ≠ String "=" r).
  { intros x t Hx [= Heq _]. destruct (b64_char_value x Hx) as [Hc _]. by rewrite Heq in Hc. }
  destruct s as [|a [|b [|c s]]]; [done| | |]; pose proof (ordz_range a); cbn [b64encode] in Hr;
    (eapply Hne; [|exact Hr]); lia.
Qed.

Lemma b64_char_ascii x : 0 ≤ x < 64 → (ord (b64_char x) <=? 127)%nat = true.
Proof.
  intros Hx.
  assert (H : forallb (λ x, (ord (b64_char x) <=? 127)%nat) (seqZ 0 64) = true) by (vm_compute; done).
  rewrite forallb_forall in H. apply H, list_elem_of_In, elem_of_seqZ. lia.
Qed.

Lemma b64encode_ascii s : str_forallb (λ c, (ord c <=? 127)%nat) (b64encode s) = true.
Proof.
  induction s as [|a|a b|a b c s IH] using string_ind3; [done| | |];
    pose proof (ordz_range a); try pose proof (ordz_range b); try pose proof (ordz_range c);
    cbn [b64encode str_forallb]; rewrite !b64_char_ascii by lia; done.
Qed.
