(* ===== verification/Json.v ===== *)
(** * JSON texts

    Model of [json.loads] of Python's standard library, which every component that reads a document or a
    message applies, and of the three ways the repository prints with [json.dumps].  A text is its
    UTF-8 bytes.  The interpreter's limits on nesting and on the length of numbers are not modelled,
    and the float a number with a fraction or an exponent denotes is an argument. *)

From S2P Require Import Prelude PyValue.

(** ** The decoder *)

(** The value with what follows it, or a message with what is left of the text where it applies. *)
Inductive parsed (A : Type) :=
  | Parsed (a : A) (rest : string)
  | Failed (msg rest : string)
  | Exhausted.                       (** no fuel: excluded by [loads_total] *)
Arguments Parsed {A} a rest.
Arguments Failed {A} msg rest.
Arguments Exhausted {A}.

Definition is_ws (c : ascii) : bool :=
  (ord c =? 32)%nat || (ord c =? 9)%nat || (ord c =? 10)%nat || (ord c =? 13)%nat.

Fixpoint skip_ws (s : string) : string :=
  match s with String c s' => if is_ws c then skip_ws s' else s | "" => "" end.

(** The longest prefix of characters with [p], and the rest. *)
Fixpoint span_while (p : ascii → bool) (s : string) : string * string :=
  match s with
  | "" => ("", "")
  | String c s' => if p c then let '(a, r) := span_while p s' in (String c a, r) else ("", s)
  end.

(** The rest behind a character, if it comes next. *)
Definition expect (c : ascii) (s : string) : option string :=
  match s with String a r => if Ascii.eqb a c then Some r else None | "" => None end.

(** *** Strings *)

Definition hex_value (c : ascii) : option Z :=
  let n := Z.of_nat (ord c) in
  if (48 <=? n) && (n <=? 57) then Some (n - 48)
  else if (97 <=? n) && (n <=? 102) then Some (n - 87)
  else if (65 <=? n) && (n <=? 70) then Some (n - 55)
  else None.

Definition hex4 (a b c d : ascii) : option Z :=
  a ← hex_value a; b ← hex_value b; c ← hex_value c; d ← hex_value d;
  Some (16 * (16 * (16 * a + b) + c) + d).

(** The bytes of a code point. *)
Definition utf8_of (n : Z) : string :=
  let byte k s := String (ascii_of_nat (Z.to_nat k)) s in
  if n <? 128 then byte n ""
  else if n <? 2048 then byte (192 + n / 64) (byte (128 + n mod 64) "")
  else if n <? 65536 then byte (224 + n / 4096) (byte (128 + n / 64 mod 64) (byte (128 + n mod 64) ""))
  else byte (240 + n / 262144) (byte (128 + n / 4096 mod 64) (byte (128 + n / 64 mod 64) (byte (128 + n mod 64) ""))).

Definition is_high (n : Z) : bool := (55296 <=? n) && (n <=? 56319).
Definition is_low (n : Z) : bool := (56320 <=? n) && (n <=? 57343).
Definition join_pair (high low : Z) : Z := 65536 + (high - 55296) * 1024 + (low - 56320).

Definition simple_escape (c : ascii) : option ascii :=
  if Ascii.eqb c DQUOTE || Ascii.eqb c "\"%char || Ascii.eqb c "/"%char then Some c
  else if Ascii.eqb c "b"%char then Some "008"%char
  else if Ascii.eqb c "f"%char then Some "012"%char
  else if Ascii.eqb c "n"%char then Some "010"%char
  else if Ascii.eqb c "r"%char then Some "013"%char
  else if Ascii.eqb c "t"%char then Some "009"%char
  else None.

(** [prefix] in front of a string that was read. *)
Definition prepend (prefix : string) (r : parsed string) : parsed string :=
  match r with Parsed s rest => Parsed (prefix +:+ s) rest | _ => r end.

(** The rest of a string behind its quote; [start] is the text from that quote on.  Four digits at the very
    end of the text are refused although they are complete, as the decoder does. *)
Fixpoint scan_string (start s : string) : parsed string :=
  let unterminated := Failed "Unterminated string starting at" start in
  match s with
  | "" => unterminated
  | String c s1 =>
      if Ascii.eqb c DQUOTE then Parsed "" s1
      else if Ascii.eqb c "\"%char then
        match s1 with
        | "" => unterminated
        | String e s2 =>
            if Ascii.eqb e "u"%char then
              match s2 with
              | String a1 (String a2 (String a3 (String a4 (String a5 _ as s3)))) =>
                  match hex4 a1 a2 a3 a4 with
                  | None => Failed "Invalid \uXXXX escape" s1
                  | Some n =>
                      let single := prepend (utf8_of n) (scan_string start s3) in
                      if is_high n then
                        match s3 with
                        | String b0 (String b1 (String c1 (String c2 (String c3 (String c4 (String c5 _ as s4)))))) =>
                            if Ascii.eqb b0 "\"%char && Ascii.eqb b1 "u"%char then
                              match hex4 c1 c2 c3 c4 with
                              | None => Failed "Invalid \uXXXX escape" (String b1 (String c1 (String c2 (String c3 (String c4 s4)))))
                              | Some m => if is_low m then prepend (utf8_of (join_pair n m)) (scan_string start s4) else single
                              end
                            else single
                        | _ => single
                        end
                      else single
                  end
              | _ => Failed "Invalid \uXXXX escape" s1
              end
            else
              match simple_escape e with
              | Some c' => prepend (String c' "") (scan_string start s2)
              | None => Failed "Invalid \escape" s
              end
        end
      else if (ord c <? 32)%nat then Failed "Invalid control character at" s
      else prepend (String c "") (scan_string start s1)
  end.

(** *** Numbers and words *)

(** The text of a number at the start of [s], whether it has a fraction or an exponent, and the rest. *)
Definition scan_digits (s : string) : option (string * string) :=
  let '(ds, r) := span_while is_digit s in if String.eqb ds "" then None else Some (ds, r).

Definition scan_sign (s : string) : string * string :=
  match expect "-" s with Some r => ("-", r) | None => match expect "+" s with Some r => ("+", r) | None => ("", s) end end.

(** [.5] and [e-3]; the empty text when there is none. *)
Definition scan_fraction (s : string) : string * string :=
  match expect "." s with
  | Some r => match scan_digits r with Some (ds, r') => ("." +:+ ds, r') | None => ("", s) end
  | None => ("", s)
  end.

Definition scan_exponent (s : string) : string * string :=
  match s with
  | String e r =>
      if Ascii.eqb e "e"%char || Ascii.eqb e "E"%char then
        let '(sign, r1) := scan_sign r in
        match scan_digits r1 with Some (ds, r2) => (String e sign +:+ ds, r2) | None => ("", s) end
      else ("", s)
  | "" => ("", s)
  end.

Definition scan_number (s : string) : option (string * bool * string) :=
  let '(sign, s1) := match expect "-" s with Some r => ("-", r) | None => ("", s) end in
  '(whole, s2) ← match expect "0" s1 with Some r => Some ("0", r) | None => scan_digits s1 end;
  let '(fraction, s3) := scan_fraction s2 in
  let '(exponent, s4) := scan_exponent s3 in
  Some (sign +:+ whole +:+ fraction +:+ exponent, negb (String.eqb (fraction +:+ exponent) ""), s4).

Section Decoder.
Context (float_of : string → pyval).     (** [float(text)] *)

Fixpoint first_word (words : list (string * pyval)) (s : string) : option (pyval * string) :=
  match words with
  | [] => None
  | (w, v) :: words => match strip_prefix w s with Some r => Some (v, r) | None => first_word words s end
  end.

Definition words : list (string * pyval) :=
  [("null", PNone); ("true", PBool true); ("false", PBool false);
   ("NaN", float_of "NaN"); ("Infinity", float_of "Infinity"); ("-Infinity", float_of "-Infinity")].

Definition word (s : string) : option (pyval * string) := first_word words s.

Definition number (s : string) : option (pyval * string) :=
  '(text, is_float, rest) ← scan_number s;
  if (is_float : bool) then Some (float_of text, rest) else z ← py_int text; Some (PInt z, rest).

(** *** Values *)

(** What is read: a value, the further elements of an array, the further members of an object. *)
Inductive goal := Value | Elements (before : list pyval) | Members (before : pydict).

Definition no_name : string := "Expecting property name enclosed in double quotes".

Fixpoint scan (fuel : nat) (g : goal) (s : string) : parsed pyval :=
  match fuel with
  | O => Exhausted
  | S fuel =>
      match g with
      | Value =>
          match s with
          | "" => Failed "Expecting value" s
          | String c r =>
              if Ascii.eqb c DQUOTE then
                match scan_string s r with
                | Parsed text rest => Parsed (PStr text) rest
                | Failed msg rest => Failed msg rest
                | Exhausted => Exhausted
                end
              else if Ascii.eqb c "{"%char then
                match expect "}" (skip_ws r) with
                | Some rest => Parsed (PDict []) rest
                | None => scan fuel (Members []) (skip_ws r)
                end
              else if Ascii.eqb c "["%char then
                match expect "]" (skip_ws r) with
                | Some rest => Parsed (PList []) rest
                | None => scan fuel (Elements []) (skip_ws r)
                end
              else
                match word s with
                | Some (v, rest) => Parsed v rest
                | None => match number s with Some (v, rest) => Parsed v rest | None => Failed "Expecting value" s end
                end
          end
      | Elements before =>
          match scan fuel Value s with
          | Parsed v rest =>
              let rest := skip_ws rest in
              match expect "," rest, expect "]" rest with
              | Some more, _ => scan fuel (Elements (before ++ [v])) (skip_ws more)
              | None, Some rest => Parsed (PList (before ++ [v])) rest
              | None, None => Failed "Expecting ',' delimiter" rest
              end
          | r => r
          end
      | Members before =>
          match expect DQUOTE s with
          | None => Failed no_name s
          | Some r =>
              match scan_string s r with
              | Parsed name rest =>
                  match expect ":" (skip_ws rest) with
                  | None => Failed "Expecting ':' delimiter" (skip_ws rest)
                  | Some rest =>
                      match scan fuel Value (skip_ws rest) with
                      | Parsed v rest =>
                          let rest := skip_ws rest in
                          match expect "," rest, expect "}" rest with
                          | Some more, _ => scan fuel (Members (before ++ [(name, v)])) (skip_ws more)
                          | None, Some rest => Parsed (PDict (dict_update [] (before ++ [(name, v)]))) rest
                          | None, None => Failed "Expecting ',' delimiter" rest
                          end
                      | r => r
                      end
                  end
              | Failed msg rest => Failed msg rest
              | Exhausted => Exhausted
              end
          end
      end
  end.

(** Reading a value takes at most two calls for each character. *)
Definition scan_fuel (s : string) : nat := 2 * str_length s + 2.

(** The message of a [JSONDecodeError], a [ValueError]. *)
Definition decode_error (text msg rest : string) : exn :=
  let before := str_take (str_length text - str_length rest) text in
  ValueError (msg +:+ ": line " +:+ str_of_Z (zlen (split_on NL before))
    +:+ " column " +:+ str_of_Z (1 + Z.of_nat (str_length (after_last NL before)))
    +:+ " (char " +:+ str_of_Z (Z.of_nat (str_length before)) +:+ ")").

Definition loads (text : string) : result pyval :=
  if startswith (String "239" (String "187" (String "191" ""))) text
  then Err (decode_error text "Unexpected UTF-8 BOM (decode using utf-8-sig)" text)
  else
    match scan (scan_fuel text) Value (skip_ws text) with
    | Parsed v rest =>
        let rest := skip_ws rest in
        if String.eqb rest "" then Ok v else Err (decode_error text "Extra data" rest)
    | Failed msg rest => Err (decode_error text msg rest)
    | Exhausted => Err (RuntimeError "fuel")
    end.

End Decoder.

(** ** Totality *)

Lemma skip_ws_le s : (str_length (skip_ws s) ≤ str_length s)%nat.
Proof. induction s as [|c s IH]; cbn [skip_ws str_length]; [lia|]. destruct (is_ws c); cbn [str_length]; lia. Qed.

Lemma span_while_spec p s a r : span_while p s = (a, r) → s = a +:+ r ∧ str_forallb p a = true.
Proof.
  revert a r. induction s as [|c s IH]; intros a r; cbn [span_while]; [by intros [= <- <-]|].
  destruct (p c) eqn:Ec; [|by intros [= <- <-]]. destruct (span_while p s) as [a' r'] eqn:E. intros [= <- <-].
  destruct (IH _ _ eq_refl) as [-> Ha]. split; [done|]. cbn. by rewrite Ec.
Qed.

Lemma expect_Some c s r : expect c s = Some r ↔ s = String c r.
Proof. destruct s as [|a s]; [done|]. cbn [expect]. destruct (Ascii.eqb_spec a c) as [->|]; naive_solver. Qed.

Lemma prepend_Parsed p r s rest : prepend p r = Parsed s rest ↔ ∃ s', r = Parsed s' rest ∧ s = p +:+ s'.
Proof. destruct r; cbn; naive_solver. Qed.

Lemma prepend_not_exhausted p r : r ≠ Exhausted → prepend p r ≠ Exhausted.
Proof. by destruct r. Qed.

Lemma strong_length (P : string → Prop) : (∀ s, (∀ s', (str_length s' < str_length s)%nat → P s') → P s) → ∀ s, P s.
Proof. intros H s. induction s as [s IH] using (induction_ltof1 _ str_length). apply H. intros s' Hs'. by apply IH. Qed.

(** The outcome is not for want of fuel, and a value leaves less than [n] characters. *)
Definition progresses {A} (n : nat) (r : parsed A) : Prop :=
  match r with Parsed _ rest => (str_length rest < n)%nat | Failed _ _ => True | Exhausted => False end.

Lemma prepend_progresses n m p r : progresses m r → (m ≤ n)%nat → progresses n (prepend p r).
Proof. destruct r; cbn; [lia|done..]. Qed.

Lemma scan_string_progresses start s : progresses (S (str_length s)) (scan_string start s).
Proof.
  induction s as [s IH] using strong_length. destruct s as [|c s1]; [done|]. cbn [scan_string str_length].
  assert (Hrec : ∀ p s', (str_length s' ≤ str_length s1)%nat → progresses (S (S (str_length s1))) (prepend p (scan_string start s'))).
  { intros p s' Hs. eapply prepend_progresses; [apply IH; cbn [str_length]; lia|lia]. }
  repeat (case_match; try done); cbn [str_length] in *; try (apply Hrec; cbn [str_length]; lia). cbn. lia.
Qed.

Lemma scan_digits_spec s ds r : scan_digits s = Some (ds, r) → s = ds +:+ r ∧ ds ≠ "" ∧ str_forallb is_digit ds = true.
Proof.
  unfold scan_digits. destruct (span_while is_digit s) as [a b] eqn:E. apply span_while_spec in E as [-> Ha].
  destruct (String.eqb_spec a ""); naive_solver.
Qed.

Lemma scan_sign_spec s sign r : scan_sign s = (sign, r) → s = sign +:+ r.
Proof.
  unfold scan_sign. destruct (expect "-" s) eqn:E1; [apply expect_Some in E1 as ->; by intros [= <- <-]|].
  destruct (expect "+" s) eqn:E2; [apply expect_Some in E2 as ->|]; by intros [= <- <-].
Qed.

Lemma scan_fraction_spec s f r : scan_fraction s = (f, r) → s = f +:+ r.
Proof.
  unfold scan_fraction. destruct (expect "." s) eqn:E; [|by intros [= <- <-]]. apply expect_Some in E as ->.
  destruct (scan_digits _) as [[ds r']|] eqn:E; [|by intros [= <- <-]]. apply scan_digits_spec in E as [-> _].
  intros [= <- <-]. done.
Qed.

Lemma scan_exponent_spec s x r : scan_exponent s = (x, r) → s = x +:+ r.
Proof.
  unfold scan_exponent. destruct s as [|e s]; [by intros [= <- <-]|]. destruct (_ || _); [|by intros [= <- <-]].
  destruct (scan_sign s) as [sign r1] eqn:Es. apply scan_sign_spec in Es as ->.
  destruct (scan_digits r1) as [[ds r2]|] eqn:E; [|by intros [= <- <-]]. apply scan_digits_spec in E as [-> _].
  intros [= <- <-]. cbn. by rewrite str_app_assoc.
Qed.

Lemma scan_number_spec s text b rest : scan_number s = Some (text, b, rest) → s = text +:+ rest ∧ text ≠ "".
Proof.
  unfold scan_number. set (sg := match expect "-" s with Some r => _ | None => _ end).
  assert (Hs : s = sg.1 +:+ sg.2) by (subst sg; destruct (expect "-" s) eqn:E; [by apply expect_Some in E as ->|done]).
  destruct sg as [sign s1]. cbn [fst snd] in Hs. subst s. intros ([whole s2] & Hw & H)%bind_Some.
  assert (s1 = whole +:+ s2 ∧ whole ≠ "") as [-> Hne].
  { destruct (expect "0" s1) eqn:E; [apply expect_Some in E as ->; by injection Hw as <- <-|]. apply scan_digits_spec in Hw. naive_solver. }
  destruct (scan_fraction s2) as [fraction s3] eqn:Ef. apply scan_fraction_spec in Ef as ->.
  destruct (scan_exponent s3) as [exponent s4] eqn:Ee. apply scan_exponent_spec in Ee as ->.
  injection H as <- _ <-. split; [by rewrite !str_app_assoc|]. destruct sign; [|done]. by destruct whole.
Qed.

Section Totality.
Context (float_of : string → pyval).

Lemma word_spec s v rest : word float_of s = Some (v, rest) → (str_length rest < str_length s)%nat.
Proof using Type.
  assert (Hne : Forall (λ wv, wv.1 ≠ "") (words float_of)) by (by repeat constructor). unfold word. revert Hne.
  induction (words float_of) as [|[w u] ws IH]; intros Hne; [done|]. apply Forall_cons in Hne as [Hw Hne]. cbn [first_word].
  destruct (strip_prefix w s) as [r|] eqn:E; [|by apply IH]. intros [= <- <-]. apply strip_prefix_Some in E as ->.
  rewrite str_length_app. destruct w; [done|]. cbn [str_length]. lia.
Qed.

Lemma number_spec s v rest : number float_of s = Some (v, rest) → (str_length rest < str_length s)%nat.
Proof using Type.
  unfold number. intros ([[text b] r] & Hs & H)%bind_Some. apply scan_number_spec in Hs as [-> Hne].
  assert (r = rest) as -> by (destruct b; [|apply bind_Some in H as (z & _ & H)]; by simplify_eq).
  rewrite str_length_app. destruct text; [done|]. cbn [str_length]. lia.
Qed.

Lemma scan_total fuel g s :
  (2 * str_length s + match g with Value => 1 | _ => 2 end ≤ fuel)%nat → progresses (str_length s) (scan float_of fuel g s).
Proof using Type.
  revert g s. induction fuel as [|fuel IH]; intros g s Hf; [destruct g; lia|]. destruct g as [|before|before]; cbn [scan].
  - destruct s as [|c r]; [done|]. cbn [str_length] in *. pose proof (skip_ws_le r) as Hw.
    destruct (Ascii.eqb c DQUOTE).
    { pose proof (scan_string_progresses (String c r) r) as H. destruct (scan_string _ r); done. }
    destruct (Ascii.eqb c "{"%char).
    { destruct (expect "}" (skip_ws r)) as [rest|] eqn:E; [apply expect_Some in E; rewrite E in Hw; cbn [str_length progresses] in *; lia|].
      pose proof (IH (Members []) (skip_ws r) ltac:(cbn; lia)) as H. destruct (scan float_of fuel _ _); cbn [str_length progresses] in *; [lia|done..]. }
    destruct (Ascii.eqb c "["%char).
    { destruct (expect "]" (skip_ws r)) as [rest|] eqn:E; [apply expect_Some in E; rewrite E in Hw; cbn [str_length progresses] in *; lia|].
      pose proof (IH (Elements []) (skip_ws r) ltac:(cbn; lia)) as H. destruct (scan float_of fuel _ _); cbn [str_length progresses] in *; [lia|done..]. }
    destruct (word float_of (String c r)) as [[v rest]|] eqn:E; [by apply word_spec in E|].
    destruct (number float_of (String c r)) as [[v rest]|] eqn:E'; [by apply number_spec in E'|done].
  - pose proof (IH Value s ltac:(cbn; lia)) as H. destruct (scan float_of fuel Value s) as [v rest| |]; [|done..]. cbn in H.
    pose proof (skip_ws_le rest) as Hw. destruct (expect "," (skip_ws rest)) as [more|] eqn:E.
    + apply expect_Some in E. rewrite E in Hw. cbn [str_length] in Hw. pose proof (skip_ws_le more) as Hw'.
      pose proof (IH (Elements (before ++ [v])) (skip_ws more) ltac:(cbn; lia)) as H'.
      destruct (scan float_of fuel _ _); cbn [str_length progresses] in *; [lia|done..].
    + destruct (expect "]" (skip_ws rest)) as [rest'|] eqn:E'; [|done]. apply expect_Some in E'. rewrite E' in Hw. cbn [str_length progresses] in *. lia.
  - destruct (expect DQUOTE s) as [r|] eqn:Eq; [|done]. apply expect_Some in Eq as ->. cbn [str_length] in *.
    pose proof (scan_string_progresses (String DQUOTE r) r) as H. destruct (scan_string _ r) as [name rest| |]; [|done..]. cbn in H.
    pose proof (skip_ws_le rest) as Hw. destruct (expect ":" (skip_ws rest)) as [rest1|] eqn:Ec; [|done].
    apply expect_Some in Ec. rewrite Ec in Hw. cbn [str_length] in Hw. pose proof (skip_ws_le rest1) as Hw1.
    pose proof (IH Value (skip_ws rest1) ltac:(cbn; lia)) as H1. destruct (scan float_of fuel Value _) as [v rest2| |]; [|done..]. cbn in H1.
    pose proof (skip_ws_le rest2) as Hw2. destruct (expect "," (skip_ws rest2)) as [more|] eqn:E.
    + apply expect_Some in E. rewrite E in Hw2. cbn [str_length] in Hw2. pose proof (skip_ws_le more) as Hw3.
      pose proof (IH (Members (before ++ [(name, v)])) (skip_ws more) ltac:(cbn; lia)) as H'.
      destruct (scan float_of fuel _ _); cbn [str_length progresses] in *; [lia|done..].
    + destruct (expect "}" (skip_ws rest2)) as [rest'|] eqn:E'; [|done]. apply expect_Some in E'. rewrite E' in Hw2. cbn [str_length progresses] in *. lia.
Qed.

(** The decoder always has enough fuel. *)
Lemma loads_total text : scan float_of (scan_fuel text) Value (skip_ws text) ≠ Exhausted.
Proof using Type.
  pose proof (skip_ws_le text). pose proof (scan_total (scan_fuel text) Value (skip_ws text)) as H'.
  unfold scan_fuel in *. intros He. rewrite He in H'. apply H'. lia.
Qed.

(** More fuel changes nothing. *)
Lemma scan_more fuel fuel' g s :
  (fuel ≤ fuel')%nat → scan float_of fuel g s ≠ Exhausted → scan float_of fuel' g s = scan float_of fuel g s.
Proof using Type.
  revert fuel' g s. induction fuel as [|fuel IH]; intros [|fuel'] g s Hle Hne; [done|done|lia|].
  apply le_S_n in Hle. cbn [scan] in *. destruct g.
  - destruct s as [|c r]; [done|]. destruct (Ascii.eqb c DQUOTE); [done|]. destruct (Ascii.eqb c "{"%char).
    { destruct (expect _ _); [done|]. by apply IH. }
    destruct (Ascii.eqb c "["%char); [|done]. destruct (expect _ _); [done|]. by apply IH.
  - assert (He : scan float_of fuel Value s ≠ Exhausted) by (by intros E; rewrite E in Hne).
    rewrite (IH _ _ _ Hle He). destruct (scan float_of fuel Value s) as [v rest| |]; [|done..].
    destruct (expect "," _); [by apply IH|done].
  - destruct (expect DQUOTE s); [|done]. destruct (scan_string _ _) as [name rest| |]; [|done..].
    destruct (expect ":" _) as [r|]; [|done].
    assert (He : scan float_of fuel Value (skip_ws r) ≠ Exhausted) by (by intros E; rewrite E in Hne).
    rewrite (IH _ _ _ Hle He). destruct (scan float_of fuel Value (skip_ws r)) as [v rest'| |]; [|done..].
    destruct (expect "," _); [by apply IH|done].
Qed.

End Totality.

(** ** What is printed is read back *)

(** The white space of a printer, by nesting level: behind an opening bracket, behind a comma, in front of a closing
    bracket, and behind a colon. *)
Record style := Style { sy_open : nat → string; sy_item : nat → string; sy_close : nat → string; sy_colon : string }.

Definition compact : style := Style (λ _, "") (λ _, "") (λ _, "") "".
Definition spaced : style := Style (λ _, "") (λ _, " ") (λ _, "") " ".

Definition blank (w : string) : bool := str_forallb is_ws w.

Definition blank_style (st : style) : Prop :=
  ∀ n, blank (sy_open st n) = true ∧ blank (sy_item st n) = true ∧ blank (sy_close st n) = true ∧ blank (sy_colon st) = true.

(** [json.dumps] in some style *)
Fixpoint render (st : style) (level : nat) (v : pyval) : string :=
  match v with
  | PList [] => "[]"
  | PList l =>
      "[" +:+ sy_open st (S level) +:+ join ("," +:+ sy_item st (S level)) (render st (S level) <$> l)
      +:+ sy_close st level +:+ "]"
  | PDict [] => "{}"
  | PDict d =>
      "{" +:+ sy_open st (S level)
      +:+ join ("," +:+ sy_item st (S level)) ((λ kv, json_str kv.1 +:+ ":" +:+ sy_colon st +:+ render st (S level) kv.2) <$> d)
      +:+ sy_close st level +:+ "}"
  | v => json_dumps v
  end.

(** Induction over nested values. *)
Lemma pyval_nested_ind (P : pyval → Prop) :
  P PNone → (∀ b, P (PBool b)) → (∀ z, P (PInt z)) → (∀ n d t, P (PFloat n d t)) → (∀ s, P (PStr s)) →
  (∀ l, Forall P l → P (PList l)) → (∀ d, Forall (λ kv, P kv.2) d → P (PDict d)) → ∀ v, P v.
Proof.
  intros Hnone Hbool Hint Hfloat Hstr Hlist Hdict. fix IH 1. intros [|b|z|n d t|s|l|d].
  - exact Hnone.
  - apply Hbool.
  - apply Hint.
  - apply Hfloat.
  - apply Hstr.
  - apply Hlist. induction l as [|v l IHl]; constructor; [apply IH|apply IHl].
  - apply Hdict. induction d as [|[k v] d IHd]; constructor; [apply IH|apply IHd].
Qed.

Lemma render_compact level v : render compact level v = json_dumps v.
Proof.
  revert level. induction v as [| | | | |l Hl|d Hd] using pyval_nested_ind; intros level; try done.
  - assert (E : render compact (S level) <$> l = json_dumps <$> l).
    { apply list_fmap_ext. intros i x Hx. rewrite Forall_forall in Hl. apply Hl. by eapply list_elem_of_lookup_2. }
    destruct l as [|v l]; [done|].
    change (render compact level (PList (v :: l))) with ("[" +:+ join "," (render compact (S level) <$> v :: l) +:+ "]").
    rewrite E. done.
  - assert (E : (λ kv, json_str kv.1 +:+ ":" +:+ render compact (S level) kv.2) <$> d =
      (λ kv, json_str kv.1 +:+ ":" +:+ json_dumps kv.2) <$> d).
    { apply list_fmap_ext. intros i x Hx. rewrite Forall_forall in Hd. rewrite (Hd x) by (by eapply list_elem_of_lookup_2). done. }
    destruct d as [|kv d]; [done|].
    change (render compact level (PDict (kv :: d))) with
      ("{" +:+ join "," ((λ kv, json_str kv.1 +:+ ":" +:+ render compact (S level) kv.2) <$> kv :: d) +:+ "}").
    rewrite E. done.
Qed.

(** *** Strings *)

(** Every character comes back from its escape, whatever follows. *)
Lemma scan_char start c d s :
  scan_string start (json_chars (String c "") +:+ String d s) = prepend (String c "") (scan_string start (String d s)).
Proof. destruct c as [[] [] [] [] [] [] [] []]; reflexivity. Qed.

Lemma json_chars_cons c s : json_chars (String c s) = json_chars (String c "") +:+ json_chars s.
Proof. cbn [json_chars]. by rewrite str_app_nil_r. Qed.

Lemma scan_json_chars start s rest : scan_string start (json_chars s +:+ String DQUOTE rest) = Parsed s rest.
Proof.
  induction s as [|c s IH]; [done|]. rewrite json_chars_cons, str_app_assoc.
  destruct (json_chars s +:+ String DQUOTE rest) as [|d t] eqn:E; [by destruct (json_chars s)|].
  by rewrite scan_char, IH.
Qed.

Lemma json_str_cons s rest : json_str s +:+ rest = String DQUOTE (json_chars s +:+ String DQUOTE rest).
Proof. unfold json_str. by rewrite str_app_assoc. Qed.

(** *** Numbers *)

(** A character that does not go on with a number. *)
Definition ends_number (s : string) : bool :=
  match s with
  | "" => true
  | String c _ => negb (is_digit c || Ascii.eqb c "."%char || Ascii.eqb c "e"%char || Ascii.eqb c "E"%char)
  end.

Lemma span_while_app p a r :
  str_forallb p a = true → match r with "" => True | String c _ => p c = false end → span_while p (a +:+ r) = (a, r).
Proof.
  intros Ha Hr. induction a as [|c a IH]; cbn in *.
  - destruct r as [|c r]; [done|]. cbn. by rewrite Hr.
  - apply andb_true_iff in Ha as [Hc Ha]. by rewrite Hc, IH.
Qed.

Lemma pretty_N_go_head x s : (0 < x)%N → ∃ c t, pretty_N_go x s = String c t ∧ c ≠ "0"%char.
Proof.
  revert s. induction (N.lt_wf_0 x) as [x _ IH]; intros s Hx. rewrite pretty_N_go_step by done.
  destruct (decide (x < 10)%N) as [Hlt|Hge].
  - rewrite (N.div_small x 10) by done. rewrite pretty_N_go_0. eexists _, _. split; [done|].
    rewrite N.mod_small by done. assert (Hc : digit_val (pretty_N_char x) = Z.of_N x) by by apply pretty_N_char_val.
    intros E. rewrite E in Hc. change (digit_val "0"%char) with 0 in Hc. lia.
  - apply IH; [apply N.div_lt; lia|]. apply N.div_str_pos. lia.
Qed.

Lemma scan_digits_app ds rest :
  ds ≠ "" → str_forallb is_digit ds = true → ends_number rest = true → scan_digits (ds +:+ rest) = Some (ds, rest).
Proof.
  intros Hne Hds Hrest. unfold scan_digits. rewrite span_while_app; [by rewrite (proj2 (String.eqb_neq ds "") Hne)|done|].
  destruct rest as [|c rest]; [done|]. cbn [ends_number] in Hrest. by destruct (is_digit c).
Qed.

Lemma no_fraction rest : ends_number rest = true → scan_fraction rest = ("", rest) ∧ scan_exponent rest = ("", rest).
Proof.
  destruct rest as [|c rest]; [done|]. cbn [ends_number]. unfold scan_fraction, scan_exponent. cbn [expect].
  by destruct (is_digit c), (Ascii.eqb c "."), (Ascii.eqb c "e"), (Ascii.eqb c "E").
Qed.

(** The digits of a natural number, behind an optional minus sign. *)
Lemma scan_whole (x : N) rest :
  ends_number rest = true →
  match expect "0" (pretty x +:+ rest) with Some r => Some ("0", r) | None => scan_digits (pretty x +:+ rest) end
  = Some (pretty x, rest).
Proof.
  intros Hrest. destruct (decide (x = 0%N)) as [->|Hx]; [done|].
  assert (Hd : scan_digits (pretty x +:+ rest) = Some (pretty x, rest)).
  { apply scan_digits_app; [|apply pretty_N_digits|done]. by destruct (pretty_N_cons x) as (c & s & -> & _). }
  rewrite Hd. destruct (expect "0" (pretty x +:+ rest)) eqn:E; [|done]. apply expect_Some in E.
  destruct (pretty_N_go_head x "") as (c & t & Ht & Hc); [lia|].
  assert (pretty x = String c t) as Hp. { unfold pretty, pretty_N. by rewrite decide_False. }
  rewrite Hp in E. by injection E.
Qed.

Lemma scan_int z rest : ends_number rest = true → scan_number (str_of_Z z +:+ rest) = Some (str_of_Z z, false, rest).
Proof.
  intros Hrest. destruct (no_fraction _ Hrest) as [Hf He].
  assert (Hpos : ∀ x : N, expect "-" (pretty x +:+ rest) = None).
  { intros x. destruct (pretty_N_cons x) as (c & s & -> & Hc). cbn. by destruct (Ascii.eqb_spec c "-") as [->|]. }
  destruct z as [|p|p].
  - unfold scan_number. cbn. by rewrite Hf, He.
  - change (str_of_Z (Z.pos p)) with (pretty (N.pos p)). unfold scan_number. rewrite Hpos, scan_whole by done. cbn.
    rewrite Hf, He. cbn. by rewrite !str_app_nil_r.
  - change (str_of_Z (Z.neg p)) with ("-" +:+ pretty (N.pos p)). unfold scan_number. rewrite str_app_assoc.
    change (expect "-" ("-" +:+ pretty (N.pos p) +:+ rest)) with (Some (pretty (N.pos p) +:+ rest)). cbn beta iota.
    rewrite scan_whole by done. cbn. rewrite Hf, He. cbn. by rewrite !str_app_nil_r.
Qed.

(** *** Values *)

Lemma skip_blank w s : blank w = true → skip_ws (w +:+ s) = skip_ws s.
Proof. induction w as [|c w IH]; [done|]. cbn. intros [Hc Hw]%andb_true_iff. rewrite Hc. by apply IH. Qed.

Lemma join_first sep w ws : ∃ t, join sep (w :: ws) = w +:+ t.
Proof. destruct ws as [|u ws]; [exists ""; by rewrite str_app_nil_r|eexists; by rewrite join_cons]. Qed.

(** A character other than white space comes next. *)
Definition solid (s : string) : Prop := match s with String c _ => is_ws c = false | "" => False end.

Lemma solid_app s t : solid s → solid (s +:+ t).
Proof. by destruct s. Qed.

Lemma expect_app c s t : expect c s = None → solid s → expect c (s +:+ t) = None.
Proof. destruct s as [|a s]; [done|]. cbn. by destruct (Ascii.eqb a c). Qed.

Lemma skip_solid s t : solid s → skip_ws (s +:+ t) = s +:+ t.
Proof. destruct s as [|c s]; [done|]. cbn. by intros ->. Qed.

Lemma ws_ends_number c s : is_ws c = true → ends_number (String c s) = true.
Proof. destruct c as [[] [] [] [] [] [] [] []]; (discriminate || reflexivity). Qed.

Lemma blank_ends w c s : blank w = true → ends_number (String c s) = true → ends_number (w +:+ String c s) = true.
Proof. destruct w as [|a w]; [done|]. cbn. intros [Ha _]%andb_true_iff _. exact (ws_ends_number a (w +:+ String c s) Ha). Qed.

(** A number starts with a digit, or a minus sign and a digit. *)
Definition starts_number (s : string) : bool :=
  match s with
  | String c r => is_digit c || (Ascii.eqb c "-" && match r with String d _ => is_digit d | "" => false end)
  | "" => false
  end.

Lemma scan_number_starts s x : scan_number s = Some x → starts_number s = true.
Proof.
  assert (Hw : ∀ t y, match expect "0" t with Some r => Some ("0", r) | None => scan_digits t end = Some y →
    match t with String d _ => is_digit d = true | "" => False end).
  { intros t y. destruct t as [|d t]; [done|]. cbn [expect]. destruct (Ascii.eqb_spec d "0"%char) as [->|_]; [done|].
    unfold scan_digits. cbn [span_while]. by destruct (is_digit d). }
  unfold scan_number. destruct s as [|c s]; [done|]. cbn [expect]. destruct (Ascii.eqb_spec c "-"%char) as [->|_].
  - intros (y & Hy%Hw & _)%bind_Some. destruct s as [|d s]; [done|]. cbn. by rewrite Hy.
  - intros (y & Hy%Hw & _)%bind_Some. cbn. by rewrite Hy.
Qed.

Lemma starts_number_solid s : starts_number s = true → solid s ∧ expect "]" s = None.
Proof. destruct s as [|[[] [] [] [] [] [] [] []] s]; (discriminate || (split; reflexivity)). Qed.

Section RoundTrip.
Context (float_of : string → pyval).

(** The text of a float is one that [float] reads back: [float(repr(x)) == x] of the standard library. *)
Definition float_text (n : Z) (d : positive) (t : string) : Prop :=
  (∀ rest, ends_number rest = true → scan_number (t +:+ rest) = Some (t, true, rest)) ∧ float_of t = PFloat n d t.

(** Values whose text determines them: no object has a name twice. *)
Fixpoint readable (v : pyval) : Prop :=
  match v with
  | PFloat n d t => float_text n d t
  | PList l => foldr and True (readable <$> l)
  | PDict d => NoDup d.*1 ∧ foldr and True ((λ kv, readable kv.2) <$> d)
  | _ => True
  end.

Lemma readable_list l : readable (PList l) ↔ Forall readable l.
Proof using Type. cbn. induction l as [|v l IH]; [done|]. cbn. by rewrite Forall_cons, IH. Qed.

Lemma readable_dict d : readable (PDict d) ↔ NoDup d.*1 ∧ Forall (λ kv, readable kv.2) d.
Proof using Type. cbn. f_equiv. induction d as [|kv d IH]; [done|]. cbn. by rewrite Forall_cons, IH. Qed.

Definition reads (g : goal) (s : string) (v : pyval) (rest : string) : Prop := ∃ fuel, scan float_of fuel g s = Parsed v rest.

Lemma word_of_number s : starts_number s = true → word float_of s = None.
Proof using Type.
  destruct s as [|[[] [] [] [] [] [] [] []] s]; (discriminate || (intros _; reflexivity) || idtac).
  destruct s as [|[[] [] [] [] [] [] [] []] s]; (discriminate || (intros _; reflexivity)).
Qed.

(** Numbers: what the scanner takes for one is read as one. *)
Lemma reads_number s v rest : number float_of s = Some (v, rest) → reads Value s v rest.
Proof using Type.
  intros Hn. assert (Hs : starts_number s = true).
  { unfold number in Hn. apply bind_Some in Hn as (x & Hx & _). by eapply scan_number_starts. }
  exists 1%nat. cbn [scan]. rewrite (word_of_number s Hs), Hn. destruct s as [|c s]; [done|].
  destruct (Ascii.eqb_spec c DQUOTE) as [->|_]; [done|]. destruct (Ascii.eqb_spec c "{"%char) as [->|_]; [done|].
  by destruct (Ascii.eqb_spec c "["%char) as [->|_].
Qed.

(** Strings *)
Lemma reads_string s rest : reads Value (json_str s +:+ rest) (PStr s) rest.
Proof using Type. rewrite json_str_cons. exists 1%nat. cbn [scan]. by rewrite scan_json_chars. Qed.

(** Arrays and objects, element by element *)
Lemma reads_last before s v rest rest' :
  reads Value s v rest → skip_ws rest = String "]" rest' → reads (Elements before) s (PList (before ++ [v])) rest'.
Proof using Type. intros [fuel Hv] Hr. exists (S fuel). cbn [scan]. by rewrite Hv, Hr. Qed.

Lemma reads_next before s v rest more w rest' :
  reads Value s v rest → skip_ws rest = String "," more → reads (Elements (before ++ [v])) (skip_ws more) w rest' →
  reads (Elements before) s w rest'.
Proof using Type.
  intros [f1 Hv] Hr [f2 Hw]. exists (S (f1 + f2)). cbn [scan].
  rewrite (scan_more _ f1), Hv, Hr by (lia || by rewrite Hv). cbn [expect]. rewrite Ascii.eqb_refl.
  rewrite (scan_more _ f2); [done|lia|by rewrite Hw].
Qed.

Lemma reads_array s v rest : solid s → expect "]" s = None → reads (Elements []) s v rest →
  ∀ w, blank w = true → reads Value ("[" +:+ w +:+ s) v rest.
Proof using Type.
  intros Hs Hne [fuel Hv] w Hw. exists (S fuel). cbn [scan]. cbn -[skip_ws scan expect].
  pose proof (skip_solid s "" Hs) as E. rewrite str_app_nil_r in E. by rewrite skip_blank, E, Hne.
Qed.

Lemma expect_colon s : expect ":" (skip_ws (":" +:+ s)) = Some s.
Proof using Type. done. Qed.

Lemma reads_member_last before name w s v rest rest' :
  blank w = true → solid s → reads Value s v rest → skip_ws rest = String "}" rest' →
  reads (Members before) (json_str name +:+ ":" +:+ w +:+ s) (PDict (dict_update [] (before ++ [(name, v)]))) rest'.
Proof using Type.
  intros Hw Hs [fuel Hv] Hr. exists (S fuel). cbn [scan]. rewrite json_str_cons. cbn [expect]. rewrite Ascii.eqb_refl.
  rewrite scan_json_chars. cbv beta iota. rewrite expect_colon. cbv beta iota. rewrite skip_blank by done.
  pose proof (skip_solid s "" Hs) as E. rewrite str_app_nil_r in E. by rewrite E, Hv, Hr.
Qed.

Lemma reads_member_next before name w s v rest more u rest' :
  blank w = true → solid s → reads Value s v rest → skip_ws rest = String "," more →
  reads (Members (before ++ [(name, v)])) (skip_ws more) u rest' →
  reads (Members before) (json_str name +:+ ":" +:+ w +:+ s) u rest'.
Proof using Type.
  intros Hw Hs [f1 Hv] Hr [f2 Hu]. exists (S (f1 + f2)). cbn [scan]. rewrite json_str_cons. cbn [expect]. rewrite Ascii.eqb_refl.
  rewrite scan_json_chars. cbv beta iota. rewrite expect_colon. cbv beta iota. rewrite skip_blank by done.
  pose proof (skip_solid s "" Hs) as E. rewrite str_app_nil_r in E. rewrite E.
  rewrite (scan_more _ f1), Hv, Hr by (lia || by rewrite Hv). cbn [expect]. rewrite Ascii.eqb_refl.
  rewrite (scan_more _ f2); [done|lia|by rewrite Hu].
Qed.

Lemma reads_object s v rest : solid s → expect "}" s = None → reads (Members []) s v rest →
  ∀ w, blank w = true → reads Value ("{" +:+ w +:+ s) v rest.
Proof using Type.
  intros Hs Hne [fuel Hv] w Hw. exists (S fuel). cbn [scan]. cbn -[skip_ws scan expect].
  pose proof (skip_solid s "" Hs) as E. rewrite str_app_nil_r in E. by rewrite skip_blank, E, Hne.
Qed.

(** The text of a value starts with a character that is neither white space nor a closing bracket. *)
Lemma render_solid st level v : readable v → solid (render st level v) ∧ expect "]" (render st level v) = None.
Proof using Type.
  assert (Hnum : ∀ t b, (∀ rest, ends_number rest = true → scan_number (t +:+ rest) = Some (t, b, rest)) → solid t ∧ expect "]" t = None).
  { intros t b Ht. apply starts_number_solid. specialize (Ht "" eq_refl). rewrite str_app_nil_r in Ht. by eapply scan_number_starts. }
  destruct v as [|[]|z|n d t|s|[|v l]|[|kv d]]; try done.
  - intros _. apply (Hnum _ false), scan_int.
  - intros [Ht _]. by apply (Hnum _ true).
Qed.

Section Style.
Context (st : style) (Hst : blank_style st).

Definition reads_back (v : pyval) : Prop :=
  ∀ level rest, ends_number rest = true → reads Value (render st level v +:+ rest) v rest.

Lemma reads_elements level before l w rest :
  l ≠ [] → blank w = true → Forall readable l → Forall reads_back l →
  reads (Elements before) (join ("," +:+ sy_item st level) (render st level <$> l) +:+ w +:+ String "]" rest)
    (PList (before ++ l)) rest.
Proof using Hst.
  intros Hne Hw Hr Hb. revert before Hne. induction l as [|v l IH]; intros before Hne; [done|].
  apply Forall_cons in Hr as [Hv Hr], Hb as [Hvb Hb]. destruct l as [|u l].
  - eapply reads_last; [apply Hvb|]; [by apply blank_ends|]. by rewrite skip_blank.
  - rewrite fmap_cons, join_cons by done. rewrite !str_app_assoc.
    eapply reads_next; [apply Hvb; reflexivity|reflexivity|].
    destruct (Hst level) as (_ & Hi & _ & _). rewrite skip_blank by done.
    specialize (IH Hr Hb (before ++ [v]) ltac:(done)). rewrite <- app_assoc in IH.
    assert (Hsolid : solid (join ("," +:+ sy_item st level) (render st level <$> u :: l))).
    { apply Forall_cons in Hr as [Hu _]. destruct (render_solid st level u Hu) as [Hs _].
      rewrite fmap_cons. edestruct (join_first ("," +:+ sy_item st level)) as [t ->]. by apply solid_app. }
    by rewrite skip_solid.
Qed.

Lemma reads_members level before d w rest :
  d ≠ [] → blank w = true → Forall (λ kv, readable kv.2) d → Forall (λ kv, reads_back kv.2) d →
  reads (Members before)
    (join ("," +:+ sy_item st level) ((λ kv, json_str kv.1 +:+ ":" +:+ sy_colon st +:+ render st level kv.2) <$> d)
      +:+ w +:+ String "}" rest)
    (PDict (dict_update [] (before ++ d))) rest.
Proof using Hst.
  intros Hne Hw Hr Hb. destruct (Hst level) as (_ & Hi & _ & Hc).
  revert before Hne. induction d as [|[k v] d IH]; intros before Hne; [done|].
  apply Forall_cons in Hr as [Hv Hr], Hb as [Hvb Hb]. cbn [fst snd] in Hv, Hvb.
  assert (Hvs : ∀ t, solid (render st level v +:+ t)) by (intros t; by apply solid_app, render_solid).
  destruct d as [|[k' u] d].
  - cbn [fmap list_fmap fst snd join String.concat]. rewrite !str_app_assoc.
    eapply reads_member_last; [done|apply Hvs|apply Hvb; by apply blank_ends|by rewrite skip_blank].
  - rewrite fmap_cons, join_cons by done. cbn [fst snd]. rewrite !str_app_assoc.
    eapply reads_member_next; [done|apply Hvs|apply Hvb; reflexivity|reflexivity|].
    rewrite skip_blank by done. specialize (IH Hr Hb (before ++ [(k, v)]) ltac:(done)). rewrite <- app_assoc in IH.
    rewrite skip_solid; [exact IH|]. rewrite fmap_cons. by edestruct (join_first ("," +:+ sy_item st level)) as [t ->].
Qed.

Lemma reads_render v : readable v → reads_back v.
Proof using Hst.
  induction v as [|b|z|n d t|s|l IH|d IH] using pyval_nested_ind; intros Hv level rest Hrest.
  - by exists 1%nat.
  - exists 1%nat. by destruct b.
  - apply reads_number. unfold number. cbn [render json_dumps]. rewrite scan_int by done. cbn. by rewrite py_int_str.
  - apply reads_number. destruct Hv as [Ht Hf]. unfold number. cbn [render json_dumps]. rewrite Ht by done. cbn. by rewrite Hf.
  - apply reads_string.
  - apply readable_list in Hv. destruct l as [|v l]; [by exists 1%nat|].
    destruct (Hst (S level)) as (Ho & _). destruct (Hst level) as (_ & _ & Hcl & _).
    assert (Hb : Forall reads_back (v :: l)). { rewrite Forall_forall in *. intros x Hx. by apply IH, Hv. }
    cbn [render]. rewrite !str_app_assoc. apply reads_array; [| |by apply reads_elements|done].
    all: apply Forall_cons in Hv as [Hv _]; destruct (render_solid st (S level) v Hv) as [Hs He];
      rewrite fmap_cons; destruct (join_first ("," +:+ sy_item st (S level)) (render st (S level) v) (render st (S level) <$> l)) as [t ->];
      rewrite str_app_assoc; by (apply solid_app || apply expect_app).
  - apply readable_dict in Hv as [Hnd Hv]. destruct d as [|[k v] d]; [by exists 1%nat|].
    destruct (Hst (S level)) as (Ho & _). destruct (Hst level) as (_ & _ & Hcl & _).
    assert (Hb : Forall (λ kv, reads_back kv.2) ((k, v) :: d)). { rewrite Forall_forall in *. intros x Hx. by apply IH, Hv. }
    pose proof (reads_members (S level) [] ((k, v) :: d) (sy_close st level) rest ltac:(done) Hcl Hv Hb) as H.
    rewrite dict_update_fresh in H by done.
    cbn [render]. rewrite !str_app_assoc. apply reads_object; [| |exact H|done].
    all: rewrite fmap_cons; cbn [fst snd];
      edestruct (join_first ("," +:+ sy_item st (S level))) as [t ->]; rewrite !str_app_assoc; done.
Qed.

(** A printed value, with white space around it, is read back. *)
Lemma loads_render before after level v :
  blank before = true → blank after = true → readable v → loads float_of (before +:+ render st level v +:+ after) = Ok v.
Proof using Hst.
  intros Hb Ha Hv. set (text := before +:+ _).
  assert (Hends : ends_number after = true) by (destruct after as [|c a]; [done|]; cbn in Ha; apply ws_ends_number; by destruct (is_ws c)).
  destruct (reads_render v Hv level after Hends) as [fuel Hf].
  destruct (render_solid st level v Hv) as [Hs _].
  assert (Hskip : skip_ws text = render st level v +:+ after) by (subst text; by rewrite skip_blank, skip_solid).
  assert (Hscan : scan float_of (scan_fuel text) Value (skip_ws text) = Parsed v after).
  { pose proof (loads_total float_of text) as Hne.
    destruct (Nat.le_ge_cases fuel (scan_fuel text)) as [Hle|Hle]; [by rewrite (scan_more _ fuel), Hskip, Hf by (done || by rewrite Hskip, Hf)|].
    rewrite <- (scan_more _ _ fuel _ _ Hle Hne). by rewrite Hskip. }
  unfold loads. rewrite Hscan. cbv zeta.
  assert (Hw : skip_ws after = ""). { pose proof (skip_blank after "" Ha) as E. by rewrite str_app_nil_r in E. }
  rewrite Hw. destruct (startswith _ text) eqn:E; [|done].
  assert (Hc : match text with String c _ => ord c = 239%nat | "" => False end) by (by destruct text as [|[[] [] [] [] [] [] [] []] t]).
  revert Hc. destruct before as [|c b]; subst text; cbn.
  - intros Hc. pose proof (render_solid st level v Hv).
    assert (Hr : ∀ r x, scan_number r = Some x → match r with String c _ => ord c ≠ 239%nat | "" => False end).
    { intros r x Hx%scan_number_starts. by destruct r as [|[[] [] [] [] [] [] [] []] r]. }
    exfalso. destruct v as [|[]|z|n d t|s|[|v l]|[|kv d]]; try done.
    + pose proof (Hr _ _ (scan_int z after Hends)) as Hn. cbn [render json_dumps] in Hc. by destruct (str_of_Z z +:+ after).
    + destruct Hv as [Ht _]. pose proof (Hr _ _ (Ht after Hends)) as Hn. cbn [render json_dumps] in Hc. by destruct (t +:+ after).
  - intros Hc. exfalso. cbn in Hb. by destruct c as [[] [] [] [] [] [] [] []].
Qed.

End Style.
End RoundTrip.

(** ** Values without floats *)

(** No float, and no object with a name twice: what the programs of the repository send and store. *)
Fixpoint plain (v : pyval) : bool :=
  match v with
  | PFloat _ _ _ => false
  | PList l => forallb plain l
  | PDict d => bool_decide (NoDup d.*1) && forallb (λ kv, plain kv.2) d
  | _ => true
  end.

Lemma plain_readable float_of v : plain v = true → readable float_of v.
Proof.
  induction v as [| | | | |l IH|d IH] using pyval_nested_ind; try done.
  - intros Hl. apply readable_list. cbn [plain] in Hl. rewrite forallb_forall in Hl.
    rewrite Forall_forall in *. intros v Hv. by apply IH, Hl, list_elem_of_In.
  - intros Hd. apply readable_dict. cbn [plain] in Hd. apply andb_true_iff in Hd as [Hnd%bool_decide_eq_true Hd]. split; [done|].
    rewrite forallb_forall in Hd. rewrite Forall_forall in *. intros kv Hkv. by apply IH, Hd, list_elem_of_In.
Qed.

Definition no_break (s : string) : bool := str_forallb (λ c, negb (is_line_break c)) s.

Lemma no_break_app a b : no_break (a +:+ b) = no_break a && no_break b.
Proof. apply str_forallb_app. Qed.

Lemma no_break_join sep l : no_break sep = true → Forall (λ s, no_break s = true) l → no_break (join sep l) = true.
Proof.
  intros Hsep. induction 1 as [|s l Hs Hl IH]; [done|]. destruct l as [|s' l]; [done|].
  rewrite join_cons, !no_break_app, Hs, Hsep by done. by rewrite IH.
Qed.

Lemma no_break_lacks s : no_break s = true → lacks NL s = true.
Proof. apply str_forallb_impl. intros c. by destruct c as [[] [] [] [] [] [] [] []]. Qed.

Lemma no_break_json_str s : no_break (json_str s) = true.
Proof.
  unfold json_str. change (String DQUOTE (json_chars s) +:+ String DQUOTE "") with (String DQUOTE (json_chars s +:+ String DQUOTE "")).
  change (no_break (json_chars s +:+ String DQUOTE "") = true). rewrite no_break_app, andb_true_r.
  induction s as [|c s IH]; [done|]. rewrite json_chars_cons, no_break_app, IH, andb_true_r.
  by destruct c as [[] [] [] [] [] [] [] []].
Qed.

Lemma no_break_str_of_Z z : no_break (str_of_Z z) = true.
Proof.
  apply (str_forallb_impl is_int_char); [|apply str_of_Z_int_chars]. intros c. by destruct c as [[] [] [] [] [] [] [] []].
Qed.

(** A style without line breaks prints one line. *)
Lemma no_break_render st v level :
  (∀ n, no_break (sy_open st n +:+ sy_item st n +:+ sy_close st n +:+ sy_colon st) = true) → plain v = true →
  no_break (render st level v) = true.
Proof.
  intros Hst. assert (Hs : ∀ n, no_break (sy_open st n) = true ∧ no_break (sy_item st n) = true ∧
    no_break (sy_close st n) = true ∧ no_break (sy_colon st) = true).
  { intros n. specialize (Hst n). rewrite !no_break_app, !andb_true_iff in Hst. tauto. }
  clear Hst. revert level. induction v as [|[]|z| |s|l IH|d IH] using pyval_nested_ind; intros level Hv; try done.
  - apply no_break_str_of_Z.
  - apply no_break_json_str.
  - destruct l as [|v l]; [done|]. destruct (Hs (S level)) as (Ho & Hi & _), (Hs level) as (_ & _ & Hc & _).
    cbn [render]. rewrite !no_break_app, Ho, Hc. rewrite no_break_join; [done|by rewrite no_break_app, Hi|].
    cbn [plain] in Hv. rewrite forallb_forall in Hv. rewrite Forall_forall in IH. apply Forall_forall.
    intros t (u & -> & Hu)%list_elem_of_fmap. apply IH; [done|]. by apply Hv, list_elem_of_In.
  - destruct d as [|kv d]; [done|]. destruct (Hs (S level)) as (Ho & Hi & _ & Hcol), (Hs level) as (_ & _ & Hc & _).
    cbn [render]. rewrite !no_break_app, Ho, Hc. rewrite no_break_join; [done|by rewrite no_break_app, Hi|].
    cbn [plain] in Hv. apply andb_true_iff in Hv as [_ Hv]. rewrite forallb_forall in Hv. rewrite Forall_forall in IH. apply Forall_forall.
    intros t (u & -> & Hu)%list_elem_of_fmap. rewrite !no_break_app, no_break_json_str, Hcol.
    rewrite IH; [done..|]. by apply Hv, list_elem_of_In.
Qed.

(** What the decoder gives has no name twice in an object: [plain] up to its floats. *)
Fixpoint unique_names (v : pyval) : bool :=
  match v with
  | PList l => forallb unique_names l
  | PDict d => bool_decide (NoDup d.*1) && forallb (λ kv, unique_names kv.2) d
  | _ => true
  end.

Lemma unique_names_update d1 d2 :
  forallb (λ kv, unique_names kv.2) d1 = true → forallb (λ kv, unique_names kv.2) d2 = true →
  forallb (λ kv, unique_names kv.2) (dict_update d1 d2) = true.
Proof.
  unfold dict_update. revert d1. induction d2 as [|[k v] d2 IH]; intros d1 H1 H2; [done|]. cbn in H2.
  apply andb_true_iff in H2 as [Hv H2]. apply IH; [|done]. clear IH H2 d2. cbn [fst snd].
  induction d1 as [|[k' v'] d1 IH]; cbn in *; [by rewrite Hv|]. apply andb_true_iff in H1 as [Hv' H1].
  destruct (String.eqb k' k); cbn; [by rewrite Hv, H1|by rewrite Hv', IH].
Qed.

Lemma scan_unique_names float_of fuel g s v rest :
  (∀ t, unique_names (float_of t) = true) →
  match g with
  | Value => True
  | Elements before => forallb unique_names before = true
  | Members before => forallb (λ kv, unique_names kv.2) before = true
  end → scan float_of fuel g s = Parsed v rest → unique_names v = true.
Proof.
  intros Hfl. revert g s v rest. induction fuel as [|fuel IH]; intros g s v rest Hg Hs; [done|]. cbn [scan] in Hs.
  destruct g as [|before|before].
  - destruct s as [|c r]; [done|].
    destruct (Ascii.eqb c DQUOTE); [destruct (scan_string _ r); by simplify_eq|].
    destruct (Ascii.eqb c "{"%char); [destruct (expect "}" _); [by simplify_eq|by eapply IH in Hs]|].
    destruct (Ascii.eqb c "["%char); [destruct (expect "]" _); [by simplify_eq|by eapply IH in Hs]|].
    destruct (word float_of (String c r)) as [[u t]|] eqn:Ew.
    + injection Hs as -> ->. unfold word in Ew.
      assert (Hall : Forall (λ wv, unique_names wv.2 = true) (words float_of)) by (repeat constructor; cbn; apply Hfl).
      revert Ew. induction Hall as [|[w x] ws Hx _ IHw]; [done|]. cbn [first_word].
      destruct (strip_prefix w _); [by intros [= <- _]|exact IHw].
    + destruct (number float_of (String c r)) as [[u t]|] eqn:En; [|done]. injection Hs as -> ->.
      unfold number in En. apply bind_Some in En as ([[text b] r'] & _ & En).
      destruct b; [injection En as <- _; apply Hfl|]. apply bind_Some in En as (z & _ & [= <- _]). done.
  - destruct (scan float_of fuel Value s) as [u t| |] eqn:Ev; [|done..]. apply IH in Ev; [|done].
    assert (Hb : forallb unique_names (before ++ [u]) = true) by (rewrite forallb_app, Hg; cbn; by rewrite Ev).
    destruct (expect "," _); [by eapply (IH (Elements _)) in Hs|]. destruct (expect "]" _); [|done]. by injection Hs as <- _.
  - destruct (expect DQUOTE s); [|done]. destruct (scan_string _ _) as [name t| |]; [|done..].
    destruct (expect ":" _) as [r|]; [|done].
    destruct (scan float_of fuel Value (skip_ws r)) as [u t'| |] eqn:Ev; [|done..]. apply IH in Ev; [|done].
    assert (Hb : forallb (λ kv, unique_names kv.2) (before ++ [(name, u)]) = true) by (rewrite forallb_app, Hg; cbn; by rewrite Ev).
    destruct (expect "," _); [by eapply (IH (Members _)) in Hs|]. destruct (expect "}" _); [|done]. injection Hs as <- _.
    cbn [unique_names]. rewrite unique_names_update by done. rewrite bool_decide_eq_true_2; [done|]. apply dict_update_NoDup. constructor.
Qed.

Lemma loads_unique_names float_of text v :
  (∀ t, unique_names (float_of t) = true) → loads float_of text = Ok v → unique_names v = true.
Proof.
  intros Hfl. unfold loads. destruct (startswith _ text); [done|].
  destruct (scan _ _ _ _) as [u rest| |] eqn:E; [|done..]. destruct (String.eqb _ ""); [|done].
  intros [= ->]. by eapply scan_unique_names in E.
Qed.

(** ** Examples *)

Definition no_float (text : string) : pyval := PFloat 0 1 text.

Definition in_quotes (s : string) : string := String DQUOTE (s +:+ String DQUOTE "").

Example loads_object :
  loads no_float (" {" +:+ in_quotes "a" +:+ " : [1, -20, true, null, " +:+ in_quotes "x\u0041\n" +:+ "], " +:+ in_quotes "b" +:+ ":2, " +:+ in_quotes "b" +:+ ":3}" +:+ nl)
  = Ok (PDict [("a", PList [PInt 1; PInt (-20); PBool true; PNone; PStr ("xA" +:+ nl)]); ("b", PInt 3)]).
Proof. vm_compute. reflexivity. Qed.

Example loads_missing_comma :
  loads no_float "[1 2]" = Err (ValueError "Expecting ',' delimiter: line 1 column 4 (char 3)").
Proof. vm_compute. reflexivity. Qed.

Example loads_extra : loads no_float ("{}" +:+ nl +:+ "x") = Err (ValueError "Extra data: line 2 column 1 (char 3)").
Proof. vm_compute. reflexivity. Qed.

Example loads_leading_zero : loads no_float "01" = Err (ValueError "Extra data: line 1 column 2 (char 1)").
Proof. vm_compute. reflexivity. Qed.
