(* ===== verification/Topology.v ===== *)
(** * Transport topology generation

    Model of [src/real/generate_simbricks_topology.py]: the worker table and the full mesh of
    point-to-point [net_sockets] channels.  The JSON document the script writes is the record
    [topology]; its text is in [NativeFiles]. *)

From S2P Require Import Prelude.

Record worker := Worker {
  w_slot : Z;
  w_hostname : string;
  w_simulated_ip : string;
}.

Record channel := Channel {
  ch_id : string;
  ch_listener_slot : Z;
  ch_connector_slot : Z;
  ch_listener_ip : string;
  ch_tcp_port : Z;
  ch_link_latency_ps : Z;
  ch_sync_interval_ps : Z;
}.

Record topology := Topology {
  top_version : Z;
  top_transport : string;
  top_workers : list worker;
  top_channels : list channel;
}.

Record arguments := Arguments {
  arg_nodes : Z;
  arg_subnet : string;
  arg_base_port : Z;
}.

Definition TRANSPORT : string := "simbricks-baseif-net_sockets".

(** [argparse] rejects any [--nodes] outside the declared choices. *)
Definition nodes_choices : list Z := [1; 2; 4; 8].

(** [itertools.combinations(l, 2)], in its order. *)
Fixpoint combinations2 {A} (l : list A) : list (A * A) :=
  match l with
  | [] => []
  | x :: r => ((λ y, (x, y)) <$> r) ++ combinations2 r
  end.

Definition octet_ok (item : string) : bool :=
  isdigit item && match py_int item with Some v => (0 <=? v) && (v <=? 255) | None => false end.

Definition subnet_ok (subnet : string) : bool :=
  let octets := split_on "." subnet in
  (length octets =? 3)%nat && forallb octet_ok octets.

Definition make_worker (subnet : string) (slot : Z) : worker :=
  Worker slot ("worker-" +:+ str_of_Z slot) (subnet +:+ "." +:+ str_of_Z (slot + 10)).

Definition make_workers (subnet : string) (nodes : Z) : list worker :=
  make_worker subnet <$> seqZ 0 nodes.

(** One iteration of the channel loop. *)
Definition make_channel (workers : list worker) (base_port : Z) (item : Z * (Z * Z)) : result channel :=
  let '(index, (lslot, rslot)) := item in
  let port := base_port + index in
  _ ← raise_if (65535 <? port) (ValueError "not enough TCP ports for requested topology");
  w ← workers !! Z.to_nat lslot ?! IndexError;
  Ok (Channel ("node" +:+ str_of_Z lslot +:+ "-node" +:+ str_of_Z rslot)
        lslot rslot (w_simulated_ip w) port 500000 500000).

Definition make_channels (workers : list worker) (nodes base_port : Z) : result (list channel) :=
  mapM (make_channel workers base_port) (enumerate (combinations2 (seqZ 0 nodes))).

(** The body of [main] after argument parsing. *)
Definition generate (args : arguments) : result topology :=
  _ ← raise_if (negb (subnet_ok (arg_subnet args)))
        (ValueError "--subnet must contain exactly three IPv4 octets");
  _ ← raise_if (negb ((1 <=? arg_base_port args) && (arg_base_port args <=? 65535)))
        (ValueError "--base-port must be a valid TCP port");
  let workers := make_workers (arg_subnet args) (arg_nodes args) in
  channels ← make_channels workers (arg_nodes args) (arg_base_port args);
  Ok (Topology 1 TRANSPORT workers channels).

Definition main (args : arguments) : result topology :=
  _ ← raise_if (negb (bool_decide (arg_nodes args ∈ nodes_choices))) (SystemExit "invalid choice");
  generate args.

Definition default_arguments (nodes : Z) : arguments := Arguments nodes "10.203.0" 9700.

(** ** The pairs of the mesh *)

Lemma length_combinations2 {A} (l : list A) :
  2 * zlen (combinations2 l) = zlen l * (zlen l - 1).
Proof.
  unfold zlen. induction l as [|x l IH]; simpl; [done|].
  rewrite length_app, length_fmap. lia.
Qed.

Lemma combinations2_seqZ a n (x y : Z) :
  (x, y) ∈ combinations2 (seqZ a n) ↔ a ≤ x ∧ x < y ∧ y < a + n.
Proof.
  destruct (decide (n ≤ 0)) as [Hn|Hn].
  { rewrite seqZ_nil by lia. simpl. rewrite elem_of_nil. lia. }
  replace n with (Z.of_nat (Z.to_nat n)) by lia.
  generalize (Z.to_nat n) as k. clear n Hn. intros k. revert a.
  induction k as [|k IH]; intros a.
  { simpl. rewrite elem_of_nil. lia. }
  rewrite (seqZ_cons a) by lia. simpl.
  replace (Z.pred (Z.of_nat (S k))) with (Z.of_nat k) by lia.
  rewrite elem_of_app, list_elem_of_fmap, IH. setoid_rewrite elem_of_seqZ. split.
  - intros [(y' & [= -> ->] & Hy)|H]; lia.
  - intros H. destruct (decide (x = a)) as [->|]; [left; exists y|right]; [split; [done|lia]|lia].
Qed.

Lemma combinations2_NoDup {A} (l : list A) : NoDup l → NoDup (combinations2 l).
Proof.
  induction 1 as [|x l Hx Hl IH]; simpl; [constructor|].
  apply NoDup_app. split_and!; [|intros [a b]|done].
  - apply NoDup_fmap_2; [intros ?? [=]; done|done].
  - rewrite list_elem_of_fmap. intros (y & [= -> ->] & Hy) Hin.
    apply Hx. clear -Hin. induction l as [|z l IH]; simpl in *; [set_solver|].
    rewrite elem_of_app, list_elem_of_fmap in Hin. set_solver.
Qed.

Lemma lookup_make_workers subnet nodes lslot :
  0 ≤ lslot < nodes → make_workers subnet nodes !! Z.to_nat lslot = Some (make_worker subnet lslot).
Proof.
  intros H. unfold make_workers. rewrite list_lookup_fmap, lookup_seqZ_lt by lia.
  simpl. do 2 f_equal. lia.
Qed.

(** The channel of the [index]-th pair, when its port is in range. *)
Definition channel_of (subnet : string) (base_port : Z) (item : Z * (Z * Z)) : channel :=
  let '(index, (lslot, rslot)) := item in
  Channel ("node" +:+ str_of_Z lslot +:+ "-node" +:+ str_of_Z rslot)
    lslot rslot (w_simulated_ip (make_worker subnet lslot)) (base_port + index) 500000 500000.

Lemma make_channel_Ok subnet nodes base_port index lslot rslot c :
  0 ≤ lslot < nodes →
  make_channel (make_workers subnet nodes) base_port (index, (lslot, rslot)) = Ok c ↔
  base_port + index ≤ 65535 ∧ c = channel_of subnet base_port (index, (lslot, rslot)).
Proof.
  intros Hl. unfold make_channel. rewrite lookup_make_workers by done. simpl.
  destruct (65535 <? base_port + index) eqn:Hp; bool_facts; simpl; [|naive_solver lia].
  split; [done|lia].
Qed.

Lemma enumerate_pairs_range nodes index lslot rslot :
  (index, (lslot, rslot)) ∈ enumerate (combinations2 (seqZ 0 nodes)) →
  0 ≤ lslot ∧ lslot < rslot ∧ rslot < nodes ∧ 0 ≤ index < zlen (combinations2 (seqZ 0 nodes)).
Proof.
  rewrite elem_of_enumerate. intros [Hi Hlk].
  assert (Hin : (lslot, rslot) ∈ combinations2 (seqZ 0 nodes)) by (apply list_elem_of_lookup; eauto).
  apply combinations2_seqZ in Hin. apply lookup_lt_Some in Hlk. unfold zlen. lia.
Qed.

(** The channel list succeeds exactly when the last port fits. *)
Lemma make_channels_Ok subnet nodes base_port cs :
  make_channels (make_workers subnet nodes) nodes base_port = Ok cs ↔
  (∀ i, 0 ≤ i < zlen (combinations2 (seqZ 0 nodes)) → base_port + i ≤ 65535) ∧
  cs = channel_of subnet base_port <$> enumerate (combinations2 (seqZ 0 nodes)).
Proof.
  unfold make_channels. set (ps := combinations2 (seqZ 0 nodes)). rewrite mapM_result_Ok.
  assert (Hstep : ∀ x c, x ∈ enumerate ps →
    make_channel (make_workers subnet nodes) base_port x = Ok c ↔
    base_port + x.1 ≤ 65535 ∧ c = channel_of subnet base_port x).
  { intros [i [l r]] c Hx. apply enumerate_pairs_range in Hx as (?&?&?&?).
    apply make_channel_Ok. lia. }
  assert (Hall : (∀ i, 0 ≤ i < zlen ps → base_port + i ≤ 65535) ↔
                 ∀ x, x ∈ enumerate ps → base_port + x.1 ≤ 65535).
  { split.
    - intros H [i p] Hx. apply elem_of_enumerate in Hx as [Hi Hlk].
      simpl. apply H. apply lookup_lt_Some in Hlk. unfold zlen. lia.
    - intros H i Hi. destruct (lookup_lt_is_Some_2 ps (Z.to_nat i)) as [p Hp]; [unfold zlen in Hi; lia|].
      apply (H (i, p)), elem_of_enumerate. split; [lia|done]. }
  rewrite Hall. clear Hall. revert cs Hstep. generalize (enumerate ps) as l. clear ps.
  induction l as [|x l IH]; intros cs Hstep.
  - split; [inversion 1; set_solver|]. intros [_ ->]. constructor.
  - split.
    + inversion 1 as [|? c ? cs' Hx Hl]; subst. apply Hstep in Hx as [? ->]; [|set_solver].
      apply IH in Hl as [? ->]; [|set_solver]. set_solver.
    + intros [Hp ->]. constructor; [apply Hstep; set_solver|].
      apply IH; set_solver.
Qed.


Definition endpoints (c : channel) : Z * Z := (ch_listener_slot c, ch_connector_slot c).

(** How many channels a mesh of [nodes] workers has. *)
Definition mesh_size (nodes : Z) : Z := zlen (combinations2 (seqZ 0 nodes)).

Lemma mesh_size_eq nodes : 0 ≤ nodes → 2 * mesh_size nodes = nodes * (nodes - 1).
Proof.
  intros H. unfold mesh_size. rewrite length_combinations2. unfold zlen.
  rewrite length_seqZ. lia.
Qed.

(** Inversion of a successful generation into its pure description. *)
Lemma generate_Ok args t :
  generate args = Ok t ↔
  subnet_ok (arg_subnet args) = true ∧ 1 ≤ arg_base_port args ≤ 65535 ∧
  arg_base_port args + mesh_size (arg_nodes args) - 1 ≤ 65535 ∧
  t = Topology 1 TRANSPORT (make_workers (arg_subnet args) (arg_nodes args))
        (channel_of (arg_subnet args) (arg_base_port args) <$>
           enumerate (combinations2 (seqZ 0 (arg_nodes args)))).
Proof.
  unfold generate, mesh_size. destruct args as [nodes subnet port]; simpl.
  assert (Hlast : ∀ n, 1 ≤ port ≤ 65535 → 0 ≤ n →
    (∀ i, 0 ≤ i < n → port + i ≤ 65535) ↔ port + n - 1 ≤ 65535).
  { intros n Hp Hn. split; [|lia]. intros H. destruct (decide (n = 0)); [lia|].
    specialize (H (n - 1)). lia. }
  split.
  - intros H. result_inv. bool_facts. apply make_channels_Ok in Ha1 as [Hp ->].
    rewrite (Hlast (zlen (combinations2 (seqZ 0 nodes)))) in Hp by (unfold zlen; lia).
    repeat split; done || lia.
  - intros (-> & Hport & Hp & ->). simpl.
    replace ((1 <=? port) && (port <=? 65535)) with true
      by (symmetry; apply andb_true_iff; lia). simpl.
    assert (make_channels (make_workers subnet nodes) nodes port
      = Ok (channel_of subnet port <$> enumerate (combinations2 (seqZ 0 nodes)))) as ->; [|done].
    apply make_channels_Ok. split; [|done]. apply Hlast; unfold zlen in *; lia.
Qed.

Lemma endpoints_channels subnet port nodes :
  endpoints <$> (channel_of subnet port <$> enumerate (combinations2 (seqZ 0 nodes)))
  = combinations2 (seqZ 0 nodes).
Proof.
  rewrite <- list_fmap_compose. rewrite <- (enumerate_from_snd 0 (combinations2 _)) at 2.
  apply list_fmap_ext. by intros i [k [l r]] _.
Qed.

(** ** Properties *)



(** Port allocation.  Generation succeeds exactly when the subnet and the base port are
    valid and the last channel's port still fits in 16 bits; the ports are then the consecutive
    range from the base port, hence distinct and at most 65535. *)
Theorem generate_ports args :
  (is_ok (generate args) = true ↔
     subnet_ok (arg_subnet args) = true ∧ 1 ≤ arg_base_port args ≤ 65535 ∧
     arg_base_port args + mesh_size (arg_nodes args) - 1 ≤ 65535) ∧
  (∀ t, generate args = Ok t →
     ch_tcp_port <$> top_channels t = seqZ (arg_base_port args) (zlen (top_channels t)) ∧
     ∀ c, c ∈ top_channels t → 1 ≤ ch_tcp_port c ≤ 65535).
Proof.
  assert (Hports : ∀ t, generate args = Ok t →
     ch_tcp_port <$> top_channels t = seqZ (arg_base_port args) (zlen (top_channels t))).
  { intros t (_ & _ & _ & ->)%generate_Ok. simpl. unfold zlen.
    rewrite length_fmap. unfold enumerate at 2. rewrite length_enumerate_from.
    rewrite <- list_fmap_compose.
    assert (∀ (l : list (Z * (Z * Z))) a b, (ch_tcp_port ∘ channel_of a b <$> l) = (Z.add b <$> l.*1)) as ->.
    { intros l a b. rewrite <- list_fmap_compose. apply list_fmap_ext. by intros ? [? [? ?]] _. }
    unfold enumerate. rewrite enumerate_from_fst, fmap_add_seqZ. unfold zlen. f_equal. lia. }
  split.
  - split.
    + destruct (generate args) as [t|] eqn:Ht; [|done]. intros _. apply generate_Ok in Ht. tauto.
    + intros H. assert (∃ t, generate args = Ok t) as [t ->]; [|done].
      eexists. apply generate_Ok. destruct H as (?&?&?). done.
  - intros t Ht. split; [by apply Hports|]. intros c Hc.
    assert (Hin : ch_tcp_port c ∈ ch_tcp_port <$> top_channels t) by (apply list_elem_of_fmap; eauto).
    rewrite (Hports t Ht) in Hin. apply elem_of_seqZ in Hin.
    apply generate_Ok in Ht as (_ & ? & ? & ->). simpl in Hin.
    unfold zlen in Hin. rewrite length_fmap in Hin. unfold enumerate in Hin.
    rewrite length_enumerate_from in Hin. fold (zlen (combinations2 (seqZ 0 (arg_nodes args)))) in Hin.
    fold (mesh_size (arg_nodes args)) in Hin. lia.
Qed.
