(* ===== verification/Placement.v ===== *)
(** * Static process placement

    Model of [src/real/generate_placement.py]: chiplet coordinates of a process, the two
    MLP-specific process orders, and the equal-capacity contiguous partition over the Swarm
    nodes.  The YAML document is given by its two process lists; the JSON document written is
    the record [placement]; its text is in [NativeFiles]. *)

From S2P Require Import Prelude PyValue.

Abbreviation process := pydict.

(** A process with its phase and its index in that phase. *)
Abbreviation source_process := (string * Z * process)%type.
Definition identity (p : source_process) : string * Z := p.1.

(** The parsed YAML; a missing phase reads as an empty list. *)
Record source_config := SourceConfig {
  phase1 : list process;
  phase2 : list process;
}.

Record placed := Placed {
  pl_phase : string;
  pl_process_index : Z;
  pl_node_slot : Z;
  pl_node_label : string;
  pl_coordinates : option (Z * Z);
}.

Record placement := Placement {
  pl_workload : string;
  pl_yaml : string;
  pl_source : pydict;
  pl_swarm_nodes : Z;
  pl_policy : string;
  pl_processes : list placed;
}.

(** [try: return [int(first), int(second)]; except (TypeError, ValueError): continue] over the
    consecutive pairs of the argument list. *)
Fixpoint first_int_pair (arguments : list pyval) : option (Z * Z) :=
  match arguments with
  | a :: (b :: _) as rest =>
      match int_of a, int_of b with
      | Ok x, Ok y => Some (x, y)
      | _, _ => first_int_pair rest
      end
  | _ => None
  end.

Definition process_coordinates (p : process) (phase : string) (index : Z) : result (option (Z * Z)) :=
  if negb (String.eqb phase "phase1") then Ok None
  else
    let no_args := ValueError ("phase-one process " +:+ str_of_Z index +:+ " has no coordinate arguments") in
    arguments ← is_list (dict_get_default "args" (PList []) p) ?! no_args;
    _ ← raise_if (length arguments <? 2)%nat no_args;
    c ← first_int_pair arguments ?!
      ValueError ("phase-one process " +:+ str_of_Z index
                  +:+ " has no consecutive numeric chiplet coordinate pair");
    Ok (Some c).

(** [{(phase, index): process for ...}]: a later entry overwrites an earlier one. *)
Definition by_identity (l : list source_process) : gmap (string * Z) process :=
  foldl (λ m p, <[identity p := p.2]> m) ∅ l.

Definition pick (m : gmap (string * Z) process) (ids : list (string * Z)) : result (list source_process) :=
  mapM (λ id, p ← m !! id ?! KeyError id.1; Ok (id, p)) ids.

Definition communication_aware_identities : list (string * Z) :=
  [("phase1", 4); ("phase1", 0); ("phase1", 1); ("phase1", 2); ("phase1", 3);
   ("phase1", 5); ("phase1", 6); ("phase2", 0)].

Definition communication_aware_mlp_order (l : list source_process) : result (list source_process) :=
  let m := by_identity l in
  _ ← raise_if (negb (bool_decide (dom m = list_to_set communication_aware_identities)))
        (ValueError ("communication-aware MLP placement requires the unmodified "
           +:+ "four-GPU, CPU, DSA, MNSIM and PopNet process graph"));
  pick m communication_aware_identities.

Definition rank_aware_required : list (string * Z) :=
  [("phase1", 0); ("phase1", 1); ("phase1", 2); ("phase1", 3);
   ("phase1", 4); ("phase1", 5); ("phase1", 6); ("phase2", 0)].

(** The one-node and the two-node lists of the source are the same list. *)
Definition rank_aware_identities (nodes : Z) : option (list (string * Z)) :=
  if nodes =? 1 then
    Some [("phase1", 4); ("phase1", 0); ("phase1", 1); ("phase1", 6);
          ("phase1", 2); ("phase1", 3); ("phase1", 5); ("phase2", 0)]
  else if nodes =? 2 then
    Some [("phase1", 4); ("phase1", 0); ("phase1", 1); ("phase1", 6);
          ("phase1", 2); ("phase1", 3); ("phase1", 5); ("phase2", 0)]
  else None.

Definition rank_aware_mlp_order (l : list source_process) (nodes : Z) : result (list source_process) :=
  let m := by_identity l in
  _ ← raise_if (negb (bool_decide (dom m = list_to_set rank_aware_required)))
        (ValueError "rank-aware MLP placement requires the unmodified native MLP process graph");
  ids ← rank_aware_identities nodes ?!
    ValueError "rank-aware MLP placement is defined only for 1 or 2 nodes";
  pick m ids.

Definition with_phase (phase : string) (l : list process) : list source_process :=
  (λ ip, ((phase, ip.1), ip.2)) <$> enumerate l.

(** [for phase in ("phase1", "phase2"): for index, process in enumerate(...)] *)
Definition source_processes (config : source_config) : list source_process :=
  with_phase "phase1" (phase1 config) ++ with_phase "phase2" (phase2 config).

Definition order_by_policy (policy workload_name : string) (nodes : Z) (l : list source_process)
  : result (list source_process) :=
  if String.eqb policy "communication-aware" then
    _ ← raise_if (negb (String.eqb workload_name "mlp"))
          (ValueError "communication-aware placement is currently defined only for workload 'mlp'");
    communication_aware_mlp_order l
  else if String.eqb policy "rank-aware" then
    _ ← raise_if (negb (String.eqb workload_name "mlp"))
          (ValueError "rank-aware placement is currently defined only for workload 'mlp'");
    rank_aware_mlp_order l nodes
  else Ok l.

(** One iteration of the placement loop. *)
Definition place_one (processes_per_node : Z) (item : Z * source_process) : result placed :=
  let '(global_index, (phase, process_index, p)) := item in
  let node_slot := global_index / processes_per_node in
  c ← process_coordinates p phase process_index;
  Ok (Placed phase process_index node_slot ("chipsystemsim.node." +:+ str_of_Z node_slot) c).

Definition place_all (config : source_config) (workload_name policy : string) (nodes : Z)
  : result (list placed) :=
  let l := source_processes config in
  _ ← raise_if (negb (zlen l mod nodes =? 0))
        (ValueError (str_of_Z (zlen l) +:+ " native processes cannot be evenly grouped across "
                     +:+ str_of_Z nodes +:+ " nodes"));
  let processes_per_node := zlen l / nodes in
  l' ← order_by_policy policy workload_name nodes l;
  mapM (place_one processes_per_node) (enumerate l').

(** How [main] names its input: a built-in workload or an explicit YAML file. *)
Record arguments := Arguments {
  arg_workload : option string;
  arg_source_yaml : option string;
  arg_workload_name : option string;
  arg_policy : string;
  arg_nodes : Z;
}.

Definition opt_truthy (o : option string) : bool :=
  match o with Some s => negb (String.eqb s "") | None => false end.

(** The manifest [workloads.json]: per workload its YAML path, and the source description. *)
Record manifest := Manifest {
  man_workloads : list (string * string);
  man_source : pydict;
}.

Definition UPSTREAM_ROOT : string := "LEGOSIM_MICRO".

(** Workload name, YAML path and source description of a run.  [path_stem] is [Path.stem]. *)
Definition resolve_source (path_stem : string → string) (man : manifest) (args : arguments)
  : result (string * string * pydict) :=
  _ ← raise_if (Bool.eqb (opt_truthy (arg_workload args)) (bool_decide (is_Some (arg_source_yaml args))))
        (ValueError "provide exactly one of workload or --source-yaml");
  match arg_source_yaml args with
  | Some path =>
      let name := match arg_workload_name args with
                  | Some n => if String.eqb n "" then path_stem path else n
                  | None => path_stem path
                  end in
      Ok (name, path, [("repository", PStr "local single-stage source"); ("revision", PStr "workspace")])
  | None =>
      let name := default "" (arg_workload args) in
      path ← dict_item name (man_workloads man);
      Ok (name, UPSTREAM_ROOT +:+ "/" +:+ path, man_source man)
  end.

(** The [choices] of [--placement-policy]. *)
Definition placement_policies : list string := ["contiguous"; "communication-aware"; "rank-aware"].

Definition main (path_stem : string → string) (man : manifest) (load : string → result source_config)
  (args : arguments) : result placement :=
  _ ← raise_if (negb (bool_decide (arg_nodes args ∈ [1; 2; 4; 8])
                     && bool_decide (arg_policy args ∈ placement_policies))) (SystemExit "invalid choice");
  src ← resolve_source path_stem man args;
  let '(name, path, source) := src in
  config ← load path;
  processes ← place_all config name (arg_policy args) (arg_nodes args);
  Ok (Placement name path source (arg_nodes args) (arg_policy args) processes).

(** ** The process orders are permutations *)

Lemma by_identity_lookup l id p :
  NoDup l.*1 → by_identity l !! id = Some p ↔ (id, p) ∈ l.
Proof.
  unfold by_identity. induction l as [|[id' p'] l IH] using rev_ind.
  { intros _. simpl. rewrite lookup_empty. set_solver. }
  rewrite fmap_app, foldl_app. simpl. intros (Hl & Hnin & _)%NoDup_app.
  rewrite lookup_insert. case_decide as Hid.
  - unfold identity in Hid. simpl in Hid. subst id'. split; [set_solver|].
    intros [Hin|Hin]%elem_of_app; [|set_solver].
    exfalso. apply (Hnin id); [apply list_elem_of_fmap; by exists (id, p)|set_solver].
  - rewrite IH by done. unfold identity in Hid. simpl in Hid. set_solver.
Qed.

Lemma pick_Ok m ids l' :
  pick m ids = Ok l' → l'.*1 = ids ∧ ∀ id p, (id, p) ∈ l' → m !! id = Some p.
Proof.
  unfold pick. rewrite mapM_result_Ok. induction 1 as [|id [id' p] ids l' H _ IH]; simpl.
  - set_solver.
  - destruct (m !! id) eqn:Hm; simpl in H; [|done]. injection H as <- <-.
    destruct IH as [<- IH]. split; [done|]. set_solver.
Qed.

Lemma pick_perm l ids l' :
  NoDup l.*1 → NoDup ids → dom (by_identity l) = list_to_set ids →
  pick (by_identity l) ids = Ok l' → l' ≡ₚ l.
Proof.
  intros Hl Hids Hdom [Hfst Hin]%pick_Ok.
  apply NoDup_Permutation; [eapply NoDup_fmap_1; by rewrite Hfst|by eapply NoDup_fmap_1|].
  intros [id p]. rewrite <- (by_identity_lookup l id p) by done. split; [auto|].
  intros Hp. assert (Hid : id ∈ l'.*1).
  { rewrite Hfst. apply (elem_of_list_to_set (C := gset (string * Z))). rewrite <- Hdom.
    apply elem_of_dom. eauto. }
  apply list_elem_of_fmap in Hid as ([id' p'] & -> & Hp'). simpl in *.
  assert (by_identity l !! id' = Some p') by auto. naive_solver.
Qed.

Lemma source_processes_NoDup config : NoDup (source_processes config).*1.
Proof.
  unfold source_processes, with_phase. rewrite fmap_app, <- !list_fmap_compose.
  assert (Hfst : ∀ (ph : string) (l : list process),
    (fst ∘ (λ ip : Z * process, ((ph, ip.1), ip.2)) <$> enumerate l) = (pair ph <$> seqZ 0 (zlen l))).
  { intros ph l. unfold enumerate. rewrite <- (enumerate_from_fst 0 l), <- list_fmap_compose. done. }
  rewrite !Hfst. apply NoDup_app. split_and!.
  - apply NoDup_fmap_2; [intros ?? [=]; done|apply NoDup_seqZ].
  - set_solver.
  - apply NoDup_fmap_2; [intros ?? [=]; done|apply NoDup_seqZ].
Qed.

Lemma order_by_policy_perm policy name nodes l l' :
  NoDup l.*1 → order_by_policy policy name nodes l = Ok l' → l' ≡ₚ l.
Proof.
  intros Hl. unfold order_by_policy, communication_aware_mlp_order, rank_aware_mlp_order.
  repeat case_match; intros Hr; result_inv; try done; bool_facts.
  - eapply pick_perm; [done| |done|done]. apply (bool_decide_unpack _). vm_compute. done.
  - unfold rank_aware_identities in Ha1. repeat case_match; simplify_eq;
      (eapply pick_perm; [done| | |done]; [apply (bool_decide_unpack _); vm_compute; done|]);
      (etrans; [done|]); apply (bool_decide_unpack _); vm_compute; done.
Qed.

(** ** What a successful placement looks like *)

Lemma place_all_Ok config name policy nodes recs :
  place_all config name policy nodes = Ok recs →
  ∃ l', zlen (source_processes config) mod nodes = 0 ∧
    order_by_policy policy name nodes (source_processes config) = Ok l' ∧
    l' ≡ₚ source_processes config ∧
    Forall2 (λ x r, place_one (zlen (source_processes config) / nodes) x = Ok r) (enumerate l') recs.
Proof.
  unfold place_all. intros H. result_inv. bool_facts. eexists.
  split_and!; [done|done| |by apply mapM_result_Ok].
  eapply order_by_policy_perm; [apply source_processes_NoDup|done].
Qed.

Lemma place_one_Ok k i p r :
  place_one k (i, p) = Ok r →
  (pl_phase r, pl_process_index r) = identity p ∧ pl_node_slot r = i / k ∧
  process_coordinates p.2 p.1.1 p.1.2 = Ok (pl_coordinates r).
Proof. destruct p as [[ph ix] p]. unfold place_one. intros H. result_inv. done. Qed.

Definition placed_identity (r : placed) : string * Z := (pl_phase r, pl_process_index r).

Lemma place_all_views k l recs :
  Forall2 (λ x r, place_one k x = Ok r) (enumerate l) recs →
  (placed_identity <$> recs) = l.*1 ∧
  (pl_node_slot <$> recs) = ((λ i, i / k) <$> seqZ 0 (zlen l)).
Proof.
  intros H. rewrite <- (enumerate_from_snd 0 l) at 1. rewrite <- (enumerate_from_fst 0 l).
  fold (enumerate l). revert H. generalize (enumerate l) as el. intros el.
  induction 1 as [|[i p] r el recs Hr _ [IH1 IH2]]; [done|].
  apply place_one_Ok in Hr as (Hid & Hs & _). csimpl. rewrite IH1, IH2, Hs.
  split; [|done]. f_equal. exact Hid.
Qed.

(** ** Properties *)

(** C2: a generated placement is an exact, balanced partition.  Every process of both phases is
    placed exactly once, every Swarm node receives the same number of processes, and the record
    at position [i] goes to node [i / (processes per node)], so the groups are contiguous. *)
Theorem place_all_balanced config name policy nodes recs :
  0 < nodes →
  place_all config name policy nodes = Ok recs →
  let k := zlen (source_processes config) / nodes in
  (placed_identity <$> recs) ≡ₚ (source_processes config).*1 ∧
  (∀ slot, 0 ≤ slot < nodes → count (λ r, pl_node_slot r =? slot) recs = k) ∧
  (∀ i r, recs !! i = Some r → pl_node_slot r = Z.of_nat i / k ∧ 0 ≤ pl_node_slot r < nodes).
Proof.
  intros Hn (l' & Hmod & _ & Hperm & Hrecs)%place_all_Ok k.
  pose proof (place_all_views _ _ _ Hrecs) as [Hids Hslots]. fold k in Hslots, Hrecs.
  assert (Hlen : zlen l' = nodes * k).
  { subst k. unfold zlen. rewrite Hperm. fold (zlen (source_processes config)).
    rewrite (Z.div_mod (zlen (source_processes config)) nodes) at 1; lia. }
  assert (0 ≤ k) by (apply Z.div_pos; unfold zlen; lia).
  split_and!.
  - by rewrite Hids, Hperm.
  - intros slot Hslot. rewrite <- (count_fmap pl_node_slot (λ s, s =? slot)), Hslots, count_fmap, Hlen.
    destruct (decide (k = 0)) as [->|]; [by rewrite Z.mul_0_r|].
    apply count_div_block; lia.
  - intros i r Hr. assert (Hs : (pl_node_slot <$> recs) !! i = Some (pl_node_slot r))
      by (by rewrite list_lookup_fmap, Hr).
    rewrite Hslots, list_lookup_fmap in Hs.
    destruct (seqZ 0 (zlen l') !! i) as [z|] eqn:Hz; simpl in Hs; [|done].
    apply lookup_seqZ in Hz as [-> Hi]. injection Hs as <-. simpl.
    rewrite Z.add_0_l. split; [done|].
    split; [apply Z.div_pos; lia|apply Z.div_lt_upper_bound; nia].
Qed.

Definition demo_process (x y : string) : process := [("cmd", PStr "sim"); ("args", PList [PStr x; PStr y])].
Definition demo_mlp : source_config := SourceConfig
  [demo_process "0" "0"; demo_process "0" "1"; demo_process "1" "0"; demo_process "1" "1";
   demo_process "5" "5"; demo_process "2" "0"; demo_process "0" "3"] [[("cmd", PStr "popnet")]].

Lemma place_all_balanced_witness :
  ∃ recs, place_all demo_mlp "mlp" "communication-aware" 4 = Ok recs ∧
    count (λ r, pl_node_slot r =? 3) recs = 2.
Proof.
  eexists. split; [vm_compute; reflexivity|].
  eapply (place_all_balanced demo_mlp "mlp" "communication-aware" 4); [lia|vm_compute; reflexivity|lia].
Defined.

(** The Sniper CPU of the original MLP, and its four GPU simulators. *)
Definition mlp_cpu : string * Z := ("phase1", 4).
Definition mlp_gpus : list (string * Z) := [("phase1", 0); ("phase1", 1); ("phase1", 2); ("phase1", 3)].

(** How many GPU processes share the CPU's node under an assignment of nodes to processes. *)
Definition local_gpus (slot_of : string * Z → Z) : Z :=
  count (λ g, slot_of g =? slot_of mlp_cpu) mlp_gpus.

(** The node of a process in a list of placement records. *)
Definition slot_in (recs : list placed) (id : string * Z) : Z :=
  default (-1) (snd <$> head (filter (λ p, p.1 = id) ((λ r, (placed_identity r, pl_node_slot r)) <$> recs))).

Lemma communication_aware_records config nodes recs :
  nodes ∈ [1; 2; 4; 8] →
  place_all config "mlp" "communication-aware" nodes = Ok recs →
  ((λ r, (placed_identity r, pl_node_slot r)) <$> recs)
  = zip communication_aware_identities ((λ i, i / (8 / nodes)) <$> seqZ 0 8).
Proof.
  intros Hn (l' & _ & Hord & Hperm & Hrecs)%place_all_Ok.
  change (communication_aware_mlp_order (source_processes config) = Ok l') in Hord.
  unfold communication_aware_mlp_order in Hord. result_inv.
  apply pick_Ok in Hord as [Hids _].
  assert (Hlen : zlen l' = 8) by (unfold zlen; rewrite <- (length_fmap fst), Hids; done).
  assert (zlen (source_processes config) = 8) as Hlen'.
  { rewrite <- Hlen. unfold zlen. by rewrite Hperm. }
  rewrite Hlen' in Hrecs. pose proof (place_all_views _ _ _ Hrecs) as [H1 H2].
  rewrite Hids in H1. rewrite Hlen in H2. rewrite <- H1, <- H2.
  clear. induction recs; simpl; [done|]. by f_equal.
Qed.

(** Every node holds at most [8 / nodes] of the eight processes. *)
Definition within_capacity (nodes : Z) (slot_of : string * Z → Z) : Prop :=
  ∀ s, count (λ id, slot_of id =? s) communication_aware_identities ≤ 8 / nodes.

Lemma local_gpus_bound nodes slot_of :
  within_capacity nodes slot_of → local_gpus slot_of ≤ Z.min 4 (8 / nodes - 1).
Proof.
  intros H. specialize (H (slot_of mlp_cpu)). unfold local_gpus, mlp_gpus in *.
  unfold communication_aware_identities, mlp_cpu in *. rewrite !count_cons, count_nil in *.
  rewrite Z.eqb_refl in H. repeat case_match; lia.
Qed.

Lemma elem_of_list_choices (n : Z) : n ∈ [1; 2; 4; 8] → n = 1 ∨ n = 2 ∨ n = 4 ∨ n = 8.
Proof. rewrite !elem_of_cons, elem_of_nil. tauto. Qed.

(** Evaluate the node lookups of a concrete placement. *)
Ltac eval_slots :=
  repeat match goal with
  | |- context [default (-1) ?e] =>
      let v := eval vm_compute in (default (-1) e) in change (default (-1) e) with v
  end;
  repeat match goal with
  | |- context [?a / ?b] => let v := eval vm_compute in (a / b) in change (a / b) with v
  end.

(** C3: the communication-aware policy is optimal for the CPU-GPU edges.  On the unmodified MLP
    graph the CPU is on node 0 together with [min 4 (8 / nodes - 1)] of its GPUs -- all four on
    one node, three on two nodes, one on four nodes, none on eight -- and no assignment that
    respects the same per-node capacity keeps more GPU processes next to the CPU. *)
Theorem communication_aware_optimal config nodes recs :
  nodes ∈ [1; 2; 4; 8] →
  place_all config "mlp" "communication-aware" nodes = Ok recs →
  slot_in recs mlp_cpu = 0 ∧
  local_gpus (slot_in recs) = Z.min 4 (8 / nodes - 1) ∧
  within_capacity nodes (slot_in recs) ∧
  (∀ slot_of, within_capacity nodes slot_of → local_gpus slot_of ≤ local_gpus (slot_in recs)).
Proof.
  intros Hn Hp. pose proof (communication_aware_records _ _ _ Hn Hp) as Hrec.
  assert (H : slot_in recs mlp_cpu = 0 ∧ local_gpus (slot_in recs) = Z.min 4 (8 / nodes - 1)
              ∧ within_capacity nodes (slot_in recs)).
  { unfold local_gpus, within_capacity, slot_in. rewrite Hrec.
    apply (elem_of_list_choices nodes) in Hn as [->|[->|[->| ->]]];
      (split; [vm_compute; reflexivity|split; [vm_compute; reflexivity|]]);
      intros s; unfold communication_aware_identities at 2; rewrite !count_cons, count_nil;
      eval_slots; repeat case_match; bool_facts; lia. }
  destruct H as (? & Hl & ?). split_and!; [done|done|done|].
  intros slot_of Hs. rewrite Hl. by apply local_gpus_bound.
Qed.

Lemma communication_aware_optimal_witness :
  ∃ recs, place_all demo_mlp "mlp" "communication-aware" 2 = Ok recs ∧ local_gpus (slot_in recs) = 3.
Proof.
  eexists. split; [vm_compute; reflexivity|].
  eapply (communication_aware_optimal demo_mlp 2); [set_solver|vm_compute; reflexivity].
Defined.

Lemma first_int_pair_cons a b l :
  first_int_pair (a :: b :: l) =
  match int_of a, int_of b with Ok x, Ok y => Some (x, y) | _, _ => first_int_pair (b :: l) end.
Proof. done. Qed.

Lemma first_int_pair_Some l x y :
  first_int_pair l = Some (x, y) ↔
  ∃ k a b, l !! k = Some a ∧ l !! S k = Some b ∧ int_of a = Ok x ∧ int_of b = Ok y ∧
    ∀ j c d, (j < k)%nat → l !! j = Some c → l !! S j = Some d →
      is_ok (int_of c) && is_ok (int_of d) = false.
Proof.
  induction l as [|a [|b l] IH].
  - split; [done|]. set_solver.
  - split; [done|]. intros ([|k] & ? & ? & ? & ? & _); done.
  - set (l' := b :: l) in *.
    unfold l'. rewrite first_int_pair_cons. fold l'. split.
    + intros H. destruct (int_of a) as [xa|] eqn:Ha, (int_of b) as [xb|] eqn:Hb.
      1: { injection H as -> ->. exists 0%nat, a, b. split_and!; try done. lia. }
      all: apply IH in H as (k & c & d & Hk & Hk' & ? & ? & Hmin);
        exists (S k), c, d; split_and!; try done;
        intros [|j] c' d' Hj Hc Hd; simpl in *; simplify_eq;
        [by rewrite Ha, Hb|apply (Hmin j); [lia|done|done]].
    + intros (k & c & d & Hk & Hk' & Hc & Hd & Hmin). destruct k as [|k].
      { simpl in *. simplify_eq. by rewrite Hc, Hd. }
      pose proof (Hmin 0%nat a b) as H0. simpl in H0.
      assert (first_int_pair l' = Some (x, y)) as Hrec.
      { apply IH. exists k, c, d. split_and!; try done. intros j c' d' Hj. apply (Hmin (S j)). lia. }
      destruct (int_of a), (int_of b); try done. specialize (H0 ltac:(lia) eq_refl eq_refl). done.
Qed.

(** Where a chiplet coordinate comes from.  For a phase-one process the result is the first
    two consecutive arguments that both convert to integers, wherever they stand in the list;
    the process is rejected exactly when there is no such pair, and a phase-two process never
    has a coordinate. *)
Theorem process_coordinates_spec p phase index :
  (phase ≠ "phase1" → process_coordinates p phase index = Ok None) ∧
  (∀ c, process_coordinates p "phase1" index = Ok c →
     ∃ l k a b x y, dict_get_default "args" (PList []) p = PList l ∧ c = Some (x, y) ∧
       l !! k = Some a ∧ l !! S k = Some b ∧ int_of a = Ok x ∧ int_of b = Ok y ∧
       ∀ j a' b', (j < k)%nat → l !! j = Some a' → l !! S j = Some b' →
         is_ok (int_of a') && is_ok (int_of b') = false) ∧
  (∀ l k a b, dict_get_default "args" (PList []) p = PList l →
     l !! k = Some a → l !! S k = Some b → is_ok (int_of a) && is_ok (int_of b) = true →
     is_ok (process_coordinates p "phase1" index) = true).
Proof.
  unfold process_coordinates. split_and!.
  - intros H. by rewrite (proj2 (String.eqb_neq _ _) H).
  - intros c H. simpl in H. result_inv.
    destruct (dict_get_default "args" (PList []) p) as [| | | | |l|]; simpl in Ha; simplify_eq.
    destruct a1 as [x y]. apply first_int_pair_Some in Ha1 as (k & a1 & b & ? & ? & ? & ? & ?).
    exists a, k, a1, b, x, y. done.
  - intros l k a b -> Ha Hb Hok. simpl.
    assert ((length l <? 2)%nat = false) as ->.
    { apply Nat.ltb_ge. apply lookup_lt_Some in Hb. lia. }
    simpl. destruct (first_int_pair l) as [c|] eqn:Hf; [done|]. exfalso.
    clear -Ha Hb Hok Hf. revert k Ha Hb Hf.
    induction l as [|c [|d l] IH]; intros [|k] Ha Hb Hf; try (done || discriminate).
    + injection Ha as ->. injection Hb as ->. simpl in Hf.
      destruct (int_of a); [destruct (int_of b)|]; done.
    + apply (IH k); [done|done|]. rewrite first_int_pair_cons in Hf.
      by destruct (int_of c), (int_of d).
Qed.

Lemma process_coordinates_spec_witness :
  process_coordinates [("args", PList [PStr "--"; PStr "/bin/sim"; PStr "5"; PStr "5"])] "phase1" 0
    = Ok (Some (5, 5)) ∧
  is_ok (process_coordinates [("args", PList [PStr "--"; PStr "5"; PStr "5"])] "phase1" 0) = true.
Proof.
  split; [reflexivity|].
  eapply (proj2 (proj2 (process_coordinates_spec [("args", PList [PStr "--"; PStr "5"; PStr "5"])] "phase1" 0)))
    with (k := 1%nat); reflexivity.
Defined.
