(* ===== verification/Routing.v ===== *)
(** * Routing table generation

    Model of [src/real/generate_simbricks_routing.py]: the map from chiplet coordinates to
    worker slots, the physical-host slot of every logical worker, and the channel of every
    ordered worker pair. *)

From S2P Require Import Prelude PyValue Topology Placement.

Record routing := Routing {
  rt_transport : string;
  rt_workload : string;
  rt_coordinate_to_worker_slot : gmap string Z;
  rt_worker_physical_slots : gmap string Z;
  rt_channel_by_worker_pair : gmap string string;
  rt_gateway_base_port : Z;
}.

(** [f"{x},{y}"] *)
Definition coordinate_key (x y : Z) : string := str_of_Z x +:+ "," +:+ str_of_Z y.

(** [[int(value) for value in text.split(",")]] *)
Definition parse_physical_slots (text : string) : result (list Z) := mapM py_int_exn (split_on "," text).

(** [arguments.worker_physical_slots]: an empty text counts as absent. *)
Definition physical_slots_of (nodes : Z) (arg : option string) : result (list Z) :=
  let given := match arg with Some t => negb (String.eqb t "") | None => false end in
  if given then
    slots ← parse_physical_slots (default "" arg);
    _ ← raise_if (negb (zlen slots =? nodes) || existsb (λ v, v <? 0) slots)
          (ValueError "--worker-physical-slots must give one non-negative value per logical worker");
    Ok slots
  else Ok (replicate (Z.to_nat nodes) 0).

(** One iteration of the placement loop: [setdefault] and the conflict test. *)
Definition add_coordinate (m : gmap string Z) (p : placed) : result (gmap string Z) :=
  match pl_coordinates p with
  | None => Ok m
  | Some (x, y) =>
      let key := coordinate_key x y in
      let slot := pl_node_slot p in
      let previous := default slot (m !! key) in
      let m' := match m !! key with Some _ => m | None => <[key := slot]> m end in
      _ ← raise_if (negb (previous =? slot))
            (ValueError ("chiplet coordinate " +:+ key +:+ " was placed on multiple worker slots"));
      Ok m'
  end.

Definition coordinate_to_slot (ps : list placed) : result (gmap string Z) := fold_result add_coordinate ∅ ps.

Definition pair_key (l r : Z) : string := coordinate_key l r.

Definition channel_by_pair (channels : list channel) : gmap string string :=
  foldl (λ m c, <[pair_key (ch_listener_slot c) (ch_connector_slot c) := ch_id c]> m) ∅ channels.

(** [{str(worker_slot): physical_slots[worker_slot] for worker_slot in range(nodes)}] *)
Definition physical_by_worker (nodes : Z) (slots : list Z) : result (gmap string Z) :=
  fold_result (λ m w, s ← slots !! Z.to_nat w ?! IndexError; Ok (<[str_of_Z w := s]> m)) ∅ (seqZ 0 nodes).

Definition main (pl : placement) (t : topology) (worker_physical_slots : option string) : result routing :=
  let nodes := pl_swarm_nodes pl in
  _ ← raise_if (negb (zlen (top_workers t) =? nodes))
        (ValueError "placement and topology disagree on worker count");
  slots ← physical_slots_of nodes worker_physical_slots;
  coordinates ← coordinate_to_slot (pl_processes pl);
  physical ← physical_by_worker nodes slots;
  Ok (Routing (top_transport t) (pl_workload pl) coordinates physical (channel_by_pair (top_channels t)) 9500).

(** The table as a JSON object, the entries of its three maps in the order of [map_to_list].  The
    object the code writes, with its order of insertion, is that of [NativeFiles.routing_document]. *)
Definition int_entries (m : gmap string Z) : pydict := prod_map id PInt <$> map_to_list m.

Definition to_json (rt : routing) : pydict :=
  [("version", PInt 1);
   ("transport", PStr (rt_transport rt));
   ("workload", PStr (rt_workload rt));
   ("coordinate_to_worker_slot", PDict (int_entries (rt_coordinate_to_worker_slot rt)));
   ("worker_physical_slots", PDict (int_entries (rt_worker_physical_slots rt)));
   ("channel_by_worker_pair", PDict (prod_map id PStr <$> map_to_list (rt_channel_by_worker_pair rt)));
   ("gateway_base_port", PInt (rt_gateway_base_port rt))].

(** ** Keys *)

Lemma coordinate_key_inj x y x' y' :
  coordinate_key x y = coordinate_key x' y' → x = x' ∧ y = y'.
Proof.
  unfold coordinate_key. intros [H1 H2]%str_app_cons_inj; [|by apply str_of_Z_lacks..].
  split; by apply str_of_Z_inj.
Qed.

(** ** The coordinate map *)

(** [p] is placed on worker [slot] and answers for the chiplet coordinate [key]. *)
Definition serves (key : string) (slot : Z) (p : placed) : Prop :=
  ∃ x y, pl_coordinates p = Some (x, y) ∧ coordinate_key x y = key ∧ pl_node_slot p = slot.

(** No chiplet coordinate is placed on two workers. *)
Definition consistent (ps : list placed) : Prop :=
  ∀ key s1 s2 p1 p2, p1 ∈ ps → p2 ∈ ps → serves key s1 p1 → serves key s2 p2 → s1 = s2.

Lemma add_coordinate_Ok m p m' :
  add_coordinate m p = Ok m' →
  ∀ key slot, m' !! key = Some slot ↔ m !! key = Some slot ∨ serves key slot p.
Proof.
  unfold add_coordinate, serves. destruct (pl_coordinates p) as [[x y]|] eqn:Hc.
  2:{ intros [= ->]. naive_solver. }
  intros H key slot. result_inv. bool_facts.
  destruct (m !! coordinate_key x y) as [s|] eqn:Hm; simpl in *.
  - split; [by left|]. intros [?|(x' & y' & [= <- <-] & <- & <-)]; [done|congruence].
  - rewrite lookup_insert. case_decide as Hk.
    + subst. rewrite Hm. split; [intros [= <-]; right; eauto|]. naive_solver.
    + split; [by left|]. intros [?|(x' & y' & [= <- <-] & <- & <-)]; done.
Qed.

Lemma coordinate_to_slot_Ok ps m :
  coordinate_to_slot ps = Ok m →
  ∀ key slot, m !! key = Some slot ↔ ∃ p, p ∈ ps ∧ serves key slot p.
Proof.
  unfold coordinate_to_slot. intros H.
  apply (fold_result_inv add_coordinate
    (λ pre m, ∀ key slot, m !! key = Some slot ↔ ∃ p, p ∈ pre ∧ serves key slot p) ps ∅ m); [| |done].
  - intros key slot. rewrite lookup_empty. set_solver.
  - intros pre p st st' IH _ Hstep key slot.
    rewrite (add_coordinate_Ok _ _ _ Hstep), IH. set_solver.
Qed.

Lemma coordinate_to_slot_total ps : consistent ps → is_ok (coordinate_to_slot ps) = true.
Proof.
  unfold coordinate_to_slot. intros Hps.
  enough (∀ pre suf m, ps = pre ++ suf →
    (∀ key slot, m !! key = Some slot ↔ ∃ p, p ∈ pre ∧ serves key slot p) →
    is_ok (fold_result add_coordinate m suf) = true) as H.
  { apply (H [] ps ∅); [done|]. intros. rewrite lookup_empty. set_solver. }
  intros pre suf. revert pre. induction suf as [|p suf IH]; intros pre m Hl Hm; [done|]. simpl.
  destruct (add_coordinate m p) as [m'|e] eqn:Hadd.
  - apply (IH (pre ++ [p])); [by rewrite <- app_assoc|].
    intros key slot. rewrite (add_coordinate_Ok _ _ _ Hadd), Hm. set_solver.
  - exfalso. unfold add_coordinate in Hadd. destruct (pl_coordinates p) as [[x y]|] eqn:Hc; [|done].
    destruct (m !! coordinate_key x y) as [s|] eqn:Hk; simpl in Hadd.
    2:{ rewrite Z.eqb_refl in Hadd. done. }
    destruct (s =? pl_node_slot p) eqn:Hs; [done|]. bool_facts. apply Hs.
    apply Hm in Hk as (p' & Hp' & Hserve).
    apply (Hps (coordinate_key x y) s (pl_node_slot p) p' p); [set_solver..|done|].
    exists x, y. done.
Qed.

Lemma consistent_of_Ok ps : is_ok (coordinate_to_slot ps) = true → consistent ps.
Proof.
  destruct (coordinate_to_slot ps) as [m|] eqn:Hm; [|done]. intros _ key s1 s2 p1 p2 Hp1 Hp2 H1 H2.
  pose proof (coordinate_to_slot_Ok _ _ Hm key) as Hk.
  assert (m !! key = Some s1) by (apply Hk; eauto).
  assert (m !! key = Some s2) by (apply Hk; eauto). congruence.
Qed.

(** ** The physical slots *)

Lemma physical_by_worker_Ok nodes slots m :
  physical_by_worker nodes slots = Ok m →
  ∀ w, 0 ≤ w < nodes → m !! str_of_Z w = slots !! Z.to_nat w ∧ is_Some (slots !! Z.to_nat w).
Proof.
  unfold physical_by_worker. set (f := λ m w, _). intros H.
  enough (∀ w, w ∈ seqZ 0 nodes → m !! str_of_Z w = slots !! Z.to_nat w ∧ is_Some (slots !! Z.to_nat w)) as Hall
    by (intros w Hw; apply Hall, elem_of_seqZ; lia).
  apply (fold_result_inv f (λ pre m, ∀ w, w ∈ pre → m !! str_of_Z w = slots !! Z.to_nat w ∧ is_Some (slots !! Z.to_nat w))
    (seqZ 0 nodes) ∅ m); [set_solver| |done].
  intros pre w st st' IH _ Hstep w' Hw'. unfold f in Hstep. result_inv. 
  apply elem_of_app in Hw' as [Hw'|Hw'%list_elem_of_singleton].
  - rewrite lookup_insert. case_decide as Hk; [|by apply IH].
    apply str_of_Z_inj in Hk as ->. rewrite Ha. eauto.
  - subst w'. rewrite lookup_insert_eq, Ha. eauto.
Qed.

Lemma physical_by_worker_total nodes slots :
  nodes ≤ zlen slots → is_ok (physical_by_worker nodes slots) = true.
Proof.
  intros Hn. unfold physical_by_worker.
  assert (Hall : ∀ w, w ∈ seqZ 0 nodes → is_Some (slots !! Z.to_nat w)).
  { intros w Hw%elem_of_seqZ. apply lookup_lt_is_Some_2. unfold zlen in Hn. lia. }
  generalize (∅ : gmap string Z) as m. revert Hall. generalize (seqZ 0 nodes) as l.
  induction l as [|w l IH]; intros Hall m; simpl; [done|].
  destruct (Hall w) as [s Hs]; [set_solver|]. rewrite Hs. simpl. apply IH. set_solver.
Qed.

(** ** Properties *)


Definition demo_placement (nodes : Z) : placement :=
  Placement "mlp" "mlp.yml" [] nodes "contiguous"
    [Placed "phase1" 0 0 "n0" (Some (5, 5)); Placed "phase1" 1 (nodes - 1) "n1" (Some (0, 1));
     Placed "phase2" 0 0 "n0" None].
Definition demo_topology (nodes : Z) : topology :=
  Topology 1 TRANSPORT (make_workers "10.203.0" nodes) [].

