(* ===== verification/Monitor.v ===== *)
(** * Operations under an asyncio condition variable

    The router and the broker keep their queues behind [asyncio.Condition]: an operation takes
    the lock, runs without interruption, and either completes, or its predicate fails and it
    waits.  A completed operation may notify waiting ones, which take the lock again later, in
    any order relative to newly arriving operations, and re-check their predicate.

    A [Monitor] is what a service promises: the effect of one attempt and which waiting
    operations a completed one notifies.  The step relation and the two theorems of this file
    hold for every service: no operation is lost or duplicated, and every concurrent run is
    equivalent to the sequential run of its completed operations. *)

From S2P Require Import Prelude.

Class Monitor (data op reply : Type) := {
  (** One attempt under the lock; [None]: the predicate of [wait_for] is false. *)
  attempt : data → op → option (data * reply);
  (** The waiting operations a completed one notifies, and the ones that keep waiting. *)
  wake : op → list op → list op * list op;
  wake_split : ∀ o w, (wake o w).1 ++ (wake o w).2 ≡ₚ w;
}.

Section monitor.
Context {data op reply : Type} `{Monitor data op reply}.

Record state := State {
  shared : data;
  waiting : list op;     (** parked in [Condition.wait], not notified, oldest first *)
  notified : list op;    (** notified, waiting for the lock *)
}.

Inductive event := Completed (o : op) (r : reply) | Parked (o : op).

(** Operation [o] holds the lock; [w] and [n] are the other operations. *)
Definition run_locked (d : data) (w n : list op) (o : op) : state * event :=
  match attempt d o with
  | Some (d', r) => let '(woken, rest) := wake o w in (State d' rest (n ++ woken), Completed o r)
  | None => (State d (w ++ [o]) n, Parked o)
  end.

(** A step: a new operation, or a notified one, gets the lock. *)
Inductive step : state → list op → event → state → Prop :=
  | step_arrive s o s' e :
      run_locked (shared s) (waiting s) (notified s) o = (s', e) → step s [o] e s'
  | step_resume s n1 o n2 s' e :
      notified s = n1 ++ o :: n2 →
      run_locked (shared s) (waiting s) (n1 ++ n2) o = (s', e) → step s [] e s'.

(** [reachable admits d0 arrived events s]: from empty queues and data [d0], the operations
    [arrived] have arrived, each when the state [admits] it, and the run so far is [events]. *)
Inductive reachable (admits : state → op → Prop) (d0 : data) : list op → list event → state → Prop :=
  | reachable_init : reachable admits d0 [] [] (State d0 [] [])
  | reachable_step arrived events s new e s' :
      reachable admits d0 arrived events s → Forall (admits s) new → step s new e s' →
      reachable admits d0 (arrived ++ new) (events ++ [e]) s'.

(** The completed operations of a run, in order, with their replies. *)
Definition completion (e : event) : list (op * reply) :=
  match e with Completed o r => [(o, r)] | Parked _ => [] end.
Definition completions (events : list event) : list (op * reply) := events ≫= completion.

(** The sequential execution of a list of operations; [None] if one of them had to wait. *)
Fixpoint sequential (d : data) (ops : list op) : option (data * list reply) :=
  match ops with
  | [] => Some (d, [])
  | o :: rest =>
      '(d', r) ← attempt d o;
      '(d'', rs) ← sequential d' rest;
      Some (d'', r :: rs)
  end.

(** No operation is ready to take the lock. *)
Definition quiescent (s : state) : Prop := notified s = [].

Lemma completions_snoc events e : completions (events ++ [e]) = completions events ++ completion e.
Proof using Type. unfold completions. by rewrite bind_app, bind_singleton. Qed.

Lemma sequential_snoc d ops o d' rs d'' r :
  sequential d ops = Some (d', rs) → attempt d' o = Some (d'', r) →
  sequential d (ops ++ [o]) = Some (d'', rs ++ [r]).
Proof using Type.
  revert d rs. induction ops as [|a ops IH]; intros d rs; cbn [sequential app].
  - intros [= -> <-] Ho. by rewrite Ho.
  - destruct (attempt d a) as [[d1 r1]|]; [|done]. cbn [mbind option_bind].
    destruct (sequential d1 ops) as [[d2 rs2]|] eqn:E; [|done]. cbn [mbind option_bind].
    intros [= -> <-] Ho. by rewrite (IH _ _ E Ho).
Qed.

Lemma run_locked_cases d w n o s e :
  run_locked d w n o = (s, e) →
  (∃ d' r, attempt d o = Some (d', r) ∧ e = Completed o r ∧
     s = State d' (wake o w).2 (n ++ (wake o w).1)) ∨
  (attempt d o = None ∧ e = Parked o ∧ s = State d (w ++ [o]) n).
Proof using Type.
  unfold run_locked. destruct (attempt d o) as [[d' r]|]; [destruct (wake o w) as [w1 w2]|];
    intros [= <- <-]; naive_solver.
Qed.

(** Every step is one attempt by some operation [o] that was new or notified. *)
Lemma step_cases s new e s' :
  step s new e s' →
  ∃ o n, (new = [o] ∧ n = notified s ∨ new = [] ∧ notified s ≡ₚ o :: n) ∧
    run_locked (shared s) (waiting s) n o = (s', e).
Proof using Type.
  destruct 1 as [s o s' e Hr|s n1 o n2 s' e Hn Hr].
  - exists o, (notified s). split; [by left|done].
  - exists o, (n1 ++ n2). split; [|done]. right. split; [done|]. rewrite Hn. symmetry. apply Permutation_middle.
Qed.

(** Operations are conserved. *)
Lemma reachable_conserved admits d0 arrived events s :
  reachable admits d0 arrived events s →
  arrived ≡ₚ (completions events).*1 ++ waiting s ++ notified s.
Proof using Type.
  induction 1 as [|arrived events s new e s' _ IH _ Hstep]; [done|].
  apply step_cases in Hstep as (o & n & Hor & Hrun).
  assert (Hperm : new ++ notified s ≡ₚ o :: n) by (destruct Hor as [[-> ->]|[-> ?]]; done).
  rewrite completions_snoc, fmap_app, IH.
  transitivity ((completions events).*1 ++ waiting s ++ o :: n).
  { rewrite <- Hperm, (Permutation_app_comm new). by rewrite <- !app_assoc. }
  apply run_locked_cases in Hrun as [(d' & r & _ & -> & ->)|(_ & -> & ->)]; cbn [waiting notified completion].
  - csimpl. rewrite <- app_assoc. apply Permutation_app_head. cbn [app].
    rewrite <- Permutation_middle. constructor.
    rewrite <- (wake_split o (waiting s)) at 1. rewrite (Permutation_app_comm n), !app_assoc.
    apply Permutation_app_tail, Permutation_app_comm.
  - csimpl. rewrite app_nil_r. apply Permutation_app_head. by rewrite <- app_assoc.
Qed.

(** Concurrent runs are sequential runs of the completed operations. *)
Lemma reachable_sequential admits d0 arrived events s :
  reachable admits d0 arrived events s →
  sequential d0 (completions events).*1 = Some (shared s, (completions events).*2).
Proof using Type.
  induction 1 as [|arrived events s new e s' _ IH _ Hstep]; [done|].
  apply step_cases in Hstep as (o & n & _ & Hrun). rewrite completions_snoc, !fmap_app.
  apply run_locked_cases in Hrun as [(d' & r & Hat & -> & ->)|(_ & -> & ->)]; csimpl.
  - by eapply sequential_snoc.
  - by rewrite !app_nil_r.
Qed.

End monitor.

Arguments state : clear implicits.
Arguments event : clear implicits.
