(* ===== verification/Router.v ===== *)
(** * The PipeComm router of one worker

    Model of [src/real/simbricks_pipe_router.py]: [Router.__init__], [peer_for], [handle],
    [handle_local] and [forward].  A request is the byte stream a client has sent; a handler
    yields the bytes of its reply, the lines it logs and the new local pipes, or does not answer
    yet ([None]) when a local read has to wait.  [LocalPipes] models how waiting readers are
    woken.  The peer's gateway and the two clocks are arguments. *)

From S2P Require Import Prelude PyValue Topology Placement Routing.

(** ** Router.__init__ *)

Record router := Router {
  slot : Z;
  coordinates : gmap string Z;
  physical_slots : gmap Z Z;
  gateway_ports : gmap Z Z;
}.

(** [d.items()] of a value that must be a dictionary. *)
Definition items (v : pyval) : result pydict := is_dict v ?! AttributeError.

Definition init_coordinates (entries : pydict) : result (gmap string Z) :=
  fold_result (λ m kv, v ← int_of kv.2; Ok (<[kv.1 := v]> m)) ∅ entries.

Definition init_physical_slots (entries : pydict) : result (gmap Z Z) :=
  fold_result (λ m kv, k ← py_int_exn kv.1; v ← int_of kv.2; Ok (<[k := v]> m)) ∅ entries.

(** [set(self.coordinates.values())] *)
Definition coordinate_values (m : gmap string Z) : gset Z := list_to_set (map_to_list m).*2.

Definition init_gateway_ports (own base_port : Z) (m : gmap string Z) : gmap Z Z :=
  set_to_map (λ s, (s, base_port + s)) (coordinate_values m ∖ {[own]}).

Definition init (own : Z) (routing : pydict) : result router :=
  table ← dict_item "coordinate_to_worker_slot" routing;
  entries ← items table;
  coords ← init_coordinates entries;
  physical ← items (dict_get_default "worker_physical_slots" (PDict []) routing);
  phys ← init_physical_slots physical;
  base_port ← int_of (dict_get_default "gateway_base_port" (PInt 9500) routing);
  Ok (Router own coords phys (init_gateway_ports own base_port coords)).

(** ** Pipe names *)

(** [-?\d+] *)
Definition signed_digits (s : string) : bool :=
  match s with
  | String c r => if Ascii.eqb c "-"%char then isdigit r else isdigit s
  | EmptyString => false
  end.

(** [PIPE_NAME.fullmatch]: the four groups.  No group can contain an underscore, so the
    match is the split at the underscores. *)
Definition match_pipe_name (name : string) : option (string * string * string * string) :=
  rest ← strip_prefix "buffer" name;
  match split_on "_" rest with
  | [a; b; c; d] =>
      if signed_digits a && signed_digits b && signed_digits c && signed_digits d
      then Some (a, b, c, d) else None
  | _ => None
  end.

Inductive operation := W | R.

Definition op_text (op : operation) : string := match op with W => "W" | R => "R" end.

#[export] Instance operation_eq_dec : EqDecision operation.
Proof. solve_decision. Defined.

Definition MAX_REQUEST_BYTES : Z := 65000.

Definition peer_for (r : router) (op : operation) (pipe_name : string) : result Z :=
  groups ← match_pipe_name pipe_name ?! ValueError ("unsupported PipeComm name: " +:+ pipe_name);
  let '(a, b, c, d) := groups in
  let source := a +:+ "," +:+ b in
  let destination := c +:+ "," +:+ d in
  let coordinate := match op with W => destination | R => source end in
  coordinates r !! coordinate ?! ValueError ("no worker placement for chiplet " +:+ coordinate).

(** ** Reading one request *)

Record request := Request {
  rq_operation : operation;
  rq_pipe : string;
  rq_bytes : Z;
  rq_payload : string;
  rq_peer : Z;
}.

Definition parse_operation (field : string) : option operation :=
  if String.eqb field "W" then Some W else if String.eqb field "R" then Some R else None.

(** The header line: exactly three fields separated by single spaces, the first [W] or [R]. *)
Definition parse_header (line : string) : result (operation * string * string) :=
  text ← decode_ascii line;
  match split_on " " (rstrip_by (Ascii.eqb NL) text) with
  | [o; pipe_name; byte_text] =>
      op ← parse_operation o ?! ValueError "invalid PipeComm request header";
      Ok (op, pipe_name, byte_text)
  | _ => Err (ValueError "invalid PipeComm request header")
  end.

Definition prepare (r : router) (stream : string) : result (request * string) :=
  line_rest ← readline stream;
  header ← parse_header line_rest.1;
  let '(op, path, byte_text) := header in
  let pipe_name := after_last "/" path in
  byte_count ← py_int_exn byte_text;
  _ ← raise_if ((byte_count <? 0) || (MAX_REQUEST_BYTES <? byte_count))
        (ValueError "invalid PipeComm byte count");
  payload_rest ← match op with
                 | W => readexactly byte_count line_rest.2
                 | R => Ok ("", line_rest.2)
                 end;
  peer ← peer_for r op pipe_name;
  Ok (Request op pipe_name byte_count payload_rest.1 peer, payload_rest.2).

(** ** Local pipes and forwarding *)

Abbreviation pipes := (gmap string (list string)).

(** [self.local_pipes[name]] of the [defaultdict]; the empty queue it may insert cannot be
    told apart from an absent one. *)
Definition queue (q : pipes) (name : string) : list string := default [] (q !! name).

(** One attempt of [handle_local] under the lock: a write is queued and acknowledged; a read
    whose predicate fails waits ([None]). *)
Definition handle_local (q : pipes) (op : operation) (pipe_name payload : string) (byte_count : Z)
    : option (pipes * string) :=
  match op with
  | W => Some (<[pipe_name := queue q pipe_name ++ [payload]]> q, "OK" +:+ nl)
  | R => match queue q pipe_name with
         | data :: rest =>
             if Z.of_nat (str_length data) =? byte_count
             then Some (<[pipe_name := rest]> q, "OK " +:+ str_of_Z byte_count +:+ nl +:+ data)
             else None
         | [] => None
         end
  end.

(** [open_connection], the bytes written to it and the bytes the gateway answers before it
    closes; connecting may raise [OSError]. *)
Abbreviation gateway := (Z → string → result string).

Definition normalized_header (rq : request) : string :=
  op_text (rq_operation rq) +:+ " " +:+ rq_pipe rq +:+ " " +:+ str_of_Z (rq_bytes rq) +:+ nl.

Definition forward (r : router) (connect : gateway) (peer : Z) (header payload : string) (byte_count : Z)
    : result string :=
  port ← gateway_ports r !! peer ?! ValueError ("no BaseIf gateway for worker slot " +:+ str_of_Z peer);
  stream ← connect port (header +:+ payload);
  response_rest ← readline stream;
  let response := response_rest.1 in
  if String.eqb response ("OK" +:+ nl) then Ok response
  else if String.eqb response ("OK " +:+ str_of_Z byte_count +:+ nl) then
    data_rest ← readexactly byte_count response_rest.2;
    Ok (response +:+ data_rest.1)
  else Ok (if String.eqb response "" then "ERR gateway closed connection" +:+ nl else response).

(** ** handle *)

Inductive scope := SameLogicalWorker | CrossLegosimSamePhysicalHost | CrossPhysicalHost.

Definition scope_text (s : scope) : string :=
  match s with
  | SameLogicalWorker => "same_logical_worker"
  | CrossLegosimSamePhysicalHost => "cross_legosim_same_physical_host"
  | CrossPhysicalHost => "cross_physical_host"
  end.

(** [self.physical_slots.get(worker, 0)] *)
Definition physical_of (r : router) (worker : Z) : Z := default 0 (physical_slots r !! worker).

Definition transport_scope (r : router) (peer : Z) : scope :=
  if peer =? slot r then SameLogicalWorker
  else if physical_of r (slot r) =? physical_of r peer then CrossLegosimSamePhysicalHost
  else CrossPhysicalHost.

(** The two clock readings before and after an operation. *)
Record stamp := Stamp { monotonic_ns : Z; unix_ns : Z }.

(** The record printed as [pipe-metric:]. *)
Definition metric (r : router) (rq : request) (started finished : stamp) : pydict :=
  let peer := rq_peer rq in
  let elapsed_ns := monotonic_ns finished - monotonic_ns started in
  let cross_host := negb (physical_of r (slot r) =? physical_of r peer) in
  [("operation", PStr (op_text (rq_operation rq)));
   ("pipe_name", PStr (rq_pipe rq));
   ("bytes", PInt (rq_bytes rq));
   ("source_slot", PInt (slot r));
   ("peer_slot", PInt peer);
   ("source_physical_slot", PInt (physical_of r (slot r)));
   ("peer_physical_slot", PInt (physical_of r peer));
   ("transport_scope", PStr (scope_text (transport_scope r peer)));
   ("cross_legosim", PBool (negb (peer =? slot r)));
   ("cross_physical_host", PBool cross_host);
   ("cross_node", PBool cross_host);
   ("started_monotonic_ns", PInt (monotonic_ns started));
   ("finished_monotonic_ns", PInt (monotonic_ns finished));
   ("started_unix_ns", PInt (unix_ns started));
   ("finished_unix_ns", PInt (unix_ns finished));
   ("elapsed_ns", PInt elapsed_ns);
   ("synchronization_wait_ns", PInt (match rq_operation rq with R => elapsed_ns | W => 0 end))].

Inductive output := Line (text : string) | Metric (record : pydict).

Record handled := Handled {
  hd_pipes : pipes;
  hd_reply : string;               (** everything written to the client *)
  hd_output : list output;         (** the lines printed *)
  hd_raised : option exn;          (** an exception that leaves the handler *)
}.

(** The [except] clauses. *)
Definition rejected (q : pipes) (printed : list output) (e : exn) : handled :=
  match e with
  | ValueError _ | UnicodeDecodeError _ | IncompleteReadError _ _ =>
      Handled q ("ERR " +:+ exn_str e +:+ nl)
        (printed ++ [Line ("pipe-router: rejected request: " +:+ exn_str e)]) None
  | OSError _ | FileNotFoundError _ | TimeoutError _ =>
      Handled q ("ERR gateway unavailable: " +:+ exn_str e +:+ nl)
        (printed ++ [Line ("pipe-router: gateway unavailable: " +:+ exn_str e)]) None
  | _ => Handled q "" printed (Some e)
  end.

Definition announce (r : router) (rq : request) : output :=
  Line ("pipe-router: op=" +:+ op_text (rq_operation rq) +:+ " pipe=" +:+ rq_pipe rq
        +:+ " bytes=" +:+ str_of_Z (rq_bytes rq) +:+ " slot=" +:+ str_of_Z (slot r)
        +:+ " peer=" +:+ str_of_Z (rq_peer rq)).

Definition completed (rq : request) : output :=
  Line ("pipe-router: completed op=" +:+ op_text (rq_operation rq) +:+ " pipe=" +:+ rq_pipe rq
        +:+ " bytes=" +:+ str_of_Z (rq_bytes rq)).

(** [handle_local] or [forward], by the peer. *)
Definition perform (r : router) (connect : gateway) (q : pipes) (rq : request)
    : option (result (pipes * string)) :=
  if rq_peer rq =? slot r then
    Ok <$> handle_local q (rq_operation rq) (rq_pipe rq) (rq_payload rq) (rq_bytes rq)
  else Some (reply ← forward r connect (rq_peer rq) (normalized_header rq) (rq_payload rq) (rq_bytes rq);
             Ok (q, reply)).

Definition handle (r : router) (connect : gateway) (q : pipes) (started finished : stamp) (stream : string)
    : option handled :=
  match prepare r stream with
  | Err e => Some (rejected q [] e)
  | Ok (rq, _) =>
      outcome ← perform r connect q rq;
      Some match outcome with
           | Ok (q', reply) =>
               Handled q' reply [announce r rq; Metric (metric r rq started finished); completed rq] None
           | Err e => rejected q [announce r rq] e
           end
  end.

(** ** The configuration read from a routing table *)

Lemma init_fold_list (l : list (string * Z)) (m : gmap string Z) :
  NoDup l.*1 →
  fold_result (λ m kv, v ← int_of kv.2; Ok (<[kv.1 := v]> m)) m (prod_map id PInt <$> l)
  = Ok (list_to_map l ∪ m).
Proof.
  revert m. induction l as [|[k v] l IH]; intros m; csimpl.
  - intros _. by rewrite (left_id_L ∅ (∪)).
  - intros [Hk Hl]%NoDup_cons. rewrite IH by done. f_equal.
    rewrite <- insert_union_r by (by apply not_elem_of_list_to_map). by rewrite insert_union_l.
Qed.

Lemma init_coordinates_entries m : init_coordinates (int_entries m) = Ok m.
Proof.
  unfold init_coordinates, int_entries. rewrite init_fold_list by apply NoDup_fst_map_to_list.
  by rewrite list_to_map_to_list, (right_id_L ∅ (∪)).
Qed.

Lemma init_routing own rt r :
  init own (to_json rt) = Ok r →
  slot r = own ∧ coordinates r = rt_coordinate_to_worker_slot rt ∧
  gateway_ports r = init_gateway_ports own (rt_gateway_base_port rt) (rt_coordinate_to_worker_slot rt).
Proof.
  unfold init. intros H. cbn in H. rewrite init_coordinates_entries in H. cbn in H.
  result_inv. done.
Qed.

Lemma init_gateway_ports_lookup own base m key s :
  m !! key = Some s → s ≠ own → init_gateway_ports own base m !! s = Some (base + s).
Proof.
  intros Hm Hne. unfold init_gateway_ports. apply lookup_set_to_map; [done|].
  exists s. split; [|done]. apply elem_of_difference. split; [|set_solver].
  unfold coordinate_values. apply elem_of_list_to_set, list_elem_of_fmap.
  exists (key, s). split; [done|]. by apply elem_of_map_to_list.
Qed.

(** ** Pipe names *)

(** The name PipeComm gives the pipe from chiplet [(sx, sy)] to chiplet [(dx, dy)]. *)
Definition pipe_name_of (sx sy dx dy : Z) : string :=
  "buffer" +:+ str_of_Z sx +:+ "_" +:+ str_of_Z sy +:+ "_" +:+ str_of_Z dx +:+ "_" +:+ str_of_Z dy.

Lemma signed_digits_str z : signed_digits (str_of_Z z) = true.
Proof.
  assert (Hn : ∀ n : N, isdigit (pretty n) = true).
  { intros n. unfold isdigit. rewrite pretty_N_digits.
    destruct (pretty_N_cons n) as (c & s & -> & _). done. }
  destruct (pretty_Z_cases z) as [[_ ->]|[_ ->]]; simpl; [|apply Hn].
  destruct (pretty_N_cons (Z.to_N z)) as (c & s & Hcs & Hc).
  specialize (Hn (Z.to_N z)). rewrite Hcs in *. simpl in *. destruct (Ascii.eqb_spec c "-"%char); [|done].
  subst c. vm_compute in Hc. done.
Qed.

Lemma match_pipe_name_of sx sy dx dy :
  match_pipe_name (pipe_name_of sx sy dx dy) = Some (str_of_Z sx, str_of_Z sy, str_of_Z dx, str_of_Z dy).
Proof.
  unfold match_pipe_name, pipe_name_of.
  rewrite (proj2 (strip_prefix_Some "buffer" _ _) eq_refl). cbn [mbind option_bind].
  rewrite !split_on_sep by (by apply str_of_Z_lacks). rewrite split_on_lacks by (by apply str_of_Z_lacks).
  by rewrite !signed_digits_str.
Qed.

(** The characters of an accepted pipe name. *)
Definition pipe_char (c : ascii) : bool := is_int_char c || Ascii.eqb c "_" || (97 <=? ord c)%nat && (ord c <=? 122)%nat.

Lemma isdigit_int_chars s : isdigit s = true → str_forallb pipe_char s = true.
Proof.
  unfold isdigit. intros [_ H]%andb_true_iff. eapply str_forallb_impl; [|done].
  intros c Hc. unfold pipe_char, is_int_char. by rewrite Hc.
Qed.

Lemma signed_digits_chars s : signed_digits s = true → str_forallb pipe_char s = true.
Proof.
  destruct s as [|c s]; [done|]. cbn [signed_digits].
  destruct (Ascii.eqb_spec c "-") as [->|_]; intros H%isdigit_int_chars; [|done]. cbn. done.
Qed.

Lemma match_pipe_name_chars name groups :
  match_pipe_name name = Some groups → str_forallb pipe_char name = true.
Proof.
  unfold match_pipe_name. destruct (strip_prefix "buffer" name) as [rest|] eqn:Hp; [|done]. simpl.
  apply strip_prefix_Some in Hp as ->. intros H. rewrite str_forallb_app. apply andb_true_iff; split; [done|].
  rewrite <- (join_split_on "_" rest).
  destruct (split_on "_" rest) as [|a [|b [|c [|d [|]]]]]; try done.
  destruct (signed_digits a && _ && _ && _) eqn:Hs; [|done]. bool_facts.
  cbn [join]. rewrite !str_forallb_app. by rewrite (signed_digits_chars a), (signed_digits_chars b), (signed_digits_chars c), (signed_digits_chars d).
Qed.

Lemma pipe_char_range c : pipe_char c = true → (45 ≤ ord c ≤ 122)%nat ∧ ord c ≠ 47%nat.
Proof.
  unfold pipe_char, is_int_char. rewrite !orb_true_iff, andb_true_iff, !Nat.leb_le, is_digit_range.
  intros [[[?|Hc%Ascii.eqb_eq]|Hc%Ascii.eqb_eq]|?];
    [lia|subst c; vm_compute; lia|subst c; vm_compute; lia|lia].
Qed.

Lemma pipe_chars_lack c s :
  ((ord c < 45)%nat ∨ ord c = 47%nat) → str_forallb pipe_char s = true → lacks c s = true.
Proof.
  intros Hc Hs. eapply str_forallb_impl; [|exact Hs]. intros a [Ha Ha']%pipe_char_range. simpl.
  apply negb_true_iff, Ascii.eqb_neq. intros ->. lia.
Qed.

Lemma int_chars_pipe z : str_forallb pipe_char (str_of_Z z) = true.
Proof.
  eapply str_forallb_impl; [|apply str_of_Z_int_chars]. intros c Hc. unfold pipe_char. by rewrite Hc.
Qed.

(** ** Reading requests *)

Lemma parse_operation_text op : parse_operation (op_text op) = Some op.
Proof. by destruct op. Qed.

Lemma parse_operation_Some f op : parse_operation f = Some op → f = op_text op.
Proof.
  unfold parse_operation. destruct (String.eqb_spec f "W") as [->|]; [naive_solver|].
  destruct (String.eqb_spec f "R") as [->|]; naive_solver.
Qed.

(** What [prepare] guarantees of a request. *)
Definition valid_request (r : router) (rq : request) : Prop :=
  0 ≤ rq_bytes rq ≤ MAX_REQUEST_BYTES ∧
  Z.of_nat (str_length (rq_payload rq)) = (match rq_operation rq with W => rq_bytes rq | R => 0 end) ∧
  peer_for r (rq_operation rq) (rq_pipe rq) = Ok (rq_peer rq).

Lemma prepare_Ok r stream rq rest :
  prepare r stream = Ok (rq, rest) → valid_request r rq.
Proof.
  unfold prepare, valid_request. intros H. result_inv. destruct a0 as [[op path] text]. result_inv. bool_facts.
  simpl. split; [lia|]. split; [|done]. destruct op; simpl.
  - destruct a2 as [payload rest]. by apply readexactly_Ok in Ha3 as [_ ?].
  - by injection Ha3 as <-.
Qed.

Lemma peer_for_chars r op name peer : peer_for r op name = Ok peer → str_forallb pipe_char name = true.
Proof. unfold peer_for. intros H. result_inv. by eapply match_pipe_name_chars. Qed.

(** The header of a request with an admissible name is parsed back. *)
Lemma parse_header_normalized op name n :
  str_forallb pipe_char name = true →
  parse_header (op_text op +:+ " " +:+ name +:+ " " +:+ str_of_Z n +:+ nl) = Ok (op, name, str_of_Z n).
Proof.
  intros Hname. unfold parse_header.
  set (text := op_text op +:+ " " +:+ name +:+ " " +:+ str_of_Z n).
  replace (op_text op +:+ _) with (text +:+ nl) by (unfold text; by rewrite !str_app_assoc).
  assert (Hok : ∀ (p : ascii → bool), (∀ c, pipe_char c = true → p c = true) → p " "%char = true →
            p "W"%char = true → p "R"%char = true → str_forallb p text = true).
  { intros p Hp Hs HW HR. unfold text. rewrite !str_forallb_app. simpl. rewrite Hs.
    rewrite (str_forallb_impl pipe_char p name Hp Hname).
    rewrite (str_forallb_impl pipe_char p _ Hp (int_chars_pipe n)). destruct op; simpl; by rewrite ?HW, ?HR. }
  rewrite decode_ascii_Ok.
  2:{ rewrite str_forallb_app. rewrite (Hok (λ c, (ord c <=? 127)%nat)); [done| |done..].
      intros c [Hc _]%pipe_char_range. apply Nat.leb_le. lia. }
  simpl. change nl with (String NL ""). rewrite rstrip_by_last by done. rewrite rstrip_by_none.
  2:{ apply Hok; [|done..]. intros c [Hc _]%pipe_char_range. apply negb_true_iff, Ascii.eqb_neq.
      intros <-. change (ord NL) with 10%nat in Hc. lia. }
  unfold text. rewrite split_on_sep by (by destruct op).
  rewrite split_on_sep by (apply pipe_chars_lack; [left; vm_compute; lia|done]).
  rewrite split_on_lacks by (by apply str_of_Z_lacks). by rewrite parse_operation_text.
Qed.

(** A request stream as the router itself writes it to a gateway. *)
Definition encode (rq : request) : string := normalized_header rq +:+ rq_payload rq.

Lemma header_line_shape op name n (rest : string) :
  str_forallb pipe_char name = true →
  Z.of_nat (str_length (op_text op +:+ " " +:+ name +:+ " " +:+ str_of_Z n +:+ nl)) ≤ 65537 →
  readline ((op_text op +:+ " " +:+ name +:+ " " +:+ str_of_Z n +:+ nl) +:+ rest)
  = Ok (op_text op +:+ " " +:+ name +:+ " " +:+ str_of_Z n +:+ nl, rest).
Proof.
  intros Hname.
  set (text := op_text op +:+ " " +:+ name +:+ " " +:+ str_of_Z n).
  replace (op_text op +:+ _) with (text +:+ nl) by (unfold text; by rewrite !str_app_assoc).
  rewrite str_length_app, str_app_assoc. change (str_length nl) with 1%nat. intros Hlen. apply readline_app.
  - unfold text. rewrite !str_forallb_app. simpl.
    fold (lacks NL name). fold (lacks NL (str_of_Z n)).
    rewrite pipe_chars_lack by (try done; left; vm_compute; lia). rewrite str_of_Z_lacks by done.
    by destruct op.
  - unfold STREAM_LIMIT. lia.
Qed.

(** The header line, with its line feed, fits the limit of the stream reader. *)
Definition header_fits (rq : request) : Prop := Z.of_nat (str_length (normalized_header rq)) ≤ 65537.

Lemma prepare_encode r rq rest :
  valid_request r rq → header_fits rq → prepare r (encode rq +:+ rest) = Ok (rq, rest).
Proof.
  intros (Hn & Hlen & Hpeer) Hfit. pose proof (peer_for_chars _ _ _ _ Hpeer) as Hc.
  unfold prepare, encode. rewrite str_app_assoc. unfold header_fits, normalized_header in *.
  rewrite header_line_shape by done. cbn [mbind result_bind fst snd].
  rewrite parse_header_normalized by done. cbn [mbind result_bind].
  rewrite after_last_lacks by (apply pipe_chars_lack; [by right|done]).
  rewrite py_int_exn_str. cbn [mbind result_bind].
  replace (_ || _) with false by (symmetry; apply orb_false_iff; rewrite Z.ltb_ge, Z.ltb_ge; lia).
  destruct rq as [op name n payload peer]; cbn [rq_operation rq_pipe rq_bytes rq_payload rq_peer] in *.
  destruct op; cbn [raise_if mbind result_bind].
  - rewrite <- Hlen, readexactly_app. cbn [mbind result_bind fst snd]. by rewrite Hpeer.
  - destruct payload; [|simpl in Hlen; lia]. cbn [fst snd String.append]. by rewrite Hpeer.
Qed.

(** ** Replies *)

(** The exceptions [handle] turns into a reply. *)
Definition caught (e : exn) : bool :=
  match e with
  | ValueError _ | UnicodeDecodeError _ | IncompleteReadError _ _ | OSError _
  | FileNotFoundError _ | TimeoutError _ => true
  | _ => false
  end.

Lemma rejected_reply q printed e :
  caught e = true →
  ∃ msg, rejected q printed e =
    Handled q ("ERR " +:+ msg +:+ nl) (hd_output (rejected q printed e)) None.
Proof.
  destruct e; try done; intros _; cbn [rejected hd_output].
  1, 5, 6: by eexists.
  all: eexists ("gateway unavailable: " +:+ _); by rewrite str_app_assoc.
Qed.

Lemma readline_Err s e : readline s = Err e → caught e = true.
Proof.
  unfold readline. destruct (cut_line s) as [line [rest|]]; intros H;
    destruct (_ <? _)%nat; simpl in H; by inversion H.
Qed.

Lemma readexactly_Err n s e : readexactly n s = Err e → caught e = true.
Proof. unfold readexactly. destruct (_ <? _)%nat; simpl; by inversion 1. Qed.

Lemma parse_header_Err line e : parse_header line = Err e → caught e = true.
Proof.
  unfold parse_header, decode_ascii. destruct (first_non_ascii 0 line) as [[i c]|]; simpl; [by inversion 1|].
  destruct (split_on _ _) as [|o [|p [|b [|]]]]; try (by inversion 1).
  destruct (parse_operation o); simpl; by inversion 1.
Qed.

Lemma peer_for_Err r op name e : peer_for r op name = Err e → caught e = true.
Proof.
  unfold peer_for. intros [[_ <-]%of_option_Err|([[[? ?] ?] ?] & _ & [_ <-]%of_option_Err)]%bind_Err; done.
Qed.

Lemma prepare_Err r stream e : prepare r stream = Err e → caught e = true.
Proof.
  unfold prepare. intros [?%readline_Err|([line rest] & _ & H)]%bind_Err; [done|].
  apply bind_Err in H as [?%parse_header_Err|([[op path] text] & _ & H)]; [done|].
  apply bind_Err in H as [[_ <-]%of_option_Err|(n & _ & H)]; [done|].
  apply bind_Err in H as [[_ <-]%raise_if_Err|(u & _ & H)]; [done|].
  apply bind_Err in H as [H|(pr & _ & H)]; [destruct op; [by apply readexactly_Err in H|done]|].
  apply bind_Err in H as [?%peer_for_Err|(peer & _ & H)]; done.
Qed.

Lemma forward_result r connect peer header payload n :
  (∀ port sent e, connect port sent = Err e → caught e = true) →
  match forward r connect peer header payload n with
  | Ok reply => reply ≠ ""
  | Err e => caught e = true
  end.
Proof.
  intros Hc. unfold forward.
  destruct (gateway_ports r !! peer) as [port|]; [|done]. cbn [of_option mbind result_bind].
  destruct (connect port _) as [stream|e] eqn:E; cbn [mbind result_bind]; [|by eapply Hc].
  destruct (readline stream) as [[resp rest]|e] eqn:El; cbn [mbind result_bind fst snd]; [|by eapply readline_Err].
  destruct (String.eqb resp ("OK" +:+ nl)) eqn:E1.
  { apply String.eqb_eq in E1 as ->. discriminate. }
  destruct (String.eqb resp ("OK " +:+ str_of_Z n +:+ nl)) eqn:E2.
  - apply String.eqb_eq in E2 as ->.
    destruct (readexactly n rest) as [[d rest']|e] eqn:Ed; cbn [mbind result_bind]; [discriminate|by eapply readexactly_Err].
  - by destruct (String.eqb_spec resp "").
Qed.

(** ** Properties *)

(** C6: an accepted request survives forwarding.  Whatever the client sent (a path in front of
    the pipe name, a differently written byte count), the bytes the router hands to a gateway,
    the normalised header followed by the payload, are parsed by the same code to exactly the
    same request, and what follows them stays unread. *)
Theorem request_roundtrip r stream rq rest rest' :
  prepare r stream = Ok (rq, rest) → header_fits rq →
  prepare r (encode rq +:+ rest') = Ok (rq, rest').
Proof. intros H%prepare_Ok. by apply prepare_encode. Qed.

Definition demo_routing : routing :=
  Routing.Routing TRANSPORT "mlp" {["5,5" := 0; "0,1" := 1]} {["0" := 0; "1" := 0]} {["0,1" := "node0-node1"]} 9500.

Lemma request_roundtrip_witness :
  ∃ r rq, init 0 (to_json demo_routing) = Ok r ∧
    prepare r ("W .././buffer5_5_0_1 +0_4" +:+ nl +:+ "ping!") = Ok (rq, "!") ∧
    encode rq = "W buffer5_5_0_1 4" +:+ nl +:+ "ping" ∧
    prepare r (encode rq +:+ "R") = Ok (rq, "R").
Proof.
  destruct (init 0 (to_json demo_routing)) as [r|] eqn:Hr; [|vm_compute in Hr; done].
  vm_compute in Hr. injection Hr as <-. eexists _, _. split; [done|].
  match goal with |- ?p = _ ∧ _ => let v := eval vm_compute in p in
    assert (Hp : p = v) by (vm_compute; reflexivity) end.
  split; [exact Hp|]. split; [vm_compute; reflexivity|].
  eapply request_roundtrip; [exact Hp|]. vm_compute. discriminate.
Defined.

(** A router with the coordinates of a generated routing table resolves a pipe to the worker on
    which a process serving the pipe's destination (for a write) or source (for a read) was
    placed, and to no other worker.  Every worker it can resolve to is either itself or one whose
    gateway port it knows, port 9500 plus the worker's slot. *)
Definition resolves (pl : placement) (own : Z) (r : router) : Prop :=
  ∀ op sx sy dx dy peer,
    (peer_for r op (pipe_name_of sx sy dx dy) = Ok peer ↔
       ∃ p, p ∈ pl_processes pl ∧
         serves (match op with W => coordinate_key dx dy | R => coordinate_key sx sy end) peer p) ∧
    (peer_for r op (pipe_name_of sx sy dx dy) = Ok peer → peer ≠ own →
       gateway_ports r !! peer = Some (9500 + peer)).

Lemma configured_resolves pl t phys own rt r :
  Routing.main pl t phys = Ok rt → coordinates r = rt_coordinate_to_worker_slot rt →
  gateway_ports r = init_gateway_ports own (rt_gateway_base_port rt) (rt_coordinate_to_worker_slot rt) →
  resolves pl own r.
Proof.
  intros Hmain Hcoords Hports op sx sy dx dy peer.
  unfold Routing.main in Hmain. result_inv. cbn [rt_coordinate_to_worker_slot rt_gateway_base_port] in *.
  assert (Hpeer : peer_for r op (pipe_name_of sx sy dx dy) = Ok peer ↔
    coordinates r !! (match op with W => coordinate_key dx dy | R => coordinate_key sx sy end) = Some peer).
  { unfold peer_for. rewrite match_pipe_name_of. cbn [of_option mbind result_bind].
    rewrite of_option_Ok. by destruct op. }
  rewrite Hpeer, Hcoords. split; [by apply coordinate_to_slot_Ok|].
  intros Hl Hne. rewrite Hports. by eapply init_gateway_ports_lookup.
Qed.

(** Addressing: a router configured from the generated routing table resolves pipes by the placement. *)
Theorem peer_resolution pl t phys own rt r :
  Routing.main pl t phys = Ok rt → init own (to_json rt) = Ok r → resolves pl own r.
Proof. intros Hmain (_ & Hcoords & Hports)%init_routing. by eapply configured_resolves. Qed.

Lemma peer_resolution_witness :
  ∃ rt r, Routing.main (demo_placement 2) (demo_topology 2) None = Ok rt ∧ init 0 (to_json rt) = Ok r ∧
    peer_for r W (pipe_name_of 5 5 0 1) = Ok 1 ∧ gateway_ports r !! 1 = Some 9501.
Proof.
  destruct (Routing.main (demo_placement 2) (demo_topology 2) None) as [rt|] eqn:E; [|vm_compute in E; done].
  destruct (init 0 (to_json rt)) as [r|] eqn:Er.
  2:{ vm_compute in E. injection E as <-. vm_compute in Er. done. }
  exists rt, r. destruct (peer_resolution _ _ _ _ _ _ E Er W 5 5 0 1 1) as [H1 H2].
  assert (peer_for r W (pipe_name_of 5 5 0 1) = Ok 1) as Hp.
  { apply H1. exists (Placed "phase1" 1 1 "n1" (Some (0, 1))). split; [simpl; set_solver|].
    exists 0, 1. done. }
  split; [done|]. split; [done|]. split; [done|]. apply (H2 Hp). discriminate.
Defined.



(** Local delivery.  On a worker that hosts both endpoints of an idle pipe, a write is
    acknowledged with [OK] and the next read of the same size is answered with exactly the
    bytes that were written; the pipe is idle again afterwards. *)
Theorem local_write_then_read r connect q times name payload wr rd rest rest' :
  wr = Request W name (Z.of_nat (str_length payload)) payload (slot r) →
  rd = Request R name (Z.of_nat (str_length payload)) "" (slot r) →
  valid_request r wr → valid_request r rd → header_fits wr → queue q name = [] →
  ∃ h1 h2, handle r connect q (times 0) (times 1) (encode wr +:+ rest) = Some h1 ∧
    hd_reply h1 = "OK" +:+ nl ∧
    handle r connect (hd_pipes h1) (times 2) (times 3) (encode rd +:+ rest') = Some h2 ∧
    hd_reply h2 = "OK " +:+ str_of_Z (Z.of_nat (str_length payload)) +:+ nl +:+ payload ∧
    queue (hd_pipes h2) name = [].
Proof.
  intros Hwr Hrd Vw Vr Fw Hq. assert (Fr : header_fits rd) by (by subst).
  unfold handle. rewrite !prepare_encode by done. unfold perform. subst. cbn [rq_peer]. rewrite Z.eqb_refl.
  cbn [rq_operation rq_pipe rq_payload rq_bytes handle_local fmap option_fmap option_map mbind option_bind].
  eexists _, _. split; [done|]. split; [done|]. cbn [hd_pipes]. rewrite Hq.
  assert (Hl : ∀ l, queue (<[name := l]> q) name = l) by (intros; unfold queue; by rewrite lookup_insert_eq).
  rewrite Hl. cbn [app]. rewrite Z.eqb_refl. cbn [fmap option_fmap option_map mbind option_bind].
  split; [done|]. split; [done|]. cbn [hd_pipes]. unfold queue. by rewrite lookup_insert_eq.
Qed.

Lemma local_write_then_read_witness :
  ∃ r h1 h2, init 0 (to_json (Routing.Routing TRANSPORT "mlp" {["5,5" := 0; "2,0" := 0]} ∅ ∅ 9500)) = Ok r ∧
    handle r (λ _ _, Err (OSError "")) ∅ (Stamp 0 0) (Stamp 1 1) ("W buffer5_5_2_0 4" +:+ nl +:+ "ping") = Some h1 ∧
    handle r (λ _ _, Err (OSError "")) (hd_pipes h1) (Stamp 2 2) (Stamp 3 3) ("R buffer5_5_2_0 4" +:+ nl) = Some h2 ∧
    hd_reply h2 = "OK 4" +:+ nl +:+ "ping".
Proof.
  destruct (init 0 _) as [r|] eqn:Hr; [|vm_compute in Hr; done]. exists r.
  vm_compute in Hr. injection Hr as <-.
  edestruct (local_write_then_read (Router 0 {["5,5" := 0; "2,0" := 0]} ∅ ∅) (λ _ _, Err (OSError "")) ∅
    (λ n, Stamp n n) "buffer5_5_2_0" "ping" _ _ "" "" eq_refl eq_refl) as (h1 & h2 & H1 & _ & H2 & H3 & _).
  1, 2: split; [simpl; unfold MAX_REQUEST_BYTES; lia|split; [done|vm_compute; reflexivity]].
  1: vm_compute; discriminate. 1: done.
  exists h1, h2. split; [done|]. split; [exact H1|]. split; [exact H2|exact H3].
Defined.

(** A gateway's [ERR] line is passed to the client, and the operation is metered all the same. *)
Lemma failed_forward_is_metered :
  ∃ r h, init 0 (to_json demo_routing) = Ok r ∧
    handle r (λ _ _, Ok ("ERR down" +:+ nl)) ∅ (Stamp 0 0) (Stamp 9 9) ("R buffer0_1_5_5 4" +:+ nl) = Some h ∧
    hd_reply h = "ERR down" +:+ nl ∧ existsb (λ o, match o with Metric _ => true | Line _ => false end) (hd_output h) = true.
Proof.
  destruct (init 0 (to_json demo_routing)) as [r|] eqn:Hr; [|vm_compute in Hr; done].
  vm_compute in Hr. injection Hr as <-. eexists _, _. split; [done|]. split; [vm_compute; reflexivity|].
  by vm_compute.
Qed.
