(* ===== verification/LocalPipes.v ===== *)
(** * Concurrent requests for the router's local pipes

    [Router.handle_local] of [src/real/simbricks_pipe_router.py] under its one
    [asyncio.Condition]: a write notifies every waiting read ([notify_all]), a read notifies
    nobody. *)

From S2P Require Import Prelude PyValue Topology Placement Routing Router Monitor.

(** [self.local_ready.notify_all()] after a write; a read leaves the waiters alone. *)
Definition notify_all (rq : request) (w : list request) : list request * list request :=
  match rq_operation rq with W => (w, []) | R => ([], w) end.

Lemma notify_all_split rq w : (notify_all rq w).1 ++ (notify_all rq w).2 ≡ₚ w.
Proof. unfold notify_all. destruct (rq_operation rq); simpl; by rewrite ?app_nil_r. Qed.

#[export] Instance local_pipes : Monitor pipes request string := {|
  attempt := λ q rq, handle_local q (rq_operation rq) (rq_pipe rq) (rq_payload rq) (rq_bytes rq);
  wake := notify_all;
  wake_split := notify_all_split;
|}.

(** ** Histories of one pipe *)

Definition writes (name : string) (h : list (request * string)) : list string :=
  (λ c, rq_payload c.1) <$> filter (λ c, rq_operation c.1 = W ∧ rq_pipe c.1 = name) h.

Definition reads (name : string) (h : list (request * string)) : list (request * string) :=
  filter (λ c, rq_operation c.1 = R ∧ rq_pipe c.1 = name) h.

(** The reply delivers [data], which has the requested size. *)
Definition delivers (c : request * string) (data : string) : Prop :=
  c.2 = "OK " +:+ str_of_Z (rq_bytes c.1) +:+ nl +:+ data ∧ Z.of_nat (str_length data) = rq_bytes c.1.

Lemma handle_local_Some q rq q' reply :
  attempt q rq = Some (q', reply) →
  (rq_operation rq = W ∧ queue q' (rq_pipe rq) = queue q (rq_pipe rq) ++ [rq_payload rq] ∨
   rq_operation rq = R ∧ ∃ data, queue q (rq_pipe rq) = data :: queue q' (rq_pipe rq) ∧ delivers (rq, reply) data) ∧
  (∀ name, name ≠ rq_pipe rq → queue q' name = queue q name).
Proof.
  cbn [attempt local_pipes]. unfold handle_local, delivers.
  assert (Hl : ∀ l, queue (<[rq_pipe rq := l]> q) (rq_pipe rq) = l) by (intros; unfold queue; by rewrite lookup_insert_eq).
  assert (Hne : ∀ l name, name ≠ rq_pipe rq → queue (<[rq_pipe rq := l]> q) name = queue q name)
    by (intros; unfold queue; by rewrite lookup_insert_ne).
  destruct (rq_operation rq).
  - intros [= <- <-]. split; [left; by rewrite Hl|auto].
  - destruct (queue q (rq_pipe rq)) as [|data rest] eqn:E; [done|].
    destruct (Z.eqb_spec (Z.of_nat (str_length data)) (rq_bytes rq)); [|done].
    intros [= <- <-]. split; [right|auto]. split; [done|]. exists data. by rewrite Hl.
Qed.

Lemma local_sequential_fifo h q q' name :
  sequential q h.*1 = Some (q', h.*2) →
  ∃ datas, Forall2 delivers (reads name h) datas ∧ queue q name ++ writes name h = datas ++ queue q' name.
Proof.
  revert q. induction h as [|[rq reply] h IH]; intros q; cbn [fmap list_fmap sequential fst snd].
  - intros [= ->]. exists []. split; [constructor|]. unfold writes. by rewrite app_nil_r.
  - destruct (attempt q rq) as [[q1 r1]|] eqn:Hat; [|done]. cbn [mbind option_bind].
    destruct (sequential q1 h.*1) as [[q2 rs]|] eqn:Hseq; [|done]. cbn [mbind option_bind].
    intros [= -> -> ->]. destruct (IH _ Hseq) as (datas & Hd & Heq).
    apply handle_local_Some in Hat as [Hcase Hother]. unfold reads, writes in *.
    destruct (decide (rq_pipe rq = name)) as [<-|Hne].
    + destruct Hcase as [(Ho & Hq)|(Ho & data & Hq & Hdel)].
      * rewrite filter_cons_False by (simpl; intros [? _]; congruence).
        rewrite filter_cons_True by done. exists datas. split; [done|]. csimpl.
        rewrite <- Heq, Hq. by rewrite <- app_assoc.
      * rewrite filter_cons_True by done. rewrite filter_cons_False by (simpl; intros [? _]; congruence).
        exists (data :: datas). split; [by constructor|]. rewrite Hq. simpl. by f_equal.
    + rewrite !filter_cons_False by (simpl; naive_solver). exists datas. split; [done|].
      by rewrite <- Heq, Hother.
Qed.

(** ** Waiting reads *)

Lemma attempt_None q rq :
  attempt q rq = None ↔
  rq_operation rq = R ∧ ∀ data, head (queue q (rq_pipe rq)) = Some data → Z.of_nat (str_length data) ≠ rq_bytes rq.
Proof.
  cbn [attempt local_pipes]. unfold handle_local. destruct (rq_operation rq); [naive_solver|].
  destruct (queue q (rq_pipe rq)) as [|data rest]; cbn [head]; [naive_solver|].
  destruct (Z.eqb_spec (Z.of_nat (str_length data)) (rq_bytes rq)); naive_solver.
Qed.

Lemma attempt_None_frame q q' rq :
  queue q' (rq_pipe rq) = queue q (rq_pipe rq) → attempt q rq = None → attempt q' rq = None.
Proof. rewrite !attempt_None. by intros ->. Qed.

Abbreviation pstate := (state pipes request).

(** A client issues its next read of a pipe only after the previous one was answered. *)
Definition single_reader (s : pstate) (rq : request) : Prop :=
  rq_operation rq = R → rq_pipe rq ∉ rq_pipe <$> waiting s ++ notified s.

(** Unanswered operations are reads, of distinct pipes, and the parked ones cannot proceed. *)
Definition parked_blocked (s : pstate) : Prop :=
  Forall (λ o, rq_operation o = R) (waiting s ++ notified s) ∧
  NoDup (rq_pipe <$> waiting s ++ notified s) ∧
  Forall (λ o, attempt (shared s) o = None) (waiting s).

Lemma parked_blocked_step s new e s' :
  parked_blocked s → Forall (single_reader s) new → step s new e s' → parked_blocked s'.
Proof.
  intros (Hr & Hnd & Hb) Hnew (o & n & Hor & Hrun)%step_cases.
  (* the lock owner is a write, or a read of a pipe no other waiting operation reads *)
  assert (Hcase : rq_operation o = W ∧ n = notified s ∨
    rq_operation o = R ∧ Forall (λ o, rq_operation o = R) (waiting s ++ n) ∧ NoDup (rq_pipe <$> o :: waiting s ++ n)).
  { destruct Hor as [[-> ->]|[-> Hn]].
    - rewrite Forall_singleton in Hnew. destruct (rq_operation o) eqn:Ho; [by left|right].
      split; [done|]. split; [done|]. csimpl. constructor; auto.
    - right. assert (Hp : waiting s ++ notified s ≡ₚ o :: waiting s ++ n).
      { rewrite Hn. symmetry. apply Permutation_middle. }
      rewrite Hp in Hr, Hnd. by apply Forall_cons in Hr as [? ?]. }
  apply run_locked_cases in Hrun as [(d' & r & Hat & -> & ->)|(Hat & -> & ->)]; unfold parked_blocked;
    cbn [waiting notified shared wake local_pipes].
  - unfold notify_all. destruct Hcase as [(Ho & ->)|(Ho & Hr' & Hnd')]; rewrite Ho; cbn [fst snd].
    + rewrite app_nil_l, (Permutation_app_comm (notified s)). done.
    + rewrite app_nil_r. csimpl in Hnd'. apply NoDup_cons in Hnd' as [Hni Hnd']. split; [done|]. split; [done|].
      apply handle_local_Some in Hat as [_ Hframe]. rewrite Forall_forall in *. intros x Hx.
      apply (attempt_None_frame (shared s)); [|by apply Hb]. apply Hframe. intros Heq. apply Hni.
      rewrite <- Heq. apply list_elem_of_fmap_2. set_solver.
  - destruct Hcase as [(Ho & _)|(Ho & Hr' & Hnd')]; [by apply attempt_None in Hat as [? _]; congruence|].
    assert (Hp : (waiting s ++ [o]) ++ n ≡ₚ o :: waiting s ++ n)
      by (rewrite <- app_assoc; symmetry; apply Permutation_middle).
    rewrite Hp. split; [by constructor|]. split; [done|]. apply Forall_app. split; [done|by constructor].
Qed.

Lemma parked_blocked_reachable arrived events s :
  reachable single_reader ∅ arrived events s → parked_blocked s.
Proof.
  induction 1 as [|arrived events s new e s' _ IH Hnew Hstep].
  - split; [constructor|]. split; [constructor|constructor].
  - by eapply parked_blocked_step.
Qed.

(** ** Properties *)

(** C8: local pipes are reliable FIFO channels under every interleaving.  However requests
    arrive, wait and are woken, each one is answered at most once and none is lost; and on
    every pipe the payloads delivered to the completed reads, in the order of the reads,
    followed by the payloads still queued, are exactly the payloads written, in the order of the
    writes.  Every delivered payload has the size its reader asked for. *)
Theorem local_pipes_fifo admits arrived events s :
  reachable admits ∅ arrived events s →
  arrived ≡ₚ (completions events).*1 ++ waiting s ++ notified s ∧
  ∀ name, ∃ datas,
    Forall2 delivers (reads name (completions events)) datas ∧
    writes name (completions events) = datas ++ queue (shared s) name.
Proof.
  intros H. split; [by eapply reachable_conserved|]. intros name.
  destruct (local_sequential_fifo _ _ _ name (reachable_sequential _ _ _ _ _ H)) as (datas & Hd & Heq). eauto.
Qed.

(** C9: no lost wakeup for clients that read one message at a time.  Notified reads do not
    notify others, so each one that gets the lock leaves one fewer to serve; and once none is
    left, every request that has arrived is answered, except the reads for which no payload of
    the size they asked for is at the head of their pipe. *)
Theorem single_reader_served arrived events s :
  reachable single_reader ∅ arrived events s →
  (∀ e s', step s [] e s' → length (notified s) = S (length (notified s'))) ∧
  (quiescent s → ∀ rq, rq ∈ arrived →
     rq ∈ (completions events).*1 ∨
     rq_operation rq = R ∧ ∀ data, head (queue (shared s) (rq_pipe rq)) = Some data → Z.of_nat (str_length data) ≠ rq_bytes rq).
Proof.
  intros H. destruct (parked_blocked_reachable _ _ _ H) as (Hr & _ & Hb). split.
  - intros e s' (o & n & [[? _]|[_ Hn]] & Hrun)%step_cases; [done|]. rewrite Hn.
    assert (rq_operation o = R) as Ho.
    { rewrite Forall_forall in Hr. apply Hr. rewrite Hn. set_solver. }
    apply run_locked_cases in Hrun as [(d' & r & _ & _ & ->)|(_ & _ & ->)]; cbn [notified wake local_pipes]; [|done].
    unfold notify_all. rewrite Ho. simpl. by rewrite app_nil_r.
  - intros Hq rq Hrq. apply reachable_conserved in H. rewrite H in Hrq. unfold quiescent in Hq.
    rewrite Hq, app_nil_r in Hrq. apply elem_of_app in Hrq as [?|Hw]; [by left|right].
    rewrite Forall_forall in Hb. by apply attempt_None, Hb.
Qed.

(** A run in which two reads of different sizes wait for one pipe. *)
Definition write_ (payload : string) : request :=
  Request W "buffer0_0_0_1" (Z.of_nat (str_length payload)) payload 0.
Definition read_ (n : Z) : request := Request R "buffer0_0_0_1" n "" 0.

Lemma stuck_run :
  ∃ events s, reachable (λ _ _, True) ∅ [read_ 2; read_ 3; write_ "aaa"; write_ "bb"] events s ∧
    quiescent s ∧ waiting s = [read_ 2] ∧ queue (shared s) "buffer0_0_0_1" = ["bb"].
Proof.
  eexists _, _. split.
  - change [read_ 2; read_ 3; write_ "aaa"; write_ "bb"]
      with (((((([] ++ [read_ 2]) ++ [read_ 3]) ++ [write_ "aaa"]) ++ [write_ "bb"]) ++ []) ++ []).
    eapply (reachable_step _ _ _ _ _ []). eapply (reachable_step _ _ _ _ _ []).
    eapply (reachable_step _ _ _ _ _ [_]). eapply (reachable_step _ _ _ _ _ [_]).
    eapply (reachable_step _ _ _ _ _ [_]). eapply (reachable_step _ _ _ _ _ [_]).
    apply reachable_init.
    all: first [by apply Forall_nil_2 | by apply Forall_singleton | apply step_arrive; reflexivity
               | eapply (step_resume _ []); reflexivity].
  - split; [done|]. split; vm_compute; reflexivity.
Qed.

Lemma local_pipes_fifo_witness :
  ∃ events s datas, reachable (λ _ _, True) ∅ [read_ 2; read_ 3; write_ "aaa"; write_ "bb"] events s ∧
    Forall2 delivers (reads "buffer0_0_0_1" (completions events)) datas ∧
    writes "buffer0_0_0_1" (completions events) = datas ++ ["bb"].
Proof.
  destruct stuck_run as (events & s & H & _ & _ & Hq).
  destruct (local_pipes_fifo _ _ _ _ H) as [_ Hf]. destruct (Hf "buffer0_0_0_1") as (datas & Hd & Hw).
  rewrite Hq in Hw. exists events, s, datas. split; [done|]. split; [exact Hd|exact Hw].
Defined.

(** One client reads while another writes. *)
Lemma served_run :
  ∃ events s, reachable single_reader ∅ [read_ 3; write_ "aaa"] events s ∧ quiescent s.
Proof.
  eexists _, _. split.
  - change [read_ 3; write_ "aaa"] with ((([] ++ [read_ 3]) ++ [write_ "aaa"]) ++ []).
    eapply (reachable_step _ _ _ _ _ []). eapply (reachable_step _ _ _ _ _ [_]). eapply (reachable_step _ _ _ _ _ [_]).
    apply reachable_init.
    all: first [by apply Forall_nil_2 | apply step_arrive; reflexivity | eapply (step_resume _ []); reflexivity
               | apply Forall_singleton; intros ?; simpl; first [set_solver | done]].
  - done.
Qed.

Lemma single_reader_served_witness :
  ∃ events s, reachable single_reader ∅ [read_ 3; write_ "aaa"] events s ∧
    (read_ 3 ∈ (completions events).*1 ∨
     rq_operation (read_ 3) = R ∧ ∀ data, head (queue (shared s) "buffer0_0_0_1") = Some data → Z.of_nat (str_length data) ≠ 3).
Proof.
  destruct served_run as (events & s & H & Hq). exists events, s. split; [done|].
  apply (proj2 (single_reader_served _ _ _ H) Hq (read_ 3)). set_solver.
Defined.
