(* ===== verification/Broker.v ===== *)
(** * The FIFO broker and its client

    Model of [src/real/fifo_broker.py] and of the requests [src/real/fifo_client.py] sends: the
    native line protocol, the JSON protocol with base64 payloads, and the per-pipe condition
    variables under concurrent requests.  [json.loads] is an argument. *)

From S2P Require Import Prelude PyValue Codec Monitor.

(** ** Requests *)

Inductive operation := Write | Read.

#[export] Instance operation_eq_dec : EqDecision operation.
Proof. solve_decision. Defined.

Inductive protocol := Native | Json.

Record request := Request {
  rq_protocol : protocol;
  rq_operation : operation;
  rq_pipe : string;
  rq_bytes : Z;             (** the announced or expected size *)
  rq_payload : string;      (** empty for a read *)
}.

(** [text.split(" ", 2)] unpacked into three names. *)
Definition split_three (text : string) : result (string * string * string) :=
  match partition_on " " text with
  | (a, Some r) => match partition_on " " r with
                   | (b, Some c) => Ok (a, b, c)
                   | (_, None) => Err (ValueError "not enough values to unpack (expected 3, got 2)")
                   end
  | (_, None) => Err (ValueError "not enough values to unpack (expected 3, got 1)")
  end.

(** [handle_native] up to the point where it takes the lock of the pipe. *)
Definition prepare_native (max_payload_bytes : Z) (header stream : string) : result request :=
  text ← decode_utf8 header;
  fields ← split_three (rstrip_by (Ascii.eqb NL) text);
  let '(operation_, name, byte_count_text) := fields in
  byte_count ← py_int_exn byte_count_text;
  _ ← raise_if ((byte_count <? 0) || (max_payload_bytes <? byte_count)) (ValueError "invalid payload size");
  if String.eqb operation_ "W" then
    payload_rest ← readexactly byte_count stream;
    Ok (Request Native Write name byte_count payload_rest.1)
  else if String.eqb operation_ "R" then Ok (Request Native Read name byte_count "")
  else Err (ValueError ("unsupported native operation: " +:+ operation_)).

(** [base64.b64decode(value, validate=True)] of a JSON value. *)
Definition b64decode_value (v : pyval) : result string :=
  s ← is_str v ?! TypeError;
  _ ← raise_if (negb (str_forallb (λ c, (ord c <=? 127)%nat) s))
        (ValueError "string argument should contain only ASCII characters");
  b64decode true s.

(** The JSON branch of [handle] up to the lock. *)
Definition prepare_json (json_loads : string → result pyval) (max_payload_bytes : Z) (header : string)
    : result request :=
  text ← decode_utf8 header;
  value ← json_loads text;
  d ← is_dict value ?! TypeError;
  pipe ← dict_item "pipe" d;
  op ← dict_item "op" d;
  let name := py_str pipe in
  let operation_ := py_str op in
  if String.eqb operation_ "write" then
    encoded ← dict_item "payload" d;
    payload ← b64decode_value encoded;
    _ ← raise_if (max_payload_bytes <? Z.of_nat (str_length payload)) (ValueError "payload exceeds configured limit");
    Ok (Request Json Write name (Z.of_nat (str_length payload)) payload)
  else if String.eqb operation_ "read" then
    bytes ← dict_item "bytes" d;
    expected ← int_of bytes;
    _ ← raise_if ((expected <? 0) || (max_payload_bytes <? expected)) (ValueError "invalid requested byte count");
    Ok (Request Json Read name expected "")
  else Err (ValueError ("unsupported operation: " +:+ operation_)).

(** The reply to an exception. *)
Definition error_reply (p : protocol) (e : exn) : string :=
  match p with
  | Native => "ERR " +:+ exn_str e +:+ nl
  | Json => json_dumps (PDict [("ok", PBool false); ("error", PStr (exn_str e))]) +:+ nl
  end.

(** What [handle] does with the bytes of a connection before it takes a lock: nothing at end of
    file, otherwise a request of one of the two protocols or an error reply. *)
Definition prepare (json_loads : string → result pyval) (max_payload_bytes : Z) (stream : string)
    : option (request + string) :=
  match readline stream with
  | Err e => Some (inr (error_reply Json e))
  | Ok (header, rest) =>
      if String.eqb header "" then None
      else if negb (startswith "{" header) then
        Some match prepare_native max_payload_bytes header rest with
             | Ok rq => inl rq
             | Err e => inr (error_reply Native e)
             end
      else Some match prepare_json json_loads max_payload_bytes header with
                | Ok rq => inl rq
                | Err e => inr (error_reply Json e)
                end
  end.

(** ** The queues *)

Abbreviation messages := (gmap string (list string)).

Definition queue (m : messages) (name : string) : list string := default [] (m !! name).

Definition size_mismatch (expected : Z) (payload : string) : exn :=
  ValueError ("payload size mismatch: expected " +:+ str_of_Z expected +:+ ", got "
              +:+ str_of_Z (Z.of_nat (str_length payload))).

(** The reply to a read that took [payload] from the queue. *)
Definition read_reply (rq : request) (payload : string) : string :=
  let size := Z.of_nat (str_length payload) in
  if negb (size =? rq_bytes rq) then error_reply (rq_protocol rq) (size_mismatch (rq_bytes rq) payload)
  else match rq_protocol rq with
       | Native => "OK " +:+ str_of_Z size +:+ nl +:+ payload
       | Json => json_dumps (PDict [("ok", PBool true); ("payload", PStr (b64encode payload))]) +:+ nl
       end.

Definition write_reply (rq : request) : string :=
  match rq_protocol rq with
  | Native => "OK" +:+ nl
  | Json => json_dumps (PDict [("ok", PBool true); ("bytes", PInt (Z.of_nat (str_length (rq_payload rq))))]) +:+ nl
  end.

(** One attempt under the pipe's lock. *)
Definition exchange (m : messages) (rq : request) : option (messages * string) :=
  match rq_operation rq with
  | Write => Some (<[rq_pipe rq := queue m (rq_pipe rq) ++ [rq_payload rq]]> m, write_reply rq)
  | Read => match queue m (rq_pipe rq) with
            | payload :: rest => Some (<[rq_pipe rq := rest]> m, read_reply rq payload)
            | [] => None
            end
  end.

(** [self.conditions[name].notify(1)]: the longest waiting reader of this pipe. *)
Fixpoint notify_one (name : string) (w : list request) : list request * list request :=
  match w with
  | [] => ([], [])
  | o :: r =>
      if String.eqb (rq_pipe o) name then ([o], r)
      else let '(woken, rest) := notify_one name r in (woken, o :: rest)
  end.

Definition notify (rq : request) (w : list request) : list request * list request :=
  match rq_operation rq with Write => notify_one (rq_pipe rq) w | Read => ([], w) end.

Lemma notify_one_split name w : (notify_one name w).1 ++ (notify_one name w).2 ≡ₚ w.
Proof.
  induction w as [|o w IH]; simpl; [done|]. destruct (String.eqb (rq_pipe o) name); [done|].
  destruct (notify_one name w) as [w1 w2]; simpl in *. rewrite <- IH. symmetry. apply Permutation_middle.
Qed.

Lemma notify_split rq w : (notify rq w).1 ++ (notify rq w).2 ≡ₚ w.
Proof. unfold notify. destruct (rq_operation rq); [apply notify_one_split|done]. Qed.

#[export] Instance broker : Monitor messages request string := {|
  attempt := exchange;
  wake := notify;
  wake_split := notify_split;
|}.

Abbreviation bstate := (state messages request).

(** ** Histories of one pipe *)

Definition writes (name : string) (h : list (request * string)) : list string :=
  (λ c, rq_payload c.1) <$> filter (λ c, rq_operation c.1 = Write ∧ rq_pipe c.1 = name) h.

Definition reads (name : string) (h : list (request * string)) : list (request * string) :=
  filter (λ c, rq_operation c.1 = Read ∧ rq_pipe c.1 = name) h.

Lemma exchange_Some m rq m' reply :
  exchange m rq = Some (m', reply) →
  (rq_operation rq = Write ∧ queue m' (rq_pipe rq) = queue m (rq_pipe rq) ++ [rq_payload rq] ∨
   rq_operation rq = Read ∧ ∃ payload, queue m (rq_pipe rq) = payload :: queue m' (rq_pipe rq) ∧ reply = read_reply rq payload) ∧
  (∀ name, name ≠ rq_pipe rq → queue m' name = queue m name).
Proof.
  unfold exchange.
  assert (Hl : ∀ l, queue (<[rq_pipe rq := l]> m) (rq_pipe rq) = l) by (intros; unfold queue; by rewrite lookup_insert_eq).
  assert (Hne : ∀ l name, name ≠ rq_pipe rq → queue (<[rq_pipe rq := l]> m) name = queue m name)
    by (intros; unfold queue; by rewrite lookup_insert_ne).
  destruct (rq_operation rq).
  - intros [= <- <-]. split; [left; by rewrite Hl|auto].
  - destruct (queue m (rq_pipe rq)) as [|payload rest] eqn:E; [done|].
    intros [= <- <-]. split; [right|auto]. split; [done|]. exists payload. by rewrite Hl.
Qed.

Lemma exchange_None m rq : exchange m rq = None ↔ rq_operation rq = Read ∧ queue m (rq_pipe rq) = [].
Proof. unfold exchange. destruct (rq_operation rq), (queue m (rq_pipe rq)); naive_solver. Qed.

Lemma sequential_fifo h m m' name :
  sequential m h.*1 = Some (m', h.*2) →
  ∃ taken, Forall2 (λ c payload, c.2 = read_reply c.1 payload) (reads name h) taken ∧
    queue m name ++ writes name h = taken ++ queue m' name.
Proof.
  revert m. induction h as [|[rq reply] h IH]; intros m; cbn [fmap list_fmap sequential fst snd].
  - intros [= ->]. exists []. split; [constructor|]. unfold writes. by rewrite app_nil_r.
  - cbn [attempt broker]. destruct (exchange m rq) as [[m1 r1]|] eqn:Hat; [|done]. cbn [mbind option_bind].
    destruct (sequential m1 h.*1) as [[m2 rs]|] eqn:Hseq; [|done]. cbn [mbind option_bind].
    intros [= -> -> ->]. destruct (IH _ Hseq) as (taken & Hd & Heq).
    apply exchange_Some in Hat as [Hcase Hother]. unfold reads, writes in *.
    destruct (decide (rq_pipe rq = name)) as [<-|Hne].
    + destruct Hcase as [(Ho & Hq)|(Ho & payload & Hq & Hdel)].
      * rewrite filter_cons_False by (simpl; intros [? _]; congruence).
        rewrite filter_cons_True by done. exists taken. split; [done|]. csimpl.
        rewrite <- Heq, Hq. by rewrite <- app_assoc.
      * rewrite filter_cons_True by done. rewrite filter_cons_False by (simpl; intros [? _]; congruence).
        exists (payload :: taken). split; [by constructor|]. rewrite Hq. simpl. by f_equal.
    + rewrite !filter_cons_False by (simpl; naive_solver). exists taken. split; [done|].
      by rewrite <- Heq, Hother.
Qed.

(** ** Waiting reads *)

(** Requests for pipe [name] in a list of requests. *)
Definition on_pipe (name : string) (l : list request) : Z := count (λ o, String.eqb (rq_pipe o) name) l.

Lemma on_pipe_pos name o l : o ∈ l → rq_pipe o = name → 0 < on_pipe name l.
Proof.
  intros Hin Hp. apply elem_of_Permutation in Hin as [l' ->]. unfold on_pipe.
  rewrite count_cons, Hp, String.eqb_refl. pose proof (count_nonneg (λ o, String.eqb (rq_pipe o) name) l'). lia.
Qed.

Lemma notify_one_woken name w :
  on_pipe name (notify_one name w).1 = (if 0 <? on_pipe name w then 1 else 0).
Proof.
  unfold on_pipe. induction w as [|o w IH]; cbn [notify_one]; [done|]. rewrite count_cons.
  destruct (String.eqb (rq_pipe o) name) eqn:E.
  - cbn [fst]. rewrite count_cons, E, count_nil.
    pose proof (count_nonneg (λ o, String.eqb (rq_pipe o) name) w).
    by replace (0 <? _) with true by (symmetry; apply Z.ltb_lt; lia).
  - destruct (notify_one name w); cbn [fst] in *. by rewrite Z.add_0_l.
Qed.

(** Unanswered requests are reads, and a pipe with parked reads holds at most as many payloads
    as it has notified reads. *)
Definition covered (s : bstate) : Prop :=
  Forall (λ o, rq_operation o = Read) (waiting s ++ notified s) ∧
  ∀ name, 0 < on_pipe name (waiting s) → zlen (queue (shared s) name) ≤ on_pipe name (notified s).

Lemma covered_step s new e s' : covered s → step s new e s' → covered s'.
Proof.
  intros [Hr Hc] (o & n & Hor & Hrun)%step_cases.
  assert (Hn : Forall (λ o, rq_operation o = Read) (waiting s ++ n) ∧
    (rq_operation o = Write → n = notified s) ∧
    ∀ name, on_pipe name (notified s) ≤ on_pipe name n + (if String.eqb (rq_pipe o) name then 1 else 0)).
  { destruct Hor as [[-> ->]|[-> Hp]].
    - split; [done|]. split; [done|]. intros name. destruct (String.eqb _ _); lia.
    - rewrite Hp in Hr. apply Forall_app in Hr as [Hw Hon]. apply Forall_cons in Hon as [Ho Hn].
      split; [by apply Forall_app|]. split; [congruence|]. intros name. unfold on_pipe. rewrite Hp, count_cons. lia. }
  destruct Hn as (Hreads & Hwrite & Hcount).
  apply run_locked_cases in Hrun as [(m' & r & Hat & -> & ->)|(Hat & -> & ->)]; unfold covered;
    cbn [waiting notified shared wake attempt broker] in *.
  - apply exchange_Some in Hat as [Hcase Hframe]. unfold notify.
    destruct Hcase as [(Ho & Hq)|(Ho & payload & Hq & _)]; rewrite Ho.
    + specialize (Hwrite Ho) as ->. split.
      * rewrite (Permutation_app_comm (notified s)), app_assoc.
        rewrite (Permutation_app_comm (notify_one _ _).2), notify_one_split. done.
      * intros name Hpos. unfold on_pipe in Hpos |- *.
        assert (Hle : 0 < on_pipe name (waiting s)).
        { unfold on_pipe. rewrite <- (notify_one_split (rq_pipe o) (waiting s)), count_app.
          pose proof (count_nonneg (λ o, String.eqb (rq_pipe o) name) (notify_one (rq_pipe o) (waiting s)).1). lia. }
        specialize (Hc name Hle). rewrite count_app. fold (on_pipe name (notified s)).
        pose proof (count_nonneg (λ o, String.eqb (rq_pipe o) name) (notify_one (rq_pipe o) (waiting s)).1).
        destruct (decide (name = rq_pipe o)) as [->|Hne]; [|rewrite Hframe by done; lia].
        fold (on_pipe (rq_pipe o) (notify_one (rq_pipe o) (waiting s)).1).
        rewrite notify_one_woken, Hq. replace (0 <? _) with true by (symmetry; by apply Z.ltb_lt).
        unfold zlen in *. rewrite length_app. simpl. lia.
    + cbn [fst snd]. rewrite app_nil_r. split; [done|]. intros name Hpos. specialize (Hc name Hpos).
      specialize (Hcount name). destruct (String.eqb_spec (rq_pipe o) name) as [<-|Hne].
      * rewrite Hq in Hc. unfold zlen in *. simpl in Hc. lia.
      * rewrite Hframe by congruence. lia.
  - apply exchange_None in Hat as [Ho Hq]. split.
    + rewrite <- app_assoc. rewrite !Forall_app in *. destruct Hreads. repeat split; auto.
    + intros name Hpos. specialize (Hcount name). unfold on_pipe in Hpos. rewrite count_app, count_cons, count_nil in Hpos.
      fold (on_pipe name (waiting s)) in Hpos.
      destruct (String.eqb_spec (rq_pipe o) name) as [Heq|Hne].
      * subst name. rewrite Hq. apply count_nonneg.
      * specialize (Hc name). lia.
Qed.

Lemma covered_reachable admits arrived events s : reachable admits ∅ arrived events s → covered s.
Proof.
  induction 1 as [|arrived events s new e s' _ IH _ Hstep]; [|by eapply covered_step].
  split; [constructor|]. intros name H. done.
Qed.

(** ** The client *)

(** The request [fifo_client.main] sends; a missing option ends the program with status 2. *)
Definition client_request (op : operation) (pipe : string) (data : option string) (bytes : option Z) : result pydict :=
  match op with
  | Write =>
      d ← data ?! SystemExit "--data is required for write";
      Ok [("op", PStr "write"); ("pipe", PStr pipe); ("payload", PStr (b64encode d))]
  | Read =>
      n ← bytes ?! SystemExit "--bytes is required for read";
      Ok [("op", PStr "read"); ("pipe", PStr pipe); ("bytes", PInt n)]
  end.

(** [call] after [json.loads]: a response that is not ok is raised. *)
Definition client_response (response : pydict) : result pydict :=
  if truthy (dict_get_default "ok" PNone response) then Ok response
  else e ← dict_item "error" response; Err (RuntimeError (py_str e)).

(** The text [main] prints. *)
Definition client_output (op : operation) (response : pydict) : result string :=
  r ← client_response response;
  match op with
  | Read => payload ← dict_item "payload" r; bytes ← b64decode false (py_str payload); decode_utf8 bytes
  | Write => Ok ""
  end.

(** ** Properties *)


(** C11: the broker loses no wakeup.  Although a write notifies only one reader and a newly
    arriving read may take the payload first, once no notified reader is left to run every
    request that has arrived is answered, except reads of pipes that hold no payload. *)
Theorem broker_no_lost_wakeup admits arrived events s :
  reachable admits ∅ arrived events s → quiescent s →
  ∀ rq, rq ∈ arrived →
    rq ∈ (completions events).*1 ∨ rq_operation rq = Read ∧ queue (shared s) (rq_pipe rq) = [].
Proof.
  intros H Hq rq Hrq. destruct (covered_reachable _ _ _ _ H) as [Hr Hc].
  apply reachable_conserved in H. rewrite H in Hrq. unfold quiescent in Hq.
  rewrite Hq, app_nil_r in Hrq. apply elem_of_app in Hrq as [?|Hw]; [by left|right].
  rewrite Forall_app in Hr. destruct Hr as [Hr _]. rewrite Forall_forall in Hr. split; [by apply Hr|].
  specialize (Hc (rq_pipe rq) (on_pipe_pos _ rq _ Hw eq_refl)). rewrite Hq in Hc.
  unfold zlen in Hc. change (on_pipe (rq_pipe rq) []) with 0 in Hc.
  by destruct (queue (shared s) (rq_pipe rq)); [|simpl in Hc; lia].
Qed.

(** What one client writes another reads.  A write request of [fifo_client] is accepted with
    exactly the client's bytes as payload; once it is served on an empty pipe, the broker's
    response to a read request for as many bytes makes the reading client print the text. *)
Theorem client_round_trip json_loads limit pipe data w r hw hr m :
  client_request Write pipe (Some data) None = Ok w →
  client_request Read pipe None (Some (Z.of_nat (str_length data))) = Ok r →
  decode_utf8 hw = Ok hw → decode_utf8 hr = Ok hr →
  json_loads hw = Ok (PDict w) → json_loads hr = Ok (PDict r) →
  Z.of_nat (str_length data) ≤ limit → decode_utf8 data = Ok data → queue m pipe = [] →
  let response := [("ok", PBool true); ("payload", PStr (b64encode data))] in
  ∃ rw rr m1 m2,
    prepare_json json_loads limit hw = Ok rw ∧ prepare_json json_loads limit hr = Ok rr ∧
    exchange m rw = Some (m1, write_reply rw) ∧
    exchange m1 rr = Some (m2, json_dumps (PDict response) +:+ nl) ∧ queue m2 pipe = [] ∧
    client_output Read response = Ok data.
Proof.
  intros Hw Hr Uw Ur Jw Jr Hlim Udata Hq. injection Hw as <-. injection Hr as <-.
  exists (Request Json Write pipe (Z.of_nat (str_length data)) data), (Request Json Read pipe (Z.of_nat (str_length data)) "").
  exists (<[pipe := [data]]> m), (<[pipe := []]> (<[pipe := [data]]> m)).
  split; [|split; [|split; [|split; [|split]]]].
  - unfold prepare_json. rewrite Uw. cbn [mbind result_bind]. rewrite Jw. cbn. unfold b64decode_value. cbn [is_str of_option mbind result_bind].
    rewrite b64encode_ascii. cbn [negb raise_if mbind result_bind]. rewrite b64decode_encode. cbn [mbind result_bind].
    by replace (limit <? _) with false by (symmetry; apply Z.ltb_ge; lia).
  - unfold prepare_json. rewrite Ur. cbn [mbind result_bind]. rewrite Jr. cbn.
    replace (_ <? 0) with false by (symmetry; apply Z.ltb_ge; lia).
    by replace (limit <? _) with false by (symmetry; apply Z.ltb_ge; lia).
  - unfold exchange. cbn [rq_operation rq_pipe rq_payload]. by rewrite Hq.
  - unfold exchange, queue. cbn [rq_operation rq_pipe rq_payload]. rewrite lookup_insert_eq. cbn [default id].
    unfold read_reply. cbn [rq_bytes rq_protocol]. by rewrite Z.eqb_refl.
  - unfold queue. by rewrite lookup_insert_eq.
  - unfold client_output, client_response, dict_get_default, dict_item.
    cbn -[b64decode b64encode]. rewrite b64decode_encode. exact Udata.
Qed.

Definition demo_json (text : string) : result pyval :=
  if String.eqb text "W" then Ok (PDict [("op", PStr "write"); ("pipe", PStr "p"); ("payload", PStr "cGluZw==")])
  else Ok (PDict [("op", PStr "read"); ("pipe", PStr "p"); ("bytes", PInt 4)]).

Lemma client_round_trip_witness :
  let response := [("ok", PBool true); ("payload", PStr (b64encode "ping"))] in
  ∃ rw rr m1 m2,
    prepare_json demo_json 100 "W" = Ok rw ∧ prepare_json demo_json 100 "R" = Ok rr ∧
    exchange ∅ rw = Some (m1, write_reply rw) ∧
    exchange m1 rr = Some (m2, json_dumps (PDict response) +:+ nl) ∧ queue m2 "p" = [] ∧
    client_output Read response = Ok "ping".
Proof.
  apply (client_round_trip demo_json 100 "p" "ping" _ _ "W" "R" ∅ eq_refl eq_refl); try reflexivity.
  simpl. lia.
Defined.

Definition demo_write (payload : string) : request := Request Native Write "p" (Z.of_nat (str_length payload)) payload.
Definition demo_read (n : Z) : request := Request Native Read "p" n "".

(** Two reads wait, one payload is written, the notified read takes it. *)
Lemma demo_run :
  ∃ events s, reachable (λ _ _, True) ∅ [demo_read 3; demo_read 2; demo_write "aaa"] events s ∧
    quiescent s ∧ queue (shared s) "p" = [].
Proof.
  eexists _, _. split.
  - change [demo_read 3; demo_read 2; demo_write "aaa"]
      with (((([] ++ [demo_read 3]) ++ [demo_read 2]) ++ [demo_write "aaa"]) ++ []).
    eapply (reachable_step _ _ _ _ _ []). eapply (reachable_step _ _ _ _ _ [_]).
    eapply (reachable_step _ _ _ _ _ [_]). eapply (reachable_step _ _ _ _ _ [_]).
    apply reachable_init.
    all: first [by apply Forall_nil_2 | by apply Forall_singleton | apply step_arrive; reflexivity
               | eapply (step_resume _ []); reflexivity].
  - split; [done|]. vm_compute. reflexivity.
Qed.


Lemma broker_no_lost_wakeup_witness :
  ∃ events s, reachable (λ _ _, True) ∅ [demo_read 3; demo_read 2; demo_write "aaa"] events s ∧
    (demo_read 2 ∈ (completions events).*1 ∨ rq_operation (demo_read 2) = Read ∧ queue (shared s) "p" = []).
Proof.
  destruct demo_run as (events & s & H & Hq & _). exists events, s. split; [done|].
  apply (broker_no_lost_wakeup _ _ _ _ H Hq (demo_read 2)). set_solver.
Defined.

(** A read of the wrong size is answered with an error and consumes the payload. *)
Lemma mismatch_consumes :
  exchange {["p" := ["aaa"]]} (demo_read 2)
  = Some ({["p" := []]}, "ERR payload size mismatch: expected 2, got 3" +:+ nl).
Proof. vm_compute. reflexivity. Qed.
