(* ===== verification/Intervals.v ===== *)
(** * Unions of wall-clock intervals

    [interval_union] of [src/scripts/collect_timing_metrics.py] and [union_duration] of
    [src/scripts/summarize_steady_measurement.py]: two implementations of the duration of a
    union of nanosecond intervals, both proved to be the number of nanoseconds that lie in at
    least one interval. *)

From S2P Require Import Prelude.

Abbreviation interval := (Z * Z)%type.

(** The order of Python tuples. *)
Definition pair_leb (p q : interval) : bool := (p.1 <? q.1) || ((p.1 =? q.1) && (p.2 <=? q.2)).

(** The loop of [interval_union]: the closed groups so far and the current one. *)
Fixpoint merge_loop (total start finish : Z) (l : list interval) : Z :=
  match l with
  | [] => total + finish - start
  | (current_start, current_finish) :: r =>
      if current_start <=? finish then merge_loop total start (Z.max finish current_finish) r
      else merge_loop (total + (finish - start)) current_start current_finish r
  end.

Definition interval_union (intervals : list interval) : Z :=
  match py_sorted pair_leb intervals with
  | [] => 0
  | (start, finish) :: r => merge_loop 0 start finish r
  end.

(** One iteration of [union_duration]; [merged] is kept with its last element first. *)
Definition merge_one (merged : list interval) (p : interval) : list interval :=
  let '(start, finish) := p in
  if finish <=? start then merged
  else match merged with
       | [] => [(start, finish)]
       | (s, f) :: r => if f <? start then (start, finish) :: merged else (s, Z.max f finish) :: r
       end.

Definition union_duration (intervals : list interval) : Z :=
  zsum ((λ p, p.2 - p.1) <$> reverse (foldl merge_one [] (py_sorted pair_leb intervals))).

(** ** The specification: the set of nanoseconds covered *)

Definition points (p : interval) : gset Z := list_to_set (seqZ p.1 (p.2 - p.1)).
Definition cover (l : list interval) : gset Z := ⋃ (points <$> l).
Definition measure (l : list interval) : Z := Z.of_nat (size (cover l)).

Lemma elem_of_points t p : t ∈ points p ↔ p.1 ≤ t < p.2.
Proof. unfold points. rewrite elem_of_list_to_set, elem_of_seqZ. lia. Qed.

Lemma elem_of_cover t l : t ∈ cover l ↔ ∃ p, p ∈ l ∧ p.1 ≤ t < p.2.
Proof.
  unfold cover. rewrite elem_of_union_list. setoid_rewrite list_elem_of_fmap. split.
  - intros (X & (p & -> & Hp) & Ht%elem_of_points). eauto.
  - intros (p & Hp & Ht). exists (points p). split; [eauto|]. by apply elem_of_points.
Qed.

#[export] Instance measure_perm : Proper ((≡ₚ) ==> (=)) measure.
Proof.
  intros l1 l2 Hl. unfold measure. do 2 f_equal. apply set_eq. intros t. rewrite !elem_of_cover.
  by setoid_rewrite Hl.
Qed.

Lemma measure_ext l1 l2 :
  (∀ t, (∃ p, p ∈ l1 ∧ p.1 ≤ t < p.2) ↔ (∃ p, p ∈ l2 ∧ p.1 ≤ t < p.2)) → measure l1 = measure l2.
Proof. intros H. unfold measure. do 2 f_equal. apply set_eq. intros t. by rewrite !elem_of_cover. Qed.

Lemma measure_nil : measure [] = 0.
Proof. done. Qed.

Lemma size_points p : Z.of_nat (size (points p)) = Z.max 0 (p.2 - p.1).
Proof.
  unfold points. rewrite size_list_to_set by apply NoDup_seqZ. rewrite length_seqZ. lia.
Qed.

Lemma cover_cons p l : cover (p :: l) = points p ∪ cover l.
Proof. done. Qed.

Lemma measure_cons_disjoint p l :
  p.1 ≤ p.2 → (∀ q, q ∈ l → p.2 ≤ q.1) → measure (p :: l) = p.2 - p.1 + measure l.
Proof.
  intros Hp Hl. unfold measure. rewrite cover_cons, size_union.
  - rewrite Nat2Z.inj_add, size_points. lia.
  - intros t [_ ?]%elem_of_points (q & Hq & ?)%elem_of_cover. specialize (Hl q Hq). lia.
Qed.

Lemma measure_cons_empty p l : p.2 ≤ p.1 → measure (p :: l) = measure l.
Proof.
  intros Hp. apply measure_ext. intros t. split.
  - intros (q & [->|Hq]%elem_of_cons & Ht); [lia|eauto].
  - intros (q & Hq & Ht). exists q. split; [by apply list_elem_of_further|done].
Qed.

(** Two touching intervals are one. *)
Lemma measure_merge s f cs cf l :
  s ≤ cs ≤ f → measure ((s, f) :: (cs, cf) :: l) = measure ((s, Z.max f cf) :: l).
Proof.
  intros H. apply measure_ext. intros t. split.
  - intros (q & [->|[->|Hq]%elem_of_cons]%elem_of_cons & Ht); cbn [fst snd] in Ht.
    + exists (s, Z.max f cf). split; [apply list_elem_of_here|simpl; lia].
    + exists (s, Z.max f cf). split; [apply list_elem_of_here|simpl; lia].
    + exists q. split; [by apply list_elem_of_further|done].
  - intros (q & [->|Hq]%elem_of_cons & Ht); cbn [fst snd] in Ht.
    + destruct (decide (t < f)).
      * exists (s, f). split; [apply list_elem_of_here|simpl; lia].
      * exists (cs, cf). split; [apply list_elem_of_further, list_elem_of_here|simpl; lia].
    + exists q. split; [by do 2 apply list_elem_of_further|done].
Qed.

Lemma measure_nonneg l : 0 ≤ measure l.
Proof. unfold measure. lia. Qed.

(** A union is at most the sum of its parts. *)
Lemma measure_le_sum l : (∀ p, p ∈ l → p.1 ≤ p.2) → measure l ≤ zsum ((λ p, p.2 - p.1) <$> l).
Proof.
  induction l as [|p l IH]; intros Hl; [done|]. csimpl.
  assert (measure l ≤ zsum ((λ p, p.2 - p.1) <$> l)) by (apply IH; set_solver).
  assert (p.1 ≤ p.2) by (apply Hl; set_solver).
  unfold measure in *. rewrite cover_cons.
  assert (size (points p ∪ cover l) ≤ size (points p) + size (cover l))%nat by (rewrite size_union_alt; apply Nat.add_le_mono_l, subseteq_size; set_solver).
  pose proof (size_points p). lia.
Qed.

(** Intervals inside a window cover at most the window. *)
Lemma measure_le_window l a b : a ≤ b → (∀ p, p ∈ l → a ≤ p.1 ∧ p.2 ≤ b) → measure l ≤ b - a.
Proof.
  intros Hab Hl. unfold measure. pose proof (size_points (a, b)) as Hs. simpl in Hs.
  assert (size (cover l) ≤ size (points (a, b)))%nat; [|lia].
  apply subseteq_size. intros t (p & Hp & Ht)%elem_of_cover. apply elem_of_points. simpl.
  specialize (Hl p Hp). lia.
Qed.

(** ** The loops *)

Lemma pair_leb_total p q : pair_leb p q = true ∨ pair_leb q p = true.
Proof.
  unfold pair_leb. destruct p as [a b], q as [c d]; simpl.
  destruct (Z.ltb_spec a c), (Z.ltb_spec c a), (Z.eqb_spec a c), (Z.eqb_spec c a), (Z.leb_spec b d), (Z.leb_spec d b);
    simpl; auto; lia.
Qed.

Lemma pair_leb_spec p q : pair_leb p q = true ↔ p.1 < q.1 ∨ p.1 = q.1 ∧ p.2 ≤ q.2.
Proof. unfold pair_leb. rewrite orb_true_iff, andb_true_iff, Z.ltb_lt, Z.eqb_eq, Z.leb_le. done. Qed.

Lemma pair_leb_trans p q r : pair_leb p q = true → pair_leb q r = true → pair_leb p r = true.
Proof. rewrite !pair_leb_spec. lia. Qed.

(** Sorted intervals have increasing starts. *)
Lemma sorted_starts l p r :
  py_sorted pair_leb l = p :: r → (∀ q, q ∈ r → p.1 ≤ q.1) ∧ ordered pair_leb r.
Proof.
  intros H. pose proof (py_sorted_ordered pair_leb pair_leb_total pair_leb_trans l) as Ho. rewrite H in Ho.
  apply ordered_cons in Ho as [Hp Hr]. split; [|done]. intros q Hq. specialize (Hp q Hq).
  rewrite pair_leb_spec in Hp. lia.
Qed.

Lemma merge_loop_measure total s f l :
  s ≤ f → (∀ q, q ∈ l → s ≤ q.1 ≤ q.2) → ordered pair_leb l →
  merge_loop total s f l = total + measure ((s, f) :: l).
Proof.
  revert total s f. induction l as [|[cs cf] l IH]; intros total s f Hsf Hl Ho.
  - cbn [merge_loop]. rewrite measure_cons_disjoint, measure_nil by (simpl; set_solver by lia). simpl. lia.
  - apply ordered_cons in Ho as [Hc Ho].
    assert (Hcs : s ≤ cs ≤ cf) by (apply (Hl (cs, cf)), list_elem_of_here).
    assert (Hrest : ∀ q, q ∈ l → cs ≤ q.1 ≤ q.2).
    { intros q Hq. specialize (Hc q Hq). rewrite pair_leb_spec in Hc. simpl in Hc.
      specialize (Hl q (list_elem_of_further _ _ _ Hq)). lia. }
    cbn [merge_loop]. destruct (Z.leb_spec cs f) as [Hle|Hgt].
    + rewrite IH by (try done; intros; try specialize (Hrest _ ltac:(done)); lia).
      rewrite measure_merge by lia. done.
    + rewrite IH by (try done; lia). rewrite (measure_cons_disjoint (s, f)); [simpl; lia|done|].
      intros q [->|Hq]%elem_of_cons; simpl; [lia|]. specialize (Hrest q Hq). lia.
Qed.

Lemma interval_union_measure l :
  (∀ p, p ∈ l → p.1 ≤ p.2) → interval_union l = measure l.
Proof.
  intros Hl. unfold interval_union. rewrite <- (py_sorted_perm pair_leb l) at 2.
  destruct (py_sorted pair_leb l) as [|[s f] r] eqn:E; [done|].
  destruct (sorted_starts _ _ _ E) as [Hs Ho].
  assert (Hall : ∀ p, p ∈ (s, f) :: r → p.1 ≤ p.2).
  { intros p Hp. apply Hl. by rewrite <- (py_sorted_perm pair_leb l), E. }
  rewrite merge_loop_measure; [lia|apply (Hall (s, f)), list_elem_of_here| |done].
  intros q Hq. split; [by apply Hs|]. apply Hall. by apply list_elem_of_further.
Qed.

(** The merged list: separated intervals, the last one first. *)
Lemma foldl_merge_measure l merged :
  (∀ q, q ∈ l → match merged with [] => True | (s, _) :: _ => s ≤ q.1 end) → ordered pair_leb l →
  (∀ p, p ∈ merged → p.1 < p.2) → (∀ i p q, merged !! i = Some q → merged !! S i = Some p → p.2 < q.1) →
  zsum ((λ p, p.2 - p.1) <$> foldl merge_one merged l) = zsum ((λ p, p.2 - p.1) <$> merged)
    - match merged with [] => 0 | (s, f) :: _ => f - s end
    + measure (match merged with [] => l | p :: _ => p :: l end).
Proof.
  revert merged. induction l as [|[cs cf] l IH]; intros merged Hl Ho Hm Hsep; cbn [foldl].
  - destruct merged as [|[s f] r]; [done|].
    rewrite measure_cons_disjoint, measure_nil by (simpl; first [specialize (Hm (s, f) (list_elem_of_here _ _)); simpl in Hm; lia|set_solver]).
    simpl. lia.
  - apply ordered_cons in Ho as [Hc Ho].
    assert (Hrest : ∀ q, q ∈ l → cs ≤ q.1).
    { intros q Hq. specialize (Hc q Hq). rewrite pair_leb_spec in Hc. simpl in Hc. lia. }
    unfold merge_one at 2. destruct (Z.leb_spec cf cs) as [Hempty|Hne].
    { rewrite IH; [|set_solver|done..]. destruct merged as [|[s f] r]; f_equal.
      - symmetry. by apply measure_cons_empty.
      - rewrite (perm_swap (cs, cf)). symmetry. by apply (measure_cons_empty (cs, cf)). }
    destruct merged as [|[s f] r].
    { rewrite IH; [csimpl; cbn [fst snd zsum foldr]; lia|set_solver|done|set_solver|].
      intros [|i] p q; simpl; done. }
    assert (s ≤ cs) by (apply (Hl (cs, cf)), list_elem_of_here).
    assert (Hsf : s < f) by (apply (Hm (s, f)), list_elem_of_here).
    destruct (Z.ltb_spec f cs) as [Hlt|Hge].
    + rewrite IH; [|set_solver|done| |].
      * rewrite (measure_cons_disjoint (s, f)); [csimpl; cbn [fst snd zsum foldr]; lia|simpl; lia|].
        intros q [->|Hq]%elem_of_cons; simpl; [lia|]. specialize (Hrest q Hq). lia.
      * intros p [->|Hp]%elem_of_cons; simpl; [lia|auto].
      * intros [|i] p q; cbn [lookup list_lookup]; [intros [= <-] [= <-]; simpl; lia|apply Hsep].
    + rewrite IH; [| |done| |].
      * rewrite measure_merge by lia. csimpl. cbn [fst snd zsum foldr]. lia.
      * intros q Hq. specialize (Hrest q Hq). lia.
      * intros p [->|Hp]%elem_of_cons; simpl; [lia|apply Hm; by apply list_elem_of_further].
      * intros [|i] p q; cbn [lookup list_lookup]; [intros [= <-] Hp; by apply (Hsep 0%nat p (s, f))|apply (Hsep (S i))].
Qed.

Lemma union_duration_measure l : union_duration l = measure l.
Proof.
  unfold union_duration. rewrite reverse_Permutation, foldl_merge_measure.
  - simpl. by rewrite py_sorted_perm.
  - done.
  - apply py_sorted_ordered; [apply pair_leb_total|apply pair_leb_trans].
  - set_solver.
  - done.
Qed.

(** ** Properties *)

(** C12: both routines compute the measure of the union.  [union_duration] returns, for any list
    of intervals in any order, the number of nanoseconds that lie in at least one of them, and
    [interval_union] returns the same number whenever no interval ends before it starts,
    which is how its callers use it. *)
Theorem union_routines_agree l :
  union_duration l = measure l ∧
  ((∀ p, p ∈ l → p.1 ≤ p.2) → interval_union l = union_duration l).
Proof.
  split; [apply union_duration_measure|]. intros Hl.
  by rewrite union_duration_measure, interval_union_measure.
Qed.

Lemma union_routines_agree_witness : interval_union [(5, 9); (0, 2); (1, 3); (9, 10)] = 8.
Proof.
  rewrite (proj2 (union_routines_agree [(5, 9); (0, 2); (1, 3); (9, 10)])); [vm_compute; reflexivity|].
  intros p Hp. repeat (apply elem_of_cons in Hp as [->|Hp]; [simpl; lia|]). by apply elem_of_nil in Hp.
Defined.

(** Outside that use they differ: an interval that ends before it starts counts negatively. *)
Example interval_union_reversed : interval_union [(5, 3)] = -2 ∧ union_duration [(5, 3)] = 0.
Proof. vm_compute. done. Qed.
