(* ===== verification/TimingMetrics.v ===== *)
(** * Collecting transport and network timing

    Model of [src/scripts/collect_timing_metrics.py]: scopes and aggregation groups, the
    pairing of producer writes with consumer reads, the counters of a transport log and the
    totals of the network simulator's table.  Parsing a log line as JSON and a table as CSV rows
    are arguments. *)

From S2P Require Import Prelude PyValue Topology Placement Routing Router Intervals.

(** [record.get(key)] and [int(record.get(key, default))] *)
Definition get (record : pydict) (key : string) : pyval := dict_get_default key PNone record.
Definition get_int (record : pydict) (key : string) (default_ : Z) : result Z :=
  int_of (dict_get_default key (PInt default_) record).

(** ** Scopes *)

Definition classify_scope (record : pydict) : result string :=
  match is_str (get record "transport_scope") with
  | Some scope => Ok scope
  | None =>
      source ← get_int record "source_slot" (-1);
      peer ← get_int record "peer_slot" (-2);
      Ok (if source =? peer then "same_logical_worker" else "cross_legosim_same_physical_host")
  end.

Definition selected_groups (scope : string) : list string :=
  "all" ::
  (if String.eqb scope "same_logical_worker" then ["same_logical_worker"]
   else "cross_legosim" ::
        (if String.eqb scope "cross_physical_host" then ["cross_physical_host"] else [])).

Definition groups : list string := ["all"; "same_logical_worker"; "cross_legosim"; "cross_physical_host"].

(** ** Transfer keys *)

Abbreviation key := (Z * Z * string * Z)%type.

(** The [try] block: any exception of the conversions means no key. *)
Definition slots_and_bytes (record : pydict) : option (Z * Z * Z) :=
  let conversion :=
    source ← dict_item "source_slot" record; s ← int_of source;
    peer ← dict_item "peer_slot" record; p ← int_of peer;
    bytes ← dict_item "bytes" record; b ← int_of bytes;
    Ok (s, p, b) in
  match conversion with Ok v => Some v | Err _ => None end.

Definition transfer_key (record : pydict) : option key :=
  match is_str (get record "pipe_name") with
  | None | Some "" => None
  | Some pipe_name =>
      '(source_slot, peer_slot, byte_count) ← slots_and_bytes record;
      if eq_str (get record "operation") "W" then Some (source_slot, peer_slot, pipe_name, byte_count)
      else if eq_str (get record "operation") "R" then Some (peer_slot, source_slot, pipe_name, byte_count)
      else None
  end.

(** ** Exposed transport *)

Record transport_counter := TransportCounter {
  tc_pairs : Z;
  tc_unmatched_writes : Z;
  tc_unmatched_reads : Z;
  tc_exposed_sum_ns : Z;
  tc_intervals : list interval;       (** the group's entry of [intervals] *)
}.

Definition no_transport : transport_counter := TransportCounter 0 0 0 0 [].

Abbreviation transport := (gmap string transport_counter).
Definition init_transport : transport := list_to_map ((λ g, (g, no_transport)) <$> groups).

Abbreviation transfers := (gmap key (list pydict)).

(** [d.setdefault(key, []).append(record)] *)
Definition append_to (m : transfers) (k : key) (record : pydict) : transfers :=
  <[k := default [] (m !! k) ++ [record]]> m.

Definition sort_transfer (acc : transfers * transfers) (record : pydict) : transfers * transfers :=
  match transfer_key record with
  | None => acc
  | Some k =>
      if eq_str (get record "operation") "W" then (append_to acc.1 k record, acc.2)
      else if eq_str (get record "operation") "R" then (acc.1, append_to acc.2 k record)
      else acc
  end.

Definition collect_transfers (records : list pydict) : transfers * transfers :=
  foldl sort_transfer (∅, ∅) records.

(** [sorted(items, key=lambda item: int(item.get(name, -1)))] *)
Definition sort_items (name : string) (items : list pydict) : result (list pydict) :=
  keyed ← mapM (λ item, t ← get_int item name (-1); Ok (t, item)) items;
  Ok (py_sorted (λ a b, a.1 <=? b.1) keyed).*2.

(** The [try] block of the pairing loop: the times of a pair, when they can be read. *)
Definition pair_times (write read : pydict) : option (Z * Z * Z) :=
  let conversion :=
    ws ← dict_item "started_unix_ns" write; w ← int_of ws;
    rs ← dict_item "started_unix_ns" read; r ← int_of rs;
    rf ← dict_item "finished_unix_ns" read; f ← int_of rf;
    Ok (w, r, f) in
  match conversion with Ok v => Some v | Err _ => None end.

(** The measured interval of a pair; [None]: skipped. *)
Definition exposed (write read : pydict) : option interval :=
  '(write_started, read_started, read_finished) ← pair_times write read;
  let interval_started := Z.max write_started read_started in
  if read_finished <? interval_started then None else Some (interval_started, read_finished).

Definition on_groups (f : transport_counter → transport_counter) (scope : string) (t : transport) : transport :=
  foldl (λ t g, alter f g t) t (selected_groups scope).

Definition count_pair (i : interval) (c : transport_counter) : transport_counter :=
  TransportCounter (tc_pairs c + 1) (tc_unmatched_writes c) (tc_unmatched_reads c)
    (tc_exposed_sum_ns c + (i.2 - i.1)) (tc_intervals c ++ [i]).

Definition count_unmatched (w r : Z) (c : transport_counter) : transport_counter :=
  TransportCounter (tc_pairs c) (tc_unmatched_writes c + w) (tc_unmatched_reads c + r)
    (tc_exposed_sum_ns c) (tc_intervals c).

(** One iteration over a pair; the second component counts the matched pairs. *)
Definition pair_step (acc : transport * Z) (p : pydict * pydict) : result (transport * Z) :=
  match exposed p.1 p.2 with
  | None => Ok acc
  | Some i =>
      scope ← classify_scope p.1;
      Ok (on_groups (count_pair i) scope acc.1, acc.2 + 1)
  end.

(** One iteration of the loop over the keys. *)
Definition key_step (writes reads : transfers) (t : transport) (k : key) : result transport :=
  write_items ← sort_items "started_unix_ns" (default [] (writes !! k));
  read_items ← sort_items "finished_unix_ns" (default [] (reads !! k));
  matched ← fold_result pair_step (t, 0) (zip write_items read_items);
  match head (write_items ++ read_items) with
  | None => Ok matched.1
  | Some source =>
      scope ← classify_scope source;
      Ok (on_groups (count_unmatched (zlen write_items - matched.2) (zlen read_items - matched.2)) scope matched.1)
  end.

(** The order of the key tuples. *)
Definition key_leb (a b : key) : bool :=
  let '(a1, a2, a3, a4) := a in
  let '(b1, b2, b3, b4) := b in
  (a1 <? b1) || (a1 =? b1) && ((a2 <? b2) || (a2 =? b2) &&
    (String.ltb a3 b3 || String.eqb a3 b3 && (a4 <=? b4))).

(** [sorted(set(writes) | set(reads))] *)
Definition all_keys (writes reads : transfers) : list key :=
  py_sorted key_leb (elements (dom writes ∪ dom reads : gset key)).

Definition collect_transport (records : list pydict) : result transport :=
  let '(writes, reads) := collect_transfers records in
  fold_result (key_step writes reads) init_transport (all_keys writes reads).

(** The dictionary returned: five counters per group. *)
Definition transport_values (t : transport) : list (string * Z) :=
  groups ≫= λ g, let c := default no_transport (t !! g) in
    [(g +:+ "_transport_pairs", tc_pairs c);
     (g +:+ "_transport_unmatched_writes", tc_unmatched_writes c);
     (g +:+ "_transport_unmatched_reads", tc_unmatched_reads c);
     (g +:+ "_transport_exposed_sync_wall_sum_ns", tc_exposed_sum_ns c);
     (g +:+ "_transport_exposed_sync_wall_union_ns", interval_union (tc_intervals c))].

Definition collect_exposed_transport_metrics (records : list pydict) : result (list (string * Z)) :=
  t ← collect_transport records; Ok (transport_values t).

(** ** The transport log *)

Record counter := Counter {
  ct_records : Z; ct_bytes : Z; ct_elapsed_ns : Z; ct_sync_wait_ns : Z; ct_writes : Z; ct_reads : Z;
  ct_intervals : list interval;       (** the group's entry of [intervals] *)
}.

Definition empty_counter : counter := Counter 0 0 0 0 0 0 [].

Definition bool_int (b : bool) : Z := if b then 1 else 0.

(** What one record adds to a counter. *)
Definition add_record (c : counter) (record : pydict) : result counter :=
  bytes ← get_int record "bytes" 0;
  elapsed ← get_int record "elapsed_ns" 0;
  wait ← get_int record "synchronization_wait_ns" 0;
  Ok (Counter (ct_records c + 1) (ct_bytes c + bytes) (ct_elapsed_ns c + elapsed) (ct_sync_wait_ns c + wait)
    (ct_writes c + bool_int (eq_str (get record "operation") "W"))
    (ct_reads c + bool_int (eq_str (get record "operation") "R")) (ct_intervals c)).

(** The blocking interval a read record contributes. *)
Definition read_interval (record : pydict) : list interval :=
  if negb (eq_str (get record "operation") "R") then []
  else match is_int (get record "started_unix_ns"), is_int (get record "finished_unix_ns") with
       | Some started, Some finished => if started <=? finished then [(started, finished)] else []
       | _, _ => []
       end.

Definition with_interval (c : counter) (l : list interval) : counter :=
  Counter (ct_records c) (ct_bytes c) (ct_elapsed_ns c) (ct_sync_wait_ns c) (ct_writes c) (ct_reads c)
    (ct_intervals c ++ l).

Abbreviation counters := (gmap string counter).
Definition init_counters : counters := list_to_map ((λ g, (g, empty_counter)) <$> groups).

Definition add_to_group (record : pydict) (m : counters) (g : string) : result counters :=
  c ← m !! g ?! KeyError g;
  c' ← add_record c record;
  Ok (<[g := with_interval c' (read_interval record)]> m).

Definition add_to_groups (m : counters) (record : pydict) : result counters :=
  scope ← classify_scope record;
  fold_result (add_to_group record) m (selected_groups scope).

(** [line.split(":", 1)[1]] of the lines that start with [pipe-metric:]. *)
Definition metric_payload (line : string) : option string := strip_prefix "pipe-metric:" line.

(** Counting the records and the parsed lines, in the order of the log. *)
Definition count_line (json_loads : string → result pyval) (acc : counters * list pydict) (line : string)
    : result (counters * list pydict) :=
  match metric_payload line with
  | None => Ok acc
  | Some text =>
      value ← json_loads text;
      record ← is_dict value ?! AttributeError;
      m ← add_to_groups acc.1 record;
      Ok (m, acc.2 ++ [record])
  end.

Definition counter_values (m : counters) : list (string * Z) :=
  groups ≫= λ g, let c := default empty_counter (m !! g) in
    [(g +:+ "_records", ct_records c); (g +:+ "_bytes", ct_bytes c); (g +:+ "_elapsed_ns", ct_elapsed_ns c);
     (g +:+ "_sync_wait_ns", ct_sync_wait_ns c); (g +:+ "_writes", ct_writes c); (g +:+ "_reads", ct_reads c)].

Definition interval_values (m : counters) : list (string * Z) :=
  groups ≫= λ g, let c := default empty_counter (m !! g) in
    [(g +:+ "_sync_wall_union_ns", interval_union (ct_intervals c));
     (g +:+ "_sync_wall_interval_count", zlen (ct_intervals c))].

(** [collect_pipe_metrics] of the file's text; [None]: there is no such file. *)
Definition collect_pipe_metrics (json_loads : string → result pyval) (text : option string)
    : result (list (string * Z)) :=
  match text with
  | None =>
      t ← collect_exposed_transport_metrics [];
      Ok (dict_update (counter_values init_counters) t)
  | Some text =>
      acc ← fold_result (count_line json_loads) (init_counters, []) (splitlines text);
      t ← collect_exposed_transport_metrics acc.2;
      Ok (dict_update (dict_update (counter_values acc.1) (interval_values acc.1)) t)
  end.

(** ** The network simulator's table *)

Record ns3_totals := Ns3Totals {
  ns3_records : Z; ns3_normal_records : Z; ns3_special_records : Z;
  ns3_payload_bytes : Z; ns3_normal_payload_bytes : Z;
  ns3_source_sync : Z; ns3_network_delay : Z; ns3_sync_block : Z;
}.

(** A column the line has no field for is [None]. *)
Abbreviation row := (list (string * option string)).

Definition column_int (r : row) (name : string) : result Z :=
  field ← dict_item name r; text ← field ?! TypeError; py_int_exn text.

Definition add_row (t : ns3_totals) (r : row) : result ns3_totals :=
  payload ← column_int r "payload_bytes";
  special ← dict_item "special" r;
  if bool_decide (special = Some "1") then
    Ok (Ns3Totals (ns3_records t + 1) (ns3_normal_records t) (ns3_special_records t + 1)
          (ns3_payload_bytes t + payload) (ns3_normal_payload_bytes t)
          (ns3_source_sync t) (ns3_network_delay t) (ns3_sync_block t))
  else
    source ← column_int r "source_sync_advance_cycles";
    delay ← column_int r "destination_network_delay_cycles";
    block ← column_int r "destination_sync_block_cycles";
    Ok (Ns3Totals (ns3_records t + 1) (ns3_normal_records t + 1) (ns3_special_records t)
          (ns3_payload_bytes t + payload) (ns3_normal_payload_bytes t + payload)
          (ns3_source_sync t + source) (ns3_network_delay t + delay) (ns3_sync_block t + block)).

Definition collect_ns3_metrics (rows : option (list row)) : result ns3_totals :=
  fold_result add_row (Ns3Totals 0 0 0 0 0 0 0 0) (default [] rows).

(** ** The four groups *)

(** The entries of the four groups. *)
Definition view {A} (m : gmap string A) (a s c p : A) : Prop :=
  m !! "all" = Some a ∧ m !! "same_logical_worker" = Some s ∧
  m !! "cross_legosim" = Some c ∧ m !! "cross_physical_host" = Some p.

Lemma view_alter_all {A} (f : A → A) m a s c p : view m a s c p → view (alter f "all" m) (f a) s c p.
Proof. intros (Ha & Hs & Hc & Hp). unfold view. rewrite lookup_alter_eq, Ha, !lookup_alter_ne by done. done. Qed.

Lemma view_alter_same {A} (f : A → A) m a s c p : view m a s c p → view (alter f "same_logical_worker" m) a (f s) c p.
Proof. intros (Ha & Hs & Hc & Hp). unfold view. rewrite lookup_alter_eq, Hs, !lookup_alter_ne by done. done. Qed.

Lemma view_alter_cross {A} (f : A → A) m a s c p : view m a s c p → view (alter f "cross_legosim" m) a s (f c) p.
Proof. intros (Ha & Hs & Hc & Hp). unfold view. rewrite lookup_alter_eq, Hc, !lookup_alter_ne by done. done. Qed.

Lemma view_alter_physical {A} (f : A → A) m a s c p : view m a s c p → view (alter f "cross_physical_host" m) a s c (f p).
Proof. intros (Ha & Hs & Hc & Hp). unfold view. rewrite lookup_alter_eq, Hp, !lookup_alter_ne by done. done. Qed.

Create HintDb groups.
#[local] Hint Resolve view_alter_all view_alter_same view_alter_cross view_alter_physical : groups.

(** Every record belongs to [all] and to exactly one of the next two groups; only records of
    [cross_legosim] belong to [cross_physical_host]. *)
Lemma on_groups_view f scope t a s c p :
  view t a s c p →
  view (on_groups f scope t) (f a) (f s) c p ∨ view (on_groups f scope t) (f a) s (f c) p ∨
  view (on_groups f scope t) (f a) s (f c) (f p).
Proof.
  intros H. unfold on_groups, selected_groups.
  destruct (String.eqb scope "same_logical_worker"); cbn [foldl]; [left; auto with groups|right].
  destruct (String.eqb scope "cross_physical_host"); cbn [foldl]; [right|left]; auto with groups.
Qed.

(** ** Writer and reader records *)

Lemma init_physical own1 own2 routing r1 r2 :
  init own1 routing = Ok r1 → init own2 routing = Ok r2 →
  physical_slots r1 = physical_slots r2 ∧ slot r1 = own1 ∧ slot r2 = own2.
Proof. unfold init. intros H1 H2. result_inv. cbn [physical_slots slot]. split; [congruence|done]. Qed.

Lemma metric_key r rq started finished :
  rq_pipe rq ≠ "" →
  transfer_key (metric r rq started finished) =
    Some (match rq_operation rq with
          | W => (slot r, rq_peer rq, rq_pipe rq, rq_bytes rq)
          | R => (rq_peer rq, slot r, rq_pipe rq, rq_bytes rq)
          end).
Proof.
  intros Hne. unfold transfer_key, slots_and_bytes, dict_item, get, dict_get_default.
  cbn. destruct (rq_pipe rq) as [|ch tl]; [done|]. by destruct (rq_operation rq).
Qed.

Lemma metric_scope r rq started finished :
  classify_scope (metric r rq started finished) = Ok (scope_text (transport_scope r (rq_peer rq))).
Proof. reflexivity. Qed.

(** C14: the records of the two ends of a transfer belong together.  When two routers configured
    from one routing table report a write and the read that consumes it (same pipe, same byte
    count, each naming the other as its peer), the collector derives the same transfer key and
    the same transport scope from both records, whatever the clocks were. *)
Theorem transfer_records_pair routing ws rd stream1 stream2 rest1 rest2 w r rw rr tw1 tw2 tr1 tr2 :
  init ws routing = Ok rw → init rd routing = Ok rr →
  prepare rw stream1 = Ok (w, rest1) → prepare rr stream2 = Ok (r, rest2) →
  rq_operation w = W → rq_operation r = R → rq_pipe w = rq_pipe r → rq_bytes w = rq_bytes r →
  rq_peer w = rd → rq_peer r = ws →
  transfer_key (metric rw w tw1 tw2) = Some (ws, rd, rq_pipe w, rq_bytes w) ∧
  transfer_key (metric rr r tr1 tr2) = Some (ws, rd, rq_pipe w, rq_bytes w) ∧
  classify_scope (metric rw w tw1 tw2) = classify_scope (metric rr r tr1 tr2).
Proof.
  intros Iw Ir Pw Pr Ow Or Hpipe Hbytes Hw Hr.
  destruct (init_physical _ _ _ _ _ Iw Ir) as (Hphys & Sw & Sr).
  apply prepare_Ok in Pw as (_ & _ & Hpeer).
  assert (Hne : rq_pipe w ≠ "").
  { intros He. unfold peer_for in Hpeer. rewrite He in Hpeer. done. }
  rewrite !metric_key by congruence. rewrite Ow, Or, Hpipe, Hbytes, Sw, Sr, Hw, Hr.
  split; [done|]. split; [done|]. rewrite !metric_scope. do 2 f_equal.
  unfold transport_scope, physical_of. rewrite Sw, Sr, Hw, Hr, Hphys, (Z.eqb_sym ws), (Z.eqb_sym (default 0 (_ !! ws))). done.
Qed.

Lemma transfer_records_pair_witness :
  ∃ rw rr w r, init 0 (to_json demo_routing) = Ok rw ∧ init 1 (to_json demo_routing) = Ok rr ∧
    prepare rw ("W buffer5_5_0_1 2" +:+ nl +:+ "ab") = Ok (w, "") ∧ prepare rr ("R buffer5_5_0_1 2" +:+ nl) = Ok (r, "") ∧
    transfer_key (metric rw w (Stamp 1 1) (Stamp 2 2)) = transfer_key (metric rr r (Stamp 0 0) (Stamp 9 9)).
Proof.
  destruct (init 0 (to_json demo_routing)) as [rw|] eqn:Ew; [|vm_compute in Ew; done].
  destruct (init 1 (to_json demo_routing)) as [rr|] eqn:Er; [|vm_compute in Er; done].
  destruct (prepare rw ("W buffer5_5_0_1 2" +:+ nl +:+ "ab")) as [[w wr]|] eqn:Pw;
    [|vm_compute in Ew; injection Ew as <-; vm_compute in Pw; done].
  destruct (prepare rr ("R buffer5_5_0_1 2" +:+ nl)) as [[r rrest]|] eqn:Pr;
    [|vm_compute in Er; injection Er as <-; vm_compute in Pr; done].
  assert (Hw : w = Request W "buffer5_5_0_1" 2 "ab" 1 ∧ wr = "").
  { vm_compute in Ew. injection Ew as <-. vm_compute in Pw. injection Pw as <- <-. split; reflexivity. }
  assert (Hr : r = Request R "buffer5_5_0_1" 2 "" 0 ∧ rrest = "").
  { vm_compute in Er. injection Er as <-. vm_compute in Pr. injection Pr as <- <-. split; reflexivity. }
  destruct Hw as [-> ->], Hr as [-> ->].
  destruct (transfer_records_pair _ 0 1 _ _ _ _ _ _ _ _ (Stamp 1 1) (Stamp 2 2) (Stamp 0 0) (Stamp 9 9)
    Ew Er Pw Pr eq_refl eq_refl eq_refl eq_refl eq_refl eq_refl) as (H1 & H2 & _). clear -Ew Er Pw Pr H1 H2.
  exists rw, rr, (Request W "buffer5_5_0_1" 2 "ab" 1), (Request R "buffer5_5_0_1" 2 "" 0).
  do 2 (split; [reflexivity|]). split; [exact Pw|]. split; [exact Pr|]. rewrite H1, H2. reflexivity.
Defined.

(** ** Conservation of transfers *)

Definition is_op (op : string) (record : pydict) : bool :=
  bool_decide (is_Some (transfer_key record)) && eq_str (get record "operation") op.

(** [n] records with the key in [ks]. *)
Definition keyed_in (ks : list key) (record : pydict) : bool :=
  match transfer_key record with Some k => bool_decide (k ∈ ks) | None => false end.

Definition pending (m : transfers) (k : key) : list pydict := default [] (m !! k).

Lemma pending_append m k record k' :
  zlen (pending (append_to m k record) k') = zlen (pending m k') + (if bool_decide (k = k') then 1 else 0).
Proof.
  unfold pending, append_to, zlen. case_bool_decide as H.
  - subst k'. rewrite lookup_insert_eq. cbn [default id]. rewrite length_app. simpl. lia.
  - rewrite lookup_insert_ne by done. lia.
Qed.

Lemma zsum_append_to ks m k record :
  NoDup ks →
  zsum ((λ k', zlen (pending (append_to m k record) k')) <$> ks) =
  zsum ((λ k, zlen (pending m k)) <$> ks) + (if bool_decide (k ∈ ks) then 1 else 0).
Proof.
  induction ks as [|k' ks IH]; intros Hnd; [done|]. apply NoDup_cons in Hnd as [Hk' Hnd].
  rewrite !fmap_cons, !zsum_cons, pending_append, IH by done.
  destruct (decide (k = k')) as [->|Hne].
  - rewrite (bool_decide_eq_true_2 (k' = k')), (bool_decide_eq_true_2 (k' ∈ k' :: ks)), (bool_decide_eq_false_2 (k' ∈ ks))
      by (try done; apply list_elem_of_here). lia.
  - rewrite (bool_decide_eq_false_2 (k = k')) by done.
    assert (bool_decide (k ∈ k' :: ks) = bool_decide (k ∈ ks)) as ->; [|lia].
    apply bool_decide_ext. rewrite elem_of_cons. naive_solver.
Qed.

Lemma eq_str_op record : eq_str (get record "operation") "W" = true → eq_str (get record "operation") "R" = false.
Proof. destruct (get record "operation"); simpl; try done. intros ->%String.eqb_eq. done. Qed.

Lemma zsum_pending_empty ks : zsum ((λ k, zlen (pending ∅ k)) <$> ks) = 0.
Proof. induction ks as [|k ks IH]; [done|]. rewrite fmap_cons, zsum_cons, IH. done. Qed.

(** The pending lists hold exactly the keyed records of each kind. *)
Lemma collect_transfers_count ks records :
  NoDup ks →
  zsum ((λ k, zlen (pending (collect_transfers records).1 k)) <$> ks)
    = count (λ r, keyed_in ks r && is_op "W" r) records ∧
  zsum ((λ k, zlen (pending (collect_transfers records).2 k)) <$> ks)
    = count (λ r, keyed_in ks r && is_op "R" r) records.
Proof.
  intros Hnd. unfold collect_transfers. induction records as [|r records [IHw IHr]] using rev_ind.
  - cbn [foldl fst snd]. rewrite !count_nil. split; apply zsum_pending_empty.
  - rewrite foldl_snoc, !count_app, !count_cons, !count_nil.
    set (acc := foldl sort_transfer (∅, ∅) records) in *. unfold sort_transfer, keyed_in at 2 4, is_op at 2 4.
    destruct (transfer_key r) as [k|] eqn:Ek; [|cbn [andb]; lia].
    rewrite (bool_decide_eq_true_2 (is_Some (Some k))) by eauto. cbn [andb].
    destruct (eq_str (get r "operation") "W") eqn:Ew.
    + rewrite (eq_str_op _ Ew), andb_false_r, andb_true_r. cbn [fst snd].
      rewrite zsum_append_to, IHw, IHr by done. destruct (bool_decide (k ∈ ks)); lia.
    + rewrite andb_false_r. destruct (eq_str (get r "operation") "R") eqn:Er; cbn [fst snd].
      * rewrite andb_true_r, zsum_append_to, IHw, IHr by done. destruct (bool_decide (k ∈ ks)); lia.
      * rewrite andb_false_r. lia.
Qed.

Lemma sort_items_perm name items l : sort_items name items = Ok l → l ≡ₚ items.
Proof.
  unfold sort_items. intros H. result_inv. rewrite py_sorted_perm.
  apply mapM_result_Ok in Ha. enough (a.*2 = items) as -> by done.
  induction Ha as [|x y l k Hxy _ IH]; [done|]. result_inv. csimpl. by f_equal.
Qed.

(** A group's counter agrees with its intervals. *)
Definition sound (c : transport_counter) : Prop :=
  tc_pairs c = zlen (tc_intervals c) ∧
  tc_exposed_sum_ns c = zsum ((λ i, i.2 - i.1) <$> tc_intervals c) ∧
  ∀ i, i ∈ tc_intervals c → i.1 ≤ i.2.

(** The first counter is the sum of the other two. *)
Definition adds_up (a s c : transport_counter) : Prop :=
  tc_pairs a = tc_pairs s + tc_pairs c ∧
  tc_unmatched_writes a = tc_unmatched_writes s + tc_unmatched_writes c ∧
  tc_unmatched_reads a = tc_unmatched_reads s + tc_unmatched_reads c ∧
  tc_exposed_sum_ns a = tc_exposed_sum_ns s + tc_exposed_sum_ns c.

(** [w] writes and [r] reads are accounted for. *)
Definition balanced (t : transport) (w r : Z) : Prop :=
  ∃ a s c p, view t a s c p ∧ adds_up a s c ∧ Forall sound [a; s; c; p] ∧
    tc_pairs a + tc_unmatched_writes a = w ∧ tc_pairs a + tc_unmatched_reads a = r.

Lemma sound_count_pair i c : i.1 ≤ i.2 → sound c → sound (count_pair i c).
Proof.
  intros Hi (H1 & H2 & H3). unfold sound, count_pair. cbn [tc_pairs tc_intervals tc_exposed_sum_ns].
  rewrite zlen_app, fmap_app, zsum_app, H1, H2. split; [done|]. split; [csimpl; simpl; lia|].
  intros j [?| ->%list_elem_of_singleton]%elem_of_app; auto.
Qed.

Lemma balanced_pair i scope t w r :
  i.1 ≤ i.2 → balanced t w r → balanced (on_groups (count_pair i) scope t) (w + 1) (r + 1).
Proof.
  intros Hi (a & s & c & p & Hv & (P & W & R & X) & Hs & <- & <-). rewrite !Forall_cons in Hs.
  destruct Hs as (Ha & Hss & Hc & Hp & _).
  destruct (on_groups_view (count_pair i) scope t a s c p Hv) as [H|[H|H]]; do 4 eexists; (split; [exact H|]);
    unfold adds_up; cbn [tc_pairs tc_unmatched_writes tc_unmatched_reads tc_exposed_sum_ns count_pair];
    (split; [lia|]); (split; [|lia]); repeat first [apply Forall_nil_2 | apply Forall_cons_2]; auto using sound_count_pair.
Qed.

Lemma balanced_unmatched dw dr scope t w r :
  balanced t w r → balanced (on_groups (count_unmatched dw dr) scope t) (w + dw) (r + dr).
Proof.
  intros (a & s & c & p & Hv & (P & W & R & X) & Hs & <- & <-). rewrite !Forall_cons in Hs.
  destruct Hs as (Ha & Hss & Hc & Hp & _).
  destruct (on_groups_view (count_unmatched dw dr) scope t a s c p Hv) as [H|[H|H]]; do 4 eexists; (split; [exact H|]);
    unfold adds_up; cbn [tc_pairs tc_unmatched_writes tc_unmatched_reads tc_exposed_sum_ns count_unmatched];
    (split; [lia|]); (split; [|lia]); repeat first [apply Forall_nil_2 | apply Forall_cons_2]; assumption.
Qed.

Lemma exposed_valid write read i : exposed write read = Some i → i.1 ≤ i.2.
Proof.
  unfold exposed. destruct (pair_times write read) as [[[w r] f]|]; [|done]. cbn [mbind option_bind].
  destruct (Z.ltb_spec f (Z.max w r)); [done|]. intros [= <-]. done.
Qed.

Lemma balanced_pairs pairs t n w r t' n' :
  fold_result pair_step (t, n) pairs = Ok (t', n') → balanced t w r → balanced t' (w + (n' - n)) (r + (n' - n)).
Proof.
  revert t n w r. induction pairs as [|[write read] pairs IH]; intros t n w r; cbn [fold_result].
  - intros [= -> ->] H. by rewrite Z.sub_diag, !Z.add_0_r.
  - unfold pair_step at 1. cbn [fst snd]. destruct (exposed write read) as [i|] eqn:Ei; [|by apply IH].
    destruct (classify_scope write) as [scope|]; [|done]. cbn [mbind result_bind]. intros Hf Hb.
    apply exposed_valid in Ei. specialize (IH _ _ _ _ Hf (balanced_pair i scope t w r Ei Hb)).
    replace (w + (n' - n)) with (w + 1 + (n' - (n + 1))) by lia.
    replace (r + (n' - n)) with (r + 1 + (n' - (n + 1))) by lia. done.
Qed.

Lemma balanced_key writes reads t k t' w r :
  key_step writes reads t k = Ok t' → balanced t w r →
  balanced t' (w + zlen (pending writes k)) (r + zlen (pending reads k)).
Proof.
  unfold key_step, pending. intros H Hb. result_inv. destruct a1 as [t1 n1]. cbn [fst snd] in *.
  apply sort_items_perm in Ha, Ha0. rewrite <- Ha, <- Ha0.
  pose proof (balanced_pairs _ _ _ w r _ _ Ha1 Hb) as Hb1. rewrite Z.sub_0_r in Hb1.
  destruct (head (a ++ a0)) as [source|] eqn:Eh.
  - result_inv. apply (balanced_unmatched (zlen a - n1) (zlen a0 - n1) a1) in Hb1.
    replace (w + zlen a) with (w + n1 + (zlen a - n1)) by lia.
    by replace (r + zlen a0) with (r + n1 + (zlen a0 - n1)) by lia.
  - destruct a; [|done]. destruct a0; [|done]. cbn in Ha1. injection Ha1 as -> <-. injection H as <-. done.
Qed.

Lemma balanced_init : balanced init_transport 0 0.
Proof.
  exists no_transport, no_transport, no_transport, no_transport.
  split; [vm_compute; done|]. split; [done|].
  assert (sound no_transport) by (split; [done|split; [done|set_solver]]).
  split; [repeat first [apply Forall_nil_2 | apply Forall_cons_2]; done|done].
Qed.

Lemma balanced_keys writes reads ks t t' w r :
  fold_result (key_step writes reads) t ks = Ok t' → balanced t w r →
  balanced t' (w + zsum ((λ k, zlen (pending writes k)) <$> ks)) (r + zsum ((λ k, zlen (pending reads k)) <$> ks)).
Proof.
  revert t w r. induction ks as [|k ks IH]; intros t w r; cbn [fold_result].
  - intros [= ->] H. csimpl. simpl. by rewrite !Z.add_0_r.
  - destruct (key_step writes reads t k) as [t1|] eqn:E; [|done]. intros Hf Hb.
    rewrite !fmap_cons, !zsum_cons, !Z.add_assoc. apply (IH t1); [done|]. by eapply balanced_key.
Qed.

Lemma all_keys_perm writes reads : all_keys writes reads ≡ₚ elements (dom writes ∪ dom reads : gset key).
Proof. apply py_sorted_perm. Qed.

Lemma pending_dom (m : transfers) k : 0 < zlen (pending m k) → k ∈ dom m.
Proof.
  unfold pending. intros H. apply elem_of_dom. destruct (m !! k); [by eexists|]. done.
Qed.

(** Every keyed record's key is visited. *)
Lemma all_keys_complete records r :
  r ∈ records → is_op "W" r = true ∨ is_op "R" r = true →
  keyed_in (all_keys (collect_transfers records).1 (collect_transfers records).2) r = true.
Proof.
  intros Hr Hop. unfold keyed_in.
  destruct (transfer_key r) as [k|] eqn:Ek; [|unfold is_op in Hop; rewrite Ek in Hop; simpl in Hop; naive_solver].
  apply bool_decide_eq_true_2. rewrite all_keys_perm, elem_of_elements, elem_of_union.
  destruct (collect_transfers_count [k] records (NoDup_singleton k)) as [Hw Hrd]. csimpl in Hw. csimpl in Hrd.
  cbn [zsum foldr] in Hw, Hrd. rewrite Z.add_0_r in Hw, Hrd.
  assert (Hkey : keyed_in [k] r = true) by (unfold keyed_in; rewrite Ek; by apply bool_decide_eq_true_2, list_elem_of_here).
  destruct Hop as [Hop|Hop]; [left|right]; apply pending_dom; [rewrite Hw|rewrite Hrd];
    (apply (count_pos _ r); [done|by rewrite Hkey, Hop]).
Qed.

(** C15: conservation of transfers.  When the collector succeeds, every write with a transfer key
    is either in a measured pair or counted as unmatched, and so is every such read; pairs,
    unmatched operations and exposed time of [all] are those of [same_logical_worker] plus those
    of [cross_legosim]; and in every group the exposed union lies between zero and the exposed
    sum. *)
Theorem transport_conservation records t :
  collect_transport records = Ok t →
  ∃ a s c p, view t a s c p ∧ adds_up a s c ∧
    tc_pairs a + tc_unmatched_writes a = count (is_op "W") records ∧
    tc_pairs a + tc_unmatched_reads a = count (is_op "R") records ∧
    Forall (λ x, 0 ≤ interval_union (tc_intervals x) ≤ tc_exposed_sum_ns x) [a; s; c; p].
Proof.
  unfold collect_transport. destruct (collect_transfers records) as [writes reads] eqn:Ec. intros H.
  apply (balanced_keys _ _ _ _ _ 0 0) in H; [|exact balanced_init].
  assert (Hnd : NoDup (all_keys writes reads)) by (rewrite all_keys_perm; apply NoDup_elements).
  destruct (collect_transfers_count (all_keys writes reads) records Hnd) as [Hw Hr]. rewrite Ec in Hw, Hr. cbn [fst snd] in Hw, Hr.
  rewrite Hw, Hr in H.
  assert (Hcomplete := λ r, all_keys_complete records r). rewrite Ec in Hcomplete. cbn [fst snd] in Hcomplete.
  destruct H as (a & s & c & p & Hv & Hadd & Hs & HW & HR). exists a, s, c, p. split; [done|]. split; [done|].
  rewrite HW, HR, !Z.add_0_l. split; [|split].
  - apply count_ext. intros r Hin. destruct (is_op "W" r) eqn:E; [|apply andb_false_r].
    by rewrite Hcomplete by auto.
  - apply count_ext. intros r Hin. destruct (is_op "R" r) eqn:E; [|apply andb_false_r].
    by rewrite Hcomplete by auto.
  - eapply Forall_impl; [exact Hs|]. intros x (_ & -> & Hvalid). rewrite interval_union_measure by done.
    split; [apply measure_nonneg|by apply measure_le_sum].
Qed.

Definition demo_record (op : string) (s p started finished : Z) : pydict :=
  [("operation", PStr op); ("pipe_name", PStr "buffer0_0_0_1"); ("bytes", PInt 8); ("source_slot", PInt s);
   ("peer_slot", PInt p); ("transport_scope", PStr "cross_physical_host");
   ("started_unix_ns", PInt started); ("finished_unix_ns", PInt finished)].

Lemma transport_conservation_witness :
  ∃ t a, collect_transport [demo_record "W" 0 1 5 6; demo_record "R" 1 0 1 9; demo_record "W" 0 1 7 8] = Ok t ∧
    t !! "all" = Some a ∧ tc_pairs a + tc_unmatched_writes a = 2 ∧ tc_pairs a + tc_unmatched_reads a = 1.
Proof.
  destruct (collect_transport [demo_record "W" 0 1 5 6; demo_record "R" 1 0 1 9; demo_record "W" 0 1 7 8])
    as [t|] eqn:E; [|vm_compute in E; done].
  destruct (transport_conservation _ _ E) as (a & s & c & p & (Ha & _) & _ & Hw & Hr & _).
  exists t, a. split; [reflexivity|]. split; [exact Ha|]. split; [rewrite Hw|rewrite Hr]; reflexivity.
Defined.

(** ** Counting a transport log *)

(** The counters of the first group are the sums of the other two. *)
Definition counter_adds_up (a s c : counter) : Prop :=
  ct_records a = ct_records s + ct_records c ∧ ct_bytes a = ct_bytes s + ct_bytes c ∧
  ct_elapsed_ns a = ct_elapsed_ns s + ct_elapsed_ns c ∧ ct_sync_wait_ns a = ct_sync_wait_ns s + ct_sync_wait_ns c ∧
  ct_writes a = ct_writes s + ct_writes c ∧ ct_reads a = ct_reads s + ct_reads c.

Definition partitioned (m : counters) (n : Z) : Prop :=
  ∃ a s c p, view m a s c p ∧ counter_adds_up a s c ∧ ct_records a = n ∧ ct_records p ≤ ct_records c ∧
    Forall (λ x, ∀ i, i ∈ ct_intervals x → i.1 ≤ i.2) [a; s; c; p].

Lemma read_interval_valid record i : i ∈ read_interval record → i.1 ≤ i.2.
Proof.
  unfold read_interval. destruct (negb _); [set_solver|].
  destruct (is_int (get record "started_unix_ns")) as [x|], (is_int (get record "finished_unix_ns")) as [y|]; try set_solver.
  destruct (Z.leb_spec x y); [|set_solver]. by intros ->%list_elem_of_singleton.
Qed.

(** What one record adds, as a function on counters. *)
Definition bump (bytes elapsed wait : Z) (record : pydict) (c : counter) : counter :=
  Counter (ct_records c + 1) (ct_bytes c + bytes) (ct_elapsed_ns c + elapsed) (ct_sync_wait_ns c + wait)
    (ct_writes c + bool_int (eq_str (get record "operation") "W"))
    (ct_reads c + bool_int (eq_str (get record "operation") "R")) (ct_intervals c ++ read_interval record).

Lemma add_to_group_alter record m g m' :
  add_to_group record m g = Ok m' →
  ∃ b e w, get_int record "bytes" 0 = Ok b ∧ get_int record "elapsed_ns" 0 = Ok e ∧
    get_int record "synchronization_wait_ns" 0 = Ok w ∧ m' = alter (bump b e w record) g m.
Proof.
  unfold add_to_group, add_record. intros H. result_inv. do 3 eexists. repeat (split; [done|]).
  apply map_eq. intros g'. destruct (decide (g = g')) as [<-|Hne].
  - by rewrite lookup_insert_eq, lookup_alter_eq, Ha.
  - by rewrite lookup_insert_ne, lookup_alter_ne.
Qed.

Lemma add_to_groups_alter record m m' :
  add_to_groups m record = Ok m' →
  ∃ scope b e w, m' = foldl (λ m g, alter (bump b e w record) g m) m (selected_groups scope).
Proof.
  unfold add_to_groups. intros H. result_inv. rename a into scope. clear Ha.
  assert (Hsel : selected_groups scope = "all" :: tl (selected_groups scope)) by done. rewrite Hsel in H.
  cbn [fold_result] in H. destruct (add_to_group record m "all") as [m1|] eqn:E1; [|done].
  destruct (add_to_group_alter _ _ _ _ E1) as (b & e & w & Hb & He & Hw & ->).
  exists scope, b, e, w. rewrite Hsel. cbn [foldl]. clear E1. revert H.
  generalize (alter (bump b e w record) "all" m) as m1. generalize (tl (selected_groups scope)) as l.
  induction l as [|g l IH]; intros m1; cbn [fold_result foldl]; [by intros [= <-]|].
  destruct (add_to_group record m1 g) as [m2|] eqn:E2; [|done].
  destruct (add_to_group_alter _ _ _ _ E2) as (b' & e' & w' & Hb' & He' & Hw' & ->).
  assert (b' = b ∧ e' = e ∧ w' = w) as (-> & -> & ->) by (split; [congruence|split; congruence]). apply IH.
Qed.

Lemma bump_intervals b e w record c :
  (∀ i, i ∈ ct_intervals c → i.1 ≤ i.2) → ∀ i, i ∈ ct_intervals (bump b e w record c) → i.1 ≤ i.2.
Proof. intros H i. cbn [ct_intervals bump]. intros [?|?]%elem_of_app; eauto using read_interval_valid. Qed.

Lemma partitioned_record m record m' n :
  add_to_groups m record = Ok m' → partitioned m n → partitioned m' (n + 1).
Proof.
  intros (scope & b & e & w & ->)%add_to_groups_alter (a & s & c & p & Hv & Hadd & <- & Hp & Hi).
  rewrite !Forall_cons in Hi. destruct Hi as (Ia & Is & Ic & Ip & _).
  unfold counter_adds_up in Hadd.
  assert (Hcase : view (foldl (λ m g, alter (bump b e w record) g m) m (selected_groups scope)) (bump b e w record a) (bump b e w record s) c p ∨
    ∃ p', view (foldl (λ m g, alter (bump b e w record) g m) m (selected_groups scope)) (bump b e w record a) s (bump b e w record c) p' ∧
      (p' = p ∨ p' = bump b e w record p)).
  { unfold selected_groups. destruct (String.eqb scope "same_logical_worker"); cbn [foldl]; [left; auto with groups|right].
    destruct (String.eqb scope "cross_physical_host"); cbn [foldl]; [exists (bump b e w record p)|exists p];
      (split; [|auto]); auto with groups. }
  destruct Hcase as [H|(p' & H & Hp')]; do 4 eexists; (split; [exact H|]); unfold counter_adds_up;
    cbn [ct_records ct_bytes ct_elapsed_ns ct_sync_wait_ns ct_writes ct_reads bump]; (split; [lia|]); (split; [done|]).
  - split; [done|]. repeat first [apply Forall_nil_2 | apply Forall_cons_2]; try done; by apply bump_intervals.
  - split; [destruct Hp' as [->| ->]; cbn [ct_records bump]; lia|].
    destruct Hp' as [->| ->]; repeat first [apply Forall_nil_2 | apply Forall_cons_2]; try done; by apply bump_intervals.
Qed.

(** The log is partitioned.  After counting any lines of a transport log, the records found
    are the metric lines; every total of [all] is the total of [same_logical_worker] plus the
    total of [cross_legosim], of which [cross_physical_host] is a part; and the reported
    blocking unions are between zero and the summed lengths of the blocking intervals. *)
Theorem log_partition json_loads lines m records :
  fold_result (count_line json_loads) (init_counters, []) lines = Ok (m, records) →
  zlen records = count (λ line, bool_decide (is_Some (metric_payload line))) lines ∧
  ∃ a s c p, view m a s c p ∧ counter_adds_up a s c ∧ ct_records a = zlen records ∧ ct_records p ≤ ct_records c ∧
    Forall (λ x, 0 ≤ interval_union (ct_intervals x) ≤ zsum ((λ i, i.2 - i.1) <$> ct_intervals x)) [a; s; c; p].
Proof.
  intros H.
  assert (Hinv : zlen records = count (λ line, bool_decide (is_Some (metric_payload line))) lines ∧ partitioned m (zlen records)).
  { apply (fold_result_inv (count_line json_loads) (λ pre acc,
      zlen acc.2 = count (λ line, bool_decide (is_Some (metric_payload line))) pre ∧ partitioned acc.1 (zlen acc.2))
      lines (init_counters, []) (m, records)); [| |done].
    - split; [done|]. exists empty_counter, empty_counter, empty_counter, empty_counter.
      split; [vm_compute; done|]. split; [done|]. split; [done|]. split; [done|].
      repeat first [apply Forall_nil_2 | apply Forall_cons_2]; set_solver.
    - intros pre line [m0 recs] st' [Hc Hp] _. unfold count_line. cbn [fst snd] in *.
      rewrite count_app, count_cons, count_nil. destruct (metric_payload line) as [text|] eqn:Em; intros Hs.
      + result_inv. cbn [fst snd]. rewrite zlen_app. change (zlen [a0]) with 1.
        rewrite bool_decide_eq_true_2 by eauto. split; [lia|]. by eapply partitioned_record.
      + injection Hs as <-. cbn [fst snd]. rewrite bool_decide_eq_false_2 by (intros [? ?]; done). split; [lia|done]. }
  destruct Hinv as [Hcount (a & s & c & p & Hv & Hadd & Hn & Hp & Hi)]. split; [done|].
  exists a, s, c, p. repeat (split; [done|]). eapply Forall_impl; [exact Hi|]. intros x Hx.
  cbn beta in Hx. rewrite interval_union_measure by done. split; [apply measure_nonneg|by apply measure_le_sum].
Qed.

Lemma log_partition_witness :
  ∃ m a, fold_result (count_line (λ _, Ok (PDict (demo_record "R" 1 0 1 9)))) (init_counters, []) ["boot"; "pipe-metric: {}"]
      = Ok (m, [demo_record "R" 1 0 1 9]) ∧ m !! "all" = Some a ∧ ct_records a = 1.
Proof.
  destruct (fold_result (count_line (λ _, Ok (PDict (demo_record "R" 1 0 1 9)))) (init_counters, []) ["boot"; "pipe-metric: {}"])
    as [[m recs]|] eqn:E; [|vm_compute in E; done].
  destruct (log_partition _ _ _ _ E) as (_ & a & s & c & p & (Ha & _) & _ & Hn & _).
  assert (recs = [demo_record "R" 1 0 1 9]) as -> by (vm_compute in E; injection E as <- <-; reflexivity).
  exists m, a. split; [reflexivity|]. split; [exact Ha|exact Hn].
Defined.
