(* ===== verification/Steady.v ===== *)
(** * The steady-state window

    Model of [src/scripts/summarize_steady_measurement.py]: the records of a transport log, the
    window between the start barrier and the last completion, and the time inside the window
    during which some cross-node read was blocked.  Parsing a line as JSON and a time stamp
    as a date are arguments; the report keeps nanoseconds where the code prints seconds. *)

From S2P Require Import Prelude PyValue Topology Placement Routing Router Intervals TimingMetrics.

(** ** Records *)

(** [line.split(prefix, 1)[1]] when the line contains the prefix. *)
Fixpoint after_first (prefix line : string) : option string :=
  match strip_prefix prefix line with
  | Some rest => Some rest
  | None => match line with EmptyString => None | String _ r => after_first prefix r end
  end.

(** Lines that are not valid JSON are skipped. *)
Definition parse_line (json_loads : string → result pyval) (line : string) : list pyval :=
  match after_first "pipe-metric: " line with
  | None => []
  | Some payload => match json_loads payload with Ok v => [v] | Err _ => [] end
  end.

(** A record that is no object fails at the first [record.get]. *)
Definition parse_records (json_loads : string → result pyval) (path text : string) : result (list pydict) :=
  let values := splitlines text ≫= parse_line json_loads in
  _ ← raise_if (zlen values =? 0) (ValueError ("no PipeComm metric records found in " +:+ path));
  mapM (λ v, is_dict v ?! AttributeError) values.

Definition event_time (record : pydict) (name : string) : result Z :=
  is_int (get record name) ?! ValueError ("metric record has no integer " +:+ name +:+ ": " +:+ py_str (PDict record)).

(** ** The window *)

Definition is_write (record : pydict) : bool := eq_str (get record "operation") "W".

Definition start_release (record : pydict) : bool :=
  is_write record && eq_int (get record "bytes") 4 && eq_int (get record "source_slot") 0
  && negb (eq_int (get record "peer_slot") 0).

Definition completion_write (record : pydict) : bool :=
  is_write record && eq_int (get record "bytes") 4 && negb (eq_int (get record "source_slot") 0)
  && eq_int (get record "peer_slot") 0.

Definition header_write (record : pydict) : bool := is_write record && eq_int (get record "bytes") 16.

Definition payload_write (record : pydict) : bool :=
  is_write record && match is_int (get record "bytes") with Some n => 16 <? n | None => false end.

Definition keep {A} (p : A → bool) (l : list A) : list A := filter (λ x, p x = true) l.

(** [max] and [min] of a generator of times. *)
Definition times (name : string) (records : list pydict) : result (list Z) := mapM (λ r, event_time r name) records.
Definition list_max (l : list Z) : result Z :=
  match l with [] => Err (ValueError "max() arg is an empty sequence") | x :: r => Ok (foldl Z.max x r) end.
Definition list_min (l : list Z) : result Z :=
  match l with [] => Err (ValueError "min() arg is an empty sequence") | x :: r => Ok (foldl Z.min x r) end.

Definition sort_by_time (name : string) (records : list pydict) : result (list pydict) :=
  keyed ← mapM (λ r, t ← event_time r name; Ok (t, r)) records;
  Ok (py_sorted (λ a b, a.1 <=? b.1) keyed).*2.

(** [len({int(record["peer_slot"]) for record in releases})] *)
Definition peer_count (releases : list pydict) : result Z :=
  peers ← mapM (λ r, v ← dict_item "peer_slot" r; int_of v) releases;
  Ok (Z.of_nat (size (list_to_set peers : gset Z))).

Definition choose_window (records : list pydict) : result (Z * Z * string) :=
  let start_releases := keep start_release records in
  let completion_writes := keep completion_write records in
  if negb (zlen start_releases =? 0) && negb (zlen completion_writes =? 0) then
    releases_by_time ← sort_by_time "finished_unix_ns" start_releases;
    n ← peer_count releases_by_time;
    let initial_releases := take (Z.to_nat n) releases_by_time in
    starts ← times "finished_unix_ns" initial_releases;
    start ← list_max starts;
    finishes ← times "finished_unix_ns" completion_writes;
    finish ← list_max finishes;
    Ok (start, finish, "multi_rank_barriers")
  else
    let headers := keep header_write records in
    let payload_writes := keep payload_write records in
    _ ← raise_if ((zlen headers =? 0) || (zlen payload_writes =? 0))
          (ValueError "single-rank measurement lacks work-header or payload events");
    starts ← times "started_unix_ns" headers;
    start ← list_min starts;
    finishes ← times "finished_unix_ns" payload_writes;
    finish ← list_max finishes;
    Ok (start, finish, "single_rank_first_header_to_final_payload").

(** ** Coordinator time *)

(** The text [parse_rfc3339_timestamp] hands to [datetime.fromisoformat]. *)
Definition ljust (n : nat) (c : ascii) (s : string) : string :=
  s +:+ foldr String "" (replicate (n - str_length s) c).

Definition normalize_timestamp (value : string) : string :=
  let text := strip value in
  let z := endswith "Z" text in
  let normalized := if z then str_take (str_length text - 1) text else text in
  let timezone := if z then "+00:00" else "" in
  match partition_on "." normalized with
  | (seconds, Some fraction) => seconds +:+ "." +:+ ljust 6 "0" (str_take 6 fraction) +:+ timezone
  | (_, None) => normalized +:+ timezone
  end.

(** [dict(line.split("=", 1) for line in ... if "=" in line)] *)
Definition timing_values (text : string) : list (string * string) :=
  foldl (λ d line, match partition_on "=" line with (k, Some v) => dict_set k v d | (_, None) => d end)
    [] (splitlines text).

(** Microseconds between the two stamps, when the file has both. *)
Definition coordinator_microseconds (fromisoformat : string → result Z) (text : option string) : result (option Z) :=
  match text with
  | None => Ok None
  | Some text =>
      let values := timing_values text in
      match dict_get "start" values, dict_get "finish" values with
      | Some s, Some f =>
          start ← fromisoformat (normalize_timestamp s);
          finish ← fromisoformat (normalize_timestamp f);
          Ok (Some (finish - start))
      | _, _ => Ok None
      end
  end.

(** ** The report *)

Record report := Report {
  rp_boundary_rule : string;
  rp_start_ns : Z;
  rp_finish_ns : Z;
  rp_steady_ns : Z;
  rp_cross_sync_ns : Z;
  rp_cross_records : Z;
  rp_cross_bytes : Z;
  rp_coordinator_us : option Z;
  rp_all_events : Z;
}.

Definition is_cross_read (record : pydict) : bool :=
  truthy (get record "cross_node") && eq_str (get record "operation") "R".

(** The loop over the records: clipped intervals and the two counters. *)
Definition clip_record (start finish : Z) (acc : list interval * Z * Z) (record : pydict)
    : result (list interval * Z * Z) :=
  if negb (is_cross_read record) then Ok acc
  else
    record_start ← event_time record "started_unix_ns";
    record_finish ← event_time record "finished_unix_ns";
    let clipped_start := Z.max start record_start in
    let clipped_finish := Z.min finish record_finish in
    if clipped_finish <=? clipped_start then Ok acc
    else
      bytes ← get_int record "bytes" 0;
      let '(intervals, n, total) := acc in
      Ok (intervals ++ [(clipped_start, clipped_finish)], n + 1, total + bytes).

Definition summarize (records : list pydict) (coordinator : option Z) : result report :=
  window ← choose_window records;
  let '(start, finish, boundary_rule) := window in
  _ ← raise_if (finish <=? start) (ValueError "selected steady-state window is non-positive");
  acc ← fold_result (clip_record start finish) ([], 0, 0) records;
  let '(cross_intervals, cross_records, cross_bytes) := acc in
  Ok (Report boundary_rule start finish (finish - start) (union_duration cross_intervals)
        cross_records cross_bytes coordinator (zlen records)).

Definition main (json_loads : string → result pyval) (fromisoformat : string → result Z)
    (path log : string) (timing : option string) : result report :=
  records ← parse_records json_loads path log;
  r ← summarize records None;
  coordinator ← coordinator_microseconds fromisoformat timing;
  Ok (Report (rp_boundary_rule r) (rp_start_ns r) (rp_finish_ns r) (rp_steady_ns r) (rp_cross_sync_ns r)
        (rp_cross_records r) (rp_cross_bytes r) coordinator (rp_all_events r)).

(** ** Blocked time *)

(** Some cross-node read of the log is blocked at time [t]. *)
Definition blocked (records : list pydict) (t : Z) : Prop :=
  ∃ record s f, record ∈ records ∧ is_cross_read record = true ∧
    event_time record "started_unix_ns" = Ok s ∧ event_time record "finished_unix_ns" = Ok f ∧ s ≤ t < f.

Lemma clip_record_Ok start finish l n total record l' n' total' :
  clip_record start finish (l, n, total) record = Ok (l', n', total') →
  (∀ t, (∃ p, p ∈ l' ∧ p.1 ≤ t < p.2) ↔
        (∃ p, p ∈ l ∧ p.1 ≤ t < p.2) ∨ (start ≤ t < finish ∧ blocked [record] t)) ∧
  (∀ p, p ∈ l' → p ∈ l ∨ start ≤ p.1 ∧ p.2 ≤ finish) ∧ (zlen l = n → zlen l' = n').
Proof.
  unfold clip_record. destruct (is_cross_read record) eqn:Hc; cbn [negb].
  2:{ intros [= <- <- <-]. split; [|auto]. intros t. split; [auto|].
      intros [?|(_ & rec & s & f & ->%list_elem_of_singleton & ? & _)]; [done|congruence]. }
  intros H. result_inv. rename a into s, a0 into f.
  assert (Hb : ∀ t, blocked [record] t ↔ s ≤ t < f).
  { intros t. unfold blocked. split.
    - intros (rec & s' & f' & ->%list_elem_of_singleton & _ & Hs & Hf & Ht).
      rewrite Ha in Hs. rewrite Ha0 in Hf. injection Hs as <-. by injection Hf as <-.
    - intros Ht. exists record, s, f. split; [by apply list_elem_of_singleton|done]. }
  setoid_rewrite Hb. destruct (Z.leb_spec (Z.min finish f) (Z.max start s)).
  - injection H as <- <- <-. split; [|auto]. intros t. split; [auto|]. intros [?|?]; [done|lia].
  - result_inv. split; [|split].
    + intros t. setoid_rewrite elem_of_app. setoid_rewrite list_elem_of_singleton. split.
      * intros (p & [?| ->] & Ht); [left; eauto|right; simpl in Ht; lia].
      * intros [(p & ? & ?)|?]; [eauto|]. eexists. split; [by right|]. simpl. lia.
    + intros p [?| ->%list_elem_of_singleton]%elem_of_app; [auto|right; simpl; lia].
    + intros <-. by rewrite zlen_app.
Qed.

Lemma clip_fold start finish records l n total :
  fold_result (clip_record start finish) ([], 0, 0) records = Ok (l, n, total) →
  (∀ t, (∃ p, p ∈ l ∧ p.1 ≤ t < p.2) ↔ start ≤ t < finish ∧ blocked records t) ∧
  (∀ p, p ∈ l → start ≤ p.1 ∧ p.2 ≤ finish) ∧ zlen l = n.
Proof.
  intros H. apply (fold_result_inv (clip_record start finish) (λ pre acc,
    (∀ t, (∃ p, p ∈ acc.1.1 ∧ p.1 ≤ t < p.2) ↔ start ≤ t < finish ∧ blocked pre t) ∧
    (∀ p, p ∈ acc.1.1 → start ≤ p.1 ∧ p.2 ≤ finish) ∧ zlen acc.1.1 = acc.1.2) records ([], 0, 0) (l, n, total)); [| |done].
  - cbn. split; [|split; [set_solver|done]]. intros t. split; [set_solver|].
    intros (_ & r & _ & _ & Hr & _). set_solver.
  - intros pre record [[l0 n0] t0] [[l1 n1] t1] (IH & Hin & Hn) _ (H1 & H2 & H3)%clip_record_Ok. cbn in *.
    split; [|split].
    + intros t. rewrite H1, IH. unfold blocked. setoid_rewrite elem_of_app. split.
      * intros [(? & r & s & f & ? & ?)|(? & r & s & f & ? & ?)]; (split; [done|]); exists r, s, f; auto.
      * intros (? & r & s & f & [?|?] & ?); [left|right]; (split; [done|]); exists r, s, f; auto.
    + intros p [?|?]%H2; auto.
    + auto.
Qed.

(** ** Properties *)

(** C16: the reported synchronisation overhead is a time inside the window.  A report has a
    positive window; its cross-node time is exactly the number of nanoseconds of the window
    during which at least one cross-node read of the log was blocked, so the overhead is between
    0 and 100 per cent of the window; and when no such read is blocked in the window both the
    time and the event count are zero. *)
Theorem steady_report_exact records coordinator r :
  summarize records coordinator = Ok r →
  rp_steady_ns r = rp_finish_ns r - rp_start_ns r ∧ 0 < rp_steady_ns r ∧
  0 ≤ rp_cross_sync_ns r ≤ rp_steady_ns r ∧
  (∀ X : gset Z, (∀ t, t ∈ X ↔ rp_start_ns r ≤ t < rp_finish_ns r ∧ blocked records t) →
     rp_cross_sync_ns r = Z.of_nat (size X)) ∧
  ((∀ t, rp_start_ns r ≤ t < rp_finish_ns r → ¬ blocked records t) → rp_cross_sync_ns r = 0).
Proof.
  unfold summarize. intros H. result_inv. destruct a as [[start finish] rule]. result_inv.
  destruct a0 as [[l n] total]. result_inv. bool_facts.
  cbn [rp_steady_ns rp_finish_ns rp_start_ns rp_cross_sync_ns].
  apply clip_fold in Ha1 as (Hcover & Hwindow & _).
  rewrite union_duration_measure. split; [done|]. split; [lia|].
  split; [split; [apply measure_nonneg|apply measure_le_window; [lia|done]]|].
  assert (Hset : ∀ X : gset Z, (∀ t, t ∈ X ↔ start ≤ t < finish ∧ blocked records t) → measure l = Z.of_nat (size X)).
  { intros X HX. unfold measure. do 2 f_equal. apply set_eq. intros t. by rewrite elem_of_cover, Hcover, HX. }
  split; [exact Hset|]. intros Hnone. rewrite (Hset ∅); [done|]. intros t. split; [set_solver|].
  intros [Ht Hb]. by destruct (Hnone t Ht).
Qed.

Definition demo_event (op : string) (s p bytes started finished : Z) : pydict :=
  [("operation", PStr op); ("bytes", PInt bytes); ("source_slot", PInt s); ("peer_slot", PInt p);
   ("cross_node", PBool true); ("started_unix_ns", PInt started); ("finished_unix_ns", PInt finished)].

Lemma steady_report_exact_witness :
  ∃ r, summarize [demo_event "W" 0 1 4 1 10; demo_event "R" 1 0 64 5 14; demo_event "R" 0 1 64 12 18;
                  demo_event "W" 1 0 4 19 20] None = Ok r ∧
    rp_cross_sync_ns r = 8 ∧ 0 ≤ rp_cross_sync_ns r ≤ rp_steady_ns r.
Proof.
  destruct (summarize [demo_event "W" 0 1 4 1 10; demo_event "R" 1 0 64 5 14; demo_event "R" 0 1 64 12 18;
                  demo_event "W" 1 0 4 19 20] None) as [r|] eqn:E; [|vm_compute in E; done].
  pose proof (steady_report_exact _ _ _ E) as (_ & _ & H & _).
  exists r. split; [reflexivity|]. split; [|exact H]. vm_compute in E. injection E as <-. reflexivity.
Defined.
