(* ===== verification/Retry.v ===== *)
(** * Deadline-bounded retry loops

    The loops with which the worker, its supervisor and the process proxy wait for a peer: they
    try, and on failure try again until a monotonic clock has passed a deadline.  The clock and
    the attempts are functions of the iteration number; the loops take fuel, and the lemmas
    show how much is enough when every iteration lets the clock advance. *)

From S2P Require Import Prelude.

(** [while True: try ... break; except: if now() >= deadline: raise; sleep()] *)
Fixpoint retry_until {A} (attempt : nat → option A) (now : nat → Z) (deadline : Z) (e : exn)
    (fuel i : nat) : option (result A) :=
  match fuel with
  | O => None
  | S fuel =>
      match attempt i with
      | Some a => Some (Ok a)
      | None => if deadline <=? now i then Some (Err e) else retry_until attempt now deadline e fuel (S i)
      end
  end.

(** [while now() < deadline: try ... return; except: sleep()] followed by [raise] *)
Fixpoint retry_while {A} (attempt : nat → option A) (now : nat → Z) (deadline : Z) (e : exn)
    (fuel i : nat) : option (result A) :=
  match fuel with
  | O => None
  | S fuel =>
      if now i <? deadline then
        match attempt i with
        | Some a => Some (Ok a)
        | None => retry_while attempt now deadline e fuel (S i)
        end
      else Some (Err e)
  end.

(** Enough fuel for a loop that starts at time [start]. *)
Definition retry_fuel (start deadline : Z) : nat := S (S (Z.to_nat (deadline - start))).

Section retry.
Context {A : Type} (attempt : nat → option A) (now : nat → Z) (deadline : Z) (e : exn).

(** Every iteration takes at least one unit of time. *)
Definition advances : Prop := ∀ i, now i + 1 ≤ now (S i).

Context (Hadvances : advances).

(** [i] is the first successful attempt. *)
Definition first_success (from i : nat) (a : A) : Prop :=
  (from ≤ i)%nat ∧ attempt i = Some a ∧ ∀ j, (from ≤ j < i)%nat → attempt j = None.

Lemma first_success_step from i a : attempt from = None → first_success (S from) i a → first_success from i a.
Proof using Type.
  intros Hnone (Hle & Hi & Hj). split; [lia|]. split; [done|]. intros j Hrange.
  destruct (decide (j = from)) as [->|]; [done|]. apply Hj. lia.
Qed.

Lemma retry_until_total fuel i :
  (Z.to_nat (deadline - now i) < fuel)%nat →
  (∃ a j, retry_until attempt now deadline e fuel i = Some (Ok a) ∧ first_success i j a ∧
     (j = i ∨ now (pred j) < deadline)) ∨
  (∃ j, retry_until attempt now deadline e fuel i = Some (Err e) ∧ (i ≤ j)%nat ∧ deadline ≤ now j ∧
     ∀ k, (i ≤ k ≤ j)%nat → attempt k = None).
Proof using Hadvances.
  revert i. induction fuel as [|fuel IH]; intros i Hf; [lia|]. cbn [retry_until].
  destruct (attempt i) as [a|] eqn:Ea.
  { left. exists a, i. split; [done|]. split; [split; [lia|split; [done|lia]]|by left]. }
  destruct (Z.leb_spec deadline (now i)).
  { right. exists i. split; [done|]. split; [lia|]. split; [done|]. intros k Hk. by replace k with i by lia. }
  pose proof (Hadvances i) as Hadv. destruct (IH (S i)) as [(a & j & Hr & Hs & Hj)|(j & Hr & Hle & Hd & Hall)]; [lia| |].
  - left. exists a, j. split; [done|]. split; [by apply first_success_step|]. right. destruct Hj as [->|]; [done|done].
  - right. exists j. split; [done|]. split; [lia|]. split; [done|]. intros k Hk.
    destruct (decide (k = i)) as [->|]; [done|]. apply Hall. lia.
Qed.

Lemma retry_while_total fuel i :
  (Z.to_nat (deadline - now i) < fuel)%nat →
  (∃ a j, retry_while attempt now deadline e fuel i = Some (Ok a) ∧ first_success i j a ∧ now j < deadline) ∨
  (∃ j, retry_while attempt now deadline e fuel i = Some (Err e) ∧ (i ≤ j)%nat ∧ deadline ≤ now j ∧
     ∀ k, (i ≤ k < j)%nat → attempt k = None).
Proof using Hadvances.
  revert i. induction fuel as [|fuel IH]; intros i Hf; [lia|]. cbn [retry_while].
  destruct (Z.ltb_spec (now i) deadline).
  2:{ right. exists i. split; [done|]. split; [lia|]. split; [done|]. lia. }
  destruct (attempt i) as [a|] eqn:Ea.
  { left. exists a, i. split; [done|]. split; [split; [lia|split; [done|lia]]|done]. }
  pose proof (Hadvances i) as Hadv. destruct (IH (S i)) as [(a & j & Hr & Hs & Hj)|(j & Hr & Hle & Hd & Hall)]; [lia| |].
  - left. exists a, j. split; [done|]. split; [by apply first_success_step|done].
  - right. exists j. split; [done|]. split; [lia|]. split; [done|]. intros k Hk.
    destruct (decide (k = i)) as [->|]; [done|]. apply Hall. lia.
Qed.

End retry.
