(* ===== verification/Worker.v ===== *)
(** * The process worker

    Model of [src/real/worker.py]: one coordinator connection spawns one simulator process.  The
    file system is explicit state; name resolution, the clock, the shell, [ldd] and the child
    process are the [world] the worker runs in.  Frames are the JSON objects written to the
    connection. *)

From S2P Require Import Prelude PyValue Codec Retry.

(** ** Paths and files *)

(** [Path(text).name]: the last component that is neither empty nor a dot. *)
Definition path_name (text : string) : string :=
  default "" (last (filter (λ c, c ≠ "" ∧ c ≠ ".") (split_on "/" text))).

Record filesystem := Filesystem { fs_dirs : gset string; fs_files : gmap string string }.

Definition path_exists (fs : filesystem) (path : string) : bool :=
  bool_decide (path ∈ fs_dirs fs) || bool_decide (is_Some (fs_files fs !! path)).

(** [root / name] for a name without a slash. *)
Definition path_join (root name : string) : string :=
  if String.eqb name "" || String.eqb name "." then root else root +:+ "/" +:+ name.

(** State and exceptions: an exception keeps the files written before it. *)
Definition M (A : Type) : Type := filesystem → filesystem * result A.

#[export] Instance M_ret : MRet M := λ A a fs, (fs, Ok a).
#[export] Instance M_bind : MBind M := λ A B f m fs,
  match m fs with
  | (fs', Ok a) => f a fs'
  | (fs', Err e) => (fs', Err e)
  end.

Definition lift {A} (r : result A) : M A := λ fs, (fs, r).
Definition get_fs : M filesystem := λ fs, (fs, Ok fs).
Definition put_fs (fs : filesystem) : M unit := λ _, (fs, Ok ()).

Fixpoint for_each {A} (f : A → M unit) (l : list A) : M unit :=
  match l with [] => mret () | x :: r => f x ≫= λ _, for_each f r end.

Definition mkdir (path : string) : M unit := λ fs,
  (Filesystem ({[path]} ∪ fs_dirs fs) (fs_files fs), Ok ()).

Definition write_bytes (path data : string) : M unit := λ fs,
  if bool_decide (path ∈ fs_dirs fs) || String.eqb (after_last "/" path) ".."
  then (fs, Err (OSError ("[Errno 21] Is a directory: " +:+ repr_str path)))
  else (Filesystem (fs_dirs fs) (<[path := data]> (fs_files fs)), Ok ()).

(** ** set_gpgpu_test_limits *)

Fixpoint skip_char (c : ascii) (s : string) : string * string :=
  match s with
  | String a r => if Ascii.eqb a c then let '(x, y) := skip_char c r in (String a x, y) else ("", s)
  | EmptyString => ("", "")
  end.

Definition BSLASH : string := String "092"%char "".

(** The pattern as the raw f-string spells it: every doubled backslash stands for one literal
    backslash, and the [s] and [d] after it are letters.  The two groups of a matching line. *)
Definition match_limit_line (option_ line : string) : option (string * string) :=
  r1 ← strip_prefix BSLASH line;
  let '(s1, r2) := skip_char "s" r1 in
  r3 ← strip_prefix option_ r2;
  r4 ← strip_prefix BSLASH r3;
  let '(s2, r5) := skip_char "s" r4 in
  r6 ← strip_prefix BSLASH r5;
  let '(d, r7) := skip_char "d" r6 in
  r8 ← strip_prefix BSLASH r7;
  let '(s3, tail) := skip_char "s" r8 in
  if String.eqb s2 "" || String.eqb d "" then None
  else if String.eqb tail "" || startswith "#" tail
  then Some (BSLASH +:+ s1 +:+ option_ +:+ BSLASH +:+ s2, BSLASH +:+ s3 +:+ tail)
  else None.

(** [re.subn]: the new text and the number of replacements. *)
Definition subn_limit (option_ maximum content : string) : string * Z :=
  let lines := split_on NL content in
  (join nl ((λ line, match match_limit_line option_ line with
                     | Some (g1, g2) => g1 +:+ maximum +:+ g2
                     | None => line
                     end) <$> lines),
   count (λ line, bool_decide (is_Some (match_limit_line option_ line))) lines).

Definition set_limit (updated : string) (limit : string * option pyval) : result string :=
  match limit.2 with
  | None => Ok updated
  | Some v =>
      let maximum := py_str v in
      let '(text, replacements) := subn_limit limit.1 maximum updated in
      if replacements =? 0 then Ok (rstrip text +:+ nl +:+ limit.1 +:+ " " +:+ maximum +:+ nl)
      else _ ← raise_if (negb (replacements =? 1))
                 (RuntimeError ("GPGPU-Sim option " +:+ limit.1 +:+ " was found more than once"));
           Ok text
  end.

Definition set_limits (content : string) (maximum_completed_cta maximum_instructions : option pyval) : result string :=
  fold_result set_limit content
    [("-gpgpu_max_completed_cta", maximum_completed_cta); ("-gpgpu_max_insn", maximum_instructions)].

Definition set_gpgpu_test_limits (workdir : string) (maximum_completed_cta maximum_instructions : option pyval) : M unit :=
  let configuration := path_join workdir "gpgpusim.config" in
  fs ← get_fs;
  content ← lift (fs_files fs !! configuration
                  ?! RuntimeError "GPGPU-Sim CTA limit requested but gpgpusim.config is missing");
  updated ← lift (set_limits content maximum_completed_cta maximum_instructions);
  write_bytes configuration updated.

(** ** The world *)

Abbreviation environment := (list (string * string)).

Record child := Child {
  ch_pid : Z;
  ch_output : list (string * string);     (** stream name and chunk, in the order forwarded *)
  ch_files : filesystem → filesystem;     (** the files the child leaves behind *)
  ch_returncode : Z;
  ch_forwarded : nat;                     (** chunks forwarded before a failing message *)
}.

Record world := World {
  w_environ : environment;
  w_json_loads : string → result pyval;
  w_lookup : string → nat → option string;       (** [gethostbyname], by attempt *)
  w_clock : nat → Z;                             (** seconds, by attempt *)
  w_shell : string → string → environment → filesystem → filesystem * Z;  (** command, directory *)
  w_ldd : string → environment → Z * string;
  w_launch : filesystem → environment → string → string → list string → result child;
}.

(** ** The spawn request *)

Record spawn := Spawn {
  sp_process_id : string;
  sp_command : string;
  sp_arguments : list string;
  sp_environment : environment;
}.

(** [for value in v] *)
Definition iterate (v : pyval) : result (list pyval) :=
  match v with
  | PList l => Ok l
  | PStr s => Ok ((λ c, PStr (String c "")) <$> String.list_ascii_of_string s)
  | PDict d => Ok ((λ kv, PStr kv.1) <$> d)
  | _ => Err TypeError
  end.

(** The fields read first, and the merged environment with the worker's own gateway. *)
Definition read_spawn (environ : environment) (request : pydict) : result spawn :=
  _ ← raise_if (negb (eq_str (dict_get_default "op" PNone request) "spawn")) (ValueError "first message must be spawn");
  process_id ← dict_item "process_id" request;
  command ← dict_item "command" request;
  args ← iterate (dict_get_default "args" (PList []) request);
  env ← is_dict (dict_get_default "env" (PDict []) request) ?! AttributeError;
  let environment := dict_update environ (prod_map id py_str <$> env) in
  let local_gateway := dict_get_default "LEGOSIM_PIPE_GATEWAY" "" environ in
  let environment :=
    if String.eqb local_gateway "" then environment
    else dict_set "LEGOSIM_FIFO_BROKER" local_gateway (dict_set "LEGOSIM_PIPE_GATEWAY" local_gateway environment) in
  Ok (Spawn (py_str process_id) (py_str command) (py_str <$> args) environment).

(** Resolving the host of one endpoint variable: retried until 60 seconds have passed. *)
Definition resolve_host (w : world) (host : string) : option (result string) :=
  retry_until (w_lookup w host) (w_clock w) (w_clock w 0 + 60)
    (RuntimeError ("broker " +:+ host +:+ " did not resolve within 60 seconds"))
    (retry_fuel (w_clock w 0) (w_clock w 0 + 60)) 0.

(** Without an answer within its fuel the loop would not return; the lemma [resolve_host_total]
    excludes that for a clock that advances. *)
Definition resolve_endpoint (w : world) (environment_ : environment) (variable : string) : result environment :=
  let endpoint := dict_get_default variable "" environment_ in
  if String.eqb endpoint "" then Ok environment_
  else
    host_port ← rpartition_on ":" endpoint ?! ValueError "not enough values to unpack (expected 2, got 1)";
    ip ← default (Err (TimeoutError "")) (resolve_host w host_port.1);
    Ok (dict_set variable (ip +:+ ":" +:+ host_port.2) environment_).

Definition resolve_endpoints (w : world) (environment_ : environment) : result environment :=
  fold_result (resolve_endpoint w) environment_ ["LEGOSIM_FIFO_BROKER"; "LEGOSIM_PIPE_GATEWAY"].

(** [request.get(name)], with [None] for a null value. *)
Definition optional (request : pydict) (name : string) : option pyval :=
  match dict_get_default name PNone request with PNone => None | v => Some v end.

Definition check_limit (request : pydict) (name : string) : result (option pyval) :=
  match optional request name with
  | None => Ok None
  | Some v =>
      _ ← raise_if (match is_int v with Some n => n <? 1 | None => true end)
            (ValueError (name +:+ " must be a positive integer"));
      Ok (Some v)
  end.

Record staging := Staging {
  sg_pre_copy : string;
  sg_max_cta : option pyval;
  sg_max_instructions : option pyval;
  sg_shared_assets : list string;
  sg_staged_files : list pyval;
}.

Definition unsafe_process_id (process_id : string) : bool :=
  contains "/" process_id || existsb (String.eqb process_id) [""; "."; ".."].

Definition read_staging (request : pydict) (process_id : string) : result staging :=
  let pre_copy := py_str (dict_get_default "pre_copy" (PStr "") request) in
  cta ← check_limit request "gpgpu_max_completed_cta";
  instructions ← check_limit request "gpgpu_max_instructions";
  let assets_error := ValueError "shared_assets must be a list of shell path strings" in
  assets ← is_list (dict_get_default "shared_assets" (PList []) request) ?! assets_error;
  assets ← mapM (λ v, is_str v ?! assets_error) assets;
  staged ← is_list (dict_get_default "staged_files" (PList []) request) ?! ValueError "staged_files must be a list";
  _ ← raise_if (unsafe_process_id process_id) (ValueError "process_id must be a single safe path component");
  Ok (Staging pre_copy cta instructions assets staged).

(** ** The work directory *)

Definition candidate (root process_id : string) (suffix : nat) : string :=
  match suffix with
  | O => path_join root process_id
  | S _ => path_join root (process_id +:+ "-" +:+ str_of_Z (Z.of_nat suffix))
  end.

Fixpoint first_free (fs : filesystem) (root process_id : string) (fuel suffix : nat) : option string :=
  match fuel with
  | O => None
  | S fuel =>
      if path_exists fs (candidate root process_id suffix) then first_free fs root process_id fuel (S suffix)
      else Some (candidate root process_id suffix)
  end.

(** One more attempt than there are paths. *)
Definition workdir_fuel (fs : filesystem) : nat := S (size (fs_dirs fs) + size (dom (fs_files fs) : gset string)).

Definition make_workdir (root process_id : string) : M string :=
  fs ← get_fs;
  match first_free fs root process_id (workdir_fuel fs) 0 with
  | Some workdir => _ ← mkdir workdir; mret workdir
  | None => lift (Err (TimeoutError ""))
  end.

(** ** Staging *)

Definition MAX_STAGED : Z := 64 * 1024 * 1024.

Definition stage_file (workdir : string) (staged_file : pyval) : M unit :=
  d ← lift (is_dict staged_file ?! ValueError "each staged file must be an object");
  let name_error := ValueError "staged file destination must be a plain filename" in
  destination ← lift (is_str (dict_get_default "destination" PNone d) ?! name_error);
  _ ← lift (raise_if (negb (String.eqb (path_name destination) destination)) name_error);
  encoded ← lift (is_str (dict_get_default "data" PNone d) ?! ValueError "staged file data must be base64 text");
  _ ← lift (raise_if (negb (str_forallb (λ c, (ord c <=? 127)%nat) encoded))
        (ValueError "string argument should contain only ASCII characters"));
  data ← lift (b64decode true encoded);
  _ ← lift (raise_if (MAX_STAGED <? Z.of_nat (str_length data)) (ValueError "staged file exceeds the 64 MiB transfer limit"));
  write_bytes (path_join workdir destination) data.

(** [shlex.quote] *)
Definition shell_safe (c : ascii) : bool :=
  is_digit c || ((65 <=? ord c)%nat && (ord c <=? 90)%nat) || ((97 <=? ord c)%nat && (ord c <=? 122)%nat)
  || contains (String c "") "_@%+=:,./-".
Definition quote (s : string) : string :=
  if String.eqb s "" then "''"
  else if str_forallb shell_safe s then s
  else "'" +:+ replace_all "'" ("'" +:+ String DQUOTE "'" +:+ String DQUOTE "'") s +:+ "'".

Definition run_shell (w : world) (command directory : string) (env : environment) : M Z := λ fs,
  let '(fs', status) := w_shell w command directory env fs in (fs', Ok status).

Definition copy_asset (w : world) (root : string) (env : environment) (asset : string) : M unit :=
  fs ← get_fs;
  if path_exists fs (path_join root (path_name asset)) then mret ()
  else
    status ← run_shell w ("cp -- " +:+ quote asset +:+ " " +:+ quote root +:+ "/") root env;
    lift (raise_if (negb (status =? 0)) (RuntimeError ("shared worker asset copy failed: " +:+ asset))).

Definition run_pre_copy (w : world) (pre_copy workdir : string) (env : environment) : M unit :=
  if String.eqb pre_copy "" then mret ()
  else
    status ← run_shell w ("cp " +:+ pre_copy +:+ " .") workdir env;
    lift (raise_if (negb (status =? 0)) (RuntimeError "upstream pre_copy command failed")).

Definition apply_limits (workdir : string) (s : staging) : M unit :=
  match sg_max_cta s, sg_max_instructions s with
  | None, None => mret ()
  | cta, instructions => set_gpgpu_test_limits workdir cta instructions
  end.

(** Everything between the checks and the launch. *)
Definition prepare_workdir (w : world) (root : string) (sp : spawn) (s : staging) : M string :=
  workdir ← make_workdir root (sp_process_id sp);
  _ ← for_each (stage_file workdir) (sg_staged_files s);
  _ ← for_each (copy_asset w root (sp_environment sp)) (sg_shared_assets s);
  _ ← run_pre_copy w (sg_pre_copy s) workdir (sp_environment sp);
  _ ← apply_limits workdir s;
  mret workdir.

(** ** Frames *)

Definition optional_value (o : option pyval) : pyval := default PNone o.

Definition diagnostic_names : list string :=
  ["LD_LIBRARY_PATH"; "CUDA_INSTALL_PATH"; "LEGOSIM_PIPE_GATEWAY"; "LEGOSIM_FIFO_BROKER"].

(** The JSON text of the launch diagnostic. *)
Definition diagnostic_text (w : world) (sp : spawn) (s : staging) : string :=
  let '(status, output) := w_ldd w (sp_command sp) (sp_environment sp) in
  json_dumps (PDict
    [("command", PStr (sp_command sp));
     ("gpgpu_max_completed_cta", optional_value (sg_max_cta s));
     ("gpgpu_max_instructions", optional_value (sg_max_instructions s));
     ("environment", PDict ((λ n, (n, PStr (dict_get_default n "" (sp_environment sp)))) <$> diagnostic_names));
     ("ldd_exit", PInt status);
     ("ldd", PStr output)]).

Definition diagnostic_frame (text : string) : pydict := [("op", PStr "diagnostic"); ("text", PStr text)].
Definition started_frame (pid : Z) : pydict := [("op", PStr "started"); ("pid", PInt pid)].
Definition output_frame (stream chunk : string) : pydict :=
  [("op", PStr "output"); ("stream", PStr stream); ("data", PStr (b64encode chunk))].
Definition exit_frame (returncode : Z) : pydict := [("op", PStr "exit"); ("returncode", PInt returncode)].
Definition error_frame (e : exn) : pydict := [("op", PStr "error"); ("error", PStr (exn_str e))].

(** ** Messages while the child runs *)

Inductive action := ToStdin (data : string) | Terminate.

(** One line from the coordinator; the second component says whether the loop goes on. *)
Definition serve_line (w : world) (raw : string) : result (list action * bool) :=
  if String.eqb raw "" then Ok ([Terminate], false)
  else
    text ← decode_utf8 raw;
    value ← w_json_loads w text;
    message ← is_dict value ?! AttributeError;
    let op := dict_get_default "op" PNone message in
    if eq_str op "stdin" then
      encoded ← dict_item "data" message;
      encoded ← is_str encoded ?! TypeError;
      data ← b64decode true encoded;
      Ok ([ToStdin data], true)
    else if eq_str op "terminate" then Ok ([Terminate], true)
    else Err (ValueError ("unsupported worker operation: " +:+ py_str op)).

(** The lines that arrive before the child exits. *)
Fixpoint serve (w : world) (inbox : list string) : list action * result unit :=
  match inbox with
  | [] => ([], Ok ())
  | raw :: rest =>
      match serve_line w raw with
      | Err e => ([], Err e)
      | Ok (actions, false) => (actions, Ok ())
      | Ok (actions, true) => let '(more, r) := serve w rest in (actions ++ more, r)
      end
  end.

(** ** handle *)

Record session := Session {
  ss_frames : list pydict;      (** what the coordinator receives *)
  ss_actions : list action;     (** what the child receives *)
  ss_fs : filesystem;
}.

(** The marker file's text as one more output frame. *)
Definition marker_frames (workdir : string) (fs : filesystem) : list pydict :=
  match fs_files fs !! path_join workdir "mlp_dp_result.txt" with
  | Some text => [output_frame "stdout" text]
  | None => []
  end.

Definition outputs (c : child) : list pydict := (λ o, output_frame o.1 o.2) <$> ch_output c.

Definition launch (w : world) (sp : spawn) (workdir : string) (fs : filesystem) : result child :=
  w_launch w fs (sp_environment sp) workdir (sp_command sp) (sp_arguments sp).

(** From the launch diagnostic on. *)
Definition run_child (w : world) (sp : spawn) (s : staging) (workdir : string) (inbox : list string)
    (fs : filesystem) : session :=
  let text := diagnostic_text w sp s in
  let diagnostic := diagnostic_frame text in
  match write_bytes (path_join workdir "launch-diagnostic.json") (text +:+ nl) fs with
  | (fs, Err e) => Session [diagnostic; error_frame e] [] fs
  | (fs, Ok _) =>
      match launch w sp workdir fs with
      | Err e => Session [diagnostic; error_frame e] [] fs
      | Ok c =>
          let greeting := [diagnostic; started_frame (ch_pid c)] in
          let '(actions, served) := serve w inbox in
          let fs := ch_files c fs in
          match served with
          | Err e => Session (greeting ++ take (ch_forwarded c) (outputs c) ++ [error_frame e]) actions fs
          | Ok _ => Session (greeting ++ outputs c ++ marker_frames workdir fs ++ [exit_frame (ch_returncode c)]) actions fs
          end
      end
  end.

(** The first frame up to the checks: the spawn, its resolved environment and its staging. *)
Definition read_request (w : world) (raw_request : string) : result (spawn * staging) :=
  text ← decode_utf8 raw_request;
  value ← w_json_loads w text;
  request ← is_dict value ?! AttributeError;
  sp ← read_spawn (w_environ w) request;
  env ← resolve_endpoints w (sp_environment sp);
  s ← read_staging request (sp_process_id sp);
  Ok (Spawn (sp_process_id sp) (sp_command sp) (sp_arguments sp) env, s).

Definition handle (w : world) (root raw_request : string) (inbox : list string) (fs : filesystem) : session :=
  match read_request w raw_request with
  | Err e => Session [error_frame e] [] fs
  | Ok (sp, s) =>
      match prepare_workdir w root sp s fs with
      | (fs, Err e) => Session [error_frame e] [] fs
      | (fs, Ok workdir) => run_child w sp s workdir inbox fs
      end
  end.

(** ** Name resolution *)

Lemma resolve_host_total w host :
  (∀ i, w_clock w i + 1 ≤ w_clock w (S i)) →
  (∃ ip i, resolve_host w host = Some (Ok ip) ∧ first_success (w_lookup w host) 0 i ip) ∨
  (∃ j, resolve_host w host = Some (Err (RuntimeError ("broker " +:+ host +:+ " did not resolve within 60 seconds"))) ∧
     w_clock w 0 + 60 ≤ w_clock w j ∧ ∀ k, (k ≤ j)%nat → w_lookup w host k = None).
Proof.
  intros Hadv. unfold resolve_host.
  set (e := RuntimeError _).
  destruct (retry_until_total (w_lookup w host) (w_clock w) (w_clock w 0 + 60) e Hadv
    (retry_fuel (w_clock w 0) (w_clock w 0 + 60)) 0) as [(ip & i & Hr & Hs & _)|(j & Hr & _ & Hd & Hall)].
  - unfold retry_fuel. lia.
  - left. exists ip, i. done.
  - right. exists j. split; [done|]. split; [done|]. intros k Hk. apply Hall. lia.
Qed.

(** ** The work directory is fresh *)

Lemma str_app_inj_l s1 s2 s3 : s1 +:+ s2 = s1 +:+ s3 → s2 = s3.
Proof. induction s1; simpl; [done|]. intros [= ?]. auto. Qed.

Lemma path_join_inj root a b :
  a ≠ "" → a ≠ "." → b ≠ "" → b ≠ "." → path_join root a = path_join root b → a = b.
Proof.
  intros Ha Ha' Hb Hb' H. unfold path_join in H.
  apply String.eqb_neq in Ha, Ha', Hb, Hb'. rewrite Ha, Ha', Hb, Hb' in H. cbn [orb] in H.
  by apply str_app_inj_l, (str_app_inj_l "/") in H.
Qed.

(** Names with different suffixes are different. *)
Lemma candidate_name_neq id n : id ≠ "" → id ≠ "." → id +:+ "-" +:+ str_of_Z n ≠ "" ∧ id +:+ "-" +:+ str_of_Z n ≠ ".".
Proof.
  intros He Hd. destruct id as [|c id]; [done|]. split; [done|]. simpl. intros [= -> H]. by destruct id.
Qed.

Lemma candidate_inj root id i j : id ≠ "" → id ≠ "." → candidate root id i = candidate root id j → i = j.
Proof.
  intros He Hd. pose proof (λ n, candidate_name_neq id n He Hd) as Hn.
  assert (Hneq : ∀ n, id ≠ id +:+ "-" +:+ str_of_Z n).
  { intros n H. rewrite <- (str_app_nil_r id) in H at 1. apply str_app_inj_l in H. done. }
  destruct i as [|i], j as [|j]; unfold candidate; intros H; try done.
  - apply path_join_inj in H; [|first [done | apply Hn]..]. by apply Hneq in H.
  - apply path_join_inj in H; [|first [done | apply Hn]..]. symmetry in H. by apply Hneq in H.
  - apply path_join_inj in H; [|first [done | apply Hn]..]. apply str_app_inj_l, (str_app_inj_l "-"), str_of_Z_inj in H. lia.
Qed.

Lemma first_free_Some fs root id fuel suffix p :
  first_free fs root id fuel suffix = Some p →
  path_exists fs p = false ∧ ∃ i, (suffix ≤ i)%nat ∧ p = candidate root id i ∧
    ∀ j, (suffix ≤ j < i)%nat → path_exists fs (candidate root id j) = true.
Proof.
  revert suffix. induction fuel as [|fuel IH]; intros suffix; [done|]. cbn [first_free].
  destruct (path_exists fs (candidate root id suffix)) eqn:E.
  - intros (Hfree & i & Hle & Hp & Hall)%IH. split; [done|]. exists i. split; [lia|]. split; [done|].
    intros j Hj. destruct (decide (j = suffix)) as [->|]; [done|]. apply Hall. lia.
  - intros [= <-]. split; [done|]. exists suffix. split; [lia|]. split; [done|]. lia.
Qed.

Lemma first_free_None fs root id fuel suffix :
  first_free fs root id fuel suffix = None →
  ∀ j, (suffix ≤ j < suffix + fuel)%nat → path_exists fs (candidate root id j) = true.
Proof.
  revert suffix. induction fuel as [|fuel IH]; intros suffix; [lia|]. cbn [first_free].
  destruct (path_exists fs (candidate root id suffix)) eqn:E; [|done]. intros H j Hj.
  destruct (decide (j = suffix)) as [->|]; [done|]. apply (IH _ H). lia.
Qed.

Lemma first_free_total fs root id :
  id ≠ "" → id ≠ "." → is_Some (first_free fs root id (workdir_fuel fs) 0).
Proof.
  intros He Hd. destruct (first_free _ _ _ _ _) eqn:E; [by eexists|exfalso].
  pose proof (first_free_None _ _ _ _ _ E) as Hall. unfold workdir_fuel in Hall.
  set (paths := fs_dirs fs ∪ (dom (fs_files fs) : gset string)).
  set (names := candidate root id <$> seq 0 (S (size (fs_dirs fs) + size (dom (fs_files fs) : gset string)))).
  assert (Hnd : NoDup names).
  { apply NoDup_fmap_2_strong; [|apply NoDup_seq]. intros x y _ _. by apply candidate_inj. }
  assert (Hsub : (list_to_set names : gset string) ⊆ paths).
  { intros p Hp. apply elem_of_list_to_set, list_elem_of_fmap in Hp as (i & -> & Hi%elem_of_seq).
    specialize (Hall i). unfold path_exists in Hall. rewrite orb_true_iff in Hall.
    destruct Hall as [H|H]; [lia|apply bool_decide_eq_true in H; set_solver|].
    apply bool_decide_eq_true, elem_of_dom in H. set_solver. }
  apply subseteq_size in Hsub. rewrite size_list_to_set in Hsub by done.
  unfold names in Hsub. rewrite length_fmap, length_seq in Hsub.
  pose proof (size_union_alt (fs_dirs fs) (dom (fs_files fs) : gset string)) as Hu.
  assert (size (dom (fs_files fs) ∖ fs_dirs fs : gset string) ≤ size (dom (fs_files fs) : gset string))%nat
    by (apply subseteq_size; set_solver). unfold paths in Hsub. lia.
Qed.

(** ** Plain file names *)

Lemma path_name_plain d : path_name d = d → d = "" ∨ (lacks "/" d = true ∧ d ≠ ".").
Proof.
  unfold path_name. intros H.
  destruct (last (filter (λ c, c ≠ "" ∧ c ≠ ".") (split_on "/" d))) as [c|] eqn:E; cbn [default] in H; [|by left].
  assert (Hc : c ∈ filter (λ c, c ≠ "" ∧ c ≠ ".") (split_on "/" d)).
  { rewrite last_lookup in E. by apply list_elem_of_lookup_2 in E. }
  apply list_elem_of_filter in Hc as [[_ Hdot] Hin]. cbn [id] in H. subst c. right. split; [|done].
  by apply split_on_lacks_elem in Hin.
Qed.

(** A single component is its own name. *)
Lemma path_name_single d : lacks "/" d = true → d ≠ "" → d ≠ "." → path_name d = d.
Proof. intros Hl He Hd. unfold path_name. rewrite split_on_lacks by done. by rewrite filter_cons_True. Qed.

Lemma M_bind_Ok {A B} (m : M A) (f : A → M B) fs fs' b :
  (m ≫= f) fs = (fs', Ok b) ↔ ∃ fs1 a, m fs = (fs1, Ok a) ∧ f a fs1 = (fs', Ok b).
Proof. unfold mbind, M_bind. destruct (m fs) as [fs1 [a|e]]; naive_solver. Qed.

Lemma lift_Ok {A} (r : result A) fs fs' a : lift r fs = (fs', Ok a) ↔ fs' = fs ∧ r = Ok a.
Proof. unfold lift. naive_solver. Qed.

Lemma write_bytes_Ok path data fs fs' u :
  write_bytes path data fs = (fs', Ok u) ↔
  (path ∉ fs_dirs fs) ∧ (after_last "/" path ≠ "..") ∧
  fs' = Filesystem (fs_dirs fs) (<[path := data]> (fs_files fs)).
Proof.
  unfold write_bytes. destruct u. case_bool_decide; cbn [orb]; [naive_solver|].
  destruct (String.eqb_spec (after_last "/" path) ".."); naive_solver.
Qed.

(** Taking a monadic computation apart. *)
Ltac m_inv :=
  repeat match goal with
  | H : (_ ≫= _) _ = (_, Ok _) |- _ =>
      let fs := fresh "fs" in let a := fresh "a" in let Hm := fresh "Hm" in
      apply M_bind_Ok in H; destruct H as (fs & a & Hm & H)
  | H : lift _ _ = (_, Ok _) |- _ =>
      let Hr := fresh "Hr" in apply lift_Ok in H; destruct H as [? Hr]; subst
  | H : of_option _ _ = Ok _ |- _ => apply of_option_Ok in H
  | H : raise_if _ _ = Ok ?u |- _ => apply raise_if_Ok in H; try destruct u
  end.

(** ** Properties *)

(** C17: a spawn always gets a fresh work directory.  For every process id the worker accepts, the
    search for a directory ends, whatever is already in the file system: it yields the first of
    [id], [id-1], [id-2], ... that does not exist yet, creates it, and changes nothing else. *)
Theorem workdir_fresh root process_id fs :
  unsafe_process_id process_id = false →
  ∃ i, make_workdir root process_id fs =
      (Filesystem ({[candidate root process_id i]} ∪ fs_dirs fs) (fs_files fs), Ok (candidate root process_id i)) ∧
    path_exists fs (candidate root process_id i) = false ∧
    ∀ j, (j < i)%nat → path_exists fs (candidate root process_id j) = true.
Proof.
  unfold unsafe_process_id. intros H. bool_facts. cbn [existsb] in H0. bool_facts.
  destruct (first_free_total fs root process_id) as [p Hp]; [done..|].
  destruct (first_free_Some _ _ _ _ _ _ Hp) as (Hfree & i & _ & -> & Hall). exists i.
  split; [|split; [done|intros j Hj; apply Hall; lia]].
  unfold make_workdir, mbind, M_bind, get_fs. by rewrite Hp.
Qed.

Lemma workdir_fresh_witness :
  ∃ i, make_workdir "/run" "p0" (Filesystem {["/run/p0"]} ∅) =
      (Filesystem ({[candidate "/run" "p0" i]} ∪ {["/run/p0"]}) ∅, Ok (candidate "/run" "p0" i)).
Proof.
  destruct (workdir_fresh "/run" "p0" (Filesystem {["/run/p0"]} ∅)) as (i & H & _); [reflexivity|].
  exists i. exact H.
Defined.

(** C18: staging stays inside the work directory.  A staged file that is accepted is written to
    one path, a plain name directly below the process's own work directory, never to the
    directory itself, its parent or another component; its bytes are the decoded data, at most
    64 MiB of them; no directory is created. *)
Theorem staging_confined workdir staged fs fs' u :
  workdir ∈ fs_dirs fs →
  stage_file workdir staged fs = (fs', Ok u) →
  ∃ d name encoded data,
    staged = PDict d ∧ dict_get "destination" d = Some (PStr name) ∧ dict_get "data" d = Some (PStr encoded) ∧
    lacks "/" name = true ∧ (name ∉ [""; "."; ".."]) ∧ b64decode true encoded = Ok data ∧
    Z.of_nat (str_length data) ≤ MAX_STAGED ∧
    fs' = Filesystem (fs_dirs fs) (<[workdir +:+ "/" +:+ name := data]> (fs_files fs)).
Proof.
  intros Hdir. unfold stage_file. intros H. m_inv.
  apply is_dict_Some in Hr5 as ->. rename a into d, a0 into name, a2 into encoded, a4 into data.
  apply is_str_Some in Hr4, Hr2. apply dict_get_default_ne in Hr4, Hr2; [|done..].
  bool_facts. apply path_name_plain in Hr3. apply write_bytes_Ok in H as (Hnd & Hup & ->).
  assert (Hname : name ≠ "").
  { intros ->. unfold path_join in Hnd. by simpl in Hnd. }
  destruct Hr3 as [?|[Hl Hdot]]; [done|].
  assert (Hj : path_join workdir name = workdir +:+ "/" +:+ name).
  { unfold path_join. apply String.eqb_neq in Hname, Hdot. by rewrite Hname, Hdot. }
  rewrite Hj in *. exists d, name, encoded, data. do 4 (split; [done|]).
  split; [|split; [done|split; [lia|done]]].
  rewrite !not_elem_of_cons. split; [done|]. split; [done|]. split; [|apply not_elem_of_nil].
  intros ->. apply Hup. by apply (after_last_app "/" workdir "..").
Qed.

Lemma staging_confined_witness :
  ∃ fs', stage_file "/run/p0" (PDict [("destination", PStr "bench.txt"); ("data", PStr "cGluZw==")])
      (Filesystem {["/run/p0"]} ∅) = (fs', Ok ()) ∧
    ∃ name, lacks "/" name = true ∧ fs_files fs' = <["/run/p0/" +:+ name := "ping"]> ∅.
Proof.
  destruct (stage_file "/run/p0" (PDict [("destination", PStr "bench.txt"); ("data", PStr "cGluZw==")])
    (Filesystem {["/run/p0"]} ∅)) as [fs' [u|e]] eqn:E; [|vm_compute in E; done].
  destruct (staging_confined "/run/p0" _ _ _ _ (proj2 (elem_of_singleton "/run/p0" "/run/p0") eq_refl : "/run/p0" ∈ fs_dirs (Filesystem {["/run/p0"]} ∅)) E)
    as (d & name & encoded & data & Hd & _ & He & Hl & _ & Hdata & _ & ->).
  injection Hd as <-. injection He as <-. vm_compute in Hdata. injection Hdata as <-.
  exists (Filesystem {["/run/p0"]} (<["/run/p0" +:+ "/" +:+ name := "ping"]> ∅)). destruct u. split; [reflexivity|]. exists name. done.
Defined.

(** Limits are appended, never replaced.  On any configuration text without a backslash (a
    GPGPU-Sim configuration has none), a requested limit does not match an existing line of the
    option, even one spelt exactly like it: the old setting stays and a second line is appended
    at the end. *)
Theorem limits_appended content option_ v :
  lacks "092"%char content = true →
  set_limit content (option_, Some v) = Ok (rstrip content +:+ nl +:+ option_ +:+ " " +:+ py_str v +:+ nl).
Proof.
  intros Hl. unfold set_limit, subn_limit. cbn [fst snd].
  assert (Hnone : ∀ line, line ∈ split_on NL content → match_limit_line option_ line = None).
  { intros line Hin. apply (lacks_contained _ _ _ Hl) in Hin. unfold match_limit_line.
    destruct line as [|c line]; [done|]. unfold lacks in Hin. cbn [str_forallb] in Hin.
    apply andb_true_iff in Hin as [Hc _]. unfold BSLASH. cbn [strip_prefix].
    rewrite Ascii.eqb_sym. by destruct (Ascii.eqb c "092"). }
  assert (Hmap : ((λ line, match match_limit_line option_ line with
                           | Some (g1, g2) => g1 +:+ py_str v +:+ g2
                           | None => line end) <$> split_on NL content) = split_on NL content).
  { transitivity (id <$> split_on NL content); [|by rewrite list_fmap_id]. apply list_fmap_ext.
    intros i line Hi%list_elem_of_lookup_2. by rewrite Hnone. }
  rewrite Hmap, count_none.
  - change nl with (String NL "") at 1. rewrite join_split_on. done.
  - intros line Hin. by rewrite Hnone.
Qed.

Lemma limits_appended_witness :
  set_limit ("-gpgpu_max_insn 0" +:+ nl) ("-gpgpu_max_insn", Some (PInt 500))
  = Ok ("-gpgpu_max_insn 0" +:+ nl +:+ "-gpgpu_max_insn 500" +:+ nl).
Proof.
  rewrite (limits_appended ("-gpgpu_max_insn 0" +:+ nl) "-gpgpu_max_insn" (PInt 500)); [|reflexivity].
  vm_compute. reflexivity.
Defined.
