(* ===== verification/Proxy.v ===== *)
(** * The process proxy

    Model of [src/real/process_proxy.py], the child InterChiplet starts in place of a simulator:
    it stages files, waits for the worker, sends one spawn frame and relays the worker's frames.
    Frames are the parsed JSON objects; the end of the connection is the end of the list.  [Wire]
    has the same session on the text of the connection. *)

From S2P Require Import Prelude PyValue Codec Retry Worker.

(** ** Arguments *)

Record arguments := Arguments {
  ar_worker : string;
  ar_process_id : string;
  ar_pre_copy : string;
  ar_shared_asset : list string;
  ar_stage_file : list string;
  ar_max_cta : option Z;
  ar_max_instructions : option Z;
  ar_command : string;
  ar_args : list string;
}.

(** ** The command line *)

(** The option table of [main], with the [-h] and [--help] every parser has.  The parsing itself
    is [argparse]'s: exact names, [--name=value], unique abbreviations, values that do not look
    like options, and a remainder that starts at the first positional argument. *)
Definition option_names : list string :=
  ["--help"; "--worker"; "--process-id"; "--pre-copy"; "--shared-asset"; "--stage-file";
   "--gpgpu-max-completed-cta"; "--gpgpu-max-instructions"].

Definition usage_error : exn := SystemExit "2".

Inductive token :=
  | Plain                                           (** a positional argument or a value *)
  | Named (name : string) (value : option string)   (** an option, with [=value] when it has one *)
  | Rejected.                                       (** ambiguous or unknown *)

(** [-5] and [-.5]: no option of the table looks like a negative number. *)
Definition negative_number (s : string) : bool :=
  match s with
  | String "-" r =>
      isdigit r || match partition_on "." r with (a, Some b) => str_forallb is_digit a && isdigit b | (_, None) => false end
  | _ => false
  end.

Definition classify (s : string) : token :=
  if String.eqb s "" || negb (startswith "-" s) || String.eqb s "-" then Plain
  else if startswith "-h" s then Named "--help" None
  else
    let '(name, value) := partition_on "=" s in
    if existsb (String.eqb name) option_names then Named name value
    else match filter (λ n, startswith "--" s && startswith name n = true) option_names with
         | [n] => Named n value
         | _ :: _ :: _ => Rejected
         | [] => if negative_number s || contains " " s then Plain else Rejected
         end.

(** What one option adds to the namespace. *)
Definition set_option (name value : string) (a : arguments) : result arguments :=
  let '(Arguments w p c assets files cta ins cmd args) := a in
  let number := match py_int value with Some n => Ok n | None => Err usage_error end in
  if String.eqb name "--worker" then Ok (Arguments value p c assets files cta ins cmd args)
  else if String.eqb name "--process-id" then Ok (Arguments w value c assets files cta ins cmd args)
  else if String.eqb name "--pre-copy" then Ok (Arguments w p value assets files cta ins cmd args)
  else if String.eqb name "--shared-asset" then Ok (Arguments w p c (assets ++ [value]) files cta ins cmd args)
  else if String.eqb name "--stage-file" then Ok (Arguments w p c assets (files ++ [value]) cta ins cmd args)
  else if String.eqb name "--gpgpu-max-completed-cta" then
    n ← number; Ok (Arguments w p c assets files (Some n) ins cmd args)
  else if String.eqb name "--gpgpu-max-instructions" then
    n ← number; Ok (Arguments w p c assets files cta (Some n) cmd args)
  else Err (SystemExit "0").

(** A separator directly after the command is dropped. *)
Definition drop_separator (l : list string) : list string := match l with "--" :: r => r | r => r end.

Definition required_seen (seen : list string) : bool :=
  existsb (String.eqb "--worker") seen && existsb (String.eqb "--process-id") seen.

(** The first positional argument is the command, everything after it the remainder.  [seen] are
    the names given so far: the first two options are required. *)
Fixpoint parse_options (argv : list string) (seen : list string) (a : arguments) : result arguments :=
  match argv with
  | [] => Err usage_error
  | s :: rest =>
      match classify s with
      | Rejected => Err usage_error
      | Named name (Some value) => a' ← set_option name value a; parse_options rest (name :: seen) a'
      | Named name None =>
          if String.eqb name "--help" then Err (SystemExit "0")
          else match rest with
               | [] => Err usage_error
               | value :: rest' =>
                   match classify value with
                   | Plain => a' ← set_option name value a; parse_options rest' (name :: seen) a'
                   | _ => Err usage_error
                   end
               end
      | Plain =>
          if required_seen seen then
            let '(Arguments w p c assets files cta ins _ _) := a in
            Ok (Arguments w p c assets files cta ins s (drop_separator rest))
          else Err usage_error
      end
  end.

Definition parse_arguments (argv : list string) : result arguments :=
  parse_options argv [] (Arguments "" "" "" [] [] None None "" []).

Example parse_arguments_example :
  parse_arguments ["--worker=w:1"; "--proc"; "p"; "--stage-file"; "../a:a"; "--gpgpu-max-i"; "7"; "gdb"; "--args"; "x"]
  = Ok (Arguments "w:1" "p" "" [] ["../a:a"] None (Some 7) "gdb" ["--args"; "x"])
  ∧ parse_arguments ["--worker"; "--process-id"; "p"; "x"] = Err usage_error
  ∧ parse_arguments ["--worker"; "w:1"; "--gpgpu-max"; "7"; "x"] = Err usage_error.
Proof. split_and!; vm_compute; reflexivity. Qed.

(** [str(Path(text))] *)
Definition path_str (text : string) : string :=
  let parts := filter (λ c, c ≠ "" ∧ c ≠ ".") (split_on "/" text) in
  let root := if startswith "//" text && negb (startswith "///" text) then "//"
              else if startswith "/" text then "/" else "" in
  if String.eqb root "" && (zlen parts =? 0) then "." else root +:+ join "/" parts.

(** [str(Path(base) / name)] for a normalised [base] and one component [name]. *)
Definition path_div (base name : string) : string :=
  if String.eqb name "" then base
  else if String.eqb base "." then name
  else if endswith "/" base then base +:+ name
  else base +:+ "/" +:+ name.

(** One [--stage-file SOURCE:DESTINATION]; [read] is the coordinator's file system. *)
Definition parse_stage_file (read : string → option string) (specification : string) : result pyval :=
  let form_error := ValueError "--stage-file must have SOURCE:DESTINATION form" in
  parts ← rpartition_on ":" specification ?! form_error;
  let '(source_text, destination_text) := parts in
  _ ← raise_if (String.eqb source_text "" || String.eqb destination_text "") form_error;
  _ ← raise_if (negb (String.eqb (path_name destination_text) destination_text)
                || existsb (String.eqb destination_text) ["."; ".."])
        (ValueError "--stage-file destination must be a plain filename");
  data ← read source_text ?! FileNotFoundError ("staged input does not exist: " +:+ path_str source_text);
  Ok (PDict [("destination", PStr destination_text); ("data", PStr (b64encode data))]).

(** [host, port_text = arguments.worker.rsplit(":", 1); port = int(port_text)] *)
Definition parse_worker (worker : string) : result (string * Z) :=
  parts ← rpartition_on ":" worker ?! ValueError "not enough values to unpack (expected 2, got 1)";
  port ← py_int_exn parts.2;
  Ok (parts.1, port).

(** Waiting for the worker: connection attempts until the deadline. *)
Definition ready_timeout (environ : environment) : result Z :=
  py_int_exn (dict_get_default "LEGOSIM_WORKER_READY_TIMEOUT_SECONDS" "180" environ).

Definition connect (environ : environment) (worker : string) (attempt : nat → option ()) (clock : nat → Z)
    : result (option (result ())) :=
  timeout ← ready_timeout environ;
  let deadline := clock 0%nat + timeout in
  Ok (retry_while attempt clock deadline
        (RuntimeError ("worker " +:+ worker +:+ " did not become ready within " +:+ str_of_Z timeout +:+ " seconds"))
        (retry_fuel (clock 0%nat) deadline) 0).

(** ** The spawn frame *)

Definition forwarded_variables : list string :=
  ["LEGOSIM_FIFO_BROKER"; "LEGOSIM_PIPE_GATEWAY"; "LEGOSIM_MNSIM_FAST_INPUT_SIZE";
   "LEGOSIM_MLP_DP_RANKS"; "LEGOSIM_MLP_DP_SAMPLES"].

(** Each variable is forwarded when it is set and not empty. *)
Definition forward_variable (environ : environment) (d : pydict) (name : string) : pydict :=
  match dict_get name environ with
  | None | Some "" => d
  | Some value => dict_set name (PStr value) d
  end.

Definition child_environment (environ : environment) : pydict :=
  foldl (forward_variable environ) [("SIMULATOR_ROOT", PStr "/opt/legosim")] forwarded_variables.

Definition optional_int (o : option Z) : pyval := match o with Some n => PInt n | None => PNone end.

Definition spawn_frame (environ : environment) (a : arguments) (staged_files : list pyval) : pydict :=
  [("op", PStr "spawn");
   ("process_id", PStr (ar_process_id a));
   ("command", PStr (ar_command a));
   ("args", PList (PStr <$> ar_args a));
   ("pre_copy", PStr (ar_pre_copy a));
   ("shared_assets", PList (PStr <$> ar_shared_asset a));
   ("staged_files", PList staged_files);
   ("gpgpu_max_completed_cta", optional_int (ar_max_cta a));
   ("gpgpu_max_instructions", optional_int (ar_max_instructions a));
   ("env", PDict (child_environment environ))].

(** The frame [main] sends once its arguments are checked. *)
Definition prepare (environ : environment) (read : string → option string) (a : arguments)
    : result (string * Z * pydict) :=
  staged_files ← mapM (parse_stage_file read) (ar_stage_file a);
  host_port ← parse_worker (ar_worker a);
  Ok (host_port.1, host_port.2, spawn_frame environ a staged_files).

(** ** Relaying *)

Definition end_of_stream : exn := ValueError "Expecting value: line 1 column 1 (char 0)".

(** The loop before [started]: the frames after it. *)
Fixpoint await_started (frames : list pydict) : result (list pydict) :=
  match frames with
  | [] => Err end_of_stream
  | f :: rest =>
      let op := dict_get_default "op" PNone f in
      if eq_str op "diagnostic" then _ ← dict_item "text" f; await_started rest
      else if eq_str op "started" then Ok rest
      else Err (RuntimeError (py_str (dict_get_default "error" (PStr "remote worker rejected process") f)))
  end.

(** What the proxy has written to its own two streams. *)
Record written := Written { wr_stdout : string; wr_stderr : string }.

Definition write_output (stream data : string) (o : written) : written :=
  if String.eqb stream "stdout" then Written (wr_stdout o +:+ data) (wr_stderr o)
  else Written (wr_stdout o) (wr_stderr o +:+ data).

(** One output frame. *)
Definition relay_output (f : pydict) (o : written) : result written :=
  stream ← dict_item "stream" f;
  encoded ← dict_item "data" f;
  encoded ← is_str encoded ?! TypeError;
  data ← b64decode true encoded;
  Ok (write_output (if eq_str stream "stdout" then "stdout" else "stderr") data o).

(** The loop after [started]: the return code. *)
Fixpoint relay (frames : list pydict) (o : written) : written * result Z :=
  match frames with
  | [] => (o, Err end_of_stream)
  | f :: rest =>
      match dict_item "op" f with
      | Err e => (o, Err e)
      | Ok op =>
          if eq_str op "output" then
            match relay_output f o with
            | Ok o' => relay rest o'
            | Err e => (o, Err e)
            end
          else if eq_str op "diagnostic" then
            match dict_item "text" f with Ok _ => relay rest o | Err e => (o, Err e) end
          else if eq_str op "exit" then
            (o, code ← dict_item "returncode" f; int_of code)
          else (o, Err (RuntimeError (py_str (dict_get_default "error"
                  (PStr ("unexpected worker response: " +:+ py_str op)) f))))
      end
  end.

(** A whole session on the frames of one connection. *)
Definition session (frames : list pydict) : written * result Z :=
  match await_started frames with
  | Err e => (Written "" "", Err e)
  | Ok rest => relay rest (Written "" "")
  end.

(** ** Option parsing *)

Lemma parse_option_value name value rest seen a a' :
  classify name = Named name None → name ≠ "--help" → classify value = Plain → set_option name value a = Ok a' →
  parse_options (name :: value :: rest) seen a = parse_options rest (name :: seen) a'.
Proof.
  intros Hn Hh Hv Hs. cbn [parse_options]. rewrite Hn, (proj2 (String.eqb_neq name "--help") Hh), Hv.
  cbn [mbind result_bind]. by rewrite Hs.
Qed.

Lemma required_seen_cons n seen : required_seen seen = true → required_seen (n :: seen) = true.
Proof. unfold required_seen. cbn [existsb]. intros [H1 H2]%andb_prop. by rewrite H1, H2, !orb_true_r. Qed.

(** Once both required options are given, a repeated option only extends its list. *)
Lemma parse_repeated name (update : arguments → string → arguments) values rest seen a :
  classify name = Named name None → name ≠ "--help" → (∀ b v, set_option name v b = Ok (update b v)) →
  (∀ v, v ∈ values → classify v = Plain) → required_seen seen = true →
  ∃ seen', required_seen seen' = true ∧
    parse_options ((values ≫= λ v, [name; v]) ++ rest) seen a = parse_options rest seen' (foldl update a values).
Proof.
  intros Hn Hh Hset. revert seen a. induction values as [|v values IH]; intros seen a Hplain Hseen.
  - by exists seen.
  - rewrite bind_cons. cbn [app foldl].
    rewrite (parse_option_value _ _ _ _ _ (update a v)) by (done || apply Hplain; set_solver).
    apply IH; [set_solver|by apply required_seen_cons].
Qed.

Lemma parse_command s rest seen a :
  classify s = Plain → required_seen seen = true →
  parse_options (s :: rest) seen a
  = Ok (Arguments (ar_worker a) (ar_process_id a) (ar_pre_copy a) (ar_shared_asset a) (ar_stage_file a)
          (ar_max_cta a) (ar_max_instructions a) s (drop_separator rest)).
Proof. intros Hs Hseen. cbn [parse_options]. rewrite Hs, Hseen. by destruct a. Qed.

Lemma classify_plain s : startswith "-" s = false → classify s = Plain.
Proof. intros H. unfold classify. rewrite H. by rewrite orb_true_r. Qed.

(** ** Staged files arrive *)

Lemma rpartition_on_Some c s a b : rpartition_on c s = Some (a, b) → s = a +:+ String c b.
Proof.
  revert a. induction s as [|x s IH]; intros a; cbn [rpartition_on]; [done|].
  destruct (rpartition_on c s) as [[l r]|].
  - intros [= <- <-]. simpl. f_equal. by apply IH.
  - destruct (Ascii.eqb_spec x c) as [->|]; [|done]. by intros [= <- <-].
Qed.

Lemma after_last_join root d : lacks "/" d = true → after_last "/" (root +:+ "/" +:+ d) = d.
Proof. apply (after_last_app "/" root d). Qed.

(** ** Output is relayed *)

Lemma relay_outputs (chunks : list (string * string)) rest o :
  relay (((λ c, output_frame c.1 c.2) <$> chunks) ++ rest) o =
  relay rest (foldl (λ o c, write_output c.1 c.2 o) o chunks).
Proof.
  revert o. induction chunks as [|[stream data] chunks IH]; intros o; [done|]. rewrite fmap_cons. cbn [app foldl fst snd].
  rewrite <- IH. cbn [relay]. unfold relay_output, output_frame, dict_item.
  cbn -[b64decode b64encode relay write_output]. rewrite b64decode_encode.
  cbn -[relay write_output]. f_equal. unfold write_output. by destruct (String.eqb stream "stdout").
Qed.

Lemma session_started text pid frames :
  session (diagnostic_frame text :: started_frame pid :: frames) = relay frames (Written "" "").
Proof. done. Qed.

Lemma relay_exit rc o : relay [exit_frame rc] o = (o, Ok rc).
Proof. done. Qed.

Lemma relay_error e o : relay [error_frame e] o = (o, Err (RuntimeError (exn_str e))).
Proof. done. Qed.

Lemma session_error e : session [error_frame e] = (Written "" "", Err (RuntimeError (exn_str e))).
Proof. done. Qed.

(** The bytes of one stream in a list of chunks. *)
Definition bytes_of (stdout : bool) (chunks : list (string * string)) : string :=
  join "" ((λ c, c.2) <$> filter (λ c, String.eqb c.1 "stdout" = stdout) chunks).

Lemma foldl_write_output chunks o :
  foldl (λ o c, write_output c.1 c.2 o) o chunks
  = Written (wr_stdout o +:+ bytes_of true chunks) (wr_stderr o +:+ bytes_of false chunks).
Proof.
  revert o. induction chunks as [|[stream data] chunks IH]; intros [out err].
  - cbn. by rewrite !str_app_nil_r.
  - cbn [foldl fst snd]. rewrite IH. unfold write_output, bytes_of. rewrite !filter_cons. cbn [fst].
    destruct (String.eqb stream "stdout"); repeat case_decide; try done;
      rewrite fmap_cons, join_nothing_cons; cbn [wr_stdout wr_stderr snd]; by rewrite str_app_assoc.
Qed.

(** ** Properties *)

(** The frames a worker session produces are of one of four shapes. *)
Lemma worker_frames w root raw inbox fs :
  let frames := ss_frames (Worker.handle w root raw inbox fs) in
  (∃ e, frames = [error_frame e]) ∨
  (∃ text e, frames = [diagnostic_frame text; error_frame e]) ∨
  (∃ text pid chunks e, frames =
     diagnostic_frame text :: started_frame pid :: ((λ c, output_frame c.1 c.2) <$> chunks) ++ [error_frame e]) ∨
  (∃ text pid chunks rc, frames =
     diagnostic_frame text :: started_frame pid :: ((λ c, output_frame c.1 c.2) <$> chunks) ++ [exit_frame rc]).
Proof.
  unfold Worker.handle. destruct (read_request w raw) as [[sp s]|e]; [|left; by exists e].
  destruct (prepare_workdir w root sp s fs) as [fs1 [workdir|e]]; [|left; by exists e]. right.
  unfold run_child. destruct (write_bytes _ _ fs1) as [fs2 [u|e]]; [|left; by do 2 eexists].
  destruct (launch w sp workdir fs2) as [c|e]; [|left; by do 2 eexists]. right.
  destruct (serve w inbox) as [actions [u'|e]]; [right|left].
  - unfold outputs, marker_frames.
    destruct (fs_files (ch_files c fs2) !! path_join workdir "mlp_dp_result.txt") as [text|].
    + exists (diagnostic_text w sp s), (ch_pid c), (ch_output c ++ [("stdout", text)]), (ch_returncode c).
      cbn [ss_frames app]. rewrite fmap_app, <- app_assoc. done.
    + by exists (diagnostic_text w sp s), (ch_pid c), (ch_output c), (ch_returncode c).
  - exists (diagnostic_text w sp s), (ch_pid c), (take (ch_forwarded c) (ch_output c)), e.
    cbn [ss_frames app]. unfold outputs. by rewrite fmap_take.
Qed.

(** The proxy understands every worker.  Whatever the coordinator sends, whatever the child
    does and wherever the worker fails, the proxy relays the worker's frames to the end: it
    either returns the child's exit code, the last frame's, or raises the worker's error text.
    It never meets an unexpected frame or the end of the connection; and what it wrote to its
    two streams is, for each of them, the concatenation of the chunks in the output frames. *)
Theorem proxy_understands_worker w root raw inbox fs :
  ∃ chunks,
    let frames := ss_frames (Worker.handle w root raw inbox fs) in
    (session frames).1 = Written (bytes_of true chunks) (bytes_of false chunks) ∧
    ((∃ rc, last frames = Some (exit_frame rc) ∧ (session frames).2 = Ok rc) ∨
     (∃ e, last frames = Some (error_frame e) ∧ (session frames).2 = Err (RuntimeError (exn_str e)))).
Proof.
  destruct (worker_frames w root raw inbox fs) as [(e & H)|[(t & e & H)|[(t & p & chunks & e & H)|(t & p & chunks & rc & H)]]];
    cbn zeta in H |- *; rewrite H.
  - exists []. split; [done|]. right. by exists e.
  - exists []. split; [done|]. right. by exists e.
  - exists chunks. rewrite session_started, relay_outputs, relay_error, foldl_write_output.
    split; [done|]. right. exists e. split; [|done]. by rewrite !app_comm_cons, last_snoc.
  - exists chunks. rewrite session_started, relay_outputs, relay_exit, foldl_write_output.
    split; [done|]. left. exists rc. split; [|done]. by rewrite !app_comm_cons, last_snoc.
Qed.

(** A staged file arrives.  For every [--stage-file] the proxy accepts, the worker accepts
    the entry of the spawn frame and writes exactly the source file's bytes under the
    destination name in the child's work directory, provided the file has at most 64 MiB. *)
Theorem staged_file_arrives read specification entry workdir fs :
  parse_stage_file read specification = Ok entry →
  workdir ∈ fs_dirs fs → (∀ name, workdir +:+ "/" +:+ name ∉ fs_dirs fs) →
  (∀ source data, read source = Some data → Z.of_nat (str_length data) ≤ MAX_STAGED) →
  ∃ source destination data,
    specification = source +:+ ":" +:+ destination ∧ read source = Some data ∧ lacks "/" destination = true ∧
    stage_file workdir entry fs =
      (Filesystem (fs_dirs fs) (<[workdir +:+ "/" +:+ destination := data]> (fs_files fs)), Ok ()).
Proof.
  unfold parse_stage_file. intros H Hdir Hfree Hsize. result_inv. destruct a as [source destination].
  result_inv. rename a1 into data. bool_facts. cbn [existsb] in *. bool_facts.
  apply rpartition_on_Some in Ha as ->. clear H4.
  destruct (path_name_plain destination H) as [?|[Hl _]]; [done|].
  exists source, destination, data. do 3 (split; [done|]). specialize (Hsize _ _ Ha2).
  assert (Hj : path_join workdir destination = workdir +:+ "/" +:+ destination).
  { unfold path_join. by rewrite (proj2 (String.eqb_neq destination "") H2), (proj2 (String.eqb_neq destination ".") H0). }
  unfold stage_file, mbind, M_bind, lift, dict_get_default.
  cbn -[b64decode b64encode path_name MAX_STAGED write_bytes str_forallb].
  rewrite H, String.eqb_refl, b64encode_ascii. cbn -[b64decode b64encode MAX_STAGED write_bytes].
  rewrite b64decode_encode. replace (MAX_STAGED <? _) with false by (symmetry; by apply Z.ltb_ge).
  cbn [raise_if]. apply write_bytes_Ok. rewrite Hj. split; [apply Hfree|]. split; [|done].
  by rewrite after_last_join.
Qed.

Lemma staged_file_arrives_witness :
  ∃ entry, parse_stage_file (λ _, Some "ping") "out/bench:bench.txt" = Ok entry ∧
    ∃ source destination data, "out/bench:bench.txt" = source +:+ ":" +:+ destination ∧ Some "ping" = Some data ∧
      lacks "/" destination = true ∧
      stage_file "/w" entry (Filesystem {["/w"]} ∅)
      = (Filesystem (fs_dirs (Filesystem {["/w"]} ∅)) (<["/w" +:+ "/" +:+ destination := data]> (fs_files (Filesystem {["/w"]} ∅))), Ok ()).
Proof.
  destruct (parse_stage_file (λ _, Some "ping") "out/bench:bench.txt") as [entry|] eqn:E; [|vm_compute in E; done].
  exists entry. split; [reflexivity|].
  apply (staged_file_arrives (λ _, Some "ping") "out/bench:bench.txt" entry "/w" (Filesystem {["/w"]} ∅) E).
  - cbn [fs_dirs]. set_solver.
  - intros name. cbn [fs_dirs]. rewrite elem_of_singleton. destruct name; discriminate.
  - intros source data [= <-]. unfold MAX_STAGED. simpl. lia.
Defined.

(** The spawn request is understood and the worker's own gateway wins.  A worker reads from
    the proxy's spawn frame the process id, the command and the arguments the coordinator gave;
    and whenever the worker has a gateway of its own, both endpoint variables of the child name
    that gateway, whatever the proxy forwarded. *)
Theorem spawn_understood environ local a staged :
  ∃ env, read_spawn local (spawn_frame environ a staged)
      = Ok (Spawn (ar_process_id a) (ar_command a) (ar_args a) env) ∧
    ∀ gateway, dict_get "LEGOSIM_PIPE_GATEWAY" local = Some gateway → gateway ≠ "" →
      dict_get "LEGOSIM_PIPE_GATEWAY" env = Some gateway ∧ dict_get "LEGOSIM_FIFO_BROKER" env = Some gateway.
Proof.
  unfold read_spawn, spawn_frame, dict_item, dict_get_default.
  cbn -[child_environment dict_update fmap list_fmap].
  assert (Hargs : py_str <$> (PStr <$> ar_args a) = ar_args a).
  { rewrite <- list_fmap_compose. apply list_fmap_id. }
  rewrite Hargs. eexists. split; [done|]. intros gateway Hg Hne. rewrite Hg. cbn [default id].
  rewrite (proj2 (String.eqb_neq gateway "") Hne). split.
  - by rewrite dict_get_set_ne, dict_get_set by done.
  - by rewrite dict_get_set.
Qed.

Lemma spawn_understood_witness :
  ∃ env, read_spawn [("LEGOSIM_PIPE_GATEWAY", "127.0.0.1:9400")]
      (spawn_frame [("LEGOSIM_PIPE_GATEWAY", "far:1")] (Arguments "w:9300" "p0" "" [] [] None None "sim" ["5"; "5"]) [])
      = Ok (Spawn "p0" "sim" ["5"; "5"] env) ∧
    dict_get "LEGOSIM_PIPE_GATEWAY" env = Some "127.0.0.1:9400" ∧ dict_get "LEGOSIM_FIFO_BROKER" env = Some "127.0.0.1:9400".
Proof.
  destruct (spawn_understood [("LEGOSIM_PIPE_GATEWAY", "far:1")] [("LEGOSIM_PIPE_GATEWAY", "127.0.0.1:9400")]
    (Arguments "w:9300" "p0" "" [] [] None None "sim" ["5"; "5"]) []) as (env & H & Hg).
  exists env. split; [exact H|]. apply Hg; [reflexivity|discriminate].
Defined.
