(* ===== verification/WorkerTasks.v ===== *)
(** * Concurrent requests of one worker

    [Worker] models [handle] of [src/real/worker.py] as if a request had the worker for itself.  The
    event loop interleaves several requests, and in each of them the two tasks that forward the
    child's output.  [Assets] models the copying of shared assets under [SHARED_ASSET_LOCK] and
    shows that every interleaving has the effect of copying one asset after the other with
    [Worker.copy_asset].  [Output] models the tasks that share a connection under its lock and
    shows that every interleaving is a child's output as [Worker.run_child] assumes it.  [Input] is the other
    direction: the thread of [src/real/process_proxy.py] that forwards its standard input. *)

From S2P Require Import Prelude PyValue Codec Worker Proxy.

(** ** Shared assets *)

Module Assets.

(** One path looks the same in both. *)
Definition agree_at (p : string) (fs fs' : filesystem) : Prop :=
  fs_files fs !! p = fs_files fs' !! p ∧ (p ∈ fs_dirs fs ↔ p ∈ fs_dirs fs').

#[export] Instance agree_at_equivalence p : Equivalence (agree_at p).
Proof. split; [intros fs|intros fs fs'|intros fs fs' fs'']; unfold agree_at; naive_solver congruence. Qed.

Lemma agree_exists p fs fs' : agree_at p fs fs' → path_exists fs p = path_exists fs' p.
Proof. intros [Hf Hd]. unfold path_exists. rewrite Hf. f_equal. by apply bool_decide_ext. Qed.

(** What a copy leaves at its destination. *)
Definition put (p : string) (content : option string) (fs : filesystem) : filesystem :=
  Filesystem (fs_dirs fs) (partial_alter (λ _, content) p (fs_files fs)).

Lemma put_same p o fs fs' : (p ∈ fs_dirs fs ↔ p ∈ fs_dirs fs') → agree_at p (put p o fs) (put p o fs').
Proof. intros Hd. split; [|done]. cbn. by rewrite !lookup_partial_alter_eq. Qed.

Lemma put_other p q o fs : p ≠ q → agree_at q fs (put p o fs).
Proof. intros Hne. split; [|done]. cbn. by rewrite lookup_partial_alter_ne. Qed.

(** Where a request is in the loop over its assets: before the lock of the first one that is left,
    waiting for the copy process of that one with the lock held, or out of the loop with an exception. *)
Inductive phase := Waiting | Copying | Raised (e : exn).

Record task := Task { tk_environment : environment; tk_assets : list string; tk_phase : phase }.

Record state := State {
  st_fs : filesystem;
  st_lock : option nat;       (** the request that holds [SHARED_ASSET_LOCK] *)
  st_tasks : list task;
}.

(** The end of one round of the loop: the request, the asset and the exception, if any. *)
Record entry := Entry { en_task : nat; en_environment : environment; en_asset : string; en_result : result unit }.

Definition ended (e : option entry) : list entry := match e with Some e => [e] | None => [] end.

Section Assets.
Context (w : world) (root : string).

Definition destination (asset : string) : string := path_join root (path_name asset).

(** What the copy of an asset leaves, and its exit status.  The assets are immutable. *)
Context (cp : string → option string * Z).
Context (requests : list (environment * list string)).

(** The assets and where they go. *)
Definition requested : list string := requests ≫= λ r, r.2.
Definition watched : list string := destination <$> requested.

Context (shell_cp : ∀ asset env fs, asset ∈ requested → path_exists fs (destination asset) = false →
  w_shell w ("cp -- " +:+ quote asset +:+ " " +:+ quote root +:+ "/") root env fs =
    (put (destination asset) (cp asset).1 fs, (cp asset).2)).

Definition copy_result (asset : string) (status : Z) : result unit :=
  raise_if (negb (status =? 0)) (RuntimeError ("shared worker asset copy failed: " +:+ asset)).

(** From the free lock to the next [await]. *)
Definition enter (i : nat) (t : task) (s : state) : option (option entry * state) :=
  match tk_phase t, tk_assets t, st_lock s with
  | Waiting, asset :: rest, None =>
      let env := tk_environment t in
      if path_exists (st_fs s) (destination asset)
      then Some (Some (Entry i env asset (Ok ())), State (st_fs s) None (<[i := Task env rest Waiting]> (st_tasks s)))
      else Some (None, State (st_fs s) (Some i) (<[i := Task env (asset :: rest) Copying]> (st_tasks s)))
  | _, _, _ => None
  end.

(** From the exit of the copy process to the next [await]. *)
Definition leave (i : nat) (t : task) (s : state) : option (option entry * state) :=
  match tk_phase t, tk_assets t with
  | Copying, asset :: rest =>
      let r := copy_result asset (cp asset).2 in
      Some (Some (Entry i (tk_environment t) asset r),
            State (put (destination asset) (cp asset).1 (st_fs s)) None
              (<[i := Task (tk_environment t) rest match r with Ok _ => Waiting | Err e => Raised e end]> (st_tasks s)))
  | _, _ => None
  end.

(** A request goes on. *)
Inductive move : state → option entry → state → Prop :=
  | move_enter s i t e s' : st_tasks s !! i = Some t → enter i t s = Some (e, s') → move s e s'
  | move_leave s i t e s' : st_tasks s !! i = Some t → leave i t s = Some (e, s') → move s e s'.

(** Or a copy process works at its destination, or something happens at other paths. *)
Inductive step : state → option entry → state → Prop :=
  | step_move s e s' : move s e s' → step s e s'
  | step_copying s i env asset rest content :
      st_tasks s !! i = Some (Task env (asset :: rest) Copying) →
      step s None (State (put (destination asset) content (st_fs s)) (st_lock s) (st_tasks s))
  | step_elsewhere s fs :
      (∀ p, p ∈ watched → agree_at p (st_fs s) fs) → step s None (State fs (st_lock s) (st_tasks s)).

Definition arrivals : list task := (λ r, Task r.1 r.2 Waiting) <$> requests.

Inductive reachable (fs0 : filesystem) : list entry → state → Prop :=
  | reachable_init : reachable fs0 [] (State fs0 None arrivals)
  | reachable_step log s e s' : reachable fs0 log s → step s e s' → reachable fs0 (log ++ ended e) s'.

(** The same rounds one after the other, with the same outcomes. *)
Inductive replays (fs0 : filesystem) : list entry → filesystem → Prop :=
  | replays_nil : replays fs0 [] fs0
  | replays_snoc log fs e fs' :
      replays fs0 log fs → copy_asset w root (en_environment e) (en_asset e) fs = (fs', en_result e) →
      replays fs0 (log ++ [e]) fs'.

(** The assets one request has gone through. *)
Definition rounds_of (i : nat) (log : list entry) : list string := en_asset <$> filter (λ e, en_task e = i) log.

(** *** One round *)

Lemma copy_asset_present env asset fs :
  path_exists fs (destination asset) = true → copy_asset w root env asset fs = (fs, Ok ()).
Proof using Type. intros H. unfold copy_asset, mbind, M_bind, get_fs. unfold destination in H. by rewrite H. Qed.

Lemma copy_asset_absent env asset fs :
  asset ∈ requested → path_exists fs (destination asset) = false →
  copy_asset w root env asset fs = (put (destination asset) (cp asset).1 fs, copy_result asset (cp asset).2).
Proof using shell_cp.
  intros Ha H. unfold copy_asset, mbind, M_bind, get_fs, run_shell, lift. pose proof (shell_cp asset env fs Ha H) as Hcp.
  unfold destination in *. by rewrite H, Hcp.
Qed.

Lemma enter_Some i t s e s' :
  enter i t s = Some (e, s') →
  ∃ env asset rest, t = Task env (asset :: rest) Waiting ∧ st_lock s = None ∧
    (path_exists (st_fs s) (destination asset) = true ∧ e = Some (Entry i env asset (Ok ())) ∧
       s' = State (st_fs s) None (<[i := Task env rest Waiting]> (st_tasks s)) ∨
     path_exists (st_fs s) (destination asset) = false ∧ e = None ∧
       s' = State (st_fs s) (Some i) (<[i := Task env (asset :: rest) Copying]> (st_tasks s))).
Proof using Type.
  unfold enter. destruct t as [env [|asset rest] []], (st_lock s) eqn:Hl; try done. cbn.
  intros H. exists env, asset, rest. split_and!; [done..|]. destruct (path_exists _ _); [left|right]; by simplify_eq.
Qed.

Lemma leave_Some i t s e s' :
  leave i t s = Some (e, s') →
  ∃ env asset rest, t = Task env (asset :: rest) Copying ∧
    let r := copy_result asset (cp asset).2 in
    e = Some (Entry i env asset r) ∧
    s' = State (put (destination asset) (cp asset).1 (st_fs s)) None
           (<[i := Task env rest match r with Ok _ => Waiting | Err e => Raised e end]> (st_tasks s)).
Proof using Type.
  unfold leave. destruct t as [env [|asset rest] []]; try done. cbn. intros [= <- <-]. by exists env, asset, rest.
Qed.

(** *** The invariant *)

(** The copy of [asset] for request [i] is going on. *)
Definition copying (s : state) (i : nat) (asset : string) : Prop :=
  ∃ env rest, st_tasks s !! i = Some (Task env (asset :: rest) Copying).

Definition holds_lock (s : state) : Prop :=
  (∀ i t, st_tasks s !! i = Some t → tk_phase t = Copying → st_lock s = Some i) ∧
  (∀ i, st_lock s = Some i → ∃ asset, copying s i asset).

(** Every request goes through its assets in their order. *)
Definition in_order (log : list entry) (s : state) : Prop :=
  (∀ i t, st_tasks s !! i = Some t → ∃ r, requests !! i = Some r ∧ rounds_of i log ++ tk_assets t = r.2) ∧
  Forall (λ e, en_asset e ∈ requested) log.

(** The files are those of the sequential run, except where a copy is going on; there the sequential run
    has nothing yet. *)
Definition as_sequential (fs : filesystem) (s : state) : Prop :=
  (∀ p, p ∈ watched → (p ∈ fs_dirs fs ↔ p ∈ fs_dirs (st_fs s)) ∧
     ((∀ i asset, copying s i asset → p ≠ destination asset) → fs_files fs !! p = fs_files (st_fs s) !! p)) ∧
  (∀ i asset, copying s i asset → path_exists fs (destination asset) = false).

Lemma copying_insert s i t fs l j asset :
  is_Some (st_tasks s !! i) →
  copying (State fs l (<[i := t]> (st_tasks s))) j asset →
  (j = i ∧ ∃ env rest, t = Task env (asset :: rest) Copying) ∨ (j ≠ i ∧ copying s j asset).
Proof using Type.
  intros Hi (env & rest & H). cbn [st_tasks] in H. destruct (decide (j = i)) as [->|Hne].
  - rewrite list_lookup_insert_eq in H by (by apply lookup_lt_is_Some). left. split; [done|]. simplify_eq. eauto.
  - rewrite list_lookup_insert_ne in H by done. right. split; [done|]. by exists env, rest.
Qed.

Lemma nobody_copying s i asset : holds_lock s → st_lock s = None → ¬ copying s i asset.
Proof using Type. intros [Hl _] Hn (env & rest & H). specialize (Hl _ _ H eq_refl). congruence. Qed.

Lemma sequential_agree fs s p :
  as_sequential fs s → p ∈ watched → (∀ i asset, copying s i asset → p ≠ destination asset) → agree_at p fs (st_fs s).
Proof using Type. intros [Hag _] Hp Hc. destruct (Hag p Hp) as [Hd Hf]. split; [by apply Hf|done]. Qed.

Lemma agree_sequential fs s :
  (∀ p, p ∈ watched → agree_at p fs (st_fs s)) → (∀ i asset, copying s i asset → path_exists fs (destination asset) = false) →
  as_sequential fs s.
Proof using Type. intros Hag Hab. split; [|done]. intros p Hp. destruct (Hag p Hp) as [Hf Hd]. by split. Qed.

Lemma rounds_of_snoc j log e :
  rounds_of j (log ++ [e]) = rounds_of j log ++ (if decide (en_task e = j) then [en_asset e] else []).
Proof using Type. unfold rounds_of. rewrite filter_app, fmap_app, filter_cons. by destruct (decide (en_task e = j)). Qed.

Lemma in_order_requested log s i t asset rest :
  in_order log s → st_tasks s !! i = Some t → tk_assets t = asset :: rest → asset ∈ requested.
Proof using Type.
  intros [Ho _] Ht Hr. destruct (Ho _ _ Ht) as (r & Hi & Heq). rewrite Hr in Heq. unfold requested.
  apply list_elem_of_bind. exists r. split; [|by eapply list_elem_of_lookup_2].
  rewrite <- Heq. apply elem_of_app. right. apply list_elem_of_here.
Qed.

Lemma in_order_begin log s i t t' fs l :
  in_order log s → st_tasks s !! i = Some t → tk_assets t' = tk_assets t →
  in_order log (State fs l (<[i := t']> (st_tasks s))).
Proof using Type.
  intros [Ho Hr] Hi Heq. split; [|done]. intros j u [(<- & <- & _)|(_ & Hj)]%list_lookup_insert_Some; [|by apply Ho].
  rewrite Heq. by apply Ho.
Qed.

Lemma in_order_end log s i t e t' fs l :
  in_order log s → st_tasks s !! i = Some t → tk_assets t = en_asset e :: tk_assets t' → en_task e = i →
  in_order (log ++ [e]) (State fs l (<[i := t']> (st_tasks s))).
Proof using Type.
  intros Hord Hi Heq He. pose proof (in_order_requested _ _ _ _ _ _ Hord Hi Heq) as Hreq. destruct Hord as [Ho Hr]. split.
  - intros j u [(<- & <- & _)|(Hne & Hj)]%list_lookup_insert_Some; rewrite rounds_of_snoc.
    + rewrite decide_True, <- app_assoc by done. cbn [app]. rewrite <- Heq. by apply Ho.
    + rewrite decide_False, app_nil_r by congruence. by apply Ho.
  - apply Forall_app. split; [done|]. by apply Forall_singleton.
Qed.

Lemma move_in_order log s e s' : in_order log s → move s e s' → in_order (log ++ ended e) s'.
Proof using Type.
  intros Ho Hm. destruct Hm as [s i t e s' Ht H|s i t e s' Ht H].
  - apply enter_Some in H as (env & asset & rest & -> & _ & [(_ & -> & ->)|(_ & -> & ->)]); cbn [ended].
    + by apply (in_order_end log s i _ _ _ _ _ Ho Ht).
    + rewrite app_nil_r. by apply (in_order_begin log s i _ _ _ _ Ho Ht).
  - apply leave_Some in H as (env & asset & rest & -> & -> & ->). by apply (in_order_end log s i _ _ _ _ _ Ho Ht).
Qed.

Lemma move_holds_lock s e s' : holds_lock s → move s e s' → holds_lock s'.
Proof using Type.
  intros [Hl Hh] Hm. destruct Hm as [s i t e s' Ht H|s i t e s' Ht H].
  - apply enter_Some in H as (env & asset & rest & -> & Hn & H).
    assert (Hno : ∀ j u, st_tasks s !! j = Some u → tk_phase u ≠ Copying).
    { intros j u Hj Hp. specialize (Hl _ _ Hj Hp). congruence. }
    destruct H as [(_ & _ & ->)|(_ & _ & ->)]; split; cbn.
    + intros j u [(_ & <- & _)|(_ & Hj)]%list_lookup_insert_Some; [done|]. intros Hp. by apply Hno in Hj.
    + done.
    + intros j u [(<- & _ & _)|(_ & Hj)]%list_lookup_insert_Some; [done|]. intros Hp. by apply Hno in Hj.
    + intros j [= <-]. exists asset, env, rest. cbn. apply list_lookup_insert_eq. by eapply lookup_lt_Some.
  - apply leave_Some in H as (env & asset & rest & -> & _ & ->). split; [|done]. cbn.
    intros j u [(_ & <- & _)|(Hne & Hj)]%list_lookup_insert_Some.
    + cbn. by destruct (copy_result _ _).
    + intros Hp. pose proof (Hl _ _ Hj Hp). pose proof (Hl _ _ Ht eq_refl). congruence.
Qed.

Lemma move_as_sequential fs0 log fs s e s' :
  holds_lock s → in_order log s →
  replays fs0 log fs → as_sequential fs s → move s e s' →
  ∃ fs', replays fs0 (log ++ ended e) fs' ∧ as_sequential fs' s'.
Proof using shell_cp.
  intros Hlock Ho Hrep Has Hm. destruct Hm as [s i t e s' Ht H|s i t e s' Ht H].
  - apply enter_Some in H as (env & asset & rest & -> & Hn & H).
    assert (Hw : destination asset ∈ watched) by (apply list_elem_of_fmap_2, (in_order_requested _ _ _ _ _ _ Ho Ht eq_refl)).
    assert (Hall : ∀ p, p ∈ watched → agree_at p fs (st_fs s)).
    { intros p Hp. apply sequential_agree; [done..|]. intros j a Hc. by destruct (nobody_copying _ _ _ Hlock Hn Hc). }
    pose proof (agree_exists _ _ _ (Hall _ Hw)) as Hex. destruct H as [(Hp & -> & ->)|(Hp & -> & ->)]; exists fs.
    + split; [apply replays_snoc with fs; [done|]; rewrite <- Hex in Hp; by apply copy_asset_present|].
      apply agree_sequential; [done|]. intros j a [(_ & ? & ? & [=])|(_ & Hc)]%copying_insert; [|by eexists].
      by destruct (nobody_copying _ _ _ Hlock Hn Hc).
    + split; [cbn; by rewrite app_nil_r|]. apply agree_sequential; [done|].
      intros j a [(_ & ? & ? & [= _ -> _])|(_ & Hc)]%copying_insert; [congruence| |by eexists].
      by destruct (nobody_copying _ _ _ Hlock Hn Hc).
  - apply leave_Some in H as (env & asset & rest & -> & -> & ->).
    assert (Hone : ∀ j a, copying s j a → a = asset).
    { intros j a (env' & rest' & Hj). destruct Hlock as [Hl _]. pose proof (Hl _ _ Hj eq_refl).
      pose proof (Hl _ _ Ht eq_refl). assert (j = i) as -> by congruence. by simplify_eq. }
    exists (put (destination asset) (cp asset).1 fs).
    split; [apply replays_snoc with fs; [done|]; apply copy_asset_absent; [by apply (in_order_requested _ _ _ _ _ _ Ho Ht eq_refl)|]; apply (proj2 Has i); by exists env, rest|].
    apply agree_sequential.
    + intros p Hp. cbn [st_fs]. destruct (decide (p = destination asset)) as [->|Hne]; [by apply put_same, (proj1 Has)|].
      rewrite <- !(put_other (destination asset) p) by done.
      apply sequential_agree; [done..|]. intros j a ->%Hone. done.
    + intros j a [(_ & ? & ? & [= _ _ Hc])|(Hne & env' & rest' & Hj)]%copying_insert; [by destruct (copy_result _ _)| |by eexists].
      destruct Hlock as [Hl _]. pose proof (Hl _ _ Hj eq_refl). pose proof (Hl _ _ Ht eq_refl). congruence.
Qed.

(** Work at the destination of a copy, or elsewhere, is not seen. *)
Lemma copying_as_sequential fs s i asset content :
  as_sequential fs s → copying s i asset →
  as_sequential fs (State (put (destination asset) content (st_fs s)) (st_lock s) (st_tasks s)).
Proof using Type.
  intros [Hag Hab] Hc. split; [|done]. intros p Hp. destruct (Hag p Hp) as [Hd Hf]. split; [done|]. cbn [st_fs put fs_files].
  intros Hn. rewrite lookup_partial_alter_ne by (symmetry; by apply (Hn i)). by apply Hf.
Qed.

Lemma elsewhere_as_sequential fs s fs' :
  as_sequential fs s → (∀ p, p ∈ watched → agree_at p (st_fs s) fs') →
  as_sequential fs (State fs' (st_lock s) (st_tasks s)).
Proof using Type.
  intros [Hag Hab] Hp'. split; [|done]. intros p Hp. destruct (Hag p Hp) as [Hd Hf]. destruct (Hp' p Hp) as [Hf' Hd'].
  cbn [st_fs]. split; [by rewrite Hd|]. intros Hn. rewrite <- Hf'. by apply Hf.
Qed.

Lemma reachable_invariant fs0 log s :
  reachable fs0 log s →
  holds_lock s ∧ in_order log s ∧ ∃ fs, replays fs0 log fs ∧ as_sequential fs s.
Proof using shell_cp.
  induction 1 as [|log s e s' _ (Hl & Ho & fs & Hr & Has) Hs].
  - assert (Hw : ∀ i t, arrivals !! i = Some t → ∃ r, requests !! i = Some r ∧ t = Task r.1 r.2 Waiting).
    { intros i t. unfold arrivals. rewrite list_lookup_fmap. destruct (requests !! i) as [r|]; naive_solver. }
    assert (Hc : ∀ i asset, ¬ copying (State fs0 None (arrivals)) i asset).
    { by intros i asset (env & rest & (r & _ & H)%Hw). }
    split_and!.
    + split; [|done]. by intros i t (r & _ & ->)%Hw Hp.
    + split; [|constructor]. intros i t (r & Hr & ->)%Hw. by exists r.
    + exists fs0. split; [constructor|]. apply agree_sequential; [done|]. by intros i asset H%Hc.
  - destruct Hs as [s e s' Hm|s i env asset rest content Ht|s fs' Hp].
    + split_and!; [by eapply move_holds_lock|by eapply move_in_order|by eapply move_as_sequential].
    + cbn [ended]. rewrite app_nil_r. split_and!; [done..|]. exists fs. split; [done|].
      apply (copying_as_sequential _ _ i); [done|]. by exists env, rest.
    + cbn [ended]. rewrite app_nil_r. split_and!; [done..|]. exists fs. split; [done|]. by apply elsewhere_as_sequential.
Qed.

(** *** What was copied stays *)

Lemma replays_files fs0 log fs p :
  Forall (λ e, en_asset e ∈ requested) log → replays fs0 log fs →
  fs_files fs !! p = fs_files fs0 !! p ∨ ∃ e, e ∈ log ∧ destination (en_asset e) = p ∧ fs_files fs !! p = (cp (en_asset e)).1.
Proof using shell_cp.
  intros Hreq Hrep. induction Hrep as [|log fs e fs' _ IH Hc]; [by left|].
  apply Forall_app in Hreq as [Hreq He]. rewrite Forall_singleton in He. specialize (IH Hreq).
  assert (Hold : fs_files fs' !! p = fs_files fs !! p →
    fs_files fs' !! p = fs_files fs0 !! p ∨
    ∃ e', e' ∈ log ++ [e] ∧ destination (en_asset e') = p ∧ fs_files fs' !! p = (cp (en_asset e')).1).
  { intros ->. destruct IH as [IH|(e' & He' & Hd & Hf)]; [by left|]. right. exists e'. split; [|done]. apply elem_of_app. by left. }
  destruct (path_exists fs (destination (en_asset e))) eqn:E.
  - rewrite copy_asset_present in Hc by done. injection Hc as <- _. by apply Hold.
  - rewrite copy_asset_absent in Hc by done. injection Hc as <- _. destruct (decide (destination (en_asset e) = p)) as [<-|Hne].
    + right. exists e. split_and!; [apply elem_of_app; right; apply list_elem_of_here|done|]. cbn. apply lookup_partial_alter_eq.
    + apply Hold. cbn. by rewrite lookup_partial_alter_ne.
Qed.

Lemma replays_exists fs0 log fs e :
  (∀ asset, (cp asset).2 = 0 → is_Some (cp asset).1) → Forall (λ e, en_asset e ∈ requested) log →
  replays fs0 log fs → e ∈ log → en_result e = Ok () → path_exists fs (destination (en_asset e)) = true.
Proof using shell_cp.
  intros Hcp Hreq Hrep. induction Hrep as [|log fs e' fs' _ IH Hc]; [set_solver|]. intros He Hok.
  apply Forall_app in Hreq as [Hreq He']. rewrite Forall_singleton in He'. specialize (IH Hreq).
  destruct (path_exists fs (destination (en_asset e'))) eqn:E.
  - rewrite copy_asset_present in Hc by done. injection Hc as <- Hc.
    apply elem_of_app in He as [He| ->%list_elem_of_singleton]; [by apply IH|done].
  - rewrite copy_asset_absent in Hc by done. injection Hc as <- Hc.
    apply elem_of_app in He as [He| ->%list_elem_of_singleton].
    + specialize (IH He Hok). assert (Hne : destination (en_asset e') ≠ destination (en_asset e)) by congruence.
      by rewrite <- (agree_exists _ fs) by by apply put_other.
    + rewrite Hok in Hc. apply raise_if_Ok, negb_false_iff, Z.eqb_eq, Hcp in Hc. unfold path_exists. cbn.
      apply orb_true_iff. right. rewrite lookup_partial_alter_eq. by apply bool_decide_eq_true_2.
Qed.

(** *** What holds of every interleaving *)

(** C20: Copying the shared assets under the lock is linearizable: whatever the interleaving, whenever the
    lock is free the destinations are as if the finished rounds had been run one after the other, alone,
    with the same outcomes; and every request has gone through a prefix of its assets, in their order. *)
Theorem assets_as_if_sequential fs0 log s :
  reachable fs0 log s → st_lock s = None →
  (∃ fs, replays fs0 log fs ∧ ∀ p, p ∈ watched → agree_at p fs (st_fs s)) ∧
  (∀ i t, st_tasks s !! i = Some t → ∃ r, requests !! i = Some r ∧ rounds_of i log ++ tk_assets t = r.2).
Proof using shell_cp.
  intros (Hl & [Ho _] & fs & Hr & Has)%reachable_invariant Hn. split; [|done]. exists fs. split; [done|]. intros p Hp.
  apply sequential_agree; [done..|]. intros i asset Hc. by destruct (nobody_copying _ _ _ Hl Hn Hc).
Qed.


(** *** Progress *)

(** Ready for the lock. *)
Definition ready (t : task) : bool := match tk_phase t, tk_assets t with Waiting, _ :: _ => true | _, _ => false end.

Definition over (t : task) : Prop := tk_assets t = [] ∨ ∃ e, tk_phase t = Raised e.

(** How many moves a request has left at most. *)
Definition moves_left (t : task) : nat :=
  match tk_phase t with
  | Waiting => 2 * length (tk_assets t)
  | Copying => 2 * length (tk_assets t) - 1
  | Raised _ => 0
  end.

Definition pending (s : state) : nat := sum_list (moves_left <$> st_tasks s).

Lemma sum_insert (ts : list task) i t t' :
  ts !! i = Some t → (sum_list (moves_left <$> <[i := t']> ts) + moves_left t = sum_list (moves_left <$> ts) + moves_left t')%nat.
Proof using Type.
  revert i. induction ts as [|u ts IH]; intros [|i]; [done..| |].
  - intros [= ->]. cbn [insert list_insert]. rewrite !fmap_cons. cbn [sum_list sum_list_with id]. lia.
  - intros Hi%IH. change (<[S i := t']> (u :: ts)) with (u :: <[i := t']> ts). rewrite !fmap_cons.
    cbn [sum_list sum_list_with id]. lia.
Qed.

Lemma move_pending s e s' : move s e s' → (pending s' < pending s)%nat.
Proof using Type.
  intros Hm. destruct Hm as [s i t e s' Ht H|s i t e s' Ht H]; unfold pending.
  - apply enter_Some in H as (env & asset & rest & -> & _ & [(_ & _ & ->)|(_ & _ & ->)]); cbn [st_tasks].
    + pose proof (sum_insert _ _ _ (Task env rest Waiting) Ht) as H. cbn [moves_left tk_phase tk_assets length] in H. lia.
    + pose proof (sum_insert _ _ _ (Task env (asset :: rest) Copying) Ht) as H. cbn [moves_left tk_phase tk_assets length] in H. lia.
  - apply leave_Some in H as (env & asset & rest & -> & _ & ->); cbn [st_tasks].
    pose proof (sum_insert _ _ _ (Task env rest match copy_result asset (cp asset).2 with Ok _ => Waiting | Err e => Raised e end) Ht) as H.
    destruct (copy_result asset (cp asset).2); cbn [moves_left tk_phase tk_assets length] in H; lia.
Qed.

(** No request waits for ever for the lock: as long as one is in its loop, some request can go on, and
    every time one does the number of moves left gets smaller, however the copy processes behave. *)
Theorem assets_progress fs0 log s :
  reachable fs0 log s →
  (Forall over (st_tasks s) ∨ ∃ e s', move s e s') ∧
  (∀ e s', move s e s' → (pending s' < pending s)%nat) ∧
  (∀ e s', step s e s' → move s e s' ∨ e = None ∧ st_tasks s' = st_tasks s).
Proof using shell_cp.
  intros ((Hl & Hh) & _)%reachable_invariant. split_and!.
  - destruct (st_lock s) as [i|] eqn:E.
    + right. destruct (Hh _ eq_refl) as (asset & env & rest & Ht). eexists _, _. by eapply move_leave.
    + destruct (decide (Exists (λ t, ready t = true) (st_tasks s))) as [Hsome|Hall].
      * right. apply Exists_exists in Hsome as (t & (i & Ht)%list_elem_of_lookup & Hr).
        assert (is_Some (enter i t s)) as [[e s'] He].
        { unfold enter. rewrite E. destruct t as [env [|asset rest] []]; try done. cbn. destruct (path_exists _ _); eauto. }
        exists e, s'. by eapply move_enter.
      * left. apply Forall_forall. intros t (i & Ht)%list_elem_of_lookup. destruct t as [env [|asset rest] []]; [by left..| | |by right; eexists].
        -- destruct Hall. apply Exists_exists. eexists. split; [by eapply list_elem_of_lookup_2|done].
        -- specialize (Hl _ _ Ht eq_refl). congruence.
  - apply move_pending.
  - intros e s' Hs. destruct Hs; [by left|by right..].
Qed.

(** *** Runs of a scheduler *)

Inductive turn := Enter (i : nat) | Leave (i : nat) | Writes (i : nat) (content : string).

Definition take_turn (a : turn) (s : state) : option (option entry * state) :=
  match a with
  | Enter i => t ← st_tasks s !! i; enter i t s
  | Leave i => t ← st_tasks s !! i; leave i t s
  | Writes i content =>
      match st_tasks s !! i with
      | Some (Task _ (asset :: _) Copying) =>
          Some (None, State (put (destination asset) (Some content) (st_fs s)) (st_lock s) (st_tasks s))
      | _ => None
      end
  end.

Fixpoint play (turns : list turn) (log : list entry) (s : state) : option (list entry * state) :=
  match turns with
  | [] => Some (log, s)
  | a :: rest => '(e, s') ← take_turn a s; play rest (log ++ ended e) s'
  end.

Lemma take_turn_step a s e s' : take_turn a s = Some (e, s') → step s e s'.
Proof using Type.
  destruct a as [i|i|i content]; cbn [take_turn].
  - intros (t & Ht & H)%bind_Some. apply step_move. by eapply move_enter.
  - intros (t & Ht & H)%bind_Some. apply step_move. by eapply move_leave.
  - destruct (st_tasks s !! i) as [[env [|asset rest] []]|] eqn:E; intros [= <- <-]. by eapply step_copying.
Qed.

Lemma play_reachable fs0 turns log s log' s' :
  reachable fs0 log s → play turns log s = Some (log', s') → reachable fs0 log' s'.
Proof using Type.
  revert log s. induction turns as [|a turns IH]; intros log s Hr; cbn [play]; [by intros [= <- <-]|].
  intros ([e s1] & Ha & H)%bind_Some. eapply IH; [|done]. eapply reachable_step; [done|]. by apply (take_turn_step a).
Qed.

End Assets.

(** Two requests; the copy of [y] fails and leaves a part of the file. *)
Definition demo_requests : list (environment * list string) := [([], ["/a/x.bin"]); ([], ["/b/x.bin"; "/a/y"])].

Definition demo_cp (asset : string) : option string * Z :=
  if String.eqb asset "/a/x.bin" then (Some "whole", 0)
  else if String.eqb asset "/b/x.bin" then (Some "other", 0) else (Some "par", 1).

Definition demo_shell (command directory : string) (env : environment) (fs : filesystem) : filesystem * Z :=
  match find (λ a, String.eqb command ("cp -- " +:+ quote a +:+ " " +:+ quote "run" +:+ "/")) ["/a/x.bin"; "/b/x.bin"; "/a/y"] with
  | Some asset => (put (destination "run" asset) (demo_cp asset).1 fs, (demo_cp asset).2)
  | None => (fs, 127)
  end.

Definition demo_world : world :=
  World [] (λ _, Err (ValueError "Expecting value")) (λ _ _, None) Z.of_nat demo_shell (λ _ _, (0, "")) (λ _ _ _ _ _, Err TypeError).

Definition demo_start : state := State (Filesystem ∅ ∅) None (arrivals demo_requests).

Lemma demo_shell_cp asset env fs :
  asset ∈ requested demo_requests → path_exists fs (destination "run" asset) = false →
  w_shell demo_world ("cp -- " +:+ quote asset +:+ " " +:+ quote "run" +:+ "/") "run" env fs =
    (put (destination "run" asset) (demo_cp asset).1 fs, (demo_cp asset).2).
Proof. cbn. rewrite !elem_of_cons. intros [->|[->|[->|[]%elem_of_nil]]] _; reflexivity. Qed.

Lemma demo_cp_leaves asset : (demo_cp asset).2 = 0 → is_Some (demo_cp asset).1.
Proof. unfold demo_cp. by repeat case_match. Qed.

(** While [/a/x.bin] is copied the other request waits; then it takes that file for its own. *)
Definition demo_turns : list turn := [Enter 0; Writes 0 "wh"; Leave 0; Enter 1; Enter 1; Leave 1].

Definition failed_copy : exn := RuntimeError "shared worker asset copy failed: /a/y".

Lemma assets_as_if_sequential_witness :
  ∃ log s fs, play "run" demo_cp demo_turns [] demo_start = Some (log, s) ∧
    replays demo_world "run" (Filesystem ∅ ∅) log fs ∧ agree_at "run/x.bin" fs (st_fs s) ∧
    en_result <$> log = [Ok (); Ok (); Err failed_copy].
Proof.
  destruct (play "run" demo_cp demo_turns [] demo_start) as [[log s]|] eqn:E; [|by vm_compute in E].
  assert (Hr : reachable "run" demo_cp demo_requests (Filesystem ∅ ∅) log s).
  { eapply play_reachable; [apply reachable_init|exact E]. }
  assert (Hp : play "run" demo_cp demo_turns [] demo_start =
    Some ([Entry 0 [] "/a/x.bin" (Ok ()); Entry 1 [] "/b/x.bin" (Ok ()); Entry 1 [] "/a/y" (Err failed_copy)],
          State (put "run/y" (Some "par") (put "run/x.bin" (Some "whole") (put "run/x.bin" (Some "wh") (Filesystem ∅ ∅)))) None
            [Task [] [] Waiting; Task [] [] (Raised failed_copy)])) by (vm_compute; reflexivity).
  rewrite Hp in E. injection E as <- <-.
  destruct (assets_as_if_sequential demo_world "run" demo_cp demo_requests demo_shell_cp _ _ _ Hr eq_refl) as [(fs & Hrep & Hag) _].
  eexists _, _, fs. split_and!; [reflexivity|exact Hrep| |reflexivity]. apply Hag. apply list_elem_of_here.
Defined.


(** The second request can go on when the first has failed. *)
Lemma assets_progress_witness :
  ∃ log s, play "run" demo_cp [Enter 1; Enter 0] [] demo_start = None ∧
    play "run" demo_cp [Enter 1; Leave 1; Enter 1; Leave 1] [] demo_start = Some (log, s) ∧
    ∃ e s', move "run" demo_cp s e s' ∧ (pending s' < pending s)%nat.
Proof.
  destruct (play "run" demo_cp [Enter 1; Leave 1; Enter 1; Leave 1] [] demo_start) as [[log s]|] eqn:E; [|by vm_compute in E].
  assert (Hr : reachable "run" demo_cp demo_requests (Filesystem ∅ ∅) log s).
  { eapply play_reachable; [apply reachable_init|exact E]. }
  destruct (assets_progress demo_world "run" demo_cp demo_requests demo_shell_cp _ _ _ Hr) as (Hp & Hs & _).
  exists log, s. split; [reflexivity|]. split; [reflexivity|]. destruct Hp as [Hall|(e & s' & Hm)].
  - exfalso. vm_compute in E. injection E as <- <-. apply Forall_cons in Hall as [[H|[e H]] _]; discriminate H.
  - exists e, s'. split; [exact Hm|]. by apply (Hs e).
Defined.

(** A copy that fails leaves its part of the file to the next request, which takes it for the asset. *)
Example fragment_accepted :
  ∃ s, play "run" demo_cp [Enter 0; Leave 0; Enter 1] [] (State (Filesystem ∅ ∅) None (arrivals [([], ["/a/y"]); ([], ["/a/y"])])) =
      Some ([Entry 0 [] "/a/y" (Err failed_copy); Entry 1 [] "/a/y" (Ok ())], s) ∧
    fs_files (st_fs s) !! "run/y" = Some "par".
Proof. eexists. split; reflexivity. Qed.
End Assets.

(** ** The output of a child *)

Module Output.

(** What one [forward_stream] does next: it reads, it holds a chunk and wants the lock, it waits for
    [drain] with the lock, or it has met the end of the stream. *)
Inductive phase := Reading | Sending (chunk : string) | Draining | Ended.

(** The stream's name, the bytes the child has written that are not read yet. *)
Record task := Task { tk_name : string; tk_unread : string; tk_phase : phase }.

Record state := State {
  st_tasks : list task;
  st_lock : option nat;        (** the task that holds the connection's lock *)
  st_sent : list pydict;       (** frames, in the order of [writer.write] *)
}.

Definition CHUNK : nat := 4096.

(** [stream.read(4096)] returns a part of what is there, [size] bytes. *)
Definition read_chunk (size : nat) (t : task) : option task :=
  match tk_phase t with
  | Reading =>
      if String.eqb (tk_unread t) "" then Some (Task (tk_name t) "" Ended)
      else if ((1 <=? size) && (size <=? CHUNK) && (size <=? str_length (tk_unread t)))%nat
      then Some (Task (tk_name t) (str_drop size (tk_unread t)) (Sending (str_take size (tk_unread t))))
      else None
  | _ => None
  end.

(** [send], up to [drain] and after it. *)
Definition send (i : nat) (t : task) (s : state) : option state :=
  match tk_phase t, st_lock s with
  | Sending chunk, None =>
      Some (State (<[i := Task (tk_name t) (tk_unread t) Draining]> (st_tasks s)) (Some i)
              (st_sent s ++ [output_frame (tk_name t) chunk]))
  | _, _ => None
  end.

Definition drained (i : nat) (t : task) (s : state) : option state :=
  match tk_phase t with
  | Draining => Some (State (<[i := Task (tk_name t) (tk_unread t) Reading]> (st_tasks s)) None (st_sent s))
  | _ => None
  end.

Inductive step : state → state → Prop :=
  | step_read s i t size t' :
      st_tasks s !! i = Some t → read_chunk size t = Some t' →
      step s (State (<[i := t']> (st_tasks s)) (st_lock s) (st_sent s))
  | step_send s i t s' : st_tasks s !! i = Some t → send i t s = Some s' → step s s'
  | step_drained s i t s' : st_tasks s !! i = Some t → drained i t s = Some s' → step s s'.

(** [output_tasks] *)
Definition start (out err : string) : state := State [Task "stdout" out Reading; Task "stderr" err Reading] None [].

Definition unsent (t : task) : string :=
  match tk_phase t with Sending chunk => chunk +:+ tk_unread t | Ended => "" | _ => tk_unread t end.

(** What is sent of a stream, with what is not sent yet. *)
Definition accounts (chunks : list (string * string)) (t : task) : string :=
  bytes_of (String.eqb (tk_name t) "stdout") chunks +:+ unsent t.

Definition conserved (out err : string) (s : state) : Prop :=
  ∃ chunks a b, st_sent s = ((λ c, output_frame c.1 c.2) <$> chunks) ∧ st_tasks s = [a; b] ∧
    tk_name a = "stdout" ∧ tk_name b = "stderr" ∧ accounts chunks a = out ∧ accounts chunks b = err.

Lemma bytes_of_snoc stdout chunks name data :
  bytes_of stdout (chunks ++ [(name, data)]) =
    bytes_of stdout chunks +:+ (if bool_decide (String.eqb name "stdout" = stdout) then data else "").
Proof.
  unfold bytes_of. rewrite filter_app, fmap_app, filter_cons, join_app. cbn [fst]. f_equal.
  by destruct (decide (String.eqb name "stdout" = stdout)); case_bool_decide.
Qed.

Lemma read_chunk_accounts size t t' chunks :
  read_chunk size t = Some t' → tk_name t' = tk_name t ∧ accounts chunks t' = accounts chunks t.
Proof.
  unfold read_chunk, accounts, unsent. destruct (tk_phase t); [|done..]. destruct (String.eqb_spec (tk_unread t) "") as [He|_].
  - intros [= <-]. cbn. by rewrite He.
  - destruct (_ && _)%nat; [|done]. intros [= <-]. cbn [tk_name tk_phase tk_unread]. by rewrite str_take_drop.
Qed.

Lemma send_accounts i t s s' chunks :
  send i t s = Some s' → st_sent s = ((λ c, output_frame c.1 c.2) <$> chunks) →
  ∃ data t', tk_name t' = tk_name t ∧ st_tasks s' = <[i := t']> (st_tasks s) ∧
    st_sent s' = ((λ c, output_frame c.1 c.2) <$> chunks ++ [(tk_name t, data)]) ∧
    accounts (chunks ++ [(tk_name t, data)]) t' = accounts chunks t.
Proof.
  unfold send. destruct (tk_phase t) as [|data| |] eqn:E, (st_lock s); try done. intros [= <-] Hs. cbn.
  exists data, (Task (tk_name t) (tk_unread t) Draining). split_and!; [done|done|by rewrite Hs, fmap_app|].
  unfold accounts, unsent. cbn [tk_name tk_phase tk_unread]. rewrite E, bytes_of_snoc, bool_decide_eq_true_2 by done.
  by rewrite str_app_assoc.
Qed.

Lemma accounts_other chunks name data t :
  String.eqb name "stdout" ≠ String.eqb (tk_name t) "stdout" → accounts (chunks ++ [(name, data)]) t = accounts chunks t.
Proof. intros Hne. unfold accounts. by rewrite bytes_of_snoc, bool_decide_eq_false_2, str_app_nil_r by done. Qed.

Lemma step_conserved out err s s' : conserved out err s → step s s' → conserved out err s'.
Proof.
  intros (chunks & a & b & Hsent & Hts & Ha & Hb & Hout & Herr) Hs.
  assert (Hi : ∀ i t, st_tasks s !! i = Some t → i = 0%nat ∧ t = a ∨ i = 1%nat ∧ t = b).
  { intros [|[|i]] t; rewrite Hts; cbn; naive_solver. }
  destruct Hs as [s i t size t' Ht H|s i t s' Ht H|s i t s' Ht H].
  - apply (read_chunk_accounts _ _ _ chunks) in H as [Hn Hacc]. apply Hi in Ht as [[-> ->]|[-> ->]].
    + exists chunks, t', b. cbn. rewrite Hts. split_and!; [done|done|congruence..].
    + exists chunks, a, t'. cbn. rewrite Hts. split_and!; [done|done|congruence..].
  - destruct (send_accounts _ _ _ _ _ H Hsent) as (data & t' & Hn & Hts' & Hsent' & Hacc). apply Hi in Ht as [[-> ->]|[-> ->]].
    + exists (chunks ++ [(tk_name a, data)]), t', b. rewrite Hts', Hts. split_and!; [done|done|congruence..|].
      rewrite accounts_other; [done|]. by rewrite Ha, Hb.
    + exists (chunks ++ [(tk_name b, data)]), a, t'. rewrite Hts', Hts. split_and!; [done|done|congruence..| |congruence].
      rewrite accounts_other; [done|]. by rewrite Ha, Hb.
  - unfold drained in H. destruct (tk_phase t) eqn:E; try done. injection H as <-.
    assert (Hacc : accounts chunks (Task (tk_name t) (tk_unread t) Reading) = accounts chunks t).
    { unfold accounts, unsent. cbn. by rewrite E. }
    apply Hi in Ht as [[-> ->]|[-> ->]].
    + eexists chunks, _, b. cbn. rewrite Hts. split_and!; [done|done|cbn; congruence..].
    + eexists chunks, a, _. cbn. rewrite Hts. split_and!; [done|done|cbn; congruence..].
Qed.

Definition finished (s : state) : Prop := Forall (λ t, tk_phase t = Ended) (st_tasks s).

Inductive reachable (out err : string) : state → Prop :=
  | reachable_start : reachable out err (start out err)
  | reachable_step s s' : reachable out err s → step s s' → reachable out err s'.

Lemma reachable_sent out err s : reachable out err s → conserved out err s.
Proof.
  induction 1 as [|s s' _ IH Hs]; [|by eapply step_conserved].
  exists [], (Task "stdout" out Reading), (Task "stderr" err Reading). by split_and!.
Qed.

(** C22: However the event loop interleaves the two tasks, and however the child's output is cut into
    chunks, once both have ended the frames on the connection make the proxy write exactly the
    child's two streams, and the exit frame that follows makes it return the child's exit code. *)
Theorem output_relayed out err s rc :
  reachable out err s → finished s →
  relay (st_sent s ++ [exit_frame rc]) (Written "" "") = (Written out err, Ok rc).
Proof.
  intros (chunks & a & b & Hsent & Hts & Ha & Hb & Hout & Herr)%reachable_sent Hf.
  unfold finished in Hf. rewrite Hts in Hf. apply Forall_cons in Hf as [Hfa Hf]. apply Forall_cons in Hf as [Hfb _].
  rewrite Hsent, relay_outputs, relay_exit, foldl_write_output. cbn [wr_stdout wr_stderr].
  unfold accounts, unsent in Hout, Herr. rewrite Hfa, Ha, str_app_nil_r in Hout. rewrite Hfb, Hb, str_app_nil_r in Herr.
  cbn in Hout, Herr. by rewrite Hout, Herr.
Qed.

(** *** A run of a scheduler *)

Inductive turn := Reads (i size : nat) | Sends (i : nat) | Drains (i : nat).

Definition take_turn (a : turn) (s : state) : option state :=
  match a with
  | Reads i size => t ← st_tasks s !! i; t' ← read_chunk size t; Some (State (<[i := t']> (st_tasks s)) (st_lock s) (st_sent s))
  | Sends i => t ← st_tasks s !! i; send i t s
  | Drains i => t ← st_tasks s !! i; drained i t s
  end.

Lemma take_turn_reachable out err a s s' : reachable out err s → take_turn a s = Some s' → reachable out err s'.
Proof.
  intros Hr H. eapply reachable_step; [done|]. destruct a as [i size|i|i]; cbn [take_turn] in H.
  - apply bind_Some in H as (t & Ht & H). apply bind_Some in H as (t' & Ht' & [= <-]). by eapply step_read.
  - apply bind_Some in H as (t & Ht & H). by eapply step_send.
  - apply bind_Some in H as (t & Ht & H). by eapply step_drained.
Qed.

Fixpoint play (turns : list turn) (s : state) : option state :=
  match turns with [] => Some s | a :: rest => s' ← take_turn a s; play rest s' end.

Lemma play_turns out err turns s s' : reachable out err s → play turns s = Some s' → reachable out err s'.
Proof.
  revert s. induction turns as [|a turns IH]; intros s Hr; cbn [play]; [by intros [= <-]|].
  intros (s1 & Ha & H)%bind_Some. by eapply IH; [eapply take_turn_reachable|].
Qed.

(** The second chunk of [stdout] is sent after the one of [stderr]. *)
Definition demo_turns : list turn :=
  [Reads 0 1; Reads 1 1; Sends 0; Drains 0; Sends 1; Reads 0 1; Drains 1; Sends 0; Drains 0; Reads 0 1; Reads 1 1].

Lemma output_relayed_witness :
  ∃ s, play demo_turns (start "ab" "c") = Some s ∧
    st_sent s = [output_frame "stdout" "a"; output_frame "stderr" "c"; output_frame "stdout" "b"] ∧
    relay (st_sent s ++ [exit_frame 3]) (Written "" "") = (Written "ab" "c", Ok 3).
Proof.
  destruct (play demo_turns (start "ab" "c")) as [s|] eqn:E; [|by vm_compute in E].
  pose proof (play_turns _ _ _ _ _ (reachable_start "ab" "c") E) as Hr.
  assert (Hp : play demo_turns (start "ab" "c") = Some (State [Task "stdout" "" Ended; Task "stderr" "" Ended] None
    [output_frame "stdout" "a"; output_frame "stderr" "c"; output_frame "stdout" "b"])) by (vm_compute; reflexivity).
  rewrite Hp in E. injection E as <-. eexists. split; [reflexivity|]. split; [reflexivity|].
  apply (output_relayed "ab" "c" _ 3 Hr). by repeat constructor.
Defined.

End Output.

(** ** The input of a child *)

Module Input.

(** [write_json]: one frame with its line break. *)
Definition frame_text (message : pydict) : string := json_dumps (PDict message) +:+ nl.

Definition stdin_frame (data : string) : pydict := [("op", PStr "stdin"); ("data", PStr (b64encode data))].

(** What the forwarding thread of the proxy meets, by round. *)
Record conditions := Conditions {
  cd_stopped : nat → bool;      (** [stop_stdin.is_set()] *)
  cd_size : nat → nat;          (** how much [os.read] returns of what is there *)
  cd_broken : nat → bool;       (** an [OSError] of the write *)
}.

(** [os.read] of at most 4096 bytes returns at least one unless the input is at its end. *)
Definition read_size (n : nat) : nat := Nat.max 1 (Nat.min n 4096).

(** [forward_stdin] of [process_proxy.py]: what it sent in each round, and whether it met the end of the input. *)
Fixpoint forward_stdin_go (fuel : nat) (c : conditions) (i : nat) (stdin : string) : list string * bool :=
  match fuel with
  | O => ([], false)
  | S fuel =>
      if cd_stopped c i then ([], false)
      else if String.eqb stdin "" then ([], true)
      else if cd_broken c i then ([], false)
      else
        let n := read_size (cd_size c i) in
        let '(chunks, whole) := forward_stdin_go fuel c (S i) (str_drop n stdin) in (str_take n stdin :: chunks, whole)
  end.

(** Every round takes a byte. *)
Definition forward_stdin (c : conditions) (stdin : string) : list string * bool :=
  forward_stdin_go (S (str_length stdin)) c 0 stdin.

(** The lines on the connection. *)
Definition lines_of (chunks : list string) : list string := (λ data, frame_text (stdin_frame data)) <$> chunks.

Abbreviation is_ascii := (λ c, (ord c <=? 127)%nat).

Lemma json_char_ascii c : is_ascii c = true → str_forallb is_ascii (json_chars (String c "")) = true.
Proof. destruct c as [[] [] [] [] [] [] [] []]; vm_compute; congruence. Qed.

Lemma json_chars_ascii s : str_forallb is_ascii s = true → str_forallb is_ascii (json_chars s) = true.
Proof.
  induction s as [|c s IH]; [done|]. cbn [str_forallb]. intros [Hc Hs]%andb_true_iff.
  pose proof (json_char_ascii c Hc) as Hj. cbn [json_chars] in *. rewrite str_app_nil_r in Hj.
  by rewrite str_forallb_app, Hj, IH.
Qed.

Lemma json_str_ascii s : str_forallb is_ascii s = true → str_forallb is_ascii (json_str s) = true.
Proof. intros Hs. unfold json_str. rewrite str_forallb_app. cbn [str_forallb]. by rewrite (json_chars_ascii s Hs). Qed.

Lemma frame_text_ascii data : str_forallb is_ascii (frame_text (stdin_frame data)) = true.
Proof.
  unfold frame_text, stdin_frame. cbn [json_dumps fmap list_fmap join fst snd].
  rewrite !str_forallb_app, !json_str_ascii by (done || apply b64encode_ascii). reflexivity.
Qed.

Lemma serve_stdin w data :
  w_json_loads w (frame_text (stdin_frame data)) = Ok (PDict (stdin_frame data)) →
  serve_line w (frame_text (stdin_frame data)) = Ok ([ToStdin data], true).
Proof.
  intros Hj. unfold serve_line.
  assert (Hne : String.eqb (frame_text (stdin_frame data)) "" = false) by done. rewrite Hne.
  rewrite decode_utf8_ascii by apply frame_text_ascii. cbn [mbind result_bind]. rewrite Hj.
  cbn -[b64decode b64encode]. by rewrite b64decode_encode.
Qed.

Lemma str_length_drop n s : (str_length (str_drop n s) ≤ str_length s)%nat.
Proof. revert s. induction n as [|n IH]; intros [|c s]; cbn [str_drop str_length]; [lia..|]. specialize (IH s). lia. Qed.

(** The lines are parsed as they were printed. *)
Definition parsed (w : world) (chunks : list string) : Prop :=
  Forall (λ data, w_json_loads w (frame_text (stdin_frame data)) = Ok (PDict (stdin_frame data))) chunks.

Lemma serve_lines w chunks : parsed w chunks → serve w (lines_of chunks) = (ToStdin <$> chunks, Ok ()).
Proof. induction 1 as [|data chunks Hd _ IH]; [done|]. unfold lines_of in *. rewrite !fmap_cons. cbn [serve]. by rewrite serve_stdin, IH. Qed.

Lemma forward_stdin_go_reads c fuel i stdin :
  ∃ rest,
    join "" (forward_stdin_go fuel c i stdin).1 +:+ rest = stdin ∧
    ((forward_stdin_go fuel c i stdin).2 = true → rest = "") ∧
    ((str_length stdin < fuel)%nat → (∀ j, cd_stopped c j = false ∧ cd_broken c j = false) →
       (forward_stdin_go fuel c i stdin).2 = true).
Proof.
  revert i stdin. induction fuel as [|fuel IH]; intros i stdin; cbn [forward_stdin_go].
  { exists stdin. split_and!; [done..|lia]. }
  destruct (cd_stopped c i) eqn:Es.
  { exists stdin. split_and!; [done..|]. intros _ Hok. by rewrite (proj1 (Hok i)) in Es. }
  destruct (String.eqb_spec stdin "") as [->|Hne]; [exists ""; by split_and!|].
  destruct (cd_broken c i) eqn:Eb.
  { exists stdin. split_and!; [done..|]. intros _ Hok. by rewrite (proj2 (Hok i)) in Eb. }
  set (n := read_size (cd_size c i)). destruct (IH (S i) (str_drop n stdin)) as (rest & Hcat & Hend & Hfuel).
  destruct (forward_stdin_go fuel c (S i) (str_drop n stdin)) as [chunks whole]. cbn [fst snd] in *.
  exists rest. split_and!; [by rewrite join_nothing_cons, str_app_assoc, Hcat, str_take_drop|done|].
  intros Hlt. apply Hfuel. destruct stdin as [|ch stdin]; [done|].
  assert (Hn : ∃ m, n = S m) by (exists (Nat.pred n); unfold n, read_size; lia). destruct Hn as [m ->].
  cbn [str_drop str_length] in *. pose proof (str_length_drop m stdin). lia.
Qed.

(** The child's standard input is the proxy's: whatever the sizes of the reads, the worker writes to the child
    a beginning of what the proxy was given, in order, without refusing a frame; all of it when the
    forwarding thread met the end of its input, which it does unless it is stopped or cannot write. *)
Theorem stdin_delivered w c stdin :
  let '(chunks, whole) := forward_stdin c stdin in
  parsed w chunks →
  serve w (lines_of chunks) = (ToStdin <$> chunks, Ok ()) ∧
  (∃ rest, join "" chunks +:+ rest = stdin ∧ (whole = true → rest = "")) ∧
  ((∀ j, cd_stopped c j = false ∧ cd_broken c j = false) → whole = true).
Proof.
  destruct (forward_stdin_go_reads c (S (str_length stdin)) 0 stdin) as (rest & Hcat & Hend & Hfuel).
  unfold forward_stdin. destruct (forward_stdin_go _ _ _ _) as [chunks whole]. cbn [fst snd] in *. intros Hp.
  split_and!; [by apply serve_lines|by exists rest|]. apply Hfuel. lia.
Qed.

Definition demo_conditions : conditions := Conditions (λ _, false) (λ i, if (i =? 0)%nat then 2%nat else 9%nat) (λ _, false).

Definition demo_world : world :=
  World [] (λ text, if String.eqb text (frame_text (stdin_frame "go")) then Ok (PDict (stdin_frame "go"))
                    else if String.eqb text (frame_text (stdin_frame "!")) then Ok (PDict (stdin_frame "!"))
                    else Err (ValueError "Expecting value"))
    (λ _ _, None) Z.of_nat (λ _ _ _ fs, (fs, 0)) (λ _ _, (0, "")) (λ _ _ _ _ _, Err TypeError).

Lemma stdin_delivered_witness :
  parsed demo_world (forward_stdin demo_conditions "go!").1 ∧
  serve demo_world (lines_of ["go"; "!"]) = ([ToStdin "go"; ToStdin "!"], Ok ()).
Proof.
  assert (Hp : parsed demo_world (forward_stdin demo_conditions "go!").1) by (repeat constructor).
  split; [exact Hp|]. exact (proj1 (stdin_delivered demo_world demo_conditions "go!" Hp)).
Defined.

End Input.
