(* ===== verification/Supervisor.v ===== *)
(** * The supervisor of one worker's transport

    Model of [src/real/simbricks_worker_supervisor.py]: the gateways and socket processes of all
    peer links are started, listeners before connectors, then the router and the worker; a
    failure of any transport ends the run and every child is stopped.  Processes, files, name
    resolution and the clock are functions of a tick that every [sleep] advances. *)

From S2P Require Import Prelude PyValue Topology Routing Router Worker.

(** ** The world and the state *)

Record world := World {
  now : nat → Z;                            (** milliseconds *)
  exists_path : string → nat → bool;
  poll : nat → nat → option Z;              (** return code of a process once it has exited *)
  lookup_host : string → nat → option string;
  exits_within : nat → nat → bool;          (** [wait(timeout=10)] returns *)
}.

Inductive event :=
  | Started (pid : nat) (command : list string)
  | Unlinked (path : string)
  | Terminated (pid : nat)
  | Killed (pid : nat).

Record state := State {
  tick : nat;
  trace : list event;
  started : nat;                            (** processes started so far *)
  children : list (nat * list string);      (** the list [children], with the commands *)
}.

(** [Running]: a loop was still going on when its fuel ended. *)
Inductive outcome (A : Type) := Done (a : A) | Raised (e : exn) | Running.
Arguments Done {A} a.
Arguments Raised {A} e.
Arguments Running {A}.

Definition S_ (A : Type) : Type := state → state * outcome A.

#[export] Instance S_ret : MRet S_ := λ A a s, (s, Done a).
#[export] Instance S_bind : MBind S_ := λ A B f m s,
  match m s with
  | (s', Done a) => f a s'
  | (s', Raised e) => (s', Raised e)
  | (s', Running) => (s', Running)
  end.

Definition raise {A} (e : exn) : S_ A := λ s, (s, Raised e).
Definition get_tick : S_ nat := λ s, (s, Done (tick s)).
Definition emit (e : event) : S_ unit := λ s,
  (State (tick s) (trace s ++ [e]) (started s) (children s), Done ()).

(** [time.sleep] *)
Definition sleep : S_ unit := λ s, (State (S (tick s)) (trace s) (started s) (children s), Done ()).

Definition start (command : list string) : S_ nat := λ s,
  (State (tick s) (trace s ++ [Started (started s) command]) (S (started s)) (children s), Done (started s)).

(** [children.append(process)] *)
Definition adopt (pid : nat) (command : list string) : S_ unit := λ s,
  (State (tick s) (trace s) (started s) (children s ++ [(pid, command)]), Done ()).

Definition loop_fuel (w : world) (deadline : Z) (t : nat) : nat := S (S (Z.to_nat (deadline - now w t))).

(** ** Waiting *)

(** A polling loop: [probe] looks at the world at one tick and says how the loop ends, or [None]
    when it sleeps and looks again.  [wait_until] gives it fuel up to the deadline. *)
Fixpoint poll_loop {A} (probe : nat → option (outcome A)) (fuel : nat) : S_ A :=
  match fuel with
  | O => λ s, (s, Running)
  | S fuel =>
      t ← get_tick;
      match probe t with
      | Some o => λ s, (s, o)
      | None => _ ← sleep; poll_loop probe fuel
      end
  end.

Definition wait_until {A} (w : world) (milliseconds : Z) (probe : Z → nat → option (outcome A)) : S_ A :=
  t ← get_tick;
  let deadline := now w t + milliseconds in
  poll_loop (probe deadline) (loop_fuel w deadline t).

Definition probe_path (w : world) (path : string) (pid : nat) (deadline : Z) (t : nat) : option (outcome unit) :=
  if exists_path w path t then Some (Done ())
  else match poll w pid t with
       | Some code => Some (Raised (RuntimeError ("transport process exited before creating " +:+ path +:+ ": " +:+ str_of_Z code)))
       | None =>
           if deadline <=? now w t
           then Some (Raised (RuntimeError ("transport process did not create " +:+ path +:+ " within 60 seconds")))
           else None
       end.

Definition wait_for_path (w : world) (path : string) (pid : nat) : S_ unit := wait_until w 60000 (probe_path w path pid).

(** The first process of a list that has exited. *)
Definition first_exited {A} (w : world) (t : nat) (l : list (A * nat)) : option (A * Z) :=
  head (omap (λ p, code ← poll w p.2 t; Some (p.1, code)) l).

Definition probe_ready (w : world) (paths : list (string * nat)) (timeout deadline : Z) (t : nat) : option (outcome unit) :=
  if forallb (λ p, exists_path w p.1 t) paths then Some (Done ())
  else match first_exited w t paths with
       | Some (path, code) =>
           Some (Raised (RuntimeError ("gateway exited before BaseIf became ready (" +:+ path +:+ "): " +:+ str_of_Z code)))
       | None =>
           if deadline <=? now w t
           then Some (Raised (RuntimeError ("BaseIf handshakes did not become ready within " +:+ str_of_Z timeout +:+ " seconds: "
                  +:+ join ", " (filter (λ p, exists_path w p t = false) paths.*1))))
           else None
       end.

Definition wait_for_ready (w : world) (paths : list (string * nat)) (timeout : Z) : S_ unit :=
  wait_until w (1000 * timeout) (probe_ready w paths timeout).

Definition probe_stable (w : world) (processes : list (string * nat)) (deadline : Z) (t : nat) : option (outcome unit) :=
  if negb (now w t <? deadline) then Some (Done ())
  else match first_exited w t processes with
       | Some (description, code) =>
           Some (Raised (RuntimeError ("transport exited after BaseIf became ready (" +:+ description +:+ "): " +:+ str_of_Z code)))
       | None => None
       end.

Definition wait_for_stable (w : world) (processes : list (string * nat)) (timeout : Z) : S_ unit :=
  wait_until w (1000 * timeout) (probe_stable w processes).

Definition probe_host (w : world) (service_name : string) (deadline : Z) (t : nat) : option (outcome string) :=
  if negb (now w t <? deadline)
  then Some (Raised (RuntimeError ("could not resolve " +:+ service_name +:+ " within 60 seconds")))
  else Done <$> lookup_host w service_name t.

Definition resolve_transport_service (w : world) (service_name : string) : S_ string :=
  wait_until w 60000 (probe_host w service_name).

Definition unlink_existing (w : world) (path : string) : S_ unit :=
  t ← get_tick;
  if exists_path w path t then emit (Unlinked path) else mret ().

Definition code_text (code : option Z) : string := match code with Some c => str_of_Z c | None => "None" end.

Fixpoint connector_loop (w : world) (command : list string) (socket_path : string) (timeout deadline : Z)
    (last_return_code : option Z) (fuel : nat) : S_ nat :=
  match fuel with
  | O => λ s, (s, Running)
  | S fuel =>
      t ← get_tick;
      if negb (now w t <? deadline)
      then raise (RuntimeError ("connector could not reach listener within " +:+ str_of_Z timeout +:+ " seconds: "
             +:+ code_text last_return_code))
      else
        _ ← unlink_existing w socket_path;
        connector ← start command;
        _ ← wait_for_path w socket_path connector;
        _ ← sleep;
        t ← get_tick;
        match poll w connector t with
        | None => mret connector
        | Some code =>
            _ ← unlink_existing w socket_path;
            _ ← sleep;
            connector_loop w command socket_path timeout deadline (Some code) fuel
        end
  end.

Definition start_connector_with_retry (w : world) (command : list string) (socket_path : string) (timeout : Z) : S_ nat :=
  t ← get_tick;
  let deadline := now w t + 1000 * timeout in
  connector_loop w command socket_path timeout deadline None (loop_fuel w deadline t).

(** ** main *)

Record arguments := Arguments {
  ar_slot : Z;
  ar_routing : string;
  ar_worker_port : Z;
  ar_router_port : Z;
  ar_gateway_base_port : Z;
}.

Record timeouts := Timeouts { ready_seconds : Z; connect_seconds : Z; stability_seconds : Z }.

Definition env_seconds (environ : environment) (name default_ : string) : result Z :=
  py_int_exn (dict_get_default name default_ environ).

Definition positive (name : string) (n : Z) : result unit := raise_if (n <? 1) (ValueError (name +:+ " must be positive")).

Definition read_timeouts (environ : environment) : result timeouts :=
  ready ← env_seconds environ "LEGOSIM_BASEIF_READY_TIMEOUT_SECONDS" "90";
  connect ← env_seconds environ "LEGOSIM_BASEIF_CONNECT_TIMEOUT_SECONDS" "60";
  stability ← env_seconds environ "LEGOSIM_BASEIF_STABILITY_TIMEOUT_SECONDS" "5";
  _ ← positive "LEGOSIM_BASEIF_READY_TIMEOUT_SECONDS" ready;
  _ ← positive "LEGOSIM_BASEIF_CONNECT_TIMEOUT_SECONDS" connect;
  _ ← positive "LEGOSIM_BASEIF_STABILITY_TIMEOUT_SECONDS" stability;
  Ok (Timeouts ready connect stability).

Definition run_path (prefix : string) (peer : Z) (suffix : string) : string :=
  "/run/simbricks/" +:+ prefix +:+ str_of_Z peer +:+ suffix.
Definition socket_path (peer : Z) : string := run_path "base-" peer ".sock".
Definition pool_path (peer : Z) : string := run_path "gateway-" peer ".pool".
Definition net_pool (peer : Z) : string := run_path "net-" peer ".pool".
Definition ready_path (peer : Z) : string := run_path "gateway-" peer ".ready".

(** [arguments.slot in {listener, connector}] *)
Definition local_channels (slot : Z) (t : topology) : list channel :=
  filter (λ c, slot = ch_listener_slot c ∨ slot = ch_connector_slot c) (top_channels t).

Definition gateway_command (a : arguments) (connect : bool) (peer : Z) : list string :=
  ["/usr/local/bin/simbricks-pipe-gateway"] ++ (if connect then ["--connect"] else []) ++
  ["--ready-file"; ready_path peer; socket_path peer; pool_path peer; str_of_Z (ar_gateway_base_port a + peer)].

Definition listener_command (c : channel) (peer : Z) : list string :=
  ["/opt/simbricks/dist/sockets/net_sockets"; "-l"; "-C"; socket_path peer; "-s"; net_pool peer;
   "-S"; "32"; "0.0.0.0"; str_of_Z (ch_tcp_port c); run_path "listen-" peer ".info"; run_path "listen-" peer ".ready"].

Definition connector_command (c : channel) (peer : Z) (peer_ip : string) : list string :=
  ["/opt/simbricks/dist/sockets/net_sockets"; "-L"; socket_path peer; "-s"; net_pool peer; "-S"; "32";
   peer_ip; str_of_Z (ch_tcp_port c); run_path "listen-" peer ".info"; run_path "listen-" peer ".ready"].

(** The local lists [ready_paths] and [transport_processes]. *)
Record links := Links { ready_paths : list (string * nat); transports : list (string * nat) }.

Definition start_listener (w : world) (a : arguments) (l : links) (c : channel) : S_ links :=
  if negb (ar_slot a =? ch_listener_slot c) then mret l
  else
    let peer := ch_connector_slot c in
    let gateway_cmd := gateway_command a false peer in
    gateway ← start gateway_cmd;
    _ ← adopt gateway gateway_cmd;
    _ ← wait_for_path w (socket_path peer) gateway;
    let net_cmd := listener_command c peer in
    net ← start net_cmd;
    _ ← adopt net net_cmd;
    mret (Links (ready_paths l ++ [(ready_path peer, gateway)])
      (transports l ++ [("listener-" +:+ str_of_Z (ar_slot a) +:+ "-" +:+ str_of_Z peer, net)])).

Definition start_connector (w : world) (a : arguments) (connect_timeout : Z) (l : links) (c : channel) : S_ links :=
  if negb (ar_slot a =? ch_connector_slot c) then mret l
  else
    let peer := ch_listener_slot c in
    peer_ip ← resolve_transport_service w ("transport-" +:+ str_of_Z peer);
    let net_cmd := connector_command c peer peer_ip in
    net ← start_connector_with_retry w net_cmd (socket_path peer) connect_timeout;
    _ ← adopt net net_cmd;
    let gateway_cmd := gateway_command a true peer in
    gateway ← start gateway_cmd;
    _ ← adopt gateway gateway_cmd;
    mret (Links (ready_paths l ++ [(ready_path peer, gateway)])
      (transports l ++ [("connector-" +:+ str_of_Z (ar_slot a) +:+ "-" +:+ str_of_Z peer, net)])).

Fixpoint for_channels (f : links → channel → S_ links) (l : links) (cs : list channel) : S_ links :=
  match cs with [] => mret l | c :: r => f l c ≫= λ l', for_channels f l' r end.

Definition router_command (a : arguments) : list string :=
  ["python3"; "/opt/chipsystemsim-distributed/simbricks_pipe_router.py"; "--slot"; str_of_Z (ar_slot a);
   "--routing"; ar_routing a; "--port"; str_of_Z (ar_router_port a)].

Definition worker_command (a : arguments) : list string :=
  ["python3"; "/opt/chipsystemsim-distributed/worker.py"; "--port"; str_of_Z (ar_worker_port a)].

(** The body of the [try] block up to the start of the worker. *)
Definition startup (w : world) (a : arguments) (ts : timeouts) (t : topology) : S_ (links * nat) :=
  let cs := local_channels (ar_slot a) t in
  l ← for_channels (start_listener w a) (Links [] []) cs;
  _ ← sleep;
  l ← for_channels (start_connector w a (connect_seconds ts)) l cs;
  _ ← wait_for_ready w (ready_paths l) (ready_seconds ts);
  _ ← wait_for_stable w (transports l) (stability_seconds ts);
  router ← start (router_command a);
  _ ← adopt router (router_command a);
  worker ← start (worker_command a);
  _ ← adopt worker (worker_command a);
  mret (l, worker).

(** Supervision until the worker exits; the fuel bounds how long it is observed. *)
Fixpoint supervise (w : world) (l : links) (worker : nat) (fuel : nat) : S_ Z :=
  match fuel with
  | O => λ s, (s, Running)
  | S fuel =>
      t ← get_tick;
      match poll w worker t with
      | Some code => mret code
      | None =>
          match first_exited w t (transports l) with
          | Some (description, code) =>
              raise (RuntimeError ("transport exited while worker was running (" +:+ description +:+ "): " +:+ str_of_Z code))
          | None => _ ← sleep; supervise w l worker fuel
          end
      end
  end.

(** The [finally] block. *)
Fixpoint terminate_all (w : world) (pids : list nat) : S_ unit :=
  match pids with
  | [] => mret ()
  | pid :: r =>
      t ← get_tick;
      _ ← (match poll w pid t with None => emit (Terminated pid) | Some _ => mret () end);
      terminate_all w r
  end.

Fixpoint reap_all (w : world) (pids : list nat) : S_ unit :=
  match pids with
  | [] => mret ()
  | pid :: r =>
      t ← get_tick;
      _ ← (if exits_within w pid t then mret () else emit (Killed pid));
      reap_all w r
  end.

Definition cleanup (w : world) : S_ unit := λ s,
  (_ ← terminate_all w (reverse (children s).*1); reap_all w (reverse (children s).*1)) s.

(** [try: ... finally: cleanup] *)
Definition with_cleanup {A} (w : world) (m : S_ A) : S_ A := λ s,
  match m s with
  | (s', Running) => (s', Running)
  | (s', o) => ((cleanup w s').1, o)
  end.

Definition init_state : state := State 0 [] 0 [].

Definition main (w : world) (environ : environment) (a : arguments) (t : topology) (fuel : nat) : state * outcome Z :=
  match read_timeouts environ with
  | Err e => (init_state, Raised e)
  | Ok ts => with_cleanup w (p ← startup w a ts t; supervise w p.1 p.2 fuel) init_state
  end.

(** ** Reasoning about runs *)

Lemma S_bind_Done {A B} (m : S_ A) (f : A → S_ B) s s' b :
  (m ≫= f) s = (s', Done b) ↔ ∃ s1 a, m s = (s1, Done a) ∧ f a s1 = (s', Done b).
Proof. unfold mbind, S_bind. destruct (m s) as [s1 [a|e|]]; naive_solver. Qed.

(** An operation that leaves [children] alone and does not go back in time. *)
Definition quiet {A} (m : S_ A) : Prop := ∀ s, children (m s).1 = children s ∧ (tick s ≤ tick (m s).1)%nat.

(** An operation that never runs out of fuel. *)
Definition total {A} (m : S_ A) : Prop := ∀ s, (m s).2 ≠ Running.

Create HintDb sup.

Lemma quiet_ret {A} (a : A) : quiet (mret a).
Proof. done. Qed.
Lemma quiet_raise {A} e : quiet (raise (A := A) e).
Proof. done. Qed.
Lemma quiet_running {A} : quiet (λ s, (s, Running (A := A))).
Proof. done. Qed.
Lemma quiet_sleep : quiet sleep.
Proof. intros s. cbn. split; [done|lia]. Qed.
Lemma quiet_emit e : quiet (emit e).
Proof. done. Qed.
Lemma quiet_start command : quiet (start command).
Proof. done. Qed.
Lemma quiet_get_tick : quiet get_tick.
Proof. done. Qed.
Lemma quiet_bind {A B} (m : S_ A) (f : A → S_ B) : quiet m → (∀ a, quiet (f a)) → quiet (m ≫= f).
Proof.
  intros Hm Hf s. unfold mbind, S_bind. destruct (Hm s) as [Hc Ht]. destruct (m s) as [s1 [a|e|]]; cbn in *; [|done..].
  destruct (Hf a s1) as [Hc' Ht']. split; [congruence|lia].
Qed.
#[local] Hint Resolve quiet_ret quiet_raise quiet_running quiet_sleep quiet_emit quiet_start quiet_get_tick quiet_bind : sup.

(** Case analysis on the tests of an operation. *)
Ltac quiet_tac :=
  repeat match goal with
  | |- ∀ _, _ => intro
  | |- quiet (match ?x with _ => _ end) => destruct x
  | |- quiet (_ ≫= _) => apply quiet_bind
  | |- quiet _ => solve [eauto with sup]
  end.

Lemma quiet_wait_until {A} w ms (probe : Z → nat → option (outcome A)) : quiet (wait_until w ms probe).
Proof.
  unfold wait_until. apply quiet_bind; [auto with sup|]. intros t. generalize (loop_fuel w (now w t + ms) t) as fuel.
  intros fuel. induction fuel; cbn [poll_loop]; quiet_tac.
Qed.

Lemma quiet_wait_for_path w path pid : quiet (wait_for_path w path pid).
Proof. apply quiet_wait_until. Qed.
Lemma quiet_wait_for_ready w paths timeout : quiet (wait_for_ready w paths timeout).
Proof. apply quiet_wait_until. Qed.
Lemma quiet_wait_for_stable w l timeout : quiet (wait_for_stable w l timeout).
Proof. apply quiet_wait_until. Qed.
Lemma quiet_resolve w name : quiet (resolve_transport_service w name).
Proof. apply quiet_wait_until. Qed.
#[local] Hint Resolve quiet_wait_for_path quiet_wait_for_ready quiet_wait_for_stable quiet_resolve : sup.

Lemma quiet_unlink w path : quiet (unlink_existing w path).
Proof. unfold unlink_existing. quiet_tac. Qed.
#[local] Hint Resolve quiet_unlink : sup.

Lemma quiet_connector_loop w command path timeout deadline last fuel :
  quiet (connector_loop w command path timeout deadline last fuel).
Proof. revert last. induction fuel; intros last; cbn [connector_loop]; quiet_tac. Qed.

Lemma quiet_connector w command path timeout : quiet (start_connector_with_retry w command path timeout).
Proof. unfold start_connector_with_retry. apply quiet_bind; [auto with sup|]. intros t. apply quiet_connector_loop. Qed.
#[local] Hint Resolve quiet_connector_loop quiet_connector : sup.

Lemma quiet_Done {A} (m : S_ A) s s' a : quiet m → m s = (s', Done a) → children s' = children s.
Proof. intros Hq Hm. destruct (Hq s) as [Hc _]. by rewrite Hm in Hc. Qed.

(** ** What startup leaves in [children] *)

Definition commands (s : state) : list (list string) := (children s).*2.

Lemma adopt_Done pid command s s' u :
  adopt pid command s = (s', Done u) → commands s' = commands s ++ [command].
Proof. unfold adopt, commands. intros [= <- _]. cbn. by rewrite fmap_app. Qed.

Lemma commands_quiet {A} (m : S_ A) s s' a : quiet m → m s = (s', Done a) → commands s' = commands s.
Proof. intros Hq Hm. unfold commands. by rewrite (quiet_Done m s s' a). Qed.

Lemma start_listener_Done w a l c s s' l' :
  start_listener w a l c s = (s', Done l') →
  commands s' = commands s ++
    (if ar_slot a =? ch_listener_slot c
     then [gateway_command a false (ch_connector_slot c); listener_command c (ch_connector_slot c)] else []).
Proof.
  unfold start_listener. destruct (ar_slot a =? ch_listener_slot c); cbn [negb].
  2:{ intros [= <- _]. by rewrite app_nil_r. }
  intros (s1 & gw & H1 & H)%S_bind_Done. apply S_bind_Done in H as (s2 & u & H2 & H).
  apply S_bind_Done in H as (s3 & u' & H3 & H). apply S_bind_Done in H as (s4 & net & H4 & H).
  apply S_bind_Done in H as (s5 & u'' & H5 & H). injection H as <- _.
  apply adopt_Done in H2, H5. apply commands_quiet in H1, H3, H4; [|auto with sup..].
  rewrite H5, H4, H3, H2, H1. by rewrite <- app_assoc.
Qed.

Lemma start_connector_Done w a timeout l c s s' l' :
  start_connector w a timeout l c s = (s', Done l') →
  ∃ ip, commands s' = commands s ++
    (if ar_slot a =? ch_connector_slot c
     then [connector_command c (ch_listener_slot c) ip; gateway_command a true (ch_listener_slot c)] else []).
Proof.
  unfold start_connector. destruct (ar_slot a =? ch_connector_slot c); cbn [negb].
  2:{ intros [= <- _]. exists "". by rewrite app_nil_r. }
  intros (s1 & ip & H1 & H)%S_bind_Done. apply S_bind_Done in H as (s2 & net & H2 & H).
  apply S_bind_Done in H as (s3 & u & H3 & H). apply S_bind_Done in H as (s4 & gw & H4 & H).
  apply S_bind_Done in H as (s5 & u' & H5 & H). injection H as <- _.
  apply adopt_Done in H3, H5. apply commands_quiet in H1, H2, H4; [|auto with sup..].
  exists ip. rewrite H5, H4, H3, H2, H1. by rewrite <- app_assoc.
Qed.

(** The channels of a role, and the commands of each. *)
Definition listeners (slot : Z) (cs : list channel) : list channel := filter (λ c, slot = ch_listener_slot c) cs.
Definition connectors (slot : Z) (cs : list channel) : list channel := filter (λ c, slot = ch_connector_slot c) cs.

Definition listener_plan (a : arguments) (cs : list channel) : list (list string) :=
  cs ≫= λ c, [gateway_command a false (ch_connector_slot c); listener_command c (ch_connector_slot c)].
Definition connector_plan (a : arguments) (cs : list (channel * string)) : list (list string) :=
  cs ≫= λ p, [connector_command p.1 (ch_listener_slot p.1) p.2; gateway_command a true (ch_listener_slot p.1)].

Lemma for_listeners_Done w a cs l s s' l' :
  for_channels (start_listener w a) l cs s = (s', Done l') →
  commands s' = commands s ++ listener_plan a (listeners (ar_slot a) cs).
Proof.
  revert l s. induction cs as [|c cs IH]; intros l s; cbn [for_channels].
  - intros [= <- _]. unfold listener_plan. by rewrite app_nil_r.
  - intros (s1 & l1 & H1 & H)%S_bind_Done. apply start_listener_Done in H1. apply IH in H.
    rewrite H, H1, <- app_assoc. f_equal. unfold listeners. rewrite filter_cons.
    destruct (Z.eqb_spec (ar_slot a) (ch_listener_slot c)); [rewrite decide_True by done|rewrite decide_False by done]; done.
Qed.

Lemma for_connectors_Done w a timeout cs l s s' l' :
  for_channels (start_connector w a timeout) l cs s = (s', Done l') →
  ∃ cis, cis.*1 = connectors (ar_slot a) cs ∧ commands s' = commands s ++ connector_plan a cis.
Proof.
  revert l s. induction cs as [|c cs IH]; intros l s; cbn [for_channels].
  - intros [= <- _]. exists []. unfold connector_plan. by rewrite app_nil_r.
  - intros (s1 & l1 & H1 & H)%S_bind_Done. apply start_connector_Done in H1 as [ip H1].
    apply IH in H as (cis & Hc & H). unfold connectors. rewrite filter_cons.
    destruct (Z.eqb_spec (ar_slot a) (ch_connector_slot c)); [rewrite decide_True by done|rewrite decide_False by done].
    + exists ((c, ip) :: cis). csimpl. rewrite Hc. split; [done|]. rewrite H, H1, <- app_assoc. done.
    + exists cis. split; [done|]. by rewrite H, H1, app_nil_r.
Qed.

(** ** The peers of a slot in a generated mesh *)

Definition listener_peers (slot : Z) (t : topology) : list Z :=
  ch_connector_slot <$> listeners slot (local_channels slot t).
Definition connector_peers (slot : Z) (t : topology) : list Z :=
  ch_listener_slot <$> connectors slot (local_channels slot t).

Lemma mesh_endpoints targs t :
  Topology.generate targs = Ok t →
  NoDup (endpoints <$> top_channels t) ∧
  ∀ l r, (l, r) ∈ (endpoints <$> top_channels t) ↔ 0 ≤ l < r ∧ r < arg_nodes targs.
Proof.
  intros (_ & _ & _ & ->)%generate_Ok. cbn [top_channels]. rewrite endpoints_channels. split.
  - apply combinations2_NoDup, NoDup_seqZ.
  - intros l r. rewrite combinations2_seqZ. lia.
Qed.

Lemma elem_of_endpoints c (cs : list channel) : c ∈ cs → (ch_listener_slot c, ch_connector_slot c) ∈ (endpoints <$> cs).
Proof. intros H. change (_, _) with (endpoints c). by apply list_elem_of_fmap_2. Qed.

Lemma mesh_peers targs t slot :
  Topology.generate targs = Ok t → 0 ≤ slot < arg_nodes targs →
  NoDup (listener_peers slot t) ∧ NoDup (connector_peers slot t) ∧
  (∀ p, p ∈ listener_peers slot t ↔ slot < p < arg_nodes targs) ∧
  (∀ p, p ∈ connector_peers slot t ↔ 0 ≤ p < slot).
Proof.
  intros (Hnd & Hel)%mesh_endpoints Hslot.
  assert (Hsub : ∀ (P : channel → Prop) `{∀ c, Decision (P c)} c,
    c ∈ filter P (local_channels slot t) ↔ P c ∧ (slot = ch_listener_slot c ∨ slot = ch_connector_slot c) ∧ c ∈ top_channels t).
  { intros P HP c. unfold local_channels. by rewrite !list_elem_of_filter. }
  assert (Hinj := λ x y, NoDup_fmap_elem_inj endpoints (top_channels t) x y Hnd).
  assert (Hndl : ∀ (P : channel → Prop) `{∀ c, Decision (P c)}, NoDup (filter P (local_channels slot t))).
  { intros P HP. unfold local_channels. by apply NoDup_filter, NoDup_filter, (NoDup_fmap_1 endpoints). }
  split; [|split; [|split]].
  - apply NoDup_fmap_2_strong; [|apply Hndl]. intros x y (Hx & _ & Hx')%Hsub (Hy & _ & Hy')%Hsub Heq.
    apply Hinj; [done..|]. unfold endpoints. congruence.
  - apply NoDup_fmap_2_strong; [|apply Hndl]. intros x y (Hx & _ & Hx')%Hsub (Hy & _ & Hy')%Hsub Heq.
    apply Hinj; [done..|]. unfold endpoints. congruence.
  - intros p. unfold listener_peers, listeners. rewrite list_elem_of_fmap. split.
    + intros (c & -> & (-> & _ & Hc)%Hsub). apply elem_of_endpoints, Hel in Hc. lia.
    + intros Hp. assert (Hin : (slot, p) ∈ (endpoints <$> top_channels t)) by (apply Hel; lia).
      apply list_elem_of_fmap in Hin as (c & [= Hl Hr] & Hc). exists c. split; [done|]. apply Hsub. auto.
  - intros p. unfold connector_peers, connectors. rewrite list_elem_of_fmap. split.
    + intros (c & -> & (-> & _ & Hc)%Hsub). apply elem_of_endpoints, Hel in Hc. lia.
    + intros Hp. assert (Hin : (p, slot) ∈ (endpoints <$> top_channels t)) by (apply Hel; lia).
      apply list_elem_of_fmap in Hin as (c & [= Hl Hr] & Hc). exists c. split; [done|]. apply Hsub. auto.
Qed.

(** ** Bounded waiting *)

(** Every sleep takes at least a millisecond. *)
Definition advances (w : world) : Prop := ∀ t, now w t + 1 ≤ now w (S t).

Lemma advances_le w t t' : advances w → (t ≤ t')%nat → now w t + Z.of_nat (t' - t) ≤ now w t'.
Proof.
  intros Hadv Hle. induction Hle as [|t' Hle IH]; [rewrite Nat.sub_diag; lia|].
  specialize (Hadv t'). replace (S t' - t)%nat with (S (t' - t)) by lia. lia.
Qed.

Lemma total_bind {A B} (m : S_ A) (f : A → S_ B) : total m → (∀ a, total (f a)) → total (m ≫= f).
Proof.
  intros Hm Hf s. unfold mbind, S_bind. specialize (Hm s). destruct (m s) as [s1 [a|e|]]; [apply Hf|done|done].
Qed.

Section total.
Context (w : world) (Hadv : advances w).

(** A probe that always ends the loop from the deadline on. *)
Lemma total_wait_until {A} ms (probe : Z → nat → option (outcome A)) :
  (∀ d t, probe d t = None → now w t < d) → (∀ d t, probe d t ≠ Some Running) → total (wait_until w ms probe).
Proof using Hadv.
  intros Hend Hrun s. unfold wait_until, mbind, S_bind, get_tick. set (d := now w (tick s) + ms). clearbody d.
  assert (Hf : (Z.to_nat (d - now w (tick s)) < loop_fuel w d (tick s))%nat) by (unfold loop_fuel; lia).
  revert Hf. generalize (loop_fuel w d (tick s)) as fuel. intros fuel. revert s.
  induction fuel as [|fuel IH]; intros s Hf; [lia|].
  cbn [poll_loop]. unfold mbind, S_bind, get_tick.
  destruct (probe d (tick s)) as [o|] eqn:E; [intros Ho; cbn in Ho; subst o; by destruct (Hrun d (tick s))|].
  apply Hend in E. unfold sleep. apply IH. cbn. specialize (Hadv (tick s)). lia.
Qed.

Lemma total_wait_for_path path pid : total (wait_for_path w path pid).
Proof using Hadv.
  apply total_wait_until; intros d t; unfold probe_path; destruct (exists_path w path t), (poll w pid t);
    destruct (Z.leb_spec d (now w t)); done.
Qed.

Lemma total_wait_for_ready paths timeout : total (wait_for_ready w paths timeout).
Proof using Hadv.
  apply total_wait_until; intros d t; unfold probe_ready; destruct (forallb _ paths), (first_exited w t paths) as [[? ?]|];
    destruct (Z.leb_spec d (now w t)); done.
Qed.

Lemma total_wait_for_stable l timeout : total (wait_for_stable w l timeout).
Proof using Hadv.
  apply total_wait_until; intros d t; unfold probe_stable; destruct (Z.ltb_spec (now w t) d); cbn [negb];
    destruct (first_exited w t l) as [[? ?]|]; done.
Qed.

Lemma total_resolve name : total (resolve_transport_service w name).
Proof using Hadv.
  apply total_wait_until; intros d t; unfold probe_host; destruct (Z.ltb_spec (now w t) d); cbn [negb];
    destruct (lookup_host w name t); done.
Qed.

Lemma total_unlink path : total (unlink_existing w path).
Proof using Type. intros s. unfold unlink_existing, mbind, S_bind, get_tick. by destruct (exists_path w path (tick s)). Qed.

Lemma total_connector_loop command path timeout d last fuel s :
  (Z.to_nat (d - now w (tick s)) < fuel)%nat → (connector_loop w command path timeout d last fuel s).2 ≠ Running.
Proof using Hadv.
  revert last s. induction fuel as [|fuel IH]; intros last s Hf; [lia|]. cbn [connector_loop].
  unfold mbind at 1, S_bind at 1, get_tick at 1. destruct (Z.ltb_spec (now w (tick s)) d); cbn [negb]; [|done].
  pose proof (total_unlink path s) as H1. destruct (quiet_unlink w path s) as [_ Q1].
  unfold mbind at 1, S_bind at 1. destruct (unlink_existing w path s) as [s1 [u|e|]]; cbn in H1, Q1; [|done|done].
  unfold mbind at 1, S_bind at 1, start at 1. set (s2 := State _ _ _ _).
  pose proof (total_wait_for_path path (started s1) s2) as H2. destruct (quiet_wait_for_path w path (started s1) s2) as [_ Q2].
  unfold mbind at 1, S_bind at 1. destruct (wait_for_path w path (started s1) s2) as [s3 [u'|e|]]; cbn in H2, Q2; [|done|done].
  unfold mbind at 1, S_bind at 1, sleep at 1, mbind at 1, S_bind at 1, get_tick at 1. set (s4 := State _ _ _ _).
  destruct (poll w (started s1) (tick s4)) as [code|]; [|done].
  pose proof (total_unlink path s4) as H3. destruct (quiet_unlink w path s4) as [_ Q3].
  unfold mbind at 1, S_bind at 1. destruct (unlink_existing w path s4) as [s5 [u''|e|]]; cbn in H3, Q3; [|done|done].
  unfold mbind at 1, S_bind at 1, sleep at 1. apply IH. cbn [tick] in *.
  pose proof (advances_le w (tick s) (S (tick s5)) Hadv ltac:(lia)). lia.
Qed.

Lemma total_connector command path timeout : total (start_connector_with_retry w command path timeout).
Proof using Hadv.
  intros s. unfold start_connector_with_retry. unfold mbind at 1, S_bind at 1, get_tick at 1.
  apply total_connector_loop. unfold loop_fuel. lia.
Qed.

Lemma total_for_channels f l cs : (∀ l c, total (f l c)) → total (for_channels f l cs).
Proof using Type.
  intros Hf. revert l. induction cs as [|c cs IH]; intros l; cbn [for_channels]; [done|].
  apply total_bind; auto.
Qed.

Lemma total_startup a ts t : total (startup w a ts t).
Proof using Hadv.
  assert (Hret : ∀ A (x : A), total (mret x)) by done.
  assert (Hstart : ∀ c, total (start c)) by done.
  assert (Hadopt : ∀ p c, total (adopt p c)) by done.
  unfold startup. apply total_bind.
  { apply total_for_channels. intros l c. unfold start_listener. destruct (negb _); [done|].
    repeat (apply total_bind; [first [done | apply total_wait_for_path]|intros ?]). done. }
  intros l. apply total_bind; [done|intros _]. apply total_bind.
  { apply total_for_channels. intros l' c. unfold start_connector. destruct (negb _); [done|].
    repeat (apply total_bind; [first [done | apply total_resolve | apply total_connector]|intros ?]). done. }
  intros l'. repeat (apply total_bind; [first [done | apply total_wait_for_ready | apply total_wait_for_stable]|intros ?]). done.
Qed.
End total.

(** ** Cleaning up *)

Lemma terminate_all_trace w pids s :
  (terminate_all w pids s) =
    (State (tick s) (trace s ++ (Terminated <$> filter (λ p, poll w p (tick s) = None) pids)) (started s) (children s), Done ()).
Proof.
  revert s. induction pids as [|p pids IH]; intros s; cbn [terminate_all].
  - rewrite app_nil_r. by destruct s.
  - unfold mbind, S_bind, get_tick. rewrite filter_cons. destruct (poll w p (tick s)) eqn:E.
    + rewrite decide_False by done. cbn. rewrite IH. done.
    + rewrite decide_True by done. unfold emit. rewrite IH. cbn. by rewrite <- app_assoc.
Qed.

Lemma reap_all_trace w pids s :
  (reap_all w pids s) =
    (State (tick s) (trace s ++ (Killed <$> filter (λ p, exits_within w p (tick s) = false) pids)) (started s) (children s), Done ()).
Proof.
  revert s. induction pids as [|p pids IH]; intros s; cbn [reap_all].
  - rewrite app_nil_r. by destruct s.
  - unfold mbind, S_bind, get_tick. rewrite filter_cons. destruct (exits_within w p (tick s)) eqn:E.
    + rewrite decide_False by done. cbn. rewrite IH. done.
    + rewrite decide_True by done. unfold emit. rewrite IH. cbn. by rewrite <- app_assoc.
Qed.

(** ** Properties *)

(** A started worker is fully meshed.  When startup succeeds on a generated topology, the
    children are, in this order: a gateway and a listener for every channel in which this worker
    listens, a connector and a gateway for every channel in which it connects, the router, the
    worker.  The peers of these channels are all other workers, each exactly once, so there is one
    gateway per peer, on port base plus peer. *)
Theorem startup_links w a ts targs t s s' r :
  Topology.generate targs = Ok t → 0 ≤ ar_slot a < arg_nodes targs →
  startup w a ts t s = (s', Done r) →
  ∃ cis, cis.*1 = connectors (ar_slot a) (local_channels (ar_slot a) t) ∧
    commands s' = commands s ++ listener_plan a (listeners (ar_slot a) (local_channels (ar_slot a) t))
      ++ connector_plan a cis ++ [router_command a; worker_command a] ∧
    NoDup (listener_peers (ar_slot a) t ++ connector_peers (ar_slot a) t) ∧
    ∀ p, p ∈ listener_peers (ar_slot a) t ++ connector_peers (ar_slot a) t ↔ 0 ≤ p < arg_nodes targs ∧ p ≠ ar_slot a.
Proof.
  intros Hgen Hslot Hs.
  destruct (mesh_peers targs t (ar_slot a) Hgen Hslot) as (Hnl & Hnc & Hl & Hc).
  unfold startup in Hs. apply S_bind_Done in Hs as (s1 & l1 & H1 & H).
  apply S_bind_Done in H as (s2 & u2 & H2 & H). apply S_bind_Done in H as (s3 & l3 & H3 & H).
  apply S_bind_Done in H as (s4 & u4 & H4 & H). apply S_bind_Done in H as (s5 & u5 & H5 & H).
  apply S_bind_Done in H as (s6 & router & H6 & H). apply S_bind_Done in H as (s7 & u7 & H7 & H).
  apply S_bind_Done in H as (s8 & worker & H8 & H). apply S_bind_Done in H as (s9 & u9 & H9 & H).
  injection H as <- _. apply for_listeners_Done in H1. apply for_connectors_Done in H3 as (cis & Hcis & H3).
  apply adopt_Done in H7, H9. apply commands_quiet in H2, H4, H5, H6, H8; [|auto with sup..].
  exists cis. split; [done|]. split.
  { rewrite H9, H8, H7, H6, H5, H4, H3, H2, H1. by rewrite <- !app_assoc. }
  split.
  - apply NoDup_app. split; [done|]. split; [|done]. intros p Hp1 Hp2. apply Hl in Hp1. apply Hc in Hp2. lia.
  - intros p. rewrite elem_of_app, Hl, Hc. lia.
Qed.

(** Everything is there at once and nothing exits. *)
Definition calm_world : world :=
  World (λ t, 10000 * Z.of_nat t) (λ _ _, true) (λ _ _, None) (λ _ _, Some "10.0.0.1") (λ _ _, true).

Lemma startup_links_witness :
  ∃ t s' r, Topology.generate (default_arguments 4) = Ok t ∧
    startup calm_world (Arguments 1 "routing.json" 9300 9400 9500) (Timeouts 90 60 5) t init_state = (s', Done r) ∧
    ∀ p, p ∈ listener_peers 1 t ++ connector_peers 1 t ↔ 0 ≤ p < 4 ∧ p ≠ 1.
Proof.
  destruct (Topology.generate (default_arguments 4)) as [t|] eqn:E; [|vm_compute in E; done]. exists t.
  destruct (startup calm_world (Arguments 1 "routing.json" 9300 9400 9500) (Timeouts 90 60 5) t init_state) as [s' [r|e|]] eqn:Es;
    [|vm_compute in E; injection E as <-; vm_compute in Es; done..].
  exists s', r. split; [reflexivity|]. split; [reflexivity|].
  destruct (startup_links calm_world (Arguments 1 "routing.json" 9300 9400 9500) (Timeouts 90 60 5) (default_arguments 4) t init_state s' r)
    as (cis & _ & _ & _ & H); [exact E|simpl; lia|exact Es|]. exact H.
Defined.

(** C23: startup always ends.  If every sleep lets the clock advance, startup succeeds or raises,
    whatever the processes, files and name servers do: none of its waiting loops, the nested
    one of the connectors included, goes on for ever. *)
Theorem startup_terminates w a ts t s :
  advances w → (startup w a ts t s).2 ≠ Running.
Proof. intros Hadv. by apply total_startup. Qed.

(** No listener ever appears, and every connector dies at once. *)
Definition dead_world : world :=
  World (λ t, 10000 * Z.of_nat t) (λ _ t, bool_decide (t < 3)%nat) (λ p _, None) (λ _ _, None) (λ _ _, true).

Lemma startup_terminates_witness :
  (startup dead_world (Arguments 1 "routing.json" 9300 9400 9500) (Timeouts 90 60 5)
    (Topology 1 TRANSPORT [] [Channel "node0-node1" 0 1 "10.203.0.10" 9700 500000 500000]) init_state).2 ≠ Running.
Proof. apply startup_terminates. intros t. cbn. lia. Defined.

(** C24: every adopted child is stopped.  However the supervised run ends, the cleanup first
    terminates the children that are still alive and then kills those that do not exit within
    ten seconds, both in the reverse order of their start; afterwards every child has exited,
    was asked to terminate or was killed, and the result of the run is unchanged. *)
Theorem cleanup_complete {A} w (m : S_ A) s s' o s1 :
  m s = (s1, o) → o ≠ Running → with_cleanup w m s = (s', o) →
  trace s' = trace s1 ++
      (Terminated <$> filter (λ p, poll w p (tick s1) = None) (reverse (children s1).*1)) ++
      (Killed <$> filter (λ p, exits_within w p (tick s1) = false) (reverse (children s1).*1)) ∧
  (∀ p, p ∈ (children s1).*1 → is_Some (poll w p (tick s1)) ∨ Terminated p ∈ trace s') ∧
  (∀ p, p ∈ (children s1).*1 → exits_within w p (tick s1) = true ∨ Killed p ∈ trace s').
Proof.
  intros Hm Hr. unfold with_cleanup. rewrite Hm.
  assert (Hc : (cleanup w s1).1 = State (tick s1) (trace s1 ++
      (Terminated <$> filter (λ p, poll w p (tick s1) = None) (reverse (children s1).*1)) ++
      (Killed <$> filter (λ p, exits_within w p (tick s1) = false) (reverse (children s1).*1))) (started s1) (children s1)).
  { unfold cleanup, mbind, S_bind. rewrite terminate_all_trace, reap_all_trace. cbn. by rewrite <- app_assoc. }
  intros H. assert (Hs : s' = (cleanup w s1).1) by (destruct o; [congruence|congruence|done]).
  rewrite Hc in Hs. subst s'. cbn [trace]. split; [done|]. split; intros p Hp.
  - destruct (poll w p (tick s1)) eqn:E; [left; by eexists|right].
    rewrite !elem_of_app. right. left. apply list_elem_of_fmap_2, list_elem_of_filter.
    split; [done|]. by apply elem_of_reverse.
  - destruct (exits_within w p (tick s1)) eqn:E; [by left|right].
    rewrite !elem_of_app. right. right. apply list_elem_of_fmap_2, list_elem_of_filter.
    split; [done|]. by apply elem_of_reverse.
Qed.

Lemma cleanup_complete_witness :
  ∃ s1 s' e, startup calm_world (Arguments 0 "r" 9300 9400 9500) (Timeouts 90 60 5) (demo_topology 2) init_state = (s1, e) ∧
    with_cleanup calm_world (startup calm_world (Arguments 0 "r" 9300 9400 9500) (Timeouts 90 60 5) (demo_topology 2)) init_state = (s', e) ∧
    ∀ p, p ∈ (children s1).*1 → is_Some (poll calm_world p (tick s1)) ∨ Terminated p ∈ trace s'.
Proof.
  destruct (startup calm_world (Arguments 0 "r" 9300 9400 9500) (Timeouts 90 60 5) (demo_topology 2) init_state) as [s1 e] eqn:E1.
  destruct (with_cleanup calm_world (startup calm_world (Arguments 0 "r" 9300 9400 9500) (Timeouts 90 60 5) (demo_topology 2)) init_state)
    as [s' e'] eqn:E2.
  assert (e' = e) as -> by (unfold with_cleanup in E2; rewrite E1 in E2; destruct e; congruence).
  exists s1, s', e. split; [reflexivity|]. split; [reflexivity|].
  apply (cleanup_complete calm_world _ init_state s' e s1 E1); [|exact E2].
  vm_compute in E1. injection E1 as _ <-. discriminate.
Defined.

(** A connector that neither creates its socket nor exits: waiting for it raises before the
    process is adopted, so it is still running when the cleanup is done. *)
Definition hung_world : world :=
  World (λ t, 10000 * Z.of_nat t) (λ _ _, false) (λ _ _, None) (λ _ _, Some "10.0.0.1") (λ _ _, true).

Lemma hung_connector_leaks :
  ∃ t, Topology.generate (default_arguments 2) = Ok t ∧
    let s := (main hung_world [] (Arguments 1 "r" 9300 9400 9500) t 0).1 in
    started s = 1%nat ∧ children s = [] ∧ poll hung_world 0 (tick s) = None ∧
    (Terminated 0 ∉ trace s) ∧ (Killed 0 ∉ trace s).
Proof.
  destruct (Topology.generate (default_arguments 2)) as [t|] eqn:E; [|vm_compute in E; done].
  vm_compute in E. injection E as <-. eexists. split; [reflexivity|].
  match goal with |- let s := ?m in _ => let v := eval vm_compute in m in replace m with v by (vm_compute; reflexivity) end.
  cbn. split; [done|]. split; [done|]. split; [done|]. split; set_solver.
Qed.
