(* ===== verification/DistributedYaml.v ===== *)
(** * Wrapping the native processes of a workload

    Model of [src/real/generate_distributed_yaml.py]: every phase-one process becomes a call of
    the process proxy on the worker of its placement, phase two is wrapped, replaced by the ns-3
    runner or left alone; and of the argument handling of [src/real/ns3_phase2_runner.py], which
    receives the rewritten phase two. *)

From S2P Require Import Prelude PyValue Topology Placement Worker Proxy.

(** ** Options *)

Record options := Options {
  op_stream_output : bool;
  op_benchmark_root : option string;
  op_shared_worker_asset : list string;
  op_remote_phase2 : bool;
  op_ns3 : bool;                          (** [--phase2-backend ns3] *)
  op_ns3_cycle_ns : Z;
  op_ns3_link_rate : string;
  op_ns3_link_delay_ns : Z;
  op_ns3_queue_packets : Z;
  op_ns3_localize : bool;
  op_gdb_process_index : option Z;
  op_sniper_cores : option Z;
  op_sniper_fast_forward : bool;
  op_sniper_maxthreads : option Z;
  op_max_cta : option Z;
  op_max_instructions : option Z;
}.

Definition below_one (o : option Z) : bool := match o with Some n => n <? 1 | None => false end.

Definition check_options (o : options) : result unit :=
  _ ← raise_if (below_one (op_max_cta o)) (ValueError "--gpgpu-max-completed-cta must be positive");
  _ ← raise_if (below_one (op_max_instructions o)) (ValueError "--gpgpu-max-instructions must be positive");
  _ ← raise_if ((op_ns3_cycle_ns o <? 1) || (op_ns3_link_delay_ns o <? 1) || (op_ns3_queue_packets o <? 1))
        (ValueError "ns-3 timing parameters must be positive");
  raise_if (op_remote_phase2 o && op_ns3 o)
    (ValueError "ns-3 Phase 2 must remain coordinator-local so delayInfo is available to the next round").

(** ** wrap_process *)

(** [placements_by_phase[phase][index]['node_slot']]: the last matching item wins. *)
Definition node_slot_of (placed_ : list placed) (phase : string) (index : Z) : result Z :=
  match last (filter (λ p, pl_phase p = phase ∧ pl_process_index p = index) placed_) with
  | Some p => Ok (pl_node_slot p)
  | None => Err (KeyError (str_of_Z index))
  end.

(** [arguments.benchmark_root] is used when it is given and not empty. *)
Definition root_of (o : options) : option string :=
  match op_benchmark_root o with None | Some "" => None | r => r end.

(** [value.replace("$BENCHMARK_ROOT", root)]; only text has [replace]. *)
Definition replace_root (root : string) (s : string) : string := replace_all "$BENCHMARK_ROOT" root s.

Definition expand_text (o : options) (v : pyval) : result pyval :=
  match root_of o with
  | None => Ok v
  | Some root => s ← is_str v ?! AttributeError; Ok (PStr (replace_root root s))
  end.

Definition expand_argument (o : options) (v : pyval) : pyval :=
  match root_of o, v with
  | Some root, PStr s => PStr (replace_root root s)
  | _, _ => v
  end.

Definition expand_asset (o : options) (asset : string) : string :=
  match root_of o with Some root => replace_root root asset | None => asset end.

(** [if ... and command.endswith("/run-sniper")]: what follows the test, for a Sniper command and
    for any other; only text has [endswith]. *)
Definition on_sniper {A} (command : pyval) (sniper other : result A) : result A :=
  match is_str command with
  | Some s => if endswith "/run-sniper" s then sniper else other
  | None => Err AttributeError
  end.

Definition gdb_arguments : list string :=
  ["--batch"; "--quiet"; "-ex"; "set pagination off"; "-ex"; "run"; "-ex"; "thread apply all bt full"; "--args"].

(** The [if]/[elif] that selects gdb or the Sniper core count. *)
Definition select_debugger (o : options) (phase1 : bool) (index : Z) (command : pyval) (args : list pyval)
    : result (pyval * list pyval) :=
  if phase1 && bool_decide (op_gdb_process_index o = Some index) then
    Ok (PStr "/usr/bin/gdb", (PStr <$> gdb_arguments) ++ command :: args)
  else match op_sniper_cores o with
       | Some cores =>
           if phase1 then
             on_sniper command
               (_ ← raise_if (cores <? 1) (ValueError "--sniper-cores must be positive");
                Ok (command, PStr "-n" :: PStr (str_of_Z cores) :: args))
               (Ok (command, args))
           else Ok (command, args)
       | None => Ok (command, args)
       end.

Definition add_fast_forward (o : options) (phase1 : bool) (command : pyval) (args : list pyval) : result (list pyval) :=
  if phase1 && op_sniper_fast_forward o then on_sniper command (Ok (PStr "--fast-forward" :: args)) (Ok args)
  else Ok args.

Definition add_maxthreads (o : options) (phase1 : bool) (command : pyval) (args : list pyval) : result (list pyval) :=
  match op_sniper_maxthreads o with
  | Some n =>
      if phase1 then
        on_sniper command
          (_ ← raise_if (n <? 1) (ValueError "--sniper-maxthreads must be positive");
           Ok (PStr ("--maxthreads=" +:+ str_of_Z n) :: args))
          (Ok args)
      else Ok args
  | None => Ok args
  end.

(** One iteration of the phase-two loop: the rewritten argument and its staging option. *)
Definition stage_argument (v : pyval) : pyval * list string :=
  match v with
  | PStr source =>
      if startswith "../" source then
        let destination := after_last "/" source in
        (PStr destination, ["--stage-file"; source +:+ ":" +:+ destination])
      else (v, [])
  | _ => (v, [])
  end.

(** ["gpgpu-sim" in v]: a substring of text, an element of a list or a key of a mapping. *)
Definition in_value (text : string) (v : pyval) : result bool :=
  match v with
  | PStr s => Ok (contains text s)
  | PList l => Ok (existsb (λ x, eq_str x text) l)
  | PDict d => Ok (existsb (λ kv, String.eqb kv.1 text) d)
  | _ => Err TypeError
  end.

Definition limit_option (o : option Z) (name : string) (phase1 : bool) (pre_copy : pyval) : result (list pyval) :=
  match o with
  | Some n =>
      if phase1 then (λ gpu : bool, if gpu then [PStr name; PStr (str_of_Z n)] else []) <$> in_value "gpgpu-sim" pre_copy
      else Ok []
  | None => Ok []
  end.

Definition asset_options (o : options) : list string :=
  (expand_asset o <$> op_shared_worker_asset o) ≫= λ a, ["--shared-asset"; a].

(** The argument list of the proxy call. *)
Definition proxy_arguments (o : options) (phase : string) (index slot : Z) (pre_copy : pyval)
    (staged : list string) (command : pyval) (args : list pyval) : result (list pyval) :=
  let phase1 := String.eqb phase "phase1" in
  max_cta ← limit_option (op_max_cta o) "--gpgpu-max-completed-cta" phase1 pre_copy;
  max_instructions ← limit_option (op_max_instructions o) "--gpgpu-max-instructions" phase1 pre_copy;
  Ok ((PStr <$> ["/opt/chipsystemsim-distributed/process_proxy.py"; "--worker"; "worker-" +:+ str_of_Z slot +:+ ":9300";
         "--process-id"; phase +:+ "-" +:+ str_of_Z index; "--pre-copy"]) ++ pre_copy ::
      (PStr <$> staged ++ asset_options o) ++ max_cta ++ max_instructions ++ command :: args).

(** The command and the arguments the remote child is started with, and the staging options. *)
Definition wrapped_command (o : options) (phase : string) (index : Z) (command : pyval) (args : list pyval)
    : result (pyval * list pyval * list string) :=
  let phase1 := String.eqb phase "phase1" in
  selected ← select_debugger o phase1 index command args;
  args ← add_fast_forward o phase1 selected.1 selected.2;
  args ← add_maxthreads o phase1 selected.1 args;
  if String.eqb phase "phase2" then
    let staged := stage_argument <$> args in Ok (selected.1, staged.*1, staged.*2 ≫= id)
  else Ok (selected.1, args, []).

Definition wrap_process (o : options) (placed_ : list placed) (p : process) (phase : string) (index : Z)
    : result process :=
  slot ← node_slot_of placed_ phase index;
  command ← dict_item "cmd" p;
  args ← iterate (dict_get_default "args" (PList []) p);
  command ← expand_text o command;
  pre_copy ← expand_text o (dict_get_default "pre_copy" (PStr "") p);
  wrapped ← wrapped_command o phase index command (expand_argument o <$> args);
  let '(command, args, staged) := wrapped in
  arguments_ ← proxy_arguments o phase index slot pre_copy staged command args;
  let p := dict_pop "pre_copy" (dict_set "args" (PList arguments_) (dict_set "cmd" (PStr "python3") p)) in
  Ok (if op_stream_output o then dict_set "is_to_stdout" (PBool true) p else p).

(** ** The ns-3 replacement of phase two *)

(** [args.index(option)]: the value after the first occurrence, or an exception that the code
    turns into its own. *)
Fixpoint value_after (option_ : string) (args : list pyval) : option pyval :=
  match args with
  | [] => None
  | v :: r => if eq_str v option_ then head r else value_after option_ r
  end.

Definition ns3_error : exn := ValueError "Phase-2 PopNet arguments must contain -A, -F and -G".

(** [int(...)] inside the [try]: a [ValueError] is replaced, a [TypeError] is not. *)
Definition flits_of (v : pyval) : result Z :=
  match int_of v with Err (ValueError _) => Err ns3_error | r => r end.

Definition ns3_topology (o : options) (topology : string) : string :=
  match root_of o with
  | Some root => if startswith "../topology/" topology then path_div (path_div (path_str root) "topology") (path_name topology) else topology
  | None => topology
  end.

Definition ns3_arguments (o : options) (topology node_count : string) (flit_count : Z) : list string :=
  ["/opt/chipsystemsim-distributed/ns3_phase2_runner.py";
   "--bench"; "../bench.txt"; "--delay-info"; "../delayInfo.txt";
   "--topology"; topology; "--nodes"; node_count;
   "--cycle-ns"; str_of_Z (op_ns3_cycle_ns o);
   "--flit-bytes"; str_of_Z (flit_count * 8);
   "--link-rate"; op_ns3_link_rate o;
   "--link-delay-ns"; str_of_Z (op_ns3_link_delay_ns o);
   "--queue-packets"; str_of_Z (op_ns3_queue_packets o);
   "--metrics-csv"; "../ns3_phase2_metrics.csv";
   "--summary-json"; "../ns3_phase2_summary.json"] ++
  (if op_ns3_localize o then ["--worker-routing"; "/run/config/routing.json"; "--localize-cross-worker-network"] else []).

Definition ns3_process (o : options) (p : process) : result process :=
  original_args ← iterate (dict_get_default "args" (PList []) p);
  nodes ← value_after "-A" original_args ?! ns3_error;
  flits ← value_after "-F" original_args ?! ns3_error;
  flit_count ← flits_of flits;
  topology ← value_after "-G" original_args ?! ns3_error;
  _ ← raise_if (flit_count <? 1) (ValueError "Phase-2 flit count must be positive");
  let p := dict_set "cmd" (PStr "python3") p in
  let p := dict_set "args" (PList (PStr <$> ns3_arguments o (ns3_topology o (py_str topology)) (py_str nodes) flit_count)) p in
  let p := dict_set "log" (PStr "ns3_phase2.log") p in
  Ok (dict_set "is_to_stdout" (PBool true) p).

(** ** main *)

Definition wrap_all (o : options) (placed_ : list placed) (phase : string) (ps : list process) : result (list process) :=
  mapM (λ item, wrap_process o placed_ item.2 phase item.1) (enumerate ps).

Definition main (o : options) (config : source_config) (placed_ : list placed) : result source_config :=
  _ ← check_options o;
  phase2 ← (if op_ns3 o then mapM (ns3_process o) (phase2 config) else Ok (phase2 config));
  phase1 ← wrap_all o placed_ "phase1" (phase1 config);
  phase2 ← (if op_remote_phase2 o then wrap_all o placed_ "phase2" phase2 else Ok phase2);
  Ok (SourceConfig phase1 phase2).

(** ** ns3_phase2_runner *)

(** [Path(arguments[arguments.index(option) + 1])] *)
Definition option_value (arguments : list string) (option_ : string) : result string :=
  match value_after option_ (PStr <$> arguments) with
  | Some v => Ok (path_str (py_str v))
  | None => Err (ValueError ("missing " +:+ option_ +:+ " argument"))
  end.

(** [copy_if_file] *)
Definition copy_if_file (source destination : string) : M unit :=
  fs ← get_fs;
  data ← lift (fs_files fs !! source ?! RuntimeError ("expected Phase-2 artifact is missing: " +:+ source));
  _ ← lift (raise_if (String.eqb source destination) (OSError "are the same file"));
  write_bytes destination data.

Definition runner_executable (environ : environment) : string :=
  dict_get_default "LEGOSIM_NS3_PHASE2_EXECUTABLE" "/usr/local/bin/ns3-phase2" environ.

(** [simulate] is the ns-3 process: the files it leaves and its exit status. *)
Definition runner_main (simulate : list string → filesystem → filesystem * Z) (environ : environment)
    (arguments : list string) : M unit :=
  bench ← lift (option_value arguments "--bench");
  delay_info ← lift (option_value arguments "--delay-info");
  metrics ← lift (option_value arguments "--metrics-csv");
  summary ← lift (option_value arguments "--summary-json");
  _ ← copy_if_file bench "phase2_input_bench.txt";
  status ← (λ fs, let '(fs', status) := simulate (runner_executable environ :: arguments) fs in (fs', Ok status));
  _ ← lift (raise_if (negb (status =? 0)) (RuntimeError "Command returned non-zero exit status"));
  _ ← copy_if_file delay_info "phase2_delayInfo.txt";
  _ ← copy_if_file metrics "phase2_metrics.csv";
  copy_if_file summary "phase2_summary.json".

(** ** The wrapped call is understood *)

(** The staging specification of one argument. *)
Definition stage_spec (v : pyval) : option string :=
  match v with
  | PStr source => if startswith "../" source then Some (source +:+ ":" +:+ after_last "/" source) else None
  | _ => None
  end.

Lemma stage_argument_options v :
  (stage_argument v).2 = match stage_spec v with Some f => ["--stage-file"; f] | None => [] end.
Proof. destruct v as [| | | |source| |]; simpl; try done. by destruct (startswith "../" source). Qed.

Lemma stage_arguments_options args :
  ((stage_argument <$> args).*2 ≫= id) = omap stage_spec args ≫= λ f, ["--stage-file"; f].
Proof.
  induction args as [|v args IH]; [done|]. cbn [fmap list_fmap omap list_omap]. rewrite bind_cons, IH.
  unfold id at 1. rewrite stage_argument_options. by destruct (stage_spec v).
Qed.

Lemma stage_spec_plain v f : stage_spec v = Some f → classify f = Plain.
Proof.
  destruct v as [| | | |s| |]; try done. cbn [stage_spec].
  destruct (startswith "../" s) eqn:E; [|done]. intros [= <-]. apply classify_plain.
  unfold startswith in E |- *. apply bool_decide_eq_true in E as [r Hr]. apply strip_prefix_Some in Hr as ->.
  reflexivity.
Qed.

Lemma py_str_fmap (l : list string) : py_str <$> (PStr <$> l) = l.
Proof. rewrite <- list_fmap_compose. apply list_fmap_id. Qed.

Lemma select_debugger_command o phase1 index command args c a :
  select_debugger o phase1 index command args = Ok (c, a) → c = command ∨ c = PStr "/usr/bin/gdb".
Proof.
  unfold select_debugger, on_sniper. intros H. repeat case_match; result_inv; (right; congruence) || (left; congruence).
Qed.

(** The remote command is the original one or gdb, and the options staged are those of its arguments. *)
Lemma wrapped_command_Ok o phase index command args command' args' staged :
  wrapped_command o phase index command args = Ok (command', args', staged) →
  (command' = command ∨ command' = PStr "/usr/bin/gdb") ∧
  ∃ files, staged = files ≫= (λ f, ["--stage-file"; f]) ∧ (∀ f, f ∈ files → classify f = Plain) ∧
    files = (if String.eqb phase "phase2" then omap stage_spec args else []) ∧
    (phase = "phase2" → command' = command ∧ args' = (stage_argument <$> args).*1).
Proof.
  unfold wrapped_command. intros H.
  apply bind_Ok in H as ([c1 a1] & Hsel & H). apply bind_Ok in H as (a2 & Hff & H). apply bind_Ok in H as (a3 & Hmt & H).
  cbn [fst snd] in Hff, Hmt, H.
  assert (Hc := select_debugger_command _ _ _ _ _ _ _ Hsel).
  assert (Hcmd : c1 = command') by (destruct (String.eqb phase "phase2"); congruence). subst c1.
  destruct (String.eqb_spec phase "phase2") as [->|Hne].
  - unfold select_debugger in Hsel. unfold add_maxthreads in Hmt. cbn in Hsel, Hff, Hmt. destruct (op_sniper_cores o); injection Hsel as <- <-; injection Hff as <-;
      (destruct (op_sniper_maxthreads o); injection Hmt as <-); injection H as <- <-.
    all: split; [by left|]; exists (omap stage_spec args); split; [apply stage_arguments_options|]; split; [|done].
    all: intros f (v & _ & Hv)%list_elem_of_omap; by eapply stage_spec_plain.
  - injection H as <- <-. split; [done|]. exists []. split_and!; try done. set_solver.
Qed.

Lemma dict_get_pop_ne {A} k k' (d : list (string * A)) : k ≠ k' → dict_get k' (dict_pop k d) = dict_get k' d.
Proof.
  intros Hne. induction d as [|[k1 v1] d IH]; simpl; [done|]. destruct (String.eqb_spec k1 k) as [->|]; simpl.
  - by rewrite (proj2 (String.eqb_neq k k') Hne).
  - by rewrite IH.
Qed.

Lemma limit_option_shape o name phase1 text l :
  limit_option o name phase1 (PStr text) = Ok l →
  l = match o with Some n => if phase1 && contains "gpgpu-sim" text then [PStr name; PStr (str_of_Z n)] else [] | None => [] end.
Proof. unfold limit_option. destruct o, phase1; simpl; congruence. Qed.

Lemma classify_positive n : 1 ≤ n → classify (str_of_Z n) = Plain.
Proof.
  intros Hn. apply classify_plain. destruct (pretty_Z_cases n) as [[Hle E]|[Hlt E]]; [|lia].
  destruct (pretty_N_cons (Z.to_N n)) as (c & s & Hc & Hd). rewrite E, Hc.
  unfold startswith. apply bool_decide_eq_false. cbn [strip_prefix]. destruct (Ascii.eqb_spec "-" c) as [<-|]; [by cbn in Hd|].
  by intros [? ?].
Qed.

Definition limit_value (o : option Z) (phase1 : bool) (text : string) : option Z :=
  if phase1 && contains "gpgpu-sim" text then o else None.

Lemma parse_limit (set : Z → arguments → arguments) o name phase1 text l rest seen a :
  limit_option o name phase1 (PStr text) = Ok l → below_one o = false →
  classify name = Named name None → name ≠ "--help" → required_seen seen = true →
  (∀ n b, set_option name (str_of_Z n) b = Ok (set n b)) →
  ∃ seen', required_seen seen' = true ∧
    parse_options ((py_str <$> l) ++ rest) seen a
    = parse_options rest seen' (match limit_value o phase1 text with Some n => set n a | None => a end).
Proof.
  intros ->%limit_option_shape Hpos Hn Hh Hseen Hset. unfold limit_value. destruct o as [n|].
  - destruct (phase1 && contains "gpgpu-sim" text); [|by exists seen]. cbn [fmap list_fmap app py_str].
    exists (name :: seen). split; [by apply required_seen_cons|]. apply parse_option_value; [done|done| |apply Hset].
    apply classify_positive. cbn in Hpos. apply Z.ltb_ge in Hpos. lia.
  - exists seen. split; [done|]. by destruct (phase1 && contains "gpgpu-sim" text).
Qed.

Definition with_cta (n : Z) (a : arguments) : arguments :=
  Arguments (ar_worker a) (ar_process_id a) (ar_pre_copy a) (ar_shared_asset a) (ar_stage_file a)
    (Some n) (ar_max_instructions a) (ar_command a) (ar_args a).
Definition with_instructions (n : Z) (a : arguments) : arguments :=
  Arguments (ar_worker a) (ar_process_id a) (ar_pre_copy a) (ar_shared_asset a) (ar_stage_file a)
    (ar_max_cta a) (Some n) (ar_command a) (ar_args a).
Definition with_asset (a : arguments) (v : string) : arguments :=
  Arguments (ar_worker a) (ar_process_id a) (ar_pre_copy a) (ar_shared_asset a ++ [v]) (ar_stage_file a)
    (ar_max_cta a) (ar_max_instructions a) (ar_command a) (ar_args a).
Definition with_file (a : arguments) (v : string) : arguments :=
  Arguments (ar_worker a) (ar_process_id a) (ar_pre_copy a) (ar_shared_asset a) (ar_stage_file a ++ [v])
    (ar_max_cta a) (ar_max_instructions a) (ar_command a) (ar_args a).

Lemma foldl_with_asset l a :
  foldl with_asset a l = Arguments (ar_worker a) (ar_process_id a) (ar_pre_copy a) (ar_shared_asset a ++ l)
    (ar_stage_file a) (ar_max_cta a) (ar_max_instructions a) (ar_command a) (ar_args a).
Proof.
  revert a. induction l as [|v l IH]; intros a; cbn [foldl]; [by destruct a; rewrite app_nil_r|].
  rewrite IH. cbn. by rewrite <- app_assoc.
Qed.

Lemma foldl_with_file l a :
  foldl with_file a l = Arguments (ar_worker a) (ar_process_id a) (ar_pre_copy a) (ar_shared_asset a)
    (ar_stage_file a ++ l) (ar_max_cta a) (ar_max_instructions a) (ar_command a) (ar_args a).
Proof.
  revert a. induction l as [|v l IH]; intros a; cbn [foldl]; [by destruct a; rewrite app_nil_r|].
  rewrite IH. cbn. by rewrite <- app_assoc.
Qed.

(** The options of a wrapped call, parsed. *)
Lemma proxy_arguments_parsed o phase index slot text files command args l :
  check_options o = Ok () → phase ∈ ["phase1"; "phase2"] → classify text = Plain →
  (∀ a, a ∈ op_shared_worker_asset o → classify (expand_asset o a) = Plain) →
  (∀ f, f ∈ files → classify f = Plain) → classify (py_str command) = Plain →
  proxy_arguments o phase index slot (PStr text) (files ≫= λ f, ["--stage-file"; f]) command args = Ok l →
  ∃ argv, l = PStr "/opt/chipsystemsim-distributed/process_proxy.py" :: argv ∧
    parse_arguments (py_str <$> argv)
    = Ok (Arguments ("worker-" +:+ str_of_Z slot +:+ ":9300") (phase +:+ "-" +:+ str_of_Z index) text
            (expand_asset o <$> op_shared_worker_asset o) files
            (limit_value (op_max_cta o) (String.eqb phase "phase1") text)
            (limit_value (op_max_instructions o) (String.eqb phase "phase1") text)
            (py_str command) (drop_separator (py_str <$> args))).
Proof.
  unfold check_options, proxy_arguments. intros Hck Hphase Htext Hassets Hfiles Hcmd H.
  apply bind_Ok in Hck as (u1 & Hcta & Hck). apply raise_if_Ok in Hcta.
  apply bind_Ok in Hck as (u2 & Hins & _). apply raise_if_Ok in Hins.
  apply bind_Ok in H as (l1 & H1 & H). apply bind_Ok in H as (l2 & H2 & H). injection H as <-.
  eexists. split; [reflexivity|]. unfold parse_arguments.
  rewrite !fmap_cons, fmap_app, py_str_fmap, !fmap_app, fmap_cons. cbn [py_str].
  assert (Hpid : classify (phase +:+ "-" +:+ str_of_Z index) = Plain).
  { apply classify_plain. set_unfold in Hphase. by destruct Hphase as [->|[->|[]]]. }
  erewrite (parse_option_value "--worker"); [|reflexivity|done|reflexivity|reflexivity].
  erewrite (parse_option_value "--process-id"); [|reflexivity|done|exact Hpid|reflexivity].
  erewrite (parse_option_value "--pre-copy"); [|reflexivity|done|exact Htext|reflexivity].
  rewrite <- app_assoc. unfold asset_options.
  edestruct (parse_repeated "--stage-file" with_file files) as (s1 & Hs1 & ->);
    [reflexivity|done|by intros []|exact Hfiles|reflexivity|].
  edestruct (parse_repeated "--shared-asset" with_asset) as (s2 & Hs2 & ->);
    [reflexivity|done|by intros []|by intros v (a & -> & Ha)%list_elem_of_fmap; apply Hassets|exact Hs1|].
  edestruct (parse_limit with_cta) as (s3 & Hs3 & ->);
    [exact H1|exact Hcta|reflexivity|done|exact Hs2|intros n []; cbn; by rewrite py_int_str|].
  edestruct (parse_limit with_instructions) as (s4 & Hs4 & ->);
    [exact H2|exact Hins|reflexivity|done|exact Hs3|intros n []; cbn; by rewrite py_int_str|].
  rewrite parse_command by done. rewrite foldl_with_asset, foldl_with_file.
  by destruct (limit_value (op_max_cta o) _ _), (limit_value (op_max_instructions o) _ _).
Qed.

(** ** Properties *)

(** C25: a wrapped process is understood by the proxy.  For every process the generator wraps,
    running the new command parses, in the proxy, to exactly the worker of its placement (host
    and port 9300), the process id [phase-index], the expanded set-up command and assets, the
    requested limits where the set-up mentions GPGPU-Sim, and the remote command with its
    arguments; in phase two every argument that starts with [../] is staged under its base name
    and replaced by that name.  Texts that look like options are excluded. *)
Theorem wrapped_call_parsed o placed_ p phase index p' text command raw_args :
  check_options o = Ok () → phase ∈ ["phase1"; "phase2"] →
  wrap_process o placed_ p phase index = Ok p' →
  expand_text o (dict_get_default "pre_copy" (PStr "") p) = Ok (PStr text) → classify text = Plain →
  (c ← dict_item "cmd" p; expand_text o c) = Ok command → classify (py_str command) = Plain →
  iterate (dict_get_default "args" (PList []) p) = Ok raw_args →
  (∀ a, a ∈ op_shared_worker_asset o → classify (expand_asset o a) = Plain) →
  let args := expand_argument o <$> raw_args in
  let files := if String.eqb phase "phase2" then omap stage_spec args else [] in
  ∃ slot argv command' args' a,
    node_slot_of placed_ phase index = Ok slot ∧
    wrapped_command o phase index command args = Ok (command', args', files ≫= λ f, ["--stage-file"; f]) ∧
    (phase = "phase2" → command' = command ∧ args' = (stage_argument <$> args).*1) ∧
    dict_get "cmd" p' = Some (PStr "python3") ∧
    dict_get "args" p' = Some (PList (PStr "/opt/chipsystemsim-distributed/process_proxy.py" :: argv)) ∧
    parse_arguments (py_str <$> argv) = Ok a ∧
    parse_worker (ar_worker a) = Ok ("worker-" +:+ str_of_Z slot, 9300) ∧
    a = Arguments (ar_worker a) (phase +:+ "-" +:+ str_of_Z index) text
          (expand_asset o <$> op_shared_worker_asset o) files
          (limit_value (op_max_cta o) (String.eqb phase "phase1") text)
          (limit_value (op_max_instructions o) (String.eqb phase "phase1") text)
          (py_str command') (drop_separator (py_str <$> args')).
Proof.
  intros Hck Hphase H Hpre Htext Hcmd Hcplain Hargs Hassets args files. unfold wrap_process in H.
  apply bind_Ok in H as (slot & Hslot & H). apply bind_Ok in H as (c & Hc & H). rewrite Hc in Hcmd.
  cbn [mbind result_bind] in Hcmd. rewrite Hargs in H. cbn [mbind result_bind] in H. rewrite Hcmd, Hpre in H.
  cbn [mbind result_bind] in H. apply bind_Ok in H as ([[command' args'] staged] & Hw & H).
  apply bind_Ok in H as (l & Hl & H).
  destruct (wrapped_command_Ok _ _ _ _ _ _ _ _ Hw) as (Hc' & files' & -> & Hfplain & Hfiles & Hphase2).
  assert (Hplain' : classify (py_str command') = Plain) by (destruct Hc' as [->| ->]; [done|reflexivity]).
  destruct (proxy_arguments_parsed _ _ _ _ _ _ _ _ _ Hck Hphase Htext Hassets Hfplain Hplain' Hl) as (argv & -> & Hparse).
  exists slot, argv, command', args'. eexists. split; [done|]. subst files' files. split; [exact Hw|].
  split; [exact Hphase2|]. injection H as <-.
  split; [|split; [|split; [exact Hparse|split; [|reflexivity]]]].
  - destruct (op_stream_output o); rewrite ?dict_get_set_ne by done; rewrite dict_get_pop_ne by done;
      rewrite dict_get_set_ne by done; apply dict_get_set.
  - destruct (op_stream_output o); rewrite ?dict_get_set_ne by done; rewrite dict_get_pop_ne by done; apply dict_get_set.
  - cbn [ar_worker]. unfold parse_worker. rewrite <- str_app_assoc.
    change (("worker-" +:+ str_of_Z slot) +:+ ":9300") with (("worker-" +:+ str_of_Z slot) +:+ String ":" "9300").
    by rewrite rpartition_on_app.
Qed.

Definition popnet_options : options :=
  Options false (Some "/bench") ["$BENCHMARK_ROOT/*.txt"] true false 1 "128Gbps" 1 100000 false None None false None (Some 4) None.

Definition popnet_process : process :=
  [("cmd", PStr "$BENCHMARK_ROOT/popnet"); ("args", PList [PStr "-G"; PStr "../topology/mesh.gv"; PInt 5]); ("log", PStr "l")].

Lemma wrapped_call_parsed_witness :
  ∃ p' a, wrap_process popnet_options [Placed "phase2" 0 3 "node3" None] popnet_process "phase2" 0 = Ok p' ∧
    ar_worker a = "worker-3:9300" ∧
    a = Arguments (ar_worker a) "phase2-0" "" ["/bench/*.txt"] ["../topology/mesh.gv:mesh.gv"] None None
          "/bench/popnet" ["-G"; "mesh.gv"; "5"].
Proof.
  destruct (wrap_process popnet_options [Placed "phase2" 0 3 "node3" None] popnet_process "phase2" 0) as [p'|] eqn:E;
    [|vm_compute in E; discriminate E].
  destruct (wrapped_call_parsed popnet_options [Placed "phase2" 0 3 "node3" None] popnet_process "phase2" 0 p'
    "" (PStr "/bench/popnet") [PStr "-G"; PStr "../topology/mesh.gv"; PInt 5])
    as (slot & argv & command' & args' & a & Hslot & Hw & Hp2 & Hcmd & Hargs & Hparse & Hworker & Ha);
    [reflexivity|set_solver|exact E|reflexivity|reflexivity|reflexivity|reflexivity|reflexivity
    |intros a Ha; cbn in Ha; rewrite list_elem_of_singleton in Ha; subst a; vm_compute; reflexivity|].
  destruct (Hp2 eq_refl) as [-> ->]. injection Hslot as <-.
  exists p', a. split; [reflexivity|]. split; [|rewrite Ha; reflexivity].
  clear -Hargs Hparse E. vm_compute in E. injection E as <-. vm_compute in Hargs.
  injection Hargs as <-. vm_compute in Hparse. injection Hparse as <-. reflexivity.
Defined.

Lemma value_after_cons option_ v args :
  value_after option_ (v :: args) = if eq_str v option_ then head args else value_after option_ args.
Proof. done. Qed.

Lemma str_of_Z_not_option z name : py_int name = None → String.eqb (str_of_Z z) name = false.
Proof. intros H. apply String.eqb_neq. intros E. rewrite <- E, py_int_str in H. done. Qed.

Lemma copy_if_file_Ok source destination data fs :
  fs_files fs !! source = Some data → source ≠ destination → destination ∉ fs_dirs fs → after_last "/" destination ≠ ".." →
  copy_if_file source destination fs = (Filesystem (fs_dirs fs) (<[destination := data]> (fs_files fs)), Ok ()).
Proof.
  intros H Hne Hd Hl. unfold copy_if_file, mbind, M_bind, get_fs, lift. rewrite H. cbn [of_option].
  rewrite (proj2 (String.eqb_neq source destination) Hne). cbn [raise_if]. by apply write_bytes_Ok.
Qed.

(** The options the runner reads back from the arguments the generator wrote. *)
Lemma ns3_options_read o topology nodes flits option_ v :
  (option_, v) ∈ [("--bench", "../bench.txt"); ("--delay-info", "../delayInfo.txt"); ("--flit-bytes", str_of_Z (flits * 8));
    ("--metrics-csv", "../ns3_phase2_metrics.csv"); ("--summary-json", "../ns3_phase2_summary.json")] →
  (∀ s, s ∈ [topology; nodes; op_ns3_link_rate o] → startswith "--" s = false) →
  value_after option_ (PStr <$> tail (ns3_arguments o topology nodes flits)) = Some (PStr v).
Proof.
  intros H Hplain.
  assert (Hne : ∀ s, s ∈ [topology; nodes; op_ns3_link_rate o] → String.eqb s option_ = false).
  { intros s Hs. apply String.eqb_neq. intros ->. specialize (Hplain _ Hs).
    set_unfold in H. by repeat destruct H as [[= -> _]|H]. }
  assert (Hz : ∀ z, String.eqb (str_of_Z z) option_ = false).
  { intros z. apply str_of_Z_not_option. set_unfold in H. by repeat destruct H as [[= -> _]|H]. }
  assert (H1 := Hne topology ltac:(set_solver)). assert (H2 := Hne nodes ltac:(set_solver)).
  assert (H3 := Hne (op_ns3_link_rate o) ltac:(set_solver)). clear Hne Hplain.
  unfold ns3_arguments. cbn [app tail fmap list_fmap]. rewrite !value_after_cons. cbn [eq_str]. rewrite !Hz, H1, H2, H3.
  set_unfold in H. by repeat destruct H as [[= -> ->]|H].
Qed.

(** The runner on the four shared files. *)
Lemma runner_main_run simulate environ argv fs fs' status input :
  value_after "--bench" (PStr <$> argv) = Some (PStr "../bench.txt") →
  value_after "--delay-info" (PStr <$> argv) = Some (PStr "../delayInfo.txt") →
  value_after "--metrics-csv" (PStr <$> argv) = Some (PStr "../ns3_phase2_metrics.csv") →
  value_after "--summary-json" (PStr <$> argv) = Some (PStr "../ns3_phase2_summary.json") →
  (∀ name, name ∈ ["phase2_input_bench.txt"; "phase2_delayInfo.txt"; "phase2_metrics.csv"; "phase2_summary.json"] →
     name ∉ fs_dirs fs ∪ fs_dirs fs') →
  fs_files fs !! "../bench.txt" = Some input →
  simulate (runner_executable environ :: argv)
    (Filesystem (fs_dirs fs) (<["phase2_input_bench.txt" := input]> (fs_files fs))) = (fs', status) →
  (status ≠ 0 → ∃ e, runner_main simulate environ argv fs = (fs', Err e)) ∧
  (status = 0 → ∀ delay metrics summary,
     fs_files fs' !! "../delayInfo.txt" = Some delay → fs_files fs' !! "../ns3_phase2_metrics.csv" = Some metrics →
     fs_files fs' !! "../ns3_phase2_summary.json" = Some summary →
     runner_main simulate environ argv fs
     = (Filesystem (fs_dirs fs') (<["phase2_summary.json" := summary]> (<["phase2_metrics.csv" := metrics]>
          (<["phase2_delayInfo.txt" := delay]> (fs_files fs')))), Ok ())).
Proof.
  intros H1 H2 H3 H4 Hfree Hinput Hsim.
  assert (Hf : ∀ name, name ∈ ["phase2_input_bench.txt"; "phase2_delayInfo.txt"; "phase2_metrics.csv"; "phase2_summary.json"] →
    (name ∉ fs_dirs fs) ∧ (name ∉ fs_dirs fs')) by (intros name Hin; by apply not_elem_of_union, Hfree). clear Hfree.
  split; [intros Hs; eexists|intros -> delay metrics summary Hd Hm Hs]; unfold runner_main, option_value;
    rewrite H1, H2, H3, H4; unfold mbind, M_bind, lift; cbn [py_str];
    (erewrite copy_if_file_Ok; [|exact Hinput|done|apply Hf; set_solver|done]); rewrite Hsim.
  - rewrite (proj2 (Z.eqb_neq status 0) Hs). reflexivity.
  - cbn [Z.eqb negb raise_if].
    erewrite copy_if_file_Ok; [|exact Hd|done|apply Hf; set_solver|done].
    erewrite copy_if_file_Ok; [|cbn [fs_files]; rewrite lookup_insert_ne by done; exact Hm|done|apply Hf; set_solver|done].
    erewrite copy_if_file_Ok; [reflexivity|cbn [fs_files]; rewrite !lookup_insert_ne by done; exact Hs|done|apply Hf; set_solver|done].
Qed.

(** A phase-two round on ns-3 keeps its own input and outputs.  The arguments the generator
    writes for the runner carry eight bytes per flit and are read back by it as the four shared
    files of the round; a run whose simulator succeeds leaves beside the log the trace the
    simulator was given, even if it overwrote the shared one, and the delay, metrics and summary
    files it produced; a simulator that fails ends the run with an error and leaves only the input. *)
Theorem ns3_round_audited o p p' nodes topology flits :
  ns3_process o p = Ok p' →
  (args ← iterate (dict_get_default "args" (PList []) p); Ok (value_after "-A" args, value_after "-G" args, value_after "-F" args))
    = Ok (Some nodes, Some topology, Some flits) →
  (∀ s, s ∈ [ns3_topology o (py_str topology); py_str nodes; op_ns3_link_rate o] → startswith "--" s = false) →
  ∃ argv flit_count,
    dict_get "args" p' = Some (PList (PStr "/opt/chipsystemsim-distributed/ns3_phase2_runner.py" :: (PStr <$> argv))) ∧
    int_of flits = Ok flit_count ∧ 1 ≤ flit_count ∧
    value_after "--flit-bytes" (PStr <$> argv) = Some (PStr (str_of_Z (flit_count * 8))) ∧
    ∀ simulate environ fs fs' status input,
      (∀ name, name ∈ ["phase2_input_bench.txt"; "phase2_delayInfo.txt"; "phase2_metrics.csv"; "phase2_summary.json"] →
         name ∉ fs_dirs fs ∪ fs_dirs fs') →
      fs_files fs !! "../bench.txt" = Some input →
      simulate (runner_executable environ :: argv)
        (Filesystem (fs_dirs fs) (<["phase2_input_bench.txt" := input]> (fs_files fs))) = (fs', status) →
      (status ≠ 0 → ∃ e, runner_main simulate environ argv fs = (fs', Err e)) ∧
      (status = 0 → ∀ delay metrics summary,
         fs_files fs' !! "../delayInfo.txt" = Some delay → fs_files fs' !! "../ns3_phase2_metrics.csv" = Some metrics →
         fs_files fs' !! "../ns3_phase2_summary.json" = Some summary →
         runner_main simulate environ argv fs
         = (Filesystem (fs_dirs fs') (<["phase2_summary.json" := summary]> (<["phase2_metrics.csv" := metrics]>
              (<["phase2_delayInfo.txt" := delay]> (fs_files fs')))), Ok ())).
Proof.
  unfold ns3_process. intros H Hargs Hplain.
  apply bind_Ok in H as (args & Hiter & H). rewrite Hiter in Hargs. cbn [mbind result_bind] in Hargs. injection Hargs as HA HG HF.
  rewrite HA, HG, HF in H. cbn [of_option mbind result_bind] in H.
  apply bind_Ok in H as (flit_count & Hflits & H). apply bind_Ok in H as (u & Hpos & H). apply raise_if_Ok, Z.ltb_ge in Hpos.
  exists (tail (ns3_arguments o (ns3_topology o (py_str topology)) (py_str nodes) flit_count)), flit_count.
  assert (Hread := λ n v Hin, ns3_options_read o _ _ flit_count n v Hin Hplain).
  split; [injection H as <-; rewrite !dict_get_set_ne by done; by rewrite dict_get_set|].
  split. { unfold flits_of in Hflits. destruct (int_of flits) as [z|[]]; congruence. }
  split; [done|]. split; [apply Hread; set_solver|].
  intros simulate environ fs fs' status input Hfree Hinput Hsim.
  eapply runner_main_run; [apply Hread; set_solver..|exact Hfree|exact Hinput|exact Hsim].
Qed.

Lemma ns3_round_audited_witness :
  ∃ argv, runner_main (λ _ fs, (Filesystem (fs_dirs fs) (<["../delayInfo.txt" := "d"]> (<["../ns3_phase2_metrics.csv" := "m"]>
      (<["../ns3_phase2_summary.json" := "s"]> (fs_files fs)))), 0)) [] argv (Filesystem ∅ {["../bench.txt" := "b"]})
    = (Filesystem ∅ (<["phase2_summary.json" := "s"]> (<["phase2_metrics.csv" := "m"]> (<["phase2_delayInfo.txt" := "d"]>
        (<["../delayInfo.txt" := "d"]> (<["../ns3_phase2_metrics.csv" := "m"]> (<["../ns3_phase2_summary.json" := "s"]>
          (<["phase2_input_bench.txt" := "b"]> {["../bench.txt" := "b"]}))))))), Ok ()).
Proof.
  destruct (ns3_round_audited popnet_options
    [("cmd", PStr "popnet"); ("args", PList [PStr "-A"; PInt 9; PStr "-F"; PInt 5; PStr "-G"; PStr "../topology/mesh.gv"])]
    [("cmd", PStr "python3"); ("args", PList (PStr <$> ns3_arguments popnet_options "/bench/topology/mesh.gv" "9" 5));
     ("log", PStr "ns3_phase2.log"); ("is_to_stdout", PBool true)]
    (PInt 9) (PStr "../topology/mesh.gv") (PInt 5)) as (argv & n & _ & _ & _ & _ & Hrun);
    [reflexivity|reflexivity|intros s Hs; set_unfold in Hs; repeat destruct Hs as [->|Hs]; by vm_compute|].
  exists argv.
  set (simulate := λ (_ : list string) (fs : filesystem), (Filesystem (fs_dirs fs) (<["../delayInfo.txt" := "d"]>
    (<["../ns3_phase2_metrics.csv" := "m"]> (<["../ns3_phase2_summary.json" := "s"]> (fs_files fs)))), 0)).
  destruct (Hrun simulate [] (Filesystem ∅ {["../bench.txt" := "b"]})
    (simulate [] (Filesystem ∅ (<["phase2_input_bench.txt" := "b"]> {["../bench.txt" := "b"]}))).1 0 "b") as [_ Hok];
    [|reflexivity|reflexivity|by apply (Hok eq_refl)].
  intros name _. cbn. set_solver.
Defined.
