(* ===== verification/MlpReference.v ===== *)
(** * The data-parallel MLP reference

    Model of [src/scripts/mlp_dp_reference.py]: the shards, the gradient of one worker, the serial
    and the tree reduction and the training loop.  The code computes with floats; the model is
    generic in the number type, so that a statement with the laws of exact addition and a
    statement without any law are about the same definitions. *)

From S2P Require Import Prelude.

(** ** Numbers *)

(** The operations the code applies to numbers.  [lit n d] is the literal [n / d]. *)
Class Scalar (R : Type) := {
  lit : Z → Z → R;
  s_add : R → R → R;
  s_sub : R → R → R;
  s_mul : R → R → R;
  s_div : R → R → R;
  s_max : R → R → R;
  s_exp : R → R;
  s_eqb : R → R → bool;
}.

(** The laws of exact addition; floating-point addition only has the second. *)
Class ExactAddition (R : Type) `{Scalar R} := {
  add_assoc : ∀ a b c : R, s_add (s_add a b) c = s_add a (s_add b c);
  add_comm : ∀ a b : R, s_add a b = s_add b a;
  add_zero : ∀ a : R, s_add (lit 0 1) a = a;
}.

Definition RANKS : nat := 8.
Definition GPUS_PER_RANK : nat := 2.
Definition ITERATIONS : nat := 100.
Definition SAMPLES : nat := 128.
Definition FEATURES : nat := 4.
Definition HIDDEN : nat := 6.
Definition CLASSES : nat := 3.
Definition SAMPLES_PER_GPU : nat := (SAMPLES / (RANKS * GPUS_PER_RANK))%nat.
Definition W1 : nat := (FEATURES * HIDDEN)%nat.
Definition B1 : nat := HIDDEN.
Definition W2 : nat := (HIDDEN * CLASSES)%nat.
Definition B2 : nat := CLASSES.
Definition PARAMETERS : nat := (W1 + B1 + W2 + B2)%nat.

(** ** The layout of the parameters *)

Definition w1 (feature hidden : nat) : nat := (feature * HIDDEN + hidden)%nat.
Definition b1 (hidden : nat) : nat := (W1 + hidden)%nat.
Definition w2 (hidden output : nat) : nat := (W1 + B1 + hidden * CLASSES + output)%nat.
Definition b2 (output : nat) : nat := (W1 + B1 + W2 + output)%nat.

Abbreviation range n := (seq 0 n).

(** Every index of the layout, in the order of the model vector. *)
Definition layout : list nat :=
  (range FEATURES ≫= λ f, w1 f <$> range HIDDEN) ++ (b1 <$> range HIDDEN) ++
  (range HIDDEN ≫= λ h, w2 h <$> range CLASSES) ++ (b2 <$> range CLASSES).

Section Reference.
Context {R : Type} `{!Scalar R}.
Implicit Types (model gradient : list R).

Definition zero : R := lit 0 1.
Definition one : R := lit 1 1.
Definition LEARNING_RATE : R := lit 5 100.

(** [l[i]] *)
Definition get (l : list R) (i : nat) : R := nth i l zero.
(** [sum(...)] *)
Definition sum (l : list R) : R := foldl s_add zero l.
(** [gradient[i] += e] *)
Definition add_at (i : nat) (e : R) (gradient : list R) : list R := alter (λ x, s_add x e) i gradient.

Definition sample_id (rank gpu local : nat) : nat := (rank + RANKS * (gpu + GPUS_PER_RANK * local))%nat.

Definition sample_data (sample : nat) : list R * nat :=
  ((λ feature, s_div (lit (Z.of_nat ((sample + 3) * (feature + 5) mod 17)%nat - 8) 1) (lit 8 1)) <$> range FEATURES,
   (sample mod CLASSES)%nat).

Definition shard (rank gpu : nat) : list (list R * nat) :=
  (λ local, sample_data (sample_id rank gpu local)) <$> range SAMPLES_PER_GPU.

(** ** The gradient of one worker *)

Definition hidden_layer (model inputs : list R) : list R :=
  (λ h, s_max (s_add (get model (b1 h)) (sum ((λ f, s_mul (get inputs f) (get model (w1 f h))) <$> range FEATURES))) zero)
    <$> range HIDDEN.

Definition output_errors (model hidden : list R) (label : nat) : list R :=
  let logits := (λ output, s_add (get model (b2 output)) (sum ((λ h, s_mul (get hidden h) (get model (w2 h output))) <$> range HIDDEN)))
                  <$> range CLASSES in
  let normalizer := sum (s_exp <$> logits) in
  let probabilities := (λ value, s_div (s_exp value) normalizer) <$> logits in
  (λ output, s_sub (get probabilities output) (if (output =? label)%nat then one else zero)) <$> range CLASSES.

(** The body of the loop over the samples. *)
Definition accumulate model gradient (sample : list R * nat) : list R :=
  let '(inputs, label) := sample in
  let hidden := hidden_layer model inputs in
  let errors := output_errors model hidden label in
  let gradient := foldl (λ g output,
      foldl (λ g h, add_at (w2 h output) (s_mul (get hidden h) (get errors output)) g)
        (add_at (b2 output) (get errors output) g) (range HIDDEN))
    gradient (range CLASSES) in
  foldl (λ g h,
      let backprop := sum ((λ output, s_mul (get errors output) (get model (w2 h output))) <$> range CLASSES) in
      let backprop := if s_eqb (get hidden h) zero then zero else backprop in
      foldl (λ g feature, add_at (w1 feature h) (s_mul (get inputs feature) backprop) g)
        (add_at (b1 h) backprop g) (range FEATURES))
    gradient (range HIDDEN).

Definition local_gradient model (samples : list (list R * nat)) : list R :=
  foldl (accumulate model) (replicate PARAMETERS zero) samples.

(** ** The reductions *)

(** [[a[index] + b[index] for index in range(PARAMETERS)]] *)
Definition add_lists (a b : list R) : list R := (λ index, s_add (get a index) (get b index)) <$> range PARAMETERS.

Definition rank_ordered_reduce (rank_gradients : list (list R)) : list R :=
  foldl (λ total rank, add_lists total (nth rank rank_gradients [])) (nth 0 rank_gradients [])
    (seq 1 (RANKS - 1)).

(** [range(0, RANKS, 2 * stride)] *)
Definition parents (stride : nat) : list nat := filter (λ i, i mod (2 * stride) = 0)%nat (range RANKS).

Definition reduce_level (stride : nat) (partial : list (list R)) : list (list R) :=
  foldl (λ partial parent,
      <[parent := add_lists (nth parent partial []) (nth (parent + stride) partial [])]> partial)
    partial (parents stride).

Fixpoint reduce_levels (fuel stride : nat) (partial : list (list R)) : list (list R) :=
  match fuel with
  | O => partial
  | S k => if (stride <? RANKS)%nat then reduce_levels k (2 * stride) (reduce_level stride partial) else partial
  end.

Definition binary_tree_reduce (rank_gradients : list (list R)) : list R :=
  nth 0 (reduce_levels RANKS 1 rank_gradients) [].

(** ** Training *)

Definition initial_model : list R :=
  (λ index, s_mul (lit 1 100) (lit (Z.of_nat (index mod 7)%nat - 3) 1)) <$> range PARAMETERS.

Definition rank_gradients model : list (list R) :=
  (λ rank, add_lists (local_gradient model (shard rank 0)) (local_gradient model (shard rank 1))) <$> range RANKS.

Definition descend model (total : list R) : list R :=
  (λ index, s_sub (get model index)
              (s_div (s_mul LEARNING_RATE (get total index)) (lit (Z.of_nat SAMPLES) 1))) <$> range PARAMETERS.

Definition train (reduce_gradients : list (list R) → list R) : list R :=
  Nat.iter ITERATIONS (λ model, descend model (reduce_gradients (rank_gradients model))) initial_model.

Definition reference_model (reduction : string) : result (list R) :=
  if String.eqb reduction "rank_ordered" then Ok (train rank_ordered_reduce)
  else if String.eqb reduction "binary_tree" then Ok (train binary_tree_reduce)
  else Err (ValueError ("unsupported reduction: " +:+ reduction)).

End Reference.

(** ** Vector addition *)

Section Vectors.
Context {R : Type} `{!Scalar R}.

Definition vadd (a b : list R) : list R := zip_with s_add a b.
Definition zeros : list R := replicate PARAMETERS zero.

Lemma add_lists_vadd a b : length a = PARAMETERS → length b = PARAMETERS → add_lists a b = vadd a b.
Proof.
  intros Ha Hb. apply list_eq. intros i. unfold add_lists, vadd, get.
  rewrite list_lookup_fmap, lookup_zip_with.
  destruct (decide (i < PARAMETERS)%nat) as [Hi|Hi].
  - rewrite lookup_seq_lt by done. simpl.
    destruct (lookup_lt_is_Some_2 a i) as [x Hx]; [lia|]. destruct (lookup_lt_is_Some_2 b i) as [y Hy]; [lia|].
    rewrite Hx, Hy. simpl. by rewrite (nth_lookup_Some a i zero x Hx), (nth_lookup_Some b i zero y Hy).
  - rewrite lookup_seq_ge by lia. rewrite (lookup_ge_None_2 a) by lia. done.
Qed.

Lemma length_add_lists a b : length (add_lists a b) = PARAMETERS.
Proof. unfold add_lists. by rewrite length_fmap, length_seq. Qed.

Lemma length_vadd a b : length a = PARAMETERS → length b = PARAMETERS → length (vadd a b) = PARAMETERS.
Proof. intros Ha Hb. unfold vadd. rewrite length_zip_with. lia. Qed.

Lemma length_zeros : length zeros = PARAMETERS.
Proof. apply length_replicate. Qed.

Context `{!ExactAddition R}.

Lemma vadd_assoc a b c : vadd (vadd a b) c = vadd a (vadd b c).
Proof.
  revert b c. induction a as [|x a IH]; intros [|y b] [|z c]; try done. simpl. by rewrite add_assoc, IH.
Qed.

Lemma vadd_comm a b : vadd a b = vadd b a.
Proof. revert b. induction a as [|x a IH]; intros [|y b]; try done. simpl. by rewrite add_comm, IH. Qed.

Lemma vadd_zeros a : length a = PARAMETERS → vadd zeros a = a.
Proof.
  unfold zeros. generalize PARAMETERS as n. induction a as [|x a IH]; intros [|n] H; try done.
  simpl in *. injection H as H. f_equal; [apply add_zero|by apply IH].
Qed.

Lemma vadd_zeros_r a : length a = PARAMETERS → vadd a zeros = a.
Proof. intros H. rewrite vadd_comm. by apply vadd_zeros. Qed.

(** ** Updates that add a fixed vector *)

(** An update of a gradient that adds what it would add to the zero vector. *)
Definition additive (F : list R → list R) : Prop :=
  length (F zeros) = PARAMETERS ∧ ∀ g, length g = PARAMETERS → F g = vadd g (F zeros).

Lemma additive_id : additive (λ g, g).
Proof. split; [apply length_zeros|]. intros g Hg. by rewrite vadd_zeros_r. Qed.

Lemma additive_compose F G : additive F → additive G → additive (λ g, G (F g)).
Proof.
  intros [HlF HF] [HlG HG].
  assert (Hc : ∀ g, length g = PARAMETERS → G (F g) = vadd g (vadd (F zeros) (G zeros))).
  { intros g Hg. rewrite HG; [rewrite (HF g Hg); apply vadd_assoc|]. rewrite (HF g Hg). by apply length_vadd. }
  assert (Hl : length (vadd (F zeros) (G zeros)) = PARAMETERS) by (by apply length_vadd).
  split.
  - rewrite (Hc zeros length_zeros). by apply length_vadd; [apply length_zeros|].
  - intros g Hg. rewrite (Hc zeros length_zeros), vadd_zeros by done. by apply Hc.
Qed.

Lemma additive_foldl {A} (F : list R → A → list R) l : (∀ x, additive (λ g, F g x)) → additive (λ g, foldl F g l).
Proof.
  intros HF. induction l as [|x l IH]; [apply additive_id|].
  exact (additive_compose (λ g, F g x) (λ g, foldl F g l) (HF x) IH).
Qed.

Lemma additive_add_at i e : additive (add_at i e).
Proof.
  split; [unfold add_at; by rewrite length_alter, length_zeros|]. intros g Hg. apply list_eq. intros j.
  unfold vadd, add_at. rewrite lookup_zip_with. destruct (decide (i = j)) as [->|Hne].
  - rewrite !list_lookup_alter_eq. destruct (decide (j < PARAMETERS)%nat) as [Hj|Hj].
    + unfold zeros. rewrite lookup_replicate_2 by done. destruct (g !! j); simpl; [|done].
      by rewrite (add_zero e : s_add zero e = e).
    + rewrite (lookup_ge_None_2 g) by lia. done.
  - rewrite !list_lookup_alter_ne by done. destruct (decide (j < PARAMETERS)%nat) as [Hj|Hj].
    + unfold zeros. rewrite lookup_replicate_2 by done. destruct (g !! j); simpl; [|done].
      by rewrite add_comm, (add_zero r : s_add zero r = r).
    + rewrite (lookup_ge_None_2 g) by lia. done.
Qed.

Lemma additive_accumulate model sample : additive (λ g, accumulate model g sample).
Proof.
  destruct sample as [inputs label]. unfold accumulate.
  apply (additive_compose
    (λ g, foldl (λ g output, foldl (λ g h, add_at (w2 h output) _ g) (add_at (b2 output) _ g) (range HIDDEN)) g (range CLASSES))
    (λ g, foldl (λ g h, foldl (λ g feature, add_at (w1 feature h) _ g) (add_at (b1 h) _ g) (range FEATURES)) g (range HIDDEN))).
  - apply additive_foldl. intros output.
    apply (additive_compose (add_at _ _) (λ g, foldl (λ g h, add_at (w2 h output) _ g) g (range HIDDEN))); [apply additive_add_at|].
    apply additive_foldl. intros h. apply additive_add_at.
  - apply additive_foldl. intros h.
    apply (additive_compose (add_at _ _) (λ g, foldl (λ g feature, add_at (w1 feature h) _ g) g (range FEATURES))); [apply additive_add_at|].
    apply additive_foldl. intros feature. apply additive_add_at.
Qed.

(** ** Gradients add up over the samples *)

Lemma local_gradient_additive model samples g :
  length g = PARAMETERS → foldl (accumulate model) g samples = vadd g (local_gradient model samples).
Proof. apply (additive_foldl (accumulate model) samples (λ s, additive_accumulate model s)). Qed.

Lemma length_local_gradient model samples : length (local_gradient model samples) = PARAMETERS.
Proof. apply (additive_foldl (accumulate model) samples (λ s, additive_accumulate model s)). Qed.

Lemma local_gradient_app model l1 l2 :
  local_gradient model (l1 ++ l2) = vadd (local_gradient model l1) (local_gradient model l2).
Proof. unfold local_gradient at 1. rewrite foldl_app. apply local_gradient_additive, length_local_gradient. Qed.

Lemma local_gradient_perm model l1 l2 : l1 ≡ₚ l2 → local_gradient model l1 = local_gradient model l2.
Proof.
  induction 1 as [|s l1 l2 _ IH|s1 s2 l|l1 l2 l3 _ IH1 _ IH2]; [done| | |congruence].
  - change (local_gradient model ([s] ++ l1) = local_gradient model ([s] ++ l2)). by rewrite !local_gradient_app, IH.
  - change (local_gradient model ([s2] ++ [s1] ++ l) = local_gradient model ([s1] ++ [s2] ++ l)).
    rewrite !local_gradient_app, <- !vadd_assoc. f_equal. apply vadd_comm.
Qed.

(** ** The two reductions *)

Definition all_shards : list (list R * nat) := range RANKS ≫= λ rank, shard rank 0 ++ shard rank 1.
Definition all_samples : list (list R * nat) := sample_data <$> range SAMPLES.

(** Every sample is in exactly one shard. *)
Lemma shards_partition : all_shards ≡ₚ all_samples.
Proof.
  unfold all_samples.
  assert (Hids : (range RANKS ≫= λ rank, (sample_id rank 0 <$> range SAMPLES_PER_GPU) ++ (sample_id rank 1 <$> range SAMPLES_PER_GPU))
    ≡ₚ range SAMPLES) by (apply (bool_decide_unpack _); vm_compute; exact I).
  rewrite <- Hids. unfold all_shards. clear Hids. induction (range RANKS) as [|rank l IH]; [done|].
  rewrite !bind_cons, !fmap_app, IH. unfold shard. by rewrite <- !list_fmap_compose.
Qed.

Lemma rank_gradient_all model rank :
  add_lists (local_gradient model (shard rank 0)) (local_gradient model (shard rank 1))
  = local_gradient model (shard rank 0 ++ shard rank 1).
Proof. by rewrite local_gradient_app, add_lists_vadd by apply length_local_gradient. Qed.

(** The shapes of the two sums, whatever addition is. *)
Lemma rank_ordered_shape (g0 g1 g2 g3 g4 g5 g6 g7 : list R) :
  rank_ordered_reduce [g0; g1; g2; g3; g4; g5; g6; g7]
  = add_lists (add_lists (add_lists (add_lists (add_lists (add_lists (add_lists g0 g1) g2) g3) g4) g5) g6) g7.
Proof. reflexivity. Qed.

Lemma binary_tree_shape (g0 g1 g2 g3 g4 g5 g6 g7 : list R) :
  binary_tree_reduce [g0; g1; g2; g3; g4; g5; g6; g7]
  = add_lists (add_lists (add_lists g0 g1) (add_lists g2 g3)) (add_lists (add_lists g4 g5) (add_lists g6 g7)).
Proof. reflexivity. Qed.

Lemma reductions_vadd g0 g1 g2 g3 g4 g5 g6 g7 :
  Forall (λ g, length g = PARAMETERS) [g0; g1; g2; g3; g4; g5; g6; g7] →
  let total := vadd g0 (vadd g1 (vadd g2 (vadd g3 (vadd g4 (vadd g5 (vadd g6 g7)))))) in
  rank_ordered_reduce [g0; g1; g2; g3; g4; g5; g6; g7] = total ∧
  binary_tree_reduce [g0; g1; g2; g3; g4; g5; g6; g7] = total.
Proof.
  intros H total. repeat (apply Forall_cons in H; destruct H as [? H]).
  rewrite rank_ordered_shape, binary_tree_shape.
  assert (Hv := length_vadd). assert (Hr := add_lists_vadd). subst total.
  split; rewrite !Hr by auto 9; by rewrite !vadd_assoc.
Qed.

Lemma reductions_sum model :
  rank_ordered_reduce (rank_gradients model) = local_gradient model all_samples ∧
  binary_tree_reduce (rank_gradients model) = local_gradient model all_samples.
Proof.
  rewrite <- (local_gradient_perm _ _ _ shards_partition). unfold rank_gradients, all_shards.
  cbn [fmap list_fmap range RANKS seq mbind list_bind]. rewrite !rank_gradient_all, app_nil_r, !local_gradient_app.
  apply reductions_vadd; repeat apply Forall_cons_2; try apply Forall_nil_2; apply length_vadd; apply length_local_gradient.
Qed.

(** Training on the whole batch: the specification of both reductions. *)
Definition train_full_batch : list R :=
  Nat.iter ITERATIONS (λ model, descend model (local_gradient model all_samples)) initial_model.

Lemma iter_ext {A} (f g : A → A) n x : (∀ y, f y = g y) → Nat.iter n f x = Nat.iter n g x.
Proof. intros H. induction n as [|n IH]; simpl; [done|]. by rewrite IH, H. Qed.

(** C26: data-parallel training is full-batch training.  With exact addition both reductions of
    the reference give the same model, the one of gradient descent on all 128 samples at once:
    sharding over ranks and GPUs neither drops nor repeats a sample, and the order of the
    reduction does not matter.  Any other reduction name is refused.  Without any law of
    addition the two sums are the left-to-right sum and the balanced tree over contiguous ranks. *)
Theorem reductions_agree :
  reference_model "rank_ordered" = Ok train_full_batch ∧
  reference_model "binary_tree" = Ok train_full_batch ∧
  all_shards ≡ₚ all_samples ∧
  ∀ reduction, reduction ≠ "rank_ordered" → reduction ≠ "binary_tree" →
    reference_model reduction = Err (ValueError ("unsupported reduction: " +:+ reduction)).
Proof.
  split; [|split; [|split; [apply shards_partition|]]].
  - unfold reference_model. cbn [String.eqb]. f_equal. apply iter_ext. intros model. by rewrite (proj1 (reductions_sum model)).
  - unfold reference_model. f_equal. apply iter_ext. intros model. by rewrite (proj2 (reductions_sum model)).
  - intros reduction H1 H2. unfold reference_model.
    by rewrite (proj2 (String.eqb_neq _ _) H1), (proj2 (String.eqb_neq _ _) H2).
Qed.
End Vectors.

(** Every parameter has exactly one index below [PARAMETERS]. *)
Lemma layout_bijective : layout = range PARAMETERS.
Proof. reflexivity. Qed.

(** An instance with exact addition: integers, with truncating division. *)
#[export] Instance integer_scalar : Scalar Z := {
  lit := Z.div; s_add := Z.add; s_sub := Z.sub; s_mul := Z.mul; s_div := Z.div; s_max := Z.max;
  s_exp := λ x, 2 ^ x; s_eqb := Z.eqb;
}.

#[export] Instance integer_exact : ExactAddition Z.
Proof. split; simpl; intros; rewrite ?Z.div_0_l; lia. Qed.

Lemma reductions_agree_witness :
  reference_model (R := Z) "rank_ordered" = reference_model "binary_tree".
Proof. destruct (reductions_agree (R := Z)) as (-> & -> & _). reflexivity. Defined.
