(* ===== verification/Host.v ===== *)
(** * Programs that drive other programs

    The scripts under [src/scripts] prepare directories and files and run other commands.  This
    file gives them a state, the file system and the commands run so far, and the operations
    they share; what a command does to the files is a parameter. *)

From S2P Require Import Prelude PyValue Worker.

Record host := Host {
  h_fs : filesystem;
  h_calls : list (list string);        (** the commands run, oldest first *)
  h_reads : nat;                       (** the readings taken of the clock *)
}.

(** The effect of a command, given how many ran before it: the files after it and its exit status. *)
Abbreviation execution := (nat → list string → filesystem → filesystem * Z).

Definition H (A : Type) : Type := host → host * result A.

#[export] Instance H_ret : MRet H := λ A a h, (h, Ok a).
#[export] Instance H_bind : MBind H := λ A B f m h,
  match m h with
  | (h', Ok a) => f a h'
  | (h', Err e) => (h', Err e)
  end.

Definition h_lift {A} (r : result A) : H A := λ h, (h, r).
Definition h_files (h : host) : gmap string string := fs_files (h_fs h).

Definition h_read (path : string) : H string := λ h,
  (h, h_files h !! path ?! FileNotFoundError ("[Errno 2] No such file or directory: " +:+ repr_str path)).

Definition h_is_file (path : string) : H bool := λ h, (h, Ok (bool_decide (is_Some (h_files h !! path)))).

(** [path.mkdir(parents=True, exist_ok=False)] *)
Definition h_mkdir_new (path : string) : H unit := λ h,
  if path_exists (h_fs h) path then (h, Err (OSError ("[Errno 17] File exists: " +:+ repr_str path)))
  else (Host (mkdir path (h_fs h)).1 (h_calls h) (h_reads h), Ok ()).

(** [path.write_text(text)] *)
Definition h_write (path text : string) : H unit := λ h,
  let '(fs, r) := write_bytes path text (h_fs h) in (Host fs (h_calls h) (h_reads h), r).

(** [subprocess.run(command, check=True)] *)
Definition h_run (exec : execution) (command : list string) : H unit := λ h,
  let '(fs, status) := exec (length (h_calls h)) command (h_fs h) in
  (Host fs (h_calls h ++ [command]) (h_reads h),
   raise_if (negb (status =? 0)) (RuntimeError "Command returned non-zero exit status")).

Fixpoint h_for {A} (f : A → H unit) (l : list A) : H unit :=
  match l with [] => mret () | x :: r => f x ≫= λ _, h_for f r end.

(** [json.dumps(v, indent=2)] of ASCII text. *)
Definition indentation (level : nat) : string := nl +:+ join "" (replicate level "  ").

Fixpoint json_indent (level : nat) (v : pyval) : string :=
  match v with
  | PList [] => "[]"
  | PList l => "[" +:+ indentation (S level) +:+
      join ("," +:+ indentation (S level)) (json_indent (S level) <$> l) +:+ indentation level +:+ "]"
  | PDict [] => "{}"
  | PDict d => "{" +:+ indentation (S level) +:+
      join ("," +:+ indentation (S level)) ((λ kv, json_str kv.1 +:+ ": " +:+ json_indent (S level) kv.2) <$> d) +:+
      indentation level +:+ "}"
  | v => json_dumps v
  end.

(** ** Laws *)

Lemma H_bind_Ok {A B} (m : H A) (f : A → H B) h h' b :
  (m ≫= f) h = (h', Ok b) ↔ ∃ h1 a, m h = (h1, Ok a) ∧ f a h1 = (h', Ok b).
Proof. unfold mbind, H_bind. destruct (m h) as [h1 [a|e]]; naive_solver. Qed.

Lemma h_lift_Ok {A} (r : result A) h h' a : h_lift r h = (h', Ok a) ↔ h' = h ∧ r = Ok a.
Proof. unfold h_lift. naive_solver. Qed.

Lemma h_read_Ok path h h' text : h_read path h = (h', Ok text) ↔ h' = h ∧ h_files h !! path = Some text.
Proof. unfold h_read. destruct (h_files h !! path); cbn [of_option]; naive_solver. Qed.

Lemma h_is_file_Ok path h h' b : h_is_file path h = (h', Ok b) ↔ h' = h ∧ b = bool_decide (is_Some (h_files h !! path)).
Proof. unfold h_is_file. naive_solver. Qed.

Lemma h_run_Ok exec command h h' u :
  h_run exec command h = (h', Ok u) ↔
  exec (length (h_calls h)) command (h_fs h) = (h_fs h', 0) ∧ h_calls h' = h_calls h ++ [command] ∧ h_reads h' = h_reads h.
Proof.
  unfold h_run. destruct (exec (length (h_calls h)) command (h_fs h)) as [fs status], h' as [fs' calls' reads'], u.
  cbn [h_fs h_calls h_reads]. split.
  - intros [= -> <- <- Hs%raise_if_Ok]. apply negb_false_iff, Z.eqb_eq in Hs as ->. done.
  - intros ([= -> ->] & -> & ->). done.
Qed.

Lemma h_write_Ok path text h h' u :
  h_write path text h = (h', Ok u) →
  h_calls h' = h_calls h ∧ h_fs h' = Filesystem (fs_dirs (h_fs h)) (<[path := text]> (h_files h)).
Proof.
  unfold h_write. destruct (write_bytes path text (h_fs h)) as [fs r] eqn:E. intros [= <- ->].
  apply write_bytes_Ok in E as (_ & _ & ->). done.
Qed.

Lemma h_mkdir_new_Ok path h h' u :
  h_mkdir_new path h = (h', Ok u) →
  path_exists (h_fs h) path = false ∧ h_calls h' = h_calls h ∧
  h_fs h' = Filesystem ({[path]} ∪ fs_dirs (h_fs h)) (h_files h).
Proof. unfold h_mkdir_new. destruct (path_exists _ _); [done|]. by intros [= <-]. Qed.

Ltac h_inv :=
  repeat match goal with
  | H : (_ ≫= _) _ = (_, Ok _) |- _ =>
      let h := fresh "h" in let a := fresh "a" in let Hm := fresh "Hm" in
      apply H_bind_Ok in H; destruct H as (h & a & Hm & H)
  | H : h_lift _ _ = (_, Ok _) |- _ =>
      let Hr := fresh "Hr" in apply h_lift_Ok in H; destruct H as [-> Hr]
  end.

(** ** The commands of a program *)

(** [m] runs [commands] in their order: all of them when it succeeds, and no other and none out
    of turn when it fails. *)
Definition runs {A} (m : H A) (commands : list (list string)) : Prop :=
  ∀ h, ∃ ran left_, commands = ran ++ left_ ∧ h_calls (m h).1 = h_calls h ++ ran ∧ (is_ok (m h).2 = true → left_ = []).

Lemma runs_nothing {A} (m : H A) : (∀ h, h_calls (m h).1 = h_calls h) → runs m [].
Proof. intros Hm h. exists [], []. split_and!; [done|by rewrite Hm, app_nil_r|done]. Qed.

Lemma runs_ret {A} (a : A) : runs (mret a) [].
Proof. by apply runs_nothing. Qed.

Lemma runs_lift {A} (r : result A) : runs (h_lift r) [].
Proof. by apply runs_nothing. Qed.

Lemma runs_mkdir path : runs (h_mkdir_new path) [].
Proof. apply runs_nothing. intros h. unfold h_mkdir_new. by destruct (path_exists _ _). Qed.

Lemma runs_write path text : runs (h_write path text) [].
Proof. apply runs_nothing. intros h. unfold h_write. by destruct (write_bytes _ _ _). Qed.

Lemma runs_run exec command : runs (h_run exec command) [command].
Proof. intros h. exists [command], []. unfold h_run. by destruct (exec (length (h_calls h)) command (h_fs h)). Qed.

Lemma runs_bind {A B} (m : H A) (f : A → H B) c1 c2 :
  runs m c1 → (∀ a, runs (f a) c2) → runs (m ≫= f) (c1 ++ c2).
Proof.
  intros Hm Hf h. unfold mbind, H_bind. destruct (Hm h) as (d1 & r1 & -> & H1 & Hr1).
  destruct (m h) as [h1 [a|e]]; cbn [fst snd] in *.
  - destruct (Hf a h1) as (d2 & r2 & -> & H2 & Hr2). rewrite (Hr1 eq_refl), app_nil_r.
    exists (d1 ++ d2), r2. rewrite H2, H1, <- !app_assoc. split_and!; done.
  - exists d1, (r1 ++ c2). rewrite <- app_assoc. split_and!; done.
Qed.

(** The same, after steps that run nothing. *)
Lemma runs_after {A B} (m : H A) (f : A → H B) c : runs m [] → (∀ a, runs (f a) c) → runs (m ≫= f) c.
Proof. exact (runs_bind m f [] c). Qed.

Lemma runs_for {A} (f : A → H unit) (commands : A → list (list string)) l :
  (∀ x, runs (f x) (commands x)) → runs (h_for f l) (l ≫= commands).
Proof.
  intros Hf. induction l as [|x l IH]; [apply runs_ret|]. rewrite bind_cons. cbn [h_for]. by apply runs_bind.
Qed.

Lemma runs_all exec commands : runs (h_for (h_run exec) commands) commands.
Proof.
  assert (Hs : commands ≫= (λ c, [c]) = commands) by (induction commands as [|c l IH]; [done|]; by rewrite bind_cons, IH).
  rewrite <- Hs at 2. apply runs_for. intros c. apply runs_run.
Qed.

Lemma runs_at {A} (f : host → H A) c : (∀ h, runs (f h) c) → runs (λ h, f h h) c.
Proof. intros Hf h. apply Hf. Qed.

Create HintDb host.
#[export] Hint Resolve runs_lift runs_mkdir runs_write runs_run runs_all runs_ret : host.

(** Step through a program up to its commands. *)
Ltac runs_step := repeat (apply runs_after; [solve [auto with host]|intros ?]).

(** ** Captured output and cleaning up *)

(** The effect of a command whose output is captured: the files after it, its exit status and
    the text it printed. *)
Abbreviation capturing := (nat → list string → filesystem → filesystem * (Z * string)).

Definition quiet (exec : capturing) : execution := λ n command fs,
  let '(fs', (status, _)) := exec n command fs in (fs', status).

(** [subprocess.run(command, capture_output=True)] *)
Definition h_capture (exec : capturing) (command : list string) : H (Z * string) := λ h,
  let '(fs, out) := exec (length (h_calls h)) command (h_fs h) in (Host fs (h_calls h ++ [command]) (h_reads h), Ok out).

(** [completed.check_returncode()]; a status is an exit code, not a signal. *)
Definition check_returncode (command : list string) (out : Z * string) : result string :=
  if out.1 =? 0 then Ok out.2
  else Err (RuntimeError ("Command '" +:+ repr (PList (PStr <$> command)) +:+ "' returned non-zero exit status " +:+ str_of_Z out.1 +:+ ".")).

(** [subprocess.run(command, check=True, capture_output=True).stdout] *)
Definition h_output (exec : capturing) (command : list string) : H string :=
  out ← h_capture exec command; h_lift (check_returncode command out).

(** [try: m finally: cleanup] *)
Definition h_finally {A} (m : H A) (cleanup : H unit) : H A := λ h,
  let '(h1, r) := m h in
  match cleanup h1 with
  | (h2, Ok _) => (h2, r)
  | (h2, Err e) => (h2, Err e)
  end.

(** [try: m except e if handles e: handler] *)
Definition h_except {A} (m : H A) (handles : exn → bool) (handler : exn → H A) : H A := λ h,
  match m h with
  | (h1, Err e) => if handles e then handler e h1 else (h1, Err e)
  | r => r
  end.

(** [path.mkdir(parents=True, exist_ok=True)] *)
Definition h_mkdir (path : string) : H unit := λ h,
  if bool_decide (is_Some (h_files h !! path))
  then (h, Err (OSError ("[Errno 17] File exists: " +:+ repr_str path)))
  else (Host (mkdir path (h_fs h)).1 (h_calls h) (h_reads h), Ok ()).

Lemma runs_mkdir_ok path : runs (h_mkdir path) [].
Proof. apply runs_nothing. intros h. unfold h_mkdir. by destruct (bool_decide _). Qed.

Lemma runs_read path : runs (h_read path) [].
Proof. by apply runs_nothing. Qed.

Lemma runs_is_file path : runs (h_is_file path) [].
Proof. by apply runs_nothing. Qed.

#[export] Hint Resolve runs_mkdir_ok runs_read runs_is_file : host.

(** ** Time *)

(** [time.monotonic()]: the next reading of the clock, in nanoseconds. *)
Definition h_now (clock : nat → Z) : H Z := λ h, (Host (h_fs h) (h_calls h) (S (h_reads h)), Ok (clock (h_reads h))).

Lemma runs_now clock : runs (h_now clock) [].
Proof. by apply runs_nothing. Qed.

#[export] Hint Resolve runs_now : host.

(** ** Blocks of commands *)

(** [m] runs whole [blocks] of commands in their order: all of them when it succeeds, and only
    an initial part of them, each complete, when it fails. *)
Definition runs_blocks {A} (m : H A) (blocks : list (list (list string))) : Prop :=
  ∀ h, ∃ ran left_, blocks = ran ++ left_ ∧ h_calls (m h).1 = h_calls h ++ concat ran ∧ (is_ok (m h).2 = true → left_ = []).

Lemma runs_blocks_quiet {A} (m : H A) : runs m [] → runs_blocks m [].
Proof.
  intros Hm h. destruct (Hm h) as (ran & left_ & Heq & Hc & _). symmetry in Heq. apply app_eq_nil in Heq as [-> ->].
  by exists [], [].
Qed.

Lemma runs_blocks_one {A} (m : H A) block : (∀ h, h_calls (m h).1 = h_calls h ++ block) → runs_blocks m [block].
Proof. intros Hm h. exists [block], []. split; [done|]. split; [|done]. by rewrite Hm; cbn [concat]; rewrite app_nil_r. Qed.

Lemma runs_blocks_bind {A B} (m : H A) (f : A → H B) b1 b2 :
  runs_blocks m b1 → (∀ a, runs_blocks (f a) b2) → runs_blocks (m ≫= f) (b1 ++ b2).
Proof.
  intros Hm Hf h. unfold mbind, H_bind. destruct (Hm h) as (d1 & r1 & -> & H1 & Hr1).
  destruct (m h) as [h1 [a|e]]; cbn [fst snd] in *.
  - destruct (Hf a h1) as (d2 & r2 & -> & H2 & Hr2). rewrite (Hr1 eq_refl), app_nil_r.
    exists (d1 ++ d2), r2. rewrite H2, H1, concat_app, <- !app_assoc. split_and!; done.
  - exists d1, (r1 ++ b2). rewrite <- app_assoc. split_and!; done.
Qed.

Lemma runs_blocks_after {A B} (m : H A) (f : A → H B) b : runs m [] → (∀ a, runs_blocks (f a) b) → runs_blocks (m ≫= f) b.
Proof. intros Hm. apply (runs_blocks_bind m f [] b), runs_blocks_quiet, Hm. Qed.

Lemma runs_blocks_end {A B} (m : H A) (f : A → H B) b : runs_blocks m b → (∀ a, runs (f a) []) → runs_blocks (m ≫= f) b.
Proof.
  intros Hm Hf. rewrite <- (app_nil_r b). apply runs_blocks_bind; [done|]. intros a. apply runs_blocks_quiet, Hf.
Qed.

(** A loop that collects what its body returns. *)
Fixpoint h_map {A B} (f : A → H B) (l : list A) : H (list B) :=
  match l with
  | [] => mret []
  | x :: r => y ← f x; ys ← h_map f r; mret (y :: ys)
  end.

(** A loop that carries a state. *)
Fixpoint h_fold {T A} (f : T → A → H T) (t : T) (l : list A) : H T :=
  match l with [] => mret t | x :: r => t' ← f t x; h_fold f t' r end.

Lemma runs_blocks_map {A B} (f : A → H B) (block : A → list (list string)) l :
  (∀ x, runs_blocks (f x) [block x]) → runs_blocks (h_map f l) (block <$> l).
Proof.
  intros Hf. induction l as [|x l IH]; [apply runs_blocks_quiet, runs_ret|]. cbn [h_map fmap list_fmap].
  apply (runs_blocks_bind _ _ [block x] (block <$> l)); [done|]. intros y. apply runs_blocks_end; [done|].
  intros ys. apply runs_ret.
Qed.

Lemma h_calls_finally {A} (m : H A) cleanup block1 block2 :
  (∀ h, h_calls (m h).1 = h_calls h ++ block1) → (∀ h, h_calls (cleanup h).1 = h_calls h ++ block2) →
  ∀ h, h_calls (h_finally m cleanup h).1 = h_calls h ++ block1 ++ block2.
Proof.
  intros Hm Hc h. unfold h_finally. specialize (Hm h). destruct (m h) as [h1 r]. specialize (Hc h1).
  destruct (cleanup h1) as [h2 [u|e]]; cbn [fst] in *; by rewrite Hc, Hm, app_assoc.
Qed.

Lemma h_calls_output exec command h : h_calls (h_output exec command h).1 = h_calls h ++ [command].
Proof.
  unfold h_output, mbind, H_bind, h_capture, h_lift. by destruct (exec (length (h_calls h)) command (h_fs h)) as [fs [status text]].
Qed.

Lemma h_calls_run exec command h : h_calls (h_run exec command h).1 = h_calls h ++ [command].
Proof. unfold h_run. by destruct (exec (length (h_calls h)) command (h_fs h)). Qed.

Lemma h_fold_inv {T A} (f : T → A → H T) (P : list A → T → Prop) l t h h' t' :
  h_fold f t l h = (h', Ok t') → P [] t →
  (∀ done_ x t1 t2 h1 h2, P done_ t1 → f t1 x h1 = (h2, Ok t2) → P (done_ ++ [x]) t2) → P l t'.
Proof.
  intros Hr H0 Hs. cut (∀ done_, P done_ t → P (done_ ++ l) t'); [intros Hc; by apply (Hc [])|]. clear H0.
  revert t h Hr. induction l as [|x l IH]; intros t h Hr done_ Hd; cbn [h_fold] in Hr.
  - injection Hr as _ <-. by rewrite app_nil_r.
  - apply H_bind_Ok in Hr as (h1 & t1 & Hf & Hr). replace (done_ ++ x :: l) with ((done_ ++ [x]) ++ l) by (by rewrite <- app_assoc).
    eapply IH; [exact Hr|]. eapply Hs; [exact Hd|exact Hf].
Qed.
