(* ===== verification/Matrices.v ===== *)
(** * Generating the scaling matrices

    Models of [src/scripts/generate_matmul_dp_dind_matrix.py] (module [Matmul]),
    [src/scripts/generate_mlp_dp_matrix.py] (module [MlpDp]) and
    [src/scripts/generate_native_mlp_dind_matrix.py] (module [NativeMlp]): the process graphs,
    their placements and the commands each script runs. *)

From S2P Require Import Prelude PyValue Topology Placement Routing Proxy Worker Host.

Abbreviation strs l := (PList (PStr <$> l)).

(** [yaml.safe_dump] is a third-party printer; [root] is the repository, [python] the interpreter. *)
Record tools := Tools {
  tl_exec : execution;
  tl_dump : pyval → string;
  tl_root : string;
  tl_python : string;
}.

(** [call(...)] *)
Definition call (t : tools) (arguments : list string) : H unit := h_run (tl_exec t) (tl_python t :: arguments).

(** [str(ROOT / directory / name)] *)
Definition script (t : tools) (name : string) : string := path_div (path_div (tl_root t) "real") name.

Module Matmul.

Definition GLOBAL_ROWS : Z := 480.
Definition INNER : Z := 64.
Definition COLUMNS : Z := 64.
Definition MAX_RANKS : Z := 35.

Definition gpu_coordinate (rank : Z) : Z * Z := (rank mod 6, rank / 6).

Definition controller_process (rank_count : Z) : process :=
  [("cmd", PStr "$SIMULATOR_ROOT/snipersim/run-sniper");
   ("args", strs ["--"; "/opt/legosim/artifact/matmul_dp/bin/matmul_dp_c"; "5"; "5"; str_of_Z rank_count]);
   ("log", PStr "sniper.matmul_dp.log"); ("is_to_stdout", PBool true); ("clock_rate", PInt 1)].

Definition gpu_process (rank_count rank : Z) : process :=
  let '(x, y) := gpu_coordinate rank in
  [("cmd", PStr "/opt/legosim/artifact/matmul_dp/bin/matmul_dp_cu");
   ("args", strs [str_of_Z x; str_of_Z y; str_of_Z rank; str_of_Z rank_count]);
   ("log", PStr ("gpgpusim.matmul_dp." +:+ str_of_Z rank +:+ ".log")); ("is_to_stdout", PBool true);
   ("clock_rate", PInt 1); ("pre_copy", PStr "$SIMULATOR_ROOT/gpgpu-sim/configs/tested-cfgs/SM7_TITANV/*")].

Definition popnet_process : process :=
  [("cmd", PStr "$SIMULATOR_ROOT/popnet_chiplet/build/popnet");
   ("args", strs ["-A"; "36"; "-c"; "1"; "-V"; "3"; "-B"; "12"; "-O"; "12"; "-F"; "4"; "-L"; "1000";
      "-T"; "1000000000"; "-r"; "1"; "-I"; "../bench.txt"; "-R"; "4"; "-G"; "../topology/mesh_6_6_flit_4.gv";
      "-D"; "../delayInfo.txt"; "-P"]);
   ("log", PStr "popnet.matmul_dp.log"); ("is_to_stdout", PBool true); ("clock_rate", PInt 1)].

(** [phase1] of [source_workload]: the controller and one GPU process per rank. *)
Definition phase1_processes (rank_count : Z) : list process :=
  controller_process rank_count :: (gpu_process rank_count <$> seqZ 0 rank_count).

Definition source_workload (rank_count : Z) : pydict :=
  [("phase1", PList (PDict <$> phase1_processes rank_count)); ("phase2", PList [PDict popnet_process]);
   ("bench_file", PStr "./bench.txt"); ("delayinfo_file", PStr "./delayInfo.txt")].

Definition controller_item : pydict :=
  [("phase", PStr "phase1"); ("process_index", PInt 0); ("node_slot", PInt 0);
   ("coordinates", PList [PInt 5; PInt 5]); ("role", PStr "sniper-controller")].

Definition gpu_item (ranks_per_worker rank : Z) : pydict :=
  let '(x, y) := gpu_coordinate rank in
  [("phase", PStr "phase1"); ("process_index", PInt (rank + 1)); ("node_slot", PInt (rank / ranks_per_worker));
   ("coordinates", PList [PInt x; PInt y]); ("role", PStr "gpgpu-block-rank"); ("rank", PInt rank)].

Definition phase2_item : pydict :=
  [("phase", PStr "phase2"); ("process_index", PInt 0); ("node_slot", PInt 0); ("role", PStr "coordinator-local-ns3")].

Definition placement_items (node_count rank_count : Z) : list pydict :=
  controller_item :: (gpu_item (rank_count / node_count) <$> seqZ 0 rank_count) ++ [phase2_item].

Definition placement (node_count rank_count : Z) : pydict :=
  [("version", PInt 1); ("workload", PStr "matmul_dp_block_gemm"); ("swarm_nodes", PInt node_count);
   ("global_matrix", PDict [("rows", PInt GLOBAL_ROWS); ("inner", PInt INNER); ("columns", PInt COLUMNS)]);
   ("gpu_ranks", PInt rank_count); ("processes", PList (PDict <$> placement_items node_count rank_count))].

Record arguments := Arguments {
  ar_output_root : string;
  ar_image : string;
  ar_nodes : list Z;
  ar_gpu_ranks : option Z;
  ar_stream_output : bool;
  ar_cycle_ns : Z;
  ar_link_rate : string;
  ar_link_delay_ns : Z;
  ar_queue_packets : Z;
  ar_localize : bool;
}.

(** [arguments.gpu_ranks or node_count * 2] *)
Definition rank_count_of (a : arguments) (node_count : Z) : Z :=
  match ar_gpu_ranks a with None | Some 0 => node_count * 2 | Some r => r end.

Definition unsupported (rank_count node_count : Z) : bool :=
  (rank_count <? 1) || (MAX_RANKS <? rank_count) || negb (GLOBAL_ROWS mod rank_count =? 0) ||
  negb (rank_count mod node_count =? 0).

(** The four generator commands of one node count. *)
Definition commands (t : tools) (a : arguments) (node_count : Z) : list (list string) :=
  let output := path_div (ar_output_root a) ("matmul-dp-nodes" +:+ str_of_Z node_count) in
  let file := path_div output in
  (tl_python t ::.) <$>
  [ [script t "generate_simbricks_topology.py"; "--nodes"; str_of_Z node_count; "--output"; file "topology.json"];
    [script t "generate_simbricks_routing.py"; "--placement"; file "placement.json"; "--topology"; file "topology.json";
     "--output"; file "routing.json"];
    [script t "generate_distributed_yaml.py"; "--source-yaml"; file "source.yml"; "--placement"; file "placement.json";
     "--output"; file "workload.yml"; "--benchmark-root"; "/opt/legosim/artifact/matmul";
     "--sniper-cores"; "1"; "--sniper-maxthreads"; "1"; "--phase2-backend"; "ns3";
     "--ns3-cycle-ns"; str_of_Z (ar_cycle_ns a); "--ns3-link-rate"; ar_link_rate a;
     "--ns3-link-delay-ns"; str_of_Z (ar_link_delay_ns a); "--ns3-queue-packets"; str_of_Z (ar_queue_packets a)]
    ++ (if ar_localize a then ["--ns3-localize-cross-worker-network"] else [])
    ++ (if ar_stream_output a then ["--stream-output"] else []);
    [script t "generate_swarm_stack.py"; "--placement"; file "placement.json"; "--topology"; file "topology.json";
     "--routing"; file "routing.json"; "--workload-yaml"; file "workload.yml"; "--image"; ar_image a;
     "--output"; file "stack.yml"; "--stack-name"; "chipsystemsim_matmul_dp_" +:+ str_of_Z node_count;
     "--topology-width"; "6"; "--flit-size"; "4"] ].

(** The body of the loop over the node counts. *)
Definition generate (t : tools) (a : arguments) (node_count : Z) : H unit :=
  let rank_count := rank_count_of a node_count in
  _ ← h_lift (raise_if (unsupported rank_count node_count)
        (ValueError "node count produces an unsupported block partition"));
  let output := path_div (ar_output_root a) ("matmul-dp-nodes" +:+ str_of_Z node_count) in
  _ ← h_mkdir_new output;
  _ ← h_write (path_div output "source.yml") (tl_dump t (PDict (source_workload rank_count)));
  _ ← h_write (path_div output "placement.json") (json_indent 0 (PDict (placement node_count rank_count)) +:+ nl);
  h_for (h_run (tl_exec t)) (commands t a node_count).

Definition main (t : tools) (a : arguments) : H unit :=
  _ ← h_lift (raise_if ((ar_cycle_ns a <? 1) || (ar_link_delay_ns a <? 1)) (ValueError "ns-3 timing parameters must be positive"));
  _ ← h_lift (raise_if (ar_queue_packets a <? 1) (ValueError "ns-3 queue depth must be positive"));
  h_for (generate t a) (ar_nodes a).

End Matmul.

(** The fields the later generators read from an item of a placement file. *)
Definition placed_of (d : pydict) : result placed :=
  phase ← dict_item "phase" d;
  phase ← is_str phase ?! TypeError;
  index ← dict_item "process_index" d;
  index ← int_of index;
  slot ← dict_item "node_slot" d;
  slot ← int_of slot;
  match dict_get_default "coordinates" PNone d with
  | PNone => Ok (Placed phase index slot "" None)
  | PList (PInt x :: PInt y :: _) => Ok (Placed phase index slot "" (Some (x, y)))
  | _ => Err TypeError
  end.

(** Distinct coordinates cannot be placed on two workers. *)
Lemma consistent_NoDup ps : NoDup (omap pl_coordinates ps) → consistent ps.
Proof.
  intros Hnd key s1 s2 p1 p2 Hp1 Hp2 (x1 & y1 & Hc1 & Hk1 & <-) (x2 & y2 & Hc2 & Hk2 & <-).
  rewrite <- Hk2 in Hk1. apply coordinate_key_inj in Hk1 as [-> ->]. clear key Hk2. f_equal.
  induction ps as [|p ps IH]; [set_solver|]. cbn in Hnd.
  assert (Hin : ∀ q, q ∈ ps → pl_coordinates q = Some (x2, y2) → (x2, y2) ∈ omap pl_coordinates ps)
    by (intros q Hq Hc; apply list_elem_of_omap; by exists q).
  apply elem_of_cons in Hp1 as [->|Hp1], Hp2 as [->|Hp2]; [done| | |].
  - rewrite Hc1 in Hnd. apply NoDup_cons in Hnd as [Hnot _]. exfalso. by apply Hnot, (Hin p2).
  - rewrite Hc2 in Hnd. apply NoDup_cons in Hnd as [Hnot _]. exfalso. by apply Hnot, (Hin p1).
  - apply IH; [|done|done]. destruct (pl_coordinates p); [by apply NoDup_cons in Hnd as [_ ?]|done].
Qed.

Module MatmulFacts.
Import Matmul.

Definition gpu_placed (ranks_per_worker rank : Z) : placed :=
  Placed "phase1" (rank + 1) (rank / ranks_per_worker) "" (Some (gpu_coordinate rank)).

Lemma placement_items_read n r :
  mapM placed_of (placement_items n r)
  = Ok (Placed "phase1" 0 0 "" (Some (5, 5)) :: (gpu_placed (r / n) <$> seqZ 0 r) ++ [Placed "phase2" 0 0 "" None]).
Proof.
  unfold placement_items. apply mapM_result_Ok. apply Forall2_cons_2; [reflexivity|].
  apply Forall2_app; [|by apply Forall2_cons_2]. induction (seqZ 0 r) as [|x l IH]; [constructor|].
  apply Forall2_cons_2; [reflexivity|exact IH].
Qed.

Lemma gpu_coordinate_inj a b : gpu_coordinate a = gpu_coordinate b → a = b.
Proof. unfold gpu_coordinate. intros [= H1 H2]. rewrite (Z.div_mod a 6), (Z.div_mod b 6) by done. lia. Qed.

Lemma unsupported_false r n : 1 ≤ n → unsupported r n = false → 1 ≤ r ≤ 35 ∧ r = n * (r / n) ∧ 480 mod r = 0.
Proof.
  unfold unsupported, MAX_RANKS, GLOBAL_ROWS. intros Hn H. bool_facts.
  repeat match goal with H : _ ∧ _ |- _ => destruct H end.
  split_and!; try lia. apply Z_div_exact_2; lia.
Qed.

(** The coordinates of a placement, in process order. *)
Lemma placement_coordinates n r :
  omap pl_coordinates (Placed "phase1" 0 0 "" (Some (5, 5)) :: (gpu_placed (r / n) <$> seqZ 0 r) ++ [Placed "phase2" 0 0 "" None])
  = (5, 5) :: (gpu_coordinate <$> seqZ 0 r).
Proof.
  cbn. f_equal. rewrite omap_app. cbn. rewrite app_nil_r. induction (seqZ 0 r) as [|x l IH]; [done|]. cbn. by rewrite IH.
Qed.

Lemma coordinates_NoDup r : r ≤ 35 → NoDup ((5, 5) :: (gpu_coordinate <$> seqZ 0 r)).
Proof.
  intros Hr. apply NoDup_cons. split.
  - intros (k & Hk & Hin%elem_of_seqZ)%list_elem_of_fmap. unfold gpu_coordinate in Hk. injection Hk as H1 H2.
    assert (k = 6 * (k / 6) + k mod 6) by by apply Z.div_mod. lia.
  - apply NoDup_fmap_2_strong; [|apply NoDup_seqZ]. intros a b _ _. apply gpu_coordinate_inj.
Qed.

Lemma gpu_process_coordinates r rank i :
  process_coordinates (gpu_process r rank) "phase1" i = Ok (Some (gpu_coordinate rank)).
Proof.
  unfold process_coordinates, gpu_process, gpu_coordinate. cbn -[int_of str_of_Z].
  by rewrite !(py_int_exn_str _ : int_of (PStr (str_of_Z _)) = _).
Qed.

Lemma controller_process_coordinates r i : process_coordinates (controller_process r) "phase1" i = Ok (Some (5, 5)).
Proof. reflexivity. Qed.
End MatmulFacts.

(** The block-GEMM placement is sound.  For every accepted node and rank count, the items of
    the placement file agree with the process graph: item [i] is process [i] of phase one, with
    the chiplet coordinate that the general placement script finds in the process's arguments.
    Coordinates are distinct and on the 6x6 mesh, every worker exists and has exactly
    [ranks / nodes] GPU ranks, and the routing script accepts the placement. *)
Theorem matmul_placement_sound n r :
  1 ≤ n → Matmul.unsupported r n = false →
  ∃ ps, mapM placed_of (Matmul.placement_items n r) = Ok ps ∧
    (∀ i p, Matmul.phase1_processes r !! i = Some p →
       ∃ item c, ps !! i = Some item ∧ pl_phase item = "phase1" ∧ pl_process_index item = Z.of_nat i ∧
         pl_coordinates item = Some c ∧ process_coordinates p "phase1" (Z.of_nat i) = Ok (Some c)) ∧
    NoDup (omap pl_coordinates ps) ∧
    (∀ c, c ∈ omap pl_coordinates ps → 0 ≤ c.1 < 6 ∧ 0 ≤ c.2 < 6) ∧
    (∀ item, item ∈ ps → 0 ≤ pl_node_slot item < n) ∧
    (∀ s, 0 ≤ s < n → count (λ item, (0 <? pl_process_index item) && (pl_node_slot item =? s)) ps = r / n) ∧
    is_ok (coordinate_to_slot ps) = true.
Proof.
  intros Hn H. apply MatmulFacts.unsupported_false in H as (Hr & Hdiv & _); [|done].
  eexists. split; [apply MatmulFacts.placement_items_read|].
  assert (Hpos : 0 < r / n) by nia.
  split_and!.
  - intros [|i] p Hp.
    + injection Hp as <-. do 2 eexists. split_and!; [reflexivity..|]. apply MatmulFacts.controller_process_coordinates.
    + change ((Matmul.gpu_process r <$> seqZ 0 r) !! i = Some p) in Hp. rewrite list_lookup_fmap in Hp. apply fmap_Some in Hp as (k & Hk & ->).
      apply lookup_seqZ in Hk as [-> Hi].
      exists (MatmulFacts.gpu_placed (r / n) (0 + Z.of_nat i)), (Matmul.gpu_coordinate (0 + Z.of_nat i)).
      split_and!; [|done|cbn; lia|done|apply MatmulFacts.gpu_process_coordinates].
      rewrite lookup_cons_ne_0 by done. cbn [pred]. rewrite lookup_app_l; [|rewrite length_fmap, length_seqZ; lia]. rewrite list_lookup_fmap.
      by rewrite (proj2 (lookup_seqZ 0 r i _) (conj eq_refl Hi)).
  - rewrite MatmulFacts.placement_coordinates. apply MatmulFacts.coordinates_NoDup. lia.
  - rewrite MatmulFacts.placement_coordinates. intros c [->|(k & -> & Hk%elem_of_seqZ)%list_elem_of_fmap]%elem_of_cons; [cbn; lia|].
    cbn. split; [apply Z.mod_pos_bound; lia|]. split; [apply Z.div_pos; lia|apply Z.div_lt_upper_bound; lia].
  - intros item. rewrite elem_of_cons, elem_of_app, list_elem_of_singleton.
    intros [->|[(k & -> & Hk%elem_of_seqZ)%list_elem_of_fmap| ->]]; cbn; [lia| |lia].
    split; [apply Z.div_pos; lia|apply Z.div_lt_upper_bound; lia].
  - intros s Hs. rewrite count_cons, count_app. cbn [pl_process_index pl_node_slot]. rewrite count_cons, count_nil. cbn.
    rewrite count_fmap, (count_ext _ (λ k, k / (r / n) =? s)).
    + replace (seqZ 0 r) with (seqZ 0 (n * (r / n))) by (by rewrite <- Hdiv). rewrite count_div_block; lia.
    + intros k Hk%elem_of_seqZ. cbn. replace (0 <? k + 1) with true by (symmetry; apply Z.ltb_lt; lia). done.
  - apply coordinate_to_slot_total, consistent_NoDup. rewrite MatmulFacts.placement_coordinates.
    apply MatmulFacts.coordinates_NoDup. lia.
Qed.

Lemma matmul_placement_sound_witness :
  ∃ ps, mapM placed_of (Matmul.placement_items 4 20) = Ok ps ∧ is_ok (coordinate_to_slot ps) = true.
Proof.
  destruct (matmul_placement_sound 4 20) as (ps & H & _ & _ & _ & _ & _ & Hok); [lia|reflexivity|]. by exists ps.
Defined.

Module MlpDp.

Definition MAX_RANKS : Z := 8.
Definition GPU_WORKERS_PER_RANK : Z := 2.

Definition phase_one_rank (process_index ranks : Z) : Z :=
  if process_index <? ranks then process_index else (process_index - ranks) / GPU_WORKERS_PER_RANK.

(** [l[:n]] and [l[a:b]] for non-negative bounds. *)
Definition slice {A} (a b : Z) (l : list A) : list A := take (Z.to_nat (b - a)) (drop (Z.to_nat a) l).

Definition derived_phase1 (source_phase1 : list process) (ranks : Z) : list process :=
  slice 0 ranks source_phase1 ++ slice MAX_RANKS (MAX_RANKS + ranks * GPU_WORKERS_PER_RANK) source_phase1.

(** [int(process["args"][-2])] and [int(process["args"][-1])]. *)
Definition last_two (p : process) : result (Z * Z) :=
  args ← dict_item "args" p;
  args ← is_list args ?! TypeError;
  match reverse args with
  | y :: x :: _ => x ← int_of x; y ← int_of y; Ok (x, y)
  | _ => Err IndexError
  end.

Definition worker_item (ranks ranks_per_node index : Z) (p : process) : result pydict :=
  let rank := phase_one_rank index ranks in
  coordinates ← last_two p;
  Ok [("phase", PStr "phase1"); ("process_index", PInt index); ("node_slot", PInt (rank / ranks_per_node));
      ("node_label", PStr ("chipsystemsim.node." +:+ str_of_Z (rank / ranks_per_node)));
      ("coordinates", PList [PInt coordinates.1; PInt coordinates.2]); ("data_rank", PInt rank)].

Definition phase2_item : pydict :=
  [("phase", PStr "phase2"); ("process_index", PInt 0); ("node_slot", PInt 0); ("node_label", PStr "chipsystemsim.node.0")].

Definition placement_items (phase1 : list process) (ranks ranks_per_node : Z) : result (list pydict) :=
  items ← mapM (λ item, worker_item ranks ranks_per_node item.1 item.2) (enumerate phase1);
  Ok (items ++ [phase2_item]).

Record arguments := Arguments {
  ar_output_root : string;
  ar_image : string;
  ar_nodes : list Z;
  ar_iterations : Z;
  ar_global_samples : Z;
  ar_ranks_per_node : Z;
}.

Definition placement (a : arguments) (yaml : string) (nodes ranks : Z) (items : list pydict) : pydict :=
  [("workload", PStr "mlp-dp"); ("yaml", PStr yaml); ("swarm_nodes", PInt nodes);
   ("resource_contract", PDict [("cpu_ranks", PInt ranks); ("gpu_workers", PInt (ranks * GPU_WORKERS_PER_RANK));
      ("global_samples", PInt (ar_global_samples a)); ("ranks_per_node", PInt (ar_ranks_per_node a))]);
   ("processes", PList (PDict <$> items))].

Definition commands (t : tools) (a : arguments) (nodes : Z) : list (list string) :=
  let file := path_div (path_div (ar_output_root a) ("mlp-dp-nodes" +:+ str_of_Z nodes)) in
  (tl_python t ::.) <$>
  [ [script t "generate_simbricks_topology.py"; "--nodes"; str_of_Z nodes; "--output"; file "topology.json"];
    [script t "generate_simbricks_routing.py"; "--placement"; file "placement.json"; "--topology"; file "topology.json";
     "--output"; file "routing.json"];
    [script t "generate_distributed_yaml.py"; "--source-yaml"; file "source_workload.yml"; "--placement"; file "placement.json";
     "--output"; file "workload.yml"; "--stream-output"; "--benchmark-root"; "/opt/legosim/artifact/MLP_DP";
     "--sniper-cores"; "1"; "--sniper-maxthreads"; "1"];
    [script t "generate_swarm_stack.py"; "--placement"; file "placement.json"; "--topology"; file "topology.json";
     "--routing"; file "routing.json"; "--workload-yaml"; file "workload.yml"; "--image"; ar_image a;
     "--output"; file "stack.yml"; "--stack-name"; "chipsystemsim_mlp_dp_" +:+ str_of_Z nodes;
     "--topology-width"; "6"; "--flit-size"; "4"; "--mlp-dp-iterations"; str_of_Z (ar_iterations a);
     "--mlp-dp-ranks"; str_of_Z (nodes * ar_ranks_per_node a); "--mlp-dp-samples"; str_of_Z (ar_global_samples a)] ].

(** The body of the loop over the node counts; [source] is the parsed YAML, [source_phase1] its
    process list. *)
Definition generate (t : tools) (a : arguments) (source : pydict) (source_phase1 : list process) (nodes : Z) : H unit :=
  let ranks := nodes * ar_ranks_per_node a in
  _ ← h_lift (raise_if (MAX_RANKS <? ranks)
        (ValueError (str_of_Z nodes +:+ " nodes x " +:+ str_of_Z (ar_ranks_per_node a) +:+ " ranks exceeds " +:+ str_of_Z MAX_RANKS)));
  _ ← h_lift (raise_if (negb (ar_global_samples a mod (ranks * GPU_WORKERS_PER_RANK) =? 0))
        (ValueError "global samples must divide evenly across all GPU workers"));
  let output := path_div (ar_output_root a) ("mlp-dp-nodes" +:+ str_of_Z nodes) in
  _ ← h_mkdir_new output;
  let phase1 := derived_phase1 source_phase1 ranks in
  let source_path := path_div output "source_workload.yml" in
  _ ← h_write source_path (tl_dump t (PDict (dict_set "phase1" (PList (PDict <$> phase1)) source)));
  items ← h_lift (placement_items phase1 ranks (ar_ranks_per_node a));
  _ ← h_write (path_div output "placement.json") (json_indent 0 (PDict (placement a source_path nodes ranks items)) +:+ nl);
  h_for (h_run (tl_exec t)) (commands t a nodes).

Definition main (t : tools) (a : arguments) (source : pydict) (source_phase1 : list process) : H unit :=
  _ ← h_lift (raise_if ((ar_iterations a <? 1) || (ar_global_samples a <? 1) || (ar_ranks_per_node a <? 1))
        (ValueError "iterations, global samples, and ranks per node must be positive"));
  _ ← h_lift (raise_if (negb (zlen source_phase1 =? MAX_RANKS * (1 + GPU_WORKERS_PER_RANK)))
        (RuntimeError "MLP-DP YAML must contain exactly 8 CPUs and 16 GPU workers"));
  h_for (generate t a source source_phase1) (ar_nodes a).

(** The rank that owns process [index] of the full template. *)
Definition template_rank (index : Z) : Z := phase_one_rank index MAX_RANKS.

End MlpDp.

Module NativeMlp.

(** The two source-tree layouts. *)
Definition candidates (t : tools) (parent : string) : list string :=
  (λ root, foldl path_div root ["LEGOSIM_MICRO"; "artifact"; "MLP"; "mlp.yml"]) <$> [parent; path_div (tl_root t) "upstream"].

Definition locate_upstream_mlp (t : tools) (parent : string) (fs : filesystem) : result string :=
  match filter (λ c, is_Some (fs_files fs !! c)) (candidates t parent) with
  | c :: _ => Ok c
  | [] => Err (FileNotFoundError ("original MLP YAML not found; checked: " +:+ join ", " (candidates t parent)))
  end.

Record arguments := Arguments {
  ar_output_root : string;
  ar_image : string;
  ar_nodes : list Z;
  ar_placement_policy : string;
  ar_stream_output : bool;
  ar_fast_input : option Z;
  ar_cycle_ns : Z;
  ar_link_rate : string;
  ar_link_delay_ns : Z;
  ar_queue_packets : Z;
}.

Definition commands (t : tools) (a : arguments) (upstream_mlp : string) (node_count : Z) : list (list string) :=
  let file := path_div (path_div (ar_output_root a) ("mlp-nodes" +:+ str_of_Z node_count)) in
  (tl_python t ::.) <$>
  [ [script t "generate_placement.py"; "--source-yaml"; upstream_mlp; "--workload-name"; "mlp";
     "--nodes"; str_of_Z node_count; "--placement-policy"; ar_placement_policy a; "--output"; file "placement.json"];
    [script t "generate_simbricks_topology.py"; "--nodes"; str_of_Z node_count; "--output"; file "topology.json"];
    [script t "generate_simbricks_routing.py"; "--placement"; file "placement.json"; "--topology"; file "topology.json";
     "--output"; file "routing.json"];
    [script t "generate_distributed_yaml.py"; "--source-yaml"; upstream_mlp; "--placement"; file "placement.json";
     "--output"; file "workload.yml"; "--benchmark-root"; "/opt/legosim/artifact/MLP";
     "--sniper-cores"; "1"; "--sniper-maxthreads"; "1"; "--phase2-backend"; "ns3";
     "--ns3-cycle-ns"; str_of_Z (ar_cycle_ns a); "--ns3-link-rate"; ar_link_rate a;
     "--ns3-link-delay-ns"; str_of_Z (ar_link_delay_ns a); "--ns3-queue-packets"; str_of_Z (ar_queue_packets a)]
    ++ (if ar_stream_output a then ["--stream-output"] else []);
    [script t "generate_swarm_stack.py"; "--placement"; file "placement.json"; "--topology"; file "topology.json";
     "--routing"; file "routing.json"; "--workload-yaml"; file "workload.yml"; "--image"; ar_image a;
     "--output"; file "stack.yml"; "--stack-name"; "chipsystemsim_native_mlp_" +:+ str_of_Z node_count;
     "--topology-width"; "6"; "--flit-size"; "4"]
    ++ match ar_fast_input a with Some n => ["--mnsim-fast-input-size"; str_of_Z n] | None => [] end ].

Definition generate (t : tools) (a : arguments) (upstream_mlp : string) (node_count : Z) : H unit :=
  _ ← h_mkdir_new (path_div (ar_output_root a) ("mlp-nodes" +:+ str_of_Z node_count));
  h_for (h_run (tl_exec t)) (commands t a upstream_mlp node_count).

(** [parent] is [ROOT.parent]. *)
Definition main (t : tools) (parent : string) (a : arguments) : H unit := λ h,
  (upstream_mlp ← h_lift (locate_upstream_mlp t parent (h_fs h));
   _ ← h_lift (raise_if ((ar_cycle_ns a <? 1) || (ar_link_delay_ns a <? 1) || (ar_queue_packets a <? 1))
         (ValueError "ns-3 timing parameters must be positive"));
   h_for (generate t a upstream_mlp) (ar_nodes a)) h.

End NativeMlp.

(** ** The MLP-DP placement *)

Lemma slice_lookup {A} a b (l : list A) i :
  0 ≤ a → (i < Z.to_nat (b - a))%nat → MlpDp.slice a b l !! i = l !! (Z.to_nat a + i)%nat.
Proof. intros Ha Hi. unfold MlpDp.slice. by rewrite lookup_take_lt, lookup_drop. Qed.

Lemma slice_length {A} a b (l : list A) : 0 ≤ a ≤ b → b ≤ zlen l → zlen (MlpDp.slice a b l) = b - a.
Proof. unfold MlpDp.slice, zlen. intros Ha Hb. rewrite length_take, length_drop. lia. Qed.

Section MlpDpPlacement.
Context (source_phase1 : list process) (ranks : Z).
Context (Hsource : zlen source_phase1 = 24) (Hranks : 1 ≤ ranks ≤ 8).

(** The place in the full template of process [i] of the derived graph. *)
Definition template_index (i : Z) : Z := if i <? ranks then i else 8 + (i - ranks).

Lemma derived_length : zlen (MlpDp.derived_phase1 source_phase1 ranks) = 3 * ranks.
Proof using Hsource Hranks.
  unfold MlpDp.derived_phase1. rewrite zlen_app, !slice_length; unfold MlpDp.MAX_RANKS, MlpDp.GPU_WORKERS_PER_RANK; lia.
Qed.

Lemma derived_lookup i :
  0 ≤ i < 3 * ranks →
  MlpDp.derived_phase1 source_phase1 ranks !! Z.to_nat i = source_phase1 !! Z.to_nat (template_index i).
Proof using Hsource Hranks.
  intros Hi. unfold MlpDp.derived_phase1, template_index.
  assert (Hl : length (MlpDp.slice 0 ranks source_phase1) = Z.to_nat ranks).
  { pose proof (slice_length 0 ranks source_phase1). unfold zlen in *. lia. }
  destruct (Z.ltb_spec i ranks).
  - rewrite lookup_app_l, slice_lookup by lia. f_equal. 
  - rewrite lookup_app_r by lia. rewrite Hl, slice_lookup; unfold MlpDp.MAX_RANKS, MlpDp.GPU_WORKERS_PER_RANK; [|lia|lia].
    f_equal. lia.
Qed.

Lemma template_rank_same i :
  0 ≤ i < 3 * ranks → MlpDp.template_rank (template_index i) = MlpDp.phase_one_rank i ranks.
Proof using Hranks.
  intros Hi. unfold MlpDp.template_rank, MlpDp.phase_one_rank, template_index, MlpDp.MAX_RANKS, MlpDp.GPU_WORKERS_PER_RANK.
  destruct (Z.ltb_spec i ranks).
  - by rewrite (proj2 (Z.ltb_lt i 8)) by lia.
  - rewrite (proj2 (Z.ltb_ge (8 + (i - ranks)) 8)) by lia. f_equal. lia.
Qed.

Lemma phase_one_rank_bounds i : 0 ≤ i < 3 * ranks → 0 ≤ MlpDp.phase_one_rank i ranks < ranks.
Proof using Hranks.
  intros Hi. unfold MlpDp.phase_one_rank, MlpDp.GPU_WORKERS_PER_RANK. destruct (Z.ltb_spec i ranks); [lia|].
  split; [apply Z.div_pos; lia|apply Z.div_lt_upper_bound; lia].
Qed.
End MlpDpPlacement.

(** Processes per node: a share of the CPU ranks and of the GPU workers. *)
Lemma processes_per_node nodes rpn s :
  1 ≤ nodes → 1 ≤ rpn → 0 ≤ s < nodes →
  count (λ i, MlpDp.phase_one_rank i (nodes * rpn) / rpn =? s) (seqZ 0 (3 * (nodes * rpn))) = 3 * rpn.
Proof.
  intros Hn Hr Hs. set (ranks := nodes * rpn). assert (Hranks : 0 < ranks) by nia.
  replace (3 * ranks) with (ranks + 2 * ranks) by lia. rewrite seqZ_app by lia. rewrite count_app, Z.add_0_l.
  rewrite (count_ext _ (λ i, i / rpn =? s) (seqZ 0 ranks)).
  2:{ intros i Hi%elem_of_seqZ. unfold MlpDp.phase_one_rank. by rewrite (proj2 (Z.ltb_lt i ranks)) by lia. }
  unfold ranks at 1. rewrite count_div_block by lia.
  replace (seqZ ranks (2 * ranks)) with ((Z.add ranks) <$> seqZ 0 (2 * ranks)) by (rewrite fmap_add_seqZ; f_equal; lia).
  rewrite count_fmap, (count_ext _ (λ i, i / (2 * rpn) =? s)).
  - replace (2 * ranks) with (nodes * (2 * rpn)) by (unfold ranks; lia). rewrite count_div_block by lia. lia.
  - intros i Hi%elem_of_seqZ. unfold compose, MlpDp.phase_one_rank, MlpDp.GPU_WORKERS_PER_RANK.
    rewrite (proj2 (Z.ltb_ge (ranks + i) ranks)) by lia. replace (ranks + i - ranks) with i by lia.
    by rewrite Z.div_div by lia.
Qed.

(** What one item of the MLP-DP placement says. *)
Lemma worker_item_Ok ranks rpn i p d :
  MlpDp.worker_item ranks rpn i p = Ok d →
  ∃ c, MlpDp.last_two p = Ok c ∧ dict_get "data_rank" d = Some (PInt (MlpDp.phase_one_rank i ranks)) ∧
    placed_of d = Ok (Placed "phase1" i (MlpDp.phase_one_rank i ranks / rpn) "" (Some c)).
Proof. unfold MlpDp.worker_item. intros H. apply bind_Ok in H as ([x y] & Hc & [= <-]). by exists (x, y). Qed.

(** The MLP-DP placement is sound.  From a template of 8 CPU and 16 GPU processes, the graph
    for [nodes] workers keeps, for every rank, the rank's CPU process and both of its GPU
    processes, each on the worker that owns the rank: item [i] of the placement is process [i] of
    the derived graph, labelled with the rank the process has in the full template.  Every worker
    exists and gets [3 * ranks_per_node] processes. *)
Theorem mlp_dp_placement_sound source_phase1 nodes rpn items :
  zlen source_phase1 = 24 → 1 ≤ nodes → 1 ≤ rpn → nodes * rpn ≤ 8 →
  MlpDp.placement_items (MlpDp.derived_phase1 source_phase1 (nodes * rpn)) (nodes * rpn) rpn = Ok items →
  zlen items = 3 * (nodes * rpn) + 1 ∧
  (∀ i, 0 ≤ i < 3 * (nodes * rpn) →
     let j := template_index (nodes * rpn) i in
     let rank := MlpDp.template_rank j in
     ∃ p d c, source_phase1 !! Z.to_nat j = Some p ∧
       MlpDp.derived_phase1 source_phase1 (nodes * rpn) !! Z.to_nat i = Some p ∧ (i < nodes * rpn ↔ j < 8) ∧
       items !! Z.to_nat i = Some d ∧ dict_get "data_rank" d = Some (PInt rank) ∧ MlpDp.last_two p = Ok c ∧
       placed_of d = Ok (Placed "phase1" i (rank / rpn) "" (Some c)) ∧ 0 ≤ rank / rpn < nodes) ∧
  (∀ s, 0 ≤ s < nodes →
     count (λ i, MlpDp.template_rank (template_index (nodes * rpn) i) / rpn =? s) (seqZ 0 (3 * (nodes * rpn))) = 3 * rpn).
Proof.
  intros Hs Hn Hrpn Hmax H. assert (Hranks : 1 ≤ nodes * rpn ≤ 8) by nia. set (ranks := nodes * rpn) in *.
  unfold MlpDp.placement_items in H. apply bind_Ok in H as (l & Hl & [= <-]). apply mapM_result_Ok in Hl.
  pose proof (Forall2_length _ _ _ Hl) as Hlen. unfold enumerate in Hlen. rewrite length_enumerate_from in Hlen.
  pose proof (derived_length source_phase1 ranks Hs Hranks) as Hd. unfold zlen in Hd. split; [|split].
  - rewrite zlen_app. unfold zlen. cbn [length]. lia.
  - intros i Hi j rank. unfold rank, j. rewrite template_rank_same by done.
    destruct (lookup_lt_is_Some_2 (MlpDp.derived_phase1 source_phase1 ranks) (Z.to_nat i)) as [p Hp]; [lia|].
    pose proof Hp as Hp'. rewrite derived_lookup in Hp' by done.
    destruct (Forall2_lookup_l _ _ _ (Z.to_nat i) (i, p) Hl) as (d & Hdl & Hitem).
    { unfold enumerate. rewrite enumerate_from_lookup, Hp. cbn. do 2 f_equal. lia. }
    apply worker_item_Ok in Hitem as (c & Hc & Hrank & Hplaced). exists p, d, c.
    split_and!; try done.
    + unfold template_index. destruct (Z.ltb_spec i ranks); lia.
    + by apply lookup_app_l_Some.
    + apply Z.div_pos; [|lia]. by apply phase_one_rank_bounds.
    + apply Z.div_lt_upper_bound; [lia|]. pose proof (phase_one_rank_bounds ranks Hranks i Hi). lia.
  - intros s Hslot. rewrite <- (processes_per_node nodes rpn s) by done. apply count_ext.
    intros i Hi%elem_of_seqZ. by rewrite template_rank_same by lia.
Qed.

Definition demo_template : list process :=
  (λ i, [("cmd", PStr "sim"); ("args", strs [str_of_Z i; "0"; str_of_Z i])]) <$> seqZ 0 24.

Lemma mlp_dp_placement_sound_witness :
  ∃ items, MlpDp.placement_items (MlpDp.derived_phase1 demo_template 2) 2 1 = Ok items ∧ zlen items = 7.
Proof.
  destruct (MlpDp.placement_items (MlpDp.derived_phase1 demo_template 2) 2 1) as [items|] eqn:E; [|vm_compute in E; discriminate E].
  exists items. split; [done|].
  apply (mlp_dp_placement_sound demo_template 2 1 items); [reflexivity|lia..|exact E].
Defined.

(** The generators run the pipeline in order and stop at the first failure.  Whatever the
    commands do, each of the three scripts runs, for its node counts in the order given,
    placement (for the native MLP), topology, routing, YAML wrapping and stack generation; a run
    that succeeds has run all of them, and a run that fails has run a prefix and nothing else. *)
Theorem pipelines_in_order t parent (a : Matmul.arguments) (b : MlpDp.arguments) source source_phase1
    (c : NativeMlp.arguments) :
  runs (Matmul.main t a) (Matmul.ar_nodes a ≫= Matmul.commands t a) ∧
  runs (MlpDp.main t b source source_phase1) (MlpDp.ar_nodes b ≫= MlpDp.commands t b) ∧
  (∀ h, ∃ upstream_mlp ran left_, NativeMlp.ar_nodes c ≫= NativeMlp.commands t c upstream_mlp = ran ++ left_ ∧
     h_calls (NativeMlp.main t parent c h).1 = h_calls h ++ ran ∧
     (is_ok (NativeMlp.main t parent c h).2 = true →
        left_ = [] ∧ upstream_mlp ∈ NativeMlp.candidates t parent ∧ is_Some (h_files h !! upstream_mlp))).
Proof.
  split; [|split].
  - unfold Matmul.main. runs_step. apply runs_for. intros n. unfold Matmul.generate. runs_step. apply runs_all.
  - unfold MlpDp.main. runs_step. apply runs_for. intros n. unfold MlpDp.generate. runs_step. apply runs_all.
  - intros h. unfold NativeMlp.main. destruct (NativeMlp.locate_upstream_mlp t parent (h_fs h)) as [mlp|e] eqn:E.
    + unfold h_lift at 1. unfold mbind at 1, H_bind at 1.
      assert (Hruns : runs (_ ← h_lift (raise_if ((NativeMlp.ar_cycle_ns c <? 1) || (NativeMlp.ar_link_delay_ns c <? 1) || (NativeMlp.ar_queue_packets c <? 1))
        (ValueError "ns-3 timing parameters must be positive")); h_for (NativeMlp.generate t c mlp) (NativeMlp.ar_nodes c))
        (NativeMlp.ar_nodes c ≫= NativeMlp.commands t c mlp)).
      { runs_step. apply runs_for. intros n. unfold NativeMlp.generate. runs_step. apply runs_all. }
      destruct (Hruns h) as (ran & left_ & H1 & H2 & H3). exists mlp, ran, left_. split; [done|]. split; [done|].
      intros Hok. split; [by apply H3|]. unfold NativeMlp.locate_upstream_mlp in E.
      destruct (filter _ _) as [|x l] eqn:Hf; [done|]. injection E as ->.
      assert (Hin : mlp ∈ filter (λ c, is_Some (fs_files (h_fs h) !! c)) (NativeMlp.candidates t parent)) by (rewrite Hf; set_solver).
      apply list_elem_of_filter in Hin as [? ?]. done.
    + exists "", [], (NativeMlp.ar_nodes c ≫= NativeMlp.commands t c ""). cbn. by rewrite app_nil_r.
Qed.
