(* ===== verification/Patches.v ===== *)
(** * Source patches

    Models of the twelve [src/real/patch_*.py] scripts and of [src/real/apply_overlay.py]: text
    edits of the upstream C++ and Python sources, over the explicit file system.  The fragments
    are the scripts' own, with a grave accent where they have a double quote. *)

From S2P Require Import Prelude PyValue Proxy Worker.

Fixpoint code (s : string) : string :=
  match s with
  | EmptyString => EmptyString
  | String c s' => String (if Ascii.eqb c "`"%char then DQUOTE else c) (code s')
  end.

Definition read_text (path : string) : M string :=
  fs ← get_fs;
  lift (fs_files fs !! path ?! FileNotFoundError ("[Errno 2] No such file or directory: " +:+ repr_str path)).

Abbreviation write_text := write_bytes.

(** [s.replace(old, new, 1)] when the fragment is known, unchanged when the new one is there. *)
Definition replace_once (description : string) (source old new : string) : result string :=
  if contains new source then Ok source
  else if negb (contains old source) then Err (RuntimeError ("unexpected " +:+ description))
  else Ok (replace_first old new source).

(** The shape of most scripts: nothing is done when the file is already patched. *)
Definition patch_file (path : string) (patched : string → bool) (edit : string → result string) : M unit :=
  source ← read_text path;
  if patched source then mret ()
  else result_ ← lift (edit source); write_text path result_.

(** [if old not in source: raise error] before an edit. *)
Definition require (old : string) (error : exn) (edited source : string) : result string :=
  if contains old source then Ok edited else Err error.

Module Bfs.

Definition OLD : string := "    do {
        h_over = false;
        cudaMemcpy(d_over, &h_over, sizeof(bool), cudaMemcpyHostToDevice);
        bfsKernel<<<grid, block>>>(d_graph_nodes, d_graph_edges, d_graph_mask, d_graph_visited, d_cost, d_over, no_of_nodes);
        cudaDeviceSynchronize();
        cudaMemcpy(&h_over, d_over, sizeof(bool), cudaMemcpyDeviceToHost);
    } while (h_over);
".

Definition NEW : string := "    // A shortest-path traversal over N vertices needs no more than N
    // frontier expansions.  This guard keeps the legacy GPGPU-Sim bool flag
    // from causing a non-converging host loop while preserving early exit for
    // the normal, already-converged case.
    for (int iteration = 0; iteration < no_of_nodes; ++iteration) {
        h_over = false;
        cudaMemcpy(d_over, &h_over, sizeof(bool), cudaMemcpyHostToDevice);
        bfsKernel<<<grid, block>>>(d_graph_nodes, d_graph_edges, d_graph_mask, d_graph_visited, d_cost, d_over, no_of_nodes);
        cudaDeviceSynchronize();
        cudaMemcpy(&h_over, d_over, sizeof(bool), cudaMemcpyDeviceToHost);
        if (!h_over) break;
    }
".

Definition SOURCE : string := "/opt/legosim/artifact/bfs_cuda/bfs.cu".

Definition edit (source : string) : result string :=
  require OLD (RuntimeError ("unexpected upstream BFS frontier loop: " +:+ SOURCE)) (replace_all OLD NEW source) source.

Definition main : M unit := patch_file SOURCE (contains NEW) edit.

End Bfs.

Module QuietLog.

Definition OLD : string := code "void announce_call(const char *func) {
    printf(`\n\nGPGPU-Sim PTX: CUDA API function \`%s\` has been called.\n`, func);
    fflush(stdout);
}
".

Definition NEW : string := "void announce_call(const char *func) {
    // API call tracing is diagnostic-only. Keeping stdout quiet prevents a
    // simulator child from exhausting InterChiplet's per-process log path.
    (void)func;
}
".

Definition SOURCE : string := "/opt/legosim/gpgpu-sim/libcuda/cuda_runtime_api.cc".

Definition edit (source : string) : result string :=
  require OLD (RuntimeError ("unexpected GPGPU-Sim announce_call definition: " +:+ SOURCE)) (replace_all OLD NEW source) source.

Definition main : M unit := patch_file SOURCE (contains NEW) edit.

End QuietLog.

Module TrainIterations.

Definition OLD : string := "    train(x_train, y_train, 1);
".

Definition NEW : string := code "    const char* iteration_text = std::getenv(`LEGOSIM_MLP_TRAIN_ITERATIONS`);
    const int train_iterations = iteration_text == nullptr ? 1 : std::atoi(iteration_text);
    if (train_iterations < 1) {
        std::cerr << `LEGOSIM_MLP_TRAIN_ITERATIONS must be positive` << std::endl;
        return EXIT_FAILURE;
    }
    std::cout << `legosim: mlp_train_iterations=` << train_iterations << std::endl;
    train(x_train, y_train, train_iterations);
".

Definition SOURCE : string := "/opt/legosim/artifact/MLP/mlp.cpp".

Definition edit (source : string) : result string :=
  require OLD (RuntimeError ("unexpected upstream MLP training call: " +:+ SOURCE)) (replace_first OLD NEW source) source.

Definition main : M unit := patch_file SOURCE (contains NEW) edit.

End TrainIterations.

Module BoundedIterations.

Definition OLD_INCLUDE : string := "#include <cstdlib> 
".

Definition NEW_INCLUDE : string := "#include <cstdlib> 
".

Definition OLD_LOOP : string := "    while (1) {
".

Definition NEW_LOOP : string := code "    // Preserve the upstream -1 sentinel protocol by default.  A positive
    // environment value is only for a bounded diagnostic execution.
    const char* iteration_text = std::getenv(`LEGOSIM_MLP_MAX_ITERATIONS`);
    const int max_iterations = iteration_text == nullptr ? 0 : std::atoi(iteration_text);
    for (int iteration = 0; max_iterations <= 0 || iteration < max_iterations; ++iteration) {
".

Definition OLD_TAIL : string := "        cudaFree(d_dataA);
        cudaFree(d_dataB);
        cudaFree(d_dataC);
    }
".

Definition NEW_TAIL : string := "        cudaFree(d_dataA);
        cudaFree(d_dataB);
        cudaFree(d_dataC);
        cudaFree(Size_A);
        cudaFree(Size_B);
        delete[] size_A;
        delete[] size_B;
        free(A);
        free(C);
    }
".

Definition SOURCE : string := "/opt/legosim/artifact/MLP/mlp.cu".

Definition edit (source : string) : result string :=
  if contains OLD_INCLUDE source && contains OLD_LOOP source && contains OLD_TAIL source then
    Ok (replace_first OLD_TAIL NEW_TAIL (replace_first OLD_LOOP NEW_LOOP (replace_first OLD_INCLUDE NEW_INCLUDE source)))
  else Err (RuntimeError ("unexpected upstream MLP CUDA worker layout: " +:+ SOURCE)).

Definition main : M unit := patch_file SOURCE (contains NEW_LOOP) edit.

End BoundedIterations.

Module ParallelTasks.

Definition OLD_TOGGLER : string := "    std::vector<std::thread> THREAD;
    std::vector<std::vector<std::vector<double>>> res;
".

Definition NEW_TOGGLER : string := code "    const char* parallel_text = std::getenv(`LEGOSIM_MLP_PARALLEL_GPU_TASKS`);
    const bool parallel_gpu_tasks = parallel_text != nullptr && std::atoi(parallel_text) != 0;
    std::vector<std::thread> THREAD;
    std::vector<std::vector<std::vector<double>>> res;
".

Definition OLD_LAUNCH : string := "        GpuMultiply(Dev1,Dev2,dev1[i].size(),dev1[i][0].size(),dev2[i].size(),dev2[i][0].size(),std::ref(res[i]),dstX,i+1);
        // std::thread
        // t(&BPNeuralNetwork::GpuMultiply,this,Dev1,Dev2,dev1[i].size(),dev1[i][0].size(),dev2[i].size(),dev2[i][0].size(),std::ref(res[i]),dstX,i+1);
        // THREAD.push_back(std::thread(GpuMultiply, Dev1, Dev2, dev1[i].size(), dev1[i][0].size(),
        //                              dev2[i].size(), dev2[i][0].size(), std::ref(res[i]), dstX,
        //                              i + 1));
    }
    // for (auto& i : THREAD) {
    //     i.join();
    // }
".

Definition NEW_LAUNCH : string := "        if (parallel_gpu_tasks) {
            THREAD.emplace_back(GpuMultiply, Dev1, Dev2, dev1[i].size(), dev1[i][0].size(),
                                dev2[i].size(), dev2[i][0].size(), std::ref(res[i]), dstX, i + 1);
        } else {
            GpuMultiply(Dev1, Dev2, dev1[i].size(), dev1[i][0].size(), dev2[i].size(),
                        dev2[i][0].size(), std::ref(res[i]), dstX, i + 1);
        }
    }
    for (auto& task : THREAD) {
        task.join();
    }
".

Definition OLD_BACKWARD : string := "        // std::thread t1(ToGPU, Weight, Dz, weight[i][0].size(), weight[i].size(), dz.size(),
        //                dz[0].size(), std::ref(deltas_pre), 1);
        // GpuMultiply(Weight,Dz,weight[i][0].size(),weight[i].size(),dz.size(),dz[0].size(),std::ref(deltas_pre),1);
        ToGPU(Weight, Dz, weight[i][0].size(), weight[i].size(), dz.size(),
                       dz[0].size(), std::ref(deltas_pre), 1);
        // std::thread t2(ToGPU, Dz, Activations_i, dz.size(), dz[0].size(), activations[i][0].size(),
        //                activations[i].size(), std::ref(dw), 2);
        ToGPU(Dz, Activations_i, dz.size(), dz[0].size(), activations[i][0].size(),
                       activations[i].size(), std::ref(dw), 2);
".

Definition NEW_BACKWARD : string := code "        const char* parallel_text = std::getenv(`LEGOSIM_MLP_PARALLEL_GPU_TASKS`);
        const bool parallel_gpu_tasks = parallel_text != nullptr && std::atoi(parallel_text) != 0;
        if (parallel_gpu_tasks) {
            std::thread first(ToGPU, Weight, Dz, weight[i][0].size(), weight[i].size(), dz.size(),
                              dz[0].size(), std::ref(deltas_pre), 1);
            std::thread second(ToGPU, Dz, Activations_i, dz.size(), dz[0].size(),
                               activations[i][0].size(), activations[i].size(), std::ref(dw), 2);
            first.join();
            second.join();
        } else {
            ToGPU(Weight, Dz, weight[i][0].size(), weight[i].size(), dz.size(),
                  dz[0].size(), std::ref(deltas_pre), 1);
            ToGPU(Dz, Activations_i, dz.size(), dz[0].size(), activations[i][0].size(),
                  activations[i].size(), std::ref(dw), 2);
        }
".

Definition SOURCE : string := "/opt/legosim/artifact/MLP/mlp.cpp".

Definition pairs : list (string * string) :=
  [(OLD_TOGGLER, NEW_TOGGLER); (OLD_LAUNCH, NEW_LAUNCH); (OLD_BACKWARD, NEW_BACKWARD)].

Definition edit (source : string) : result string :=
  fold_result (λ source p,
    require p.1 (RuntimeError ("unexpected upstream MLP block in " +:+ SOURCE)) (replace_first p.1 p.2 source) source)
    source pairs.

Definition main : M unit := patch_file SOURCE (λ s, contains NEW_TOGGLER s && contains NEW_BACKWARD s) edit.

End ParallelTasks.

Module RemotePipe.

Definition old_write : string := "    global_pipe_comm.write_data(fileName.c_str(), interdata, __nbyte);".

Definition new_write : string := code "    int pipe_result = 0;
    if (InterChiplet::remotePipeEnabled()) {
        pipe_result = InterChiplet::remotePipeWrite(fileName.c_str(), interdata, __nbyte);
    } else {
        pipe_result = global_pipe_comm.write_data(fileName.c_str(), interdata, __nbyte);
    }
    delete[] interdata;
    if (pipe_result != __nbyte) {
        std::cerr << `GPGPU-Sim PipeComm write failed for ` << fileName << std::endl;
        return cudaErrorUnknown;
    }".

Definition old_read : string := "    global_pipe_comm.read_data(fileName.c_str(), interdata, __nbyte);".

Definition new_read : string := code "    int pipe_result = 0;
    if (InterChiplet::remotePipeEnabled()) {
        pipe_result = InterChiplet::remotePipeRead(fileName.c_str(), interdata, __nbyte);
    } else {
        pipe_result = global_pipe_comm.read_data(fileName.c_str(), interdata, __nbyte);
    }
    if (pipe_result != __nbyte) {
        delete[] interdata;
        std::cerr << `GPGPU-Sim PipeComm read failed for ` << fileName << std::endl;
        return cudaErrorUnknown;
    }".

Definition old_cleanup : string := "    delete interdata;

    return cudaSuccess;".

Definition new_cleanup : string := "    delete[] interdata;

    return cudaSuccess;".

Definition old_configure : string := "    cudaConfigureCallInternal(gridDim, blockDim, sharedMem, stream);
}

cudaError_t CUDARTAPI __cudaPopCallConfiguration".

Definition new_configure : string := "    return cudaConfigureCallInternal(gridDim, blockDim, sharedMem, stream);
}

cudaError_t CUDARTAPI __cudaPopCallConfiguration".

Definition include_anchor : string := code "#include `pipe_comm.h`" +:+ nl.
Definition include_line : string := code "#include `remote_pipe_comm.h`".

Definition add_include (source : string) : result string :=
  if contains include_line source then Ok source
  else require include_anchor (RuntimeError "cannot locate GPGPU-Sim PipeComm include")
         (replace_first include_anchor (include_anchor +:+ include_line +:+ nl) source) source.

(** The four fragments, in the order of the script. *)
Definition fragments : list (string * string * string) :=
  [("GPGPU-Sim sendMessage write fragment", old_write, new_write);
   ("GPGPU-Sim receiveMessage read fragment", old_read, new_read);
   ("GPGPU-Sim receiveMessage array cleanup fragment", old_cleanup, new_cleanup);
   ("GPGPU-Sim __cudaPushCallConfiguration return fragment", old_configure, new_configure)].

Definition patch_source (source : string) : result string :=
  source ← add_include source;
  fold_result (λ source f, replace_once f.1.1 source f.1.2 f.2) source fragments.

Definition main (argv : list string) : M unit :=
  match argv with
  | [source_path] =>
      source ← read_text source_path;
      patched ← lift (patch_source source);
      write_text source_path patched
  | _ => lift (Err (SystemExit "usage: patch_gpgpusim_remote_pipe.py CUDA_RUNTIME_API_CC"))
  end.

End RemotePipe.

Module PipeComm.

Definition old_read : string := "    int read_data(const char *file_name, void *buf, int nbyte) {".

Definition new_read : string := "    int read_data(const char *file_name, void *buf, int nbyte) {
        if (remotePipeEnabled()) return remotePipeRead(file_name, buf, nbyte);".

Definition old_write : string := "    int write_data(const char *file_name, void *buf, int nbyte) {".

Definition new_write : string := "    int write_data(const char *file_name, void *buf, int nbyte) {
        if (remotePipeEnabled()) return remotePipeWrite(file_name, buf, nbyte);".

Definition include_anchor : string := code "#include `sync_protocol.h`" +:+ nl.
Definition include_line : string := code "#include `remote_pipe_comm.h`".

Definition add_include (source : string) : result string :=
  if contains include_line source then Ok source
  else require include_anchor (RuntimeError "cannot locate PipeComm include insertion point")
         (replace_first include_anchor (include_anchor +:+ include_line +:+ nl) source) source.

Definition fragments : list (string * string * string) :=
  [("PipeComm read method fragment", old_read, new_read); ("PipeComm write method fragment", old_write, new_write)].

Definition patch_source (source : string) : result string :=
  source ← add_include source;
  fold_result (λ source f, replace_once f.1.1 source f.1.2 f.2) source fragments.

(** The remote header is copied before the source is looked at. *)
Definition main (argv : list string) : M unit :=
  match argv with
  | [pipe_path; remote_path; output_path] =>
      remote ← read_text remote_path;
      _ ← lift (raise_if (String.eqb remote_path output_path) (OSError "are the same file"));
      _ ← write_text output_path remote;
      source ← read_text pipe_path;
      patched ← lift (patch_source source);
      write_text pipe_path patched
  | _ => lift (Err (SystemExit "usage: patch_pipe_comm_remote.py PIPE_COMM_H REMOTE_PIPE_COMM_H OUTPUT_HEADER"))
  end.

End PipeComm.

Module RecorderDiagnostics.

Definition old_write : string := "                  std::string fileName = InterChiplet::sendSync(srcX, srcY, dstX, dstY);
                  global_pipe_comm.write_data(fileName.c_str(), data, nbytes);
                  break;".

Definition new_write : string := code "                  std::string fileName = InterChiplet::sendSync(srcX, srcY, dstX, dstY);
                  fprintf(stderr, `recorder-pipe: write begin pipe=%s bytes=%d\n`, fileName.c_str(), nbytes);
                  int pipe_result = global_pipe_comm.write_data(fileName.c_str(), data, nbytes);
                  fprintf(stderr, `recorder-pipe: write end pipe=%s result=%d\n`, fileName.c_str(), pipe_result);
                  break;".

Definition old_read : string := "                  std::string fileName = InterChiplet::receiveSync(srcX, srcY, dstX, dstY);
                  global_pipe_comm.read_data(fileName.c_str(), data, nbytes);
                  break;".

Definition new_read : string := code "                  std::string fileName = InterChiplet::receiveSync(srcX, srcY, dstX, dstY);
                  fprintf(stderr, `recorder-pipe: read begin pipe=%s bytes=%d\n`, fileName.c_str(), nbytes);
                  int pipe_result = global_pipe_comm.read_data(fileName.c_str(), data, nbytes);
                  fprintf(stderr, `recorder-pipe: read end pipe=%s result=%d\n`, fileName.c_str(), pipe_result);
                  break;".

Definition source_path : string := "/opt/legosim/snipersim/sift/recorder/syscall_modeling.cc".

Definition fragments : list (string * string * string) :=
  [("Sniper recorder write handler", old_write, new_write); ("Sniper recorder read handler", old_read, new_read)].

Definition patch_source (source : string) : result string :=
  fold_result (λ source f, replace_once f.1.1 source f.1.2 f.2) source fragments.

Definition main : M unit :=
  source ← read_text source_path;
  patched ← lift (patch_source source);
  write_text source_path patched.

End RecorderDiagnostics.

Module Clone3.

Definition old : string := "         case SYS_clone3_sniper:
         {
            if (args[0] && CLONE_THREAD)
            {
               struct clone_args_sniper* clone3_args = (struct clone_args_sniper*)args[0];
               ADDRINT tidptr = clone3_args->parent_tid;
               PIN_GetLock(&new_threadid_lock, threadid);
               tidptrs.push_back(tidptr);
               PIN_ReleaseLock(&new_threadid_lock);
               /* New thread */
               thread_data[threadid].output->NewThread();
            }
            else
            {
               /* New process */
               // Nothing to do there, handled in fork() -> to check SYS_clone3 is new
            }
            break;
         }".

Definition new : string := "         case SYS_clone3_sniper:
         {
            // Docker's default seccomp profile may reject clone3. Glibc then
            // retries with SYS_clone, whose handler below opens the matching
            // SIFT channel. Do not emit NewThread for the failed attempt.
            break;
         }".

Definition source_path : string := "/opt/legosim/snipersim/sift/recorder/syscall_modeling.cc".

Definition main : M unit :=
  source ← read_text source_path;
  patched ← lift (require old (RuntimeError "unexpected Sniper clone3 handler") (replace_first old new source) source);
  write_text source_path patched.

End Clone3.

Module PthreadDiagnostics.

Definition old_clone3 : string := "         case SYS_clone3_sniper:
         {
            if (args[0] && CLONE_THREAD)
            {
               struct clone_args_sniper* clone3_args = (struct clone_args_sniper*)args[0];
               ADDRINT tidptr = clone3_args->parent_tid;
               PIN_GetLock(&new_threadid_lock, threadid);
               tidptrs.push_back(tidptr);
               PIN_ReleaseLock(&new_threadid_lock);
               /* New thread */
               thread_data[threadid].output->NewThread();
            }
            else
            {
               /* New process */
               // Nothing to do there, handled in fork() -> to check SYS_clone3 is new
            }
            break;
         }".

Definition new_clone3 : string := code "         case SYS_clone3_sniper:
         {
            // Docker's default seccomp profile can reject clone3, after which
            // glibc retries with SYS_clone. Emitting NewThread here would make
            // the trace frontend wait for a child trace that clone3 never
            // creates. The successful SYS_clone path below owns NewThread.
            fprintf(stderr, `recorder-pthread: defer clone3 tid=%u\n`, static_cast<unsigned>(threadid));
            break;
         }".

Definition old_start : string := "static VOID threadStart(THREADID threadid, CONTEXT *ctxt, INT32 flags, VOID *v)
{
   sift_assert(threadid < max_num_threads);".

Definition new_start : string := code "static VOID threadStart(THREADID threadid, CONTEXT *ctxt, INT32 flags, VOID *v)
{
   fprintf(stderr, `recorder-pthread: ThreadStart tid=%u capacity=%u\n`,
           static_cast<unsigned>(threadid), max_num_threads);
   sift_assert(threadid < max_num_threads);".

Definition syscalls : string := "/opt/legosim/snipersim/sift/recorder/syscall_modeling.cc".
Definition threads : string := "/opt/legosim/snipersim/sift/recorder/threads.cc".

Definition main : M unit :=
  source ← read_text syscalls;
  patched ← lift (require old_clone3 (RuntimeError "unexpected clone3 handler") (replace_first old_clone3 new_clone3 source) source);
  _ ← write_text syscalls patched;
  source ← read_text threads;
  patched ← lift (require old_start (RuntimeError "unexpected threadStart handler") (replace_first old_start new_start source) source);
  write_text threads patched.

End PthreadDiagnostics.

Module MnsimRuntime.

Definition OLD_COMMAND : string := code "system(`cd /home/qc/test_simulator/Chiplet_Heterogeneous_newVersion/MNSIMChiplet; pip install torch torchvision ; python3 MNSIM_Chiplet.py -ID1 0 -ID2 2`);".

Definition NEW_COMMAND : string := code "system(`cd /opt/legosim/MNSIMChiplet && python3 MNSIM_Chiplet.py -ID1 0 -ID2 2`);".

Definition OLD_RESULT : string := code "std::ifstream inputFile(`/home/qc/Chiplet_Heterogeneous_newVersion_gem5/Chiplet_Heterogeneous_newVersion/MNSIMChiplet/result_0_2.res`);".

Definition NEW_RESULT : string := code "std::ifstream inputFile(`/opt/legosim/MNSIMChiplet/result_0_2.res`);".

Definition OLD_CONFIG_PATH : string := "/home/qc/Chiplet_Heterogeneous_newVersion_gem5/Chiplet_Heterogeneous_newVersion/tasks-vgg13/".

Definition NEW_CONFIG_PATH : string := "/opt/legosim/tasks-vgg13/".

Definition OLD_MAIN_COMMAND : string := "cd MNSIM; python ./main.py -NN ".

Definition NEW_MAIN_COMMAND : string := "cd MNSIM; /usr/bin/python3 ./main.py -NN ".

Definition OLD_ID_ARGUMENTS : string := " + ' -Id1 ' + str(id[0]) + ' -Id2 ' + str(id[1])".

Definition COMPAT_BACKEND_MARKER : string := "mnsim_compat.py".

Definition SOURCE : string := "/opt/legosim/artifact/MLP/mnsim.cpp".
Definition PYTHON_SOURCE : string := "/opt/legosim/MNSIMChiplet/MNSIM_Chiplet.py".

Definition layout_error : exn := RuntimeError ("unexpected upstream MNSIM layout: " +:+ SOURCE).

(** The two edits of the task source: [None] when it is already rewritten. *)
Definition edit_task (source : string) : result (option string) :=
  if negb (contains NEW_COMMAND source) || negb (contains NEW_RESULT source) then
    _ ← raise_if (negb (contains OLD_COMMAND source) || negb (contains OLD_RESULT source)) layout_error;
    Ok (Some (replace_first OLD_RESULT NEW_RESULT (replace_first OLD_COMMAND NEW_COMMAND source)))
  else
    _ ← raise_if (contains OLD_COMMAND source || contains OLD_RESULT source) layout_error; Ok None.

Definition edit_config (source : string) : result (option string) :=
  if contains OLD_CONFIG_PATH source then Ok (Some (replace_all OLD_CONFIG_PATH NEW_CONFIG_PATH source))
  else _ ← raise_if (negb (contains NEW_CONFIG_PATH source)) (RuntimeError ("unexpected MNSIM Python layout: " +:+ PYTHON_SOURCE)); Ok None.

Definition edit_command (source : string) : result (option string) :=
  if contains OLD_MAIN_COMMAND source then Ok (Some (replace_first OLD_MAIN_COMMAND NEW_MAIN_COMMAND source))
  else _ ← raise_if (negb (contains NEW_MAIN_COMMAND source)) (RuntimeError ("unexpected MNSIM command layout: " +:+ PYTHON_SOURCE)); Ok None.

Definition edit_arguments (source : string) : result (option string) :=
  if contains OLD_ID_ARGUMENTS source then Ok (Some (replace_first OLD_ID_ARGUMENTS "" source)) else Ok None.

(** Read a file, and write it back when it was edited. *)
Definition edit_file (path : string) (edit : string → result (option string)) : M unit :=
  source ← read_text path;
  edited ← lift (edit source);
  match edited with Some text => write_text path text | None => mret () end.

Definition main : M unit :=
  source ← read_text SOURCE;
  if contains COMPAT_BACKEND_MARKER source then mret ()
  else
    _ ← edit_file SOURCE edit_task;
    _ ← edit_file PYTHON_SOURCE edit_config;
    _ ← edit_file PYTHON_SOURCE edit_command;
    edit_file PYTHON_SOURCE edit_arguments.

End MnsimRuntime.

Module PipeDrain.

Definition old (fd : string) : string := "                int res = read(" +:+ fd +:+ ", pipe_buf, PIPE_BUF_SIZE);
                if (res <= 0) break;
                pipe_buf[res] = '\0';".

Definition replacement (fd : string) (index : Z) : string := "                int res = read(" +:+ fd +:+ (code ", pipe_buf, PIPE_BUF_SIZE);
                if (res < 0) {
                    perror(`read`);
                    break;
                }
                if (res == 0) {
                    // One stream may close before the other. Do not abandon
                    // buffered stderr/stdout from a failing child process.
                    close(") +:+ fd +:+ ");
                    fd_list[" +:+ str_of_Z index +:+ "].fd = -1;
                    fd_list[" +:+ str_of_Z index +:+ "].events = 0;
                    continue;
                }
                pipe_buf[res] = '\0';".

Definition target : string := "/opt/legosim/interchiplet/srcs/interchiplet.cpp".

Definition drain (source descriptor : string) : result string :=
  require (old descriptor) (RuntimeError ("expected child pipe read block not found for " +:+ descriptor))
    (replace_first (old descriptor) (replacement descriptor (if String.eqb descriptor "stdout_fd" then 0 else 1)) source) source.

Definition main : M unit :=
  source ← read_text target;
  patched ← lift (fold_result drain source ["stdout_fd"; "stderr_fd"]);
  write_text target patched.

End PipeDrain.

Module Overlay.

Definition upstream_root : string := code "return std::string(env_p) + `/benchmark/MLP_NVL/`;".

Definition image_root : string := code "return std::string(env_p) + `/artifact/MLP/`;".

Definition legacy_pipeline : string := "| sed 's/[=,]//g' | sed 's/\([_A-Z1-9]\+\)[ ]\+\([0-9]\+\)/\1 \1/'".

Definition fixed_pipeline : string := "| sed 's/[=,]//g' | sed 's@/\*.*\*/@@' | sed 's/\([_A-Z1-9]\+\)[ ]\+\([0-9]\+\)/\1 \1/'".

Definition mnsim_command : string := code "system(`cd /home/qc/test_simulator/Chiplet_Heterogeneous_newVersion/MNSIMChiplet; pip install torch torchvision ; python3 MNSIM_Chiplet.py -ID1 0 -ID2 2`);".

Definition reproducible_command : string := code "system(`cd /opt/legosim/MNSIMChiplet; PYTHONPATH=/opt/legosim/MNSIMChiplet/MNSIM python3 MNSIM_Chiplet.py -ID1 0 -ID2 2`);".

Definition old_include : string := code "#include `sync_protocol.h`".

Definition new_include : string := code "#include `sync_protocol.h`
#include `remote_pipe_comm.h`".

Definition old_read : string := "    int read_data(const char *file_name, void *buf, int nbyte) {".

Definition new_read : string := "    int read_data(const char *file_name, void *buf, int nbyte) {
        if (remotePipeEnabled()) return remotePipeRead(file_name, buf, nbyte);".

Definition old_write : string := "    int write_data(const char *file_name, void *buf, int nbyte) {".

Definition new_write : string := "    int write_data(const char *file_name, void *buf, int nbyte) {
        if (remotePipeEnabled()) return remotePipeWrite(file_name, buf, nbyte);".

Definition in_root (root : string) (parts : list string) : string := foldl path_div root parts.

Definition mnsim_tasks : list (list string) :=
  [["artifact"; "MLP"; "mnsim.cpp"]; ["artifact"; "bfs_cuda"; "mnsim.cpp"]; ["benchmark"; "resnet"; "mnsim.cpp"]].

(** Installing the compatibility task: its text is read once for every target. *)
Definition install_mnsim (root overlay_root : string) : M unit :=
  for_each (λ parts, text ← read_text (path_div overlay_root "mnsim_compat.cpp"); write_text (in_root root parts) text) mnsim_tasks.

Definition edit_mlp_root (source : string) : option string :=
  if negb (contains image_root source) && contains upstream_root source
  then Some (replace_all upstream_root image_root source) else None.

Definition edit_makefile (source : string) : result (option string) :=
  if contains fixed_pipeline source then Ok None
  else
    _ ← raise_if (negb (contains legacy_pipeline source))
          (RuntimeError "upstream GPGPU-Sim token-generator layout did not match the expected revision");
    Ok (Some (replace_all legacy_pipeline fixed_pipeline source)).

Definition edit_pipe_comm (source : string) : result (option string) :=
  if contains "remotePipeEnabled" source then Ok None
  else
    let source := replace_all old_write new_write (replace_all old_read new_read (replace_all old_include new_include source)) in
    _ ← raise_if (negb (contains "remotePipeEnabled" source))
          (RuntimeError "upstream PipeComm layout did not match the expected revision");
    Ok (Some source).

Definition edit_launcher (source : string) : option string :=
  if negb (contains reproducible_command source) && contains mnsim_command source
  then Some (replace_all mnsim_command reproducible_command source) else None.

Definition main (root overlay_root : string) : M unit :=
  let include_dir := in_root root ["interchiplet"; "includes"] in
  overlay ← read_text (path_div overlay_root "remote_pipe_comm.h");
  _ ← write_text (path_div include_dir "remote_pipe_comm.h") overlay;
  _ ← install_mnsim root overlay_root;
  _ ← MnsimRuntime.edit_file (in_root root ["artifact"; "MLP"; "mlp.cpp"]) (λ s, Ok (edit_mlp_root s));
  _ ← MnsimRuntime.edit_file (in_root root ["gpgpu-sim"; "src"; "cuda-sim"; "Makefile"]) edit_makefile;
  _ ← MnsimRuntime.edit_file (path_div include_dir "pipe_comm.h") edit_pipe_comm;
  for_each (λ parts, MnsimRuntime.edit_file (in_root root parts) (λ s, Ok (edit_launcher s)))
    [["artifact"; "MLP"; "mnsim.cpp"]; ["artifact"; "bfs_cuda"; "mnsim.cpp"]].

End Overlay.

(** ** Occurrences of text *)

Lemma strip_prefix_app p r : strip_prefix p (p +:+ r) = Some r.
Proof. by apply strip_prefix_Some. Qed.

Lemma startswith_iff p s : startswith p s = true ↔ ∃ r, s = p +:+ r.
Proof.
  unfold startswith. rewrite bool_decide_eq_true. split.
  - intros [r Hr]. exists r. by apply strip_prefix_Some.
  - intros [r ->]. exists r. apply strip_prefix_app.
Qed.

Lemma contains_iff w s : contains w s = true ↔ ∃ x y, s = x +:+ w +:+ y.
Proof.
  induction s as [|c s IH]; cbn [contains]; rewrite orb_true_iff, startswith_iff.
  - split; [intros [[r Hr]|?]; [by exists "", r|done]|].
    intros ([|c x] & y & H); [left; by exists y|done].
  - rewrite IH. split.
    + intros [[r Hr]|(x & y & ->)]; [by exists "", r|by exists (String c x), y].
    + intros ([|c' x] & y & H); [left; by exists y|]. right. injection H as <- ->. by exists x, y.
Qed.

Lemma replace_first_spec old new s :
  contains old s = true → ∃ a b, s = a +:+ old +:+ b ∧ replace_first old new s = a +:+ new +:+ b.
Proof.
  induction s as [|c s IH]; cbn [contains replace_first]; unfold startswith; intros H.
  - destruct (strip_prefix old "") as [r|] eqn:E; [|by rewrite bool_decide_false in H by (intros [? ?]; done)].
    apply strip_prefix_Some in E. by exists "", r.
  - destruct (strip_prefix old (String c s)) as [r|] eqn:E.
    + apply strip_prefix_Some in E. by exists "", r.
    + rewrite bool_decide_false in H by (intros [? ?]; done). destruct (IH H) as (a & b & -> & ->). by exists (String c a), b.
Qed.

Lemma contains_app_r w a b : contains w b = true → contains w (a +:+ b) = true.
Proof. rewrite !contains_iff. intros (x & y & ->). exists (a +:+ x), y. by rewrite str_app_assoc. Qed.

Lemma contains_here w a b : contains w (a +:+ w +:+ b) = true.
Proof. apply contains_iff. by exists a, b. Qed.

Lemma contains_replace_first old new s : contains old s = true → contains new (replace_first old new s) = true.
Proof. intros (a & b & _ & ->)%(replace_first_spec old new). apply contains_here. Qed.

Lemma contains_replace_all old new s : old ≠ "" → contains old s = true → contains new (replace_all old new s) = true.
Proof.
  intros Hne. unfold replace_all. induction s as [|c s IH]; cbn [contains replace_all_go].
  - intros H. apply orb_true_iff in H as [(r & Hr)%startswith_iff|H]; [|done]. by destruct old.
  - destruct (startswith old (String c s)); cbn [orb]; intros H.
    + apply (contains_here new "").
    + by apply (contains_app_r new (String c "")), IH.
Qed.

(** ** Texts that cannot overlap *)

Fixpoint compatible (u v : string) : bool :=
  match u, v with
  | String a u', String b v' => Ascii.eqb a b && compatible u' v'
  | _, _ => true
  end.

(** No placement of [u] and [w] in one text lets them share a character. *)
Definition separate (u w : string) : bool :=
  forallb (λ d, negb (compatible (str_drop d u) w)) (seq 0 (str_length u)) &&
  forallb (λ d, negb (compatible (str_drop d w) u)) (seq 0 (str_length w)).

Lemma compatible_app u v r1 r2 : u +:+ r1 = v +:+ r2 → compatible u v = true.
Proof.
  revert v. induction u as [|a u IH]; intros [|b v] H; try done. cbn [compatible].
  injection H as -> H. by rewrite Ascii.eqb_refl, (IH v).
Qed.

Lemma str_split a s x t :
  a +:+ s = x +:+ t → (str_length a ≤ str_length x)%nat → ∃ x', x = a +:+ x' ∧ s = x' +:+ t.
Proof.
  revert x. induction a as [|c a IH]; intros x H Hl; [by exists x|]. destruct x as [|c' x]; cbn [str_length] in Hl; [lia|].
  injection H as <- H. destruct (IH x H) as (x' & -> & ->); [lia|]. by exists x'.
Qed.

Lemma str_drop_app_le n s t : (n ≤ str_length s)%nat → str_drop n (s +:+ t) = str_drop n s +:+ t.
Proof. revert n. induction s as [|c s IH]; intros [|n] H; cbn [str_length] in H; try done; [lia|]. apply IH. lia. Qed.

Lemma no_overlap u w a b x y :
  forallb (λ d, negb (compatible (str_drop d u) w)) (seq 0 (str_length u)) = true →
  a +:+ u +:+ b = x +:+ w +:+ y → (str_length a ≤ str_length x)%nat → (str_length a + str_length u ≤ str_length x)%nat.
Proof.
  intros Hs Heq Hl. destruct (str_split _ _ _ _ Heq Hl) as (x' & -> & Hu). rewrite str_length_app.
  destruct (decide (str_length x' < str_length u)%nat) as [Hlt|]; [|lia]. exfalso.
  assert (Hc : compatible (str_drop (str_length x') u) w = true).
  { apply (compatible_app _ _ b y). rewrite <- str_drop_app_le by lia. rewrite Hu. apply str_drop_app. }
  rewrite forallb_forall in Hs. specialize (Hs (str_length x')). rewrite Hc in Hs. discriminate Hs. apply in_seq. lia.
Qed.

Lemma separate_sound u w a b x y :
  separate u w = true → a +:+ u +:+ b = x +:+ w +:+ y →
  (str_length x + str_length w ≤ str_length a)%nat ∨ (str_length a + str_length u ≤ str_length x)%nat.
Proof.
  intros [H1 H2]%andb_prop Heq. destruct (decide (str_length a ≤ str_length x)%nat) as [Hl|Hl].
  - right. by eapply no_overlap.
  - left. eapply (no_overlap w u x y a b); [done|by symmetry|lia].
Qed.

(** An edit keeps every text that its fragment cannot overlap. *)
Lemma contains_kept old new w s :
  separate old w = true → contains w s = true → contains w (replace_first old new s) = true.
Proof.
  intros Hsep Hw. destruct (contains old s) eqn:Hold.
  - destruct (replace_first_spec old new s Hold) as (a & b & -> & ->). apply contains_iff in Hw as (x & y & Heq).
    destruct (separate_sound _ _ _ _ _ _ Hsep Heq) as [Hl|Hl].
    + assert (Heq' : (x +:+ w) +:+ y = a +:+ old +:+ b) by by rewrite str_app_assoc.
      destruct (str_split _ _ _ _ Heq') as (a' & -> & _); [by rewrite str_length_app|].
      rewrite !str_app_assoc. apply contains_here.
    + rewrite <- str_app_assoc in Heq. destruct (str_split _ _ _ _ Heq) as (x' & _ & ->); [by rewrite str_length_app|].
      rewrite <- str_app_assoc. apply contains_app_r, contains_here.
  - enough (replace_first old new s = s) as -> by done. clear Hw. induction s as [|c s IH]; cbn [contains replace_first] in *;
      apply orb_false_iff in Hold as [Hp Hold]; unfold startswith in Hp; apply bool_decide_eq_false in Hp;
      destruct (strip_prefix old _) as [r|]; try (by exfalso; apply Hp; eexists); [done|]. by rewrite IH.
Qed.

(** ** Lists of fragments *)

Abbreviation apply_fragments := (fold_result (λ source (f : string * string * string), replace_once f.1.1 source f.1.2 f.2)).

(** No later edit can break the text of an earlier one. *)
Fixpoint stable (fragments : list (string * string * string)) : bool :=
  match fragments with
  | [] => true
  | f :: r => forallb (λ g, separate g.1.2 f.2) r && stable r
  end.

Lemma replace_once_new description s old new s' : replace_once description s old new = Ok s' → contains new s' = true.
Proof.
  unfold replace_once. destruct (contains new s) eqn:E; [congruence|]. destruct (contains old s) eqn:Eo; [|done].
  intros [= <-]. by apply contains_replace_first.
Qed.

Lemma replace_once_keeps description s old new s' w :
  replace_once description s old new = Ok s' → separate old w = true → contains w s = true → contains w s' = true.
Proof.
  unfold replace_once. destruct (contains new s); [congruence|]. destruct (contains old s); [|done].
  intros [= <-]. apply contains_kept.
Qed.

Lemma fragments_keep fragments s s' w :
  apply_fragments s fragments = Ok s' → forallb (λ g, separate g.1.2 w) fragments = true →
  contains w s = true → contains w s' = true.
Proof.
  revert s. induction fragments as [|f r IH]; intros s; cbn [fold_result forallb]; [congruence|].
  destruct (replace_once _ _ _ _) as [s1|] eqn:E; [|done]. intros H [Hf Hr]%andb_prop Hw.
  apply (IH s1 H Hr). by eapply replace_once_keeps.
Qed.

Lemma fragments_repeat fragments s s' :
  stable fragments = true → apply_fragments s fragments = Ok s' →
  (∀ f, f ∈ fragments → contains f.2 s' = true) ∧ apply_fragments s' fragments = Ok s'.
Proof.
  intros Hst H.
  assert (Hall : ∀ f, f ∈ fragments → contains f.2 s' = true).
  { revert s H Hst. induction fragments as [|f r IH]; intros s H Hst f' Hf'; [set_solver|].
    cbn [fold_result stable] in *. destruct (replace_once _ _ _ _) as [s1|] eqn:E; [|done].
    apply andb_prop in Hst as [Hf Hr]. apply elem_of_cons in Hf' as [->|Hf']; [|by apply (IH s1 H Hr)].
    apply (fragments_keep r s1 s' _ H Hf). by eapply replace_once_new. }
  split; [done|]. clear H Hst. induction fragments as [|f r IH]; [done|]. cbn [fold_result].
  unfold replace_once at 1. rewrite (Hall f) by set_solver. apply IH. intros g Hg. apply Hall. set_solver.
Qed.

(** ** Scripts on files *)

Lemma read_text_run path fs : read_text path fs = (fs, fs_files fs !! path ?! FileNotFoundError ("[Errno 2] No such file or directory: " +:+ repr_str path)).
Proof. reflexivity. Qed.

(** A script that reads one file and writes its edit. *)
Lemma edit_repeat path (edit : string → result string) fs fs' :
  (∀ s t, edit s = Ok t → edit t = Ok t) →
  (source ← read_text path; patched ← lift (edit source); write_text path patched) fs = (fs', Ok ()) →
  (source ← read_text path; patched ← lift (edit source); write_text path patched) fs' = (fs', Ok ()).
Proof.
  intros Hedit H. apply M_bind_Ok in H as (fs1 & s & Hread & H). rewrite read_text_run in Hread. injection Hread as <- Hs.
  apply M_bind_Ok in H as (fs2 & t & [-> Ht]%lift_Ok & H). apply of_option_Ok in Hs.
  apply write_bytes_Ok in H as (Hd & Hl & ->). apply M_bind_Ok. eexists _, t. rewrite read_text_run. cbn [fs_files].
  rewrite lookup_insert_eq. split; [done|]. apply M_bind_Ok. eexists _, t. split; [by apply lift_Ok; eauto|].
  apply write_bytes_Ok. split; [done|]. split; [done|]. cbn [fs_dirs fs_files]. by rewrite insert_insert_eq.
Qed.

Lemma edit_atomic path (edit : string → result string) fs fs' e :
  (source ← read_text path; patched ← lift (edit source); write_text path patched) fs = (fs', Err e) → fs' = fs.
Proof.
  unfold mbind, M_bind, lift. rewrite read_text_run. destruct (fs_files fs !! path) as [s|]; cbn [of_option]; [|congruence].
  destruct (edit s) as [t|]; [|congruence]. unfold write_text, write_bytes. case_match; congruence.
Qed.

Lemma patch_file_repeat path patched edit fs fs' :
  (∀ s t, edit s = Ok t → patched t = true) →
  patch_file path patched edit fs = (fs', Ok ()) → patch_file path patched edit fs' = (fs', Ok ()).
Proof.
  intros Hedit H. apply M_bind_Ok in H as (fs1 & s & Hread & H). rewrite read_text_run in Hread. injection Hread as <- Hs.
  apply of_option_Ok in Hs. unfold patch_file, mbind, M_bind. rewrite read_text_run. destruct (patched s) eqn:Hp.
  - injection H as <-. rewrite Hs. cbn [of_option]. by rewrite Hp.
  - apply M_bind_Ok in H as (fs2 & t & [-> Ht]%lift_Ok & H). apply write_bytes_Ok in H as (_ & _ & ->). cbn [fs_files].
    rewrite lookup_insert_eq. cbn [of_option]. by rewrite (Hedit s t Ht).
Qed.

Lemma patch_file_atomic path patched edit fs fs' e :
  patch_file path patched edit fs = (fs', Err e) → fs' = fs.
Proof.
  unfold patch_file, mbind, M_bind, lift. rewrite read_text_run.
  destruct (fs_files fs !! path) as [s|]; cbn [of_option]; [|congruence]. destruct (patched s); [done|].
  destruct (edit s) as [t|]; [|congruence]. unfold write_text, write_bytes. case_match; congruence.
Qed.

Lemma require_Ok old e edited s t : require old e edited s = Ok t → contains old s = true ∧ t = edited.
Proof. unfold require. destruct (contains old s); naive_solver. Qed.

(** The include line and the fragments of the two transport patches. *)
Lemma include_repeat (anchor line : string) e fragments s s' :
  stable fragments = true → forallb (λ g, separate g.1.2 line) fragments = true → contains line (anchor +:+ line +:+ nl) = true →
  (s1 ← (if contains line s then Ok s else require anchor e (replace_first anchor (anchor +:+ line +:+ nl) s) s);
   apply_fragments s1 fragments) = Ok s' →
  contains line s' = true ∧ apply_fragments s' fragments = Ok s'.
Proof.
  intros Hst Hsep Hline H. apply bind_Ok in H as (s1 & H1 & H). destruct (fragments_repeat _ _ _ Hst H) as [_ Hrep].
  split; [|done]. apply (fragments_keep _ _ _ _ H Hsep). destruct (contains line s) eqn:E; [congruence|].
  apply require_Ok in H1 as [Ha ->]. destruct (replace_first_spec anchor (anchor +:+ line +:+ nl) s Ha) as (a & b & _ & ->).
  rewrite !str_app_assoc. apply contains_app_r, contains_app_r, (contains_here line "").
Qed.

Lemma remote_pipe_repeat s s' : RemotePipe.patch_source s = Ok s' → RemotePipe.patch_source s' = Ok s'.
Proof.
  intros H. unfold RemotePipe.patch_source, RemotePipe.add_include in *.
  apply include_repeat in H as [Hl Hf]; [|vm_compute; reflexivity..]. rewrite Hl. exact Hf.
Qed.

Lemma pipe_comm_repeat s s' : PipeComm.patch_source s = Ok s' → PipeComm.patch_source s' = Ok s'.
Proof.
  intros H. unfold PipeComm.patch_source, PipeComm.add_include in *.
  apply include_repeat in H as [Hl Hf]; [|vm_compute; reflexivity..]. rewrite Hl. exact Hf.
Qed.

Lemma recorder_repeat s s' : RecorderDiagnostics.patch_source s = Ok s' → RecorderDiagnostics.patch_source s' = Ok s'.
Proof. intros H. apply (fragments_repeat RecorderDiagnostics.fragments s s'); [vm_compute; reflexivity|exact H]. Qed.

Lemma bounded_repeat s t : BoundedIterations.edit s = Ok t → contains BoundedIterations.NEW_LOOP t = true.
Proof.
  unfold BoundedIterations.edit. destruct (_ && _) eqn:E; [|done]. intros [= <-].
  apply andb_prop in E as [[_ E]%andb_prop _]. apply contains_kept; [vm_compute; reflexivity|].
  apply contains_replace_first, contains_kept; [vm_compute; reflexivity|exact E].
Qed.

Lemma parallel_repeat s t :
  ParallelTasks.edit s = Ok t →
  contains ParallelTasks.NEW_TOGGLER t && contains ParallelTasks.NEW_BACKWARD t = true.
Proof.
  unfold ParallelTasks.edit, ParallelTasks.pairs. cbn [fold_result fst snd].
  destruct (require _ _ _ s) as [s1|] eqn:E1; [|done]. apply require_Ok in E1 as [H1 ->].
  destruct (require _ _ _ (replace_first _ _ s)) as [s2|] eqn:E2; [|done]. apply require_Ok in E2 as [H2 ->].
  destruct (require ParallelTasks.OLD_BACKWARD _ _ _) as [s3|] eqn:E3; [|done]. apply require_Ok in E3 as [H3 ->].
  intros [= <-]. apply andb_true_intro. split; [|by apply contains_replace_first].
  do 2 (apply contains_kept; [vm_compute; reflexivity|]). by apply contains_replace_first.
Qed.


