(* ===== verification/SwarmStack.v ===== *)
(** * The Swarm stack

    Model of [src/real/generate_swarm_stack.py]: the coordinator service, one transport service
    per worker slot, and the checks before them.  The JSON inputs are parsed objects and the YAML
    output is the object that is printed. *)

From S2P Require Import Prelude PyValue Worker Proxy Supervisor.

Record arguments := Arguments {
  ar_workload_yaml : string;
  ar_topology : string;
  ar_routing : string;
  ar_image : string;
  ar_workload_target : string;
  ar_topology_width : Z;
  ar_flit_size : Z;
  ar_ptrace : bool;
  ar_iterations : option Z;
  ar_ranks : option Z;
  ar_samples : option Z;
  ar_fast_input : option Z;
  ar_worker_ready : Z;
  ar_baseif_ready : Z;
  ar_baseif_connect : Z;
}.

Abbreviation strs l := (PList (PStr <$> l)).

(** [len(v)] *)
Definition py_len (v : pyval) : result Z :=
  match v with
  | PStr s => Ok (Z.of_nat (str_length s))
  | PList l => Ok (zlen l)
  | PDict d => Ok (zlen d)
  | _ => Err TypeError
  end.

Definition below (bound : Z) (o : option Z) : bool := match o with Some n => n <? bound | None => false end.

(** The checks of [main], in order; the result is the node count. *)
Definition check (a : arguments) (placement topology routing : pydict) : result Z :=
  nodes ← dict_item "swarm_nodes" placement;
  node_count ← int_of nodes;
  _ ← raise_if (negb (startswith "/" (ar_workload_target a))) (ValueError "--workload-target must be an absolute container path");
  workers ← dict_item "workers" topology;
  worker_count ← py_len workers;
  mismatch ← (if negb (worker_count =? node_count) then Ok true
              else coordinates ← dict_item "coordinate_to_worker_slot" routing; n ← py_len coordinates; Ok (n =? 0));
  _ ← raise_if mismatch (ValueError "placement, topology, and routing must describe the same non-empty experiment");
  _ ← raise_if (below 1 (ar_iterations a)) (ValueError "--mlp-dp-iterations must be positive");
  _ ← raise_if (below 1 (ar_ranks a)) (ValueError "--mlp-dp-ranks must be positive");
  _ ← raise_if (below 1 (ar_samples a)) (ValueError "--mlp-dp-samples must be positive");
  _ ← raise_if (below 3 (ar_fast_input a)) (ValueError "--mnsim-fast-input-size must be at least 3");
  _ ← raise_if (ar_worker_ready a <? 1) (ValueError "--worker-ready-timeout must be positive");
  _ ← raise_if ((ar_baseif_ready a <? 1) || (ar_baseif_connect a <? 1)) (ValueError "BaseIf timeout arguments must be positive");
  Ok node_count.

Definition environment_prefix : string :=
  "export CUDA_INSTALL_PATH=${CUDA_INSTALL_PATH:-/usr}; source /opt/legosim/gpgpu-sim/setup_environment && exec ".

Definition config_item (source target : string) : pyval :=
  PDict [("source", PStr source); ("target", PStr target); ("mode", PInt 292)].

(** [if value is not None: environment[name] = str(value)] *)
Definition set_optional (name : string) (o : option Z) (environ : environment) : environment :=
  match o with Some n => dict_set name (str_of_Z n) environ | None => environ end.

Definition coordinator_environment (a : arguments) : environment :=
  set_optional "LEGOSIM_MNSIM_FAST_INPUT_SIZE" (ar_fast_input a)
    [("LEGOSIM_WORKER_READY_TIMEOUT_SECONDS", str_of_Z (ar_worker_ready a));
     ("LEGOSIM_ARTIFACT_DIR", "/legosim-artifacts"); ("LEGOSIM_ARTIFACT_RUN_ID", "coordinator")].

Definition env_value (environ : environment) : pyval := PDict (prod_map id PStr <$> environ).

Definition coordinator_service (a : arguments) : pydict :=
  [("image", PStr (ar_image a));
   ("command", strs [ar_workload_target a; "-w"; str_of_Z (ar_topology_width a); "-f"; str_of_Z (ar_flit_size a)]);
   ("configs", PList [config_item "workload" (ar_workload_target a); config_item "routing" "/run/config/routing.json"]);
   ("networks", PDict [("chipsystemsim", PDict [("aliases", strs ["coordinator"])])]);
   ("environment", env_value (coordinator_environment a));
   ("volumes", strs ["timing-artifacts:/legosim-artifacts"]);
   ("deploy", PDict [("placement", PDict [("constraints", strs ["node.role == manager"])]);
                     ("restart_policy", PDict [("condition", PStr "none")])])].

Definition transport_environment (a : arguments) : environment :=
  set_optional "LEGOSIM_MNSIM_FAST_INPUT_SIZE" (ar_fast_input a)
    (set_optional "LEGOSIM_MLP_DP_SAMPLES" (ar_samples a)
      (set_optional "LEGOSIM_MLP_DP_RANKS" (ar_ranks a)
        (set_optional "LEGOSIM_MLP_DP_ITERATIONS" (ar_iterations a)
          [("LEGOSIM_BASEIF_READY_TIMEOUT_SECONDS", str_of_Z (ar_baseif_ready a));
           ("LEGOSIM_BASEIF_CONNECT_TIMEOUT_SECONDS", str_of_Z (ar_baseif_connect a))]))).

Definition supervisor_command (slot : Z) : string :=
  "python3 /opt/chipsystemsim-distributed/simbricks_worker_supervisor.py --slot " +:+ str_of_Z slot +:+
  " --topology /run/config/topology.json --routing /run/config/routing.json".

Definition transport_service (a : arguments) (slot : Z) : pydict :=
  [("image", PStr (ar_image a));
   ("entrypoint", strs ["/bin/bash"; "-lc"; environment_prefix +:+ supervisor_command slot]);
   ("configs", PList [config_item "topology" "/run/config/topology.json"; config_item "routing" "/run/config/routing.json"]);
   ("networks", PDict [("chipsystemsim", PDict [("aliases", strs ["worker-" +:+ str_of_Z slot; "transport-" +:+ str_of_Z slot])])]);
   ("deploy", PDict [("placement", PDict [("constraints",
      strs ["node.labels.chipsystemsim.node." +:+ str_of_Z slot +:+ " == true"])])])]
  ++ (if ar_ptrace a then [("cap_add", strs ["SYS_PTRACE"])] else [])
  ++ [("environment", env_value (transport_environment a))].

Definition service_name (slot : Z) : string := "transport-" +:+ str_of_Z slot.

Definition services (a : arguments) (node_count : Z) : pydict :=
  foldl (λ d slot, dict_set (service_name slot) (PDict (transport_service a slot)) d)
    [("coordinator", PDict (coordinator_service a))] (seqZ 0 node_count).

(** [resolve] makes a path absolute. *)
Definition stack (resolve : string → string) (a : arguments) (node_count : Z) : pydict :=
  [("services", PDict (services a node_count));
   ("configs", PDict [("workload", PDict [("file", PStr (resolve (ar_workload_yaml a)))]);
                      ("topology", PDict [("file", PStr (resolve (ar_topology a)))]);
                      ("routing", PDict [("file", PStr (resolve (ar_routing a)))])]);
   ("networks", PDict [("chipsystemsim", PDict [("driver", PStr "overlay"); ("attachable", PBool true)])]);
   ("volumes", PDict [("timing-artifacts", PDict [])])].

Definition main (resolve : string → string) (a : arguments) (placement topology routing : pydict) : result pydict :=
  node_count ← check a placement topology routing;
  Ok (stack resolve a node_count).

(** ** Facts *)

Lemma service_names_NoDup n : NoDup ("coordinator" :: (service_name <$> seqZ 0 n)).
Proof.
  apply NoDup_cons. split.
  - intros (slot & H & _)%list_elem_of_fmap. discriminate H.
  - apply NoDup_fmap_2_strong; [|apply NoDup_seqZ]. intros x y _ _ H. unfold service_name in H.
    injection H as H. by apply str_of_Z_inj.
Qed.

Lemma services_list a n :
  services a n = ("coordinator", PDict (coordinator_service a)) :: ((λ slot, (service_name slot, PDict (transport_service a slot))) <$> seqZ 0 n).
Proof.
  unfold services.
  enough (∀ l d, NoDup (d.*1 ++ (service_name <$> l)) →
    foldl (λ d slot, dict_set (service_name slot) (PDict (transport_service a slot)) d) d l
    = d ++ ((λ slot, (service_name slot, PDict (transport_service a slot))) <$> l)) as H.
  { rewrite H; [done|]. apply service_names_NoDup. }
  induction l as [|slot l IH]; intros d Hnd; cbn [foldl fmap list_fmap]; [by rewrite app_nil_r|].
  assert (Hnew : service_name slot ∉ d.*1).
  { cbn in Hnd. apply NoDup_app in Hnd as (_ & Hdis & _). intros Hin. apply (Hdis _ Hin). set_solver. }
  rewrite dict_set_fresh by done. rewrite IH; [by rewrite <- app_assoc|].
  rewrite fmap_app. cbn. by rewrite <- app_assoc.
Qed.

(** The network aliases of a service. *)
Definition aliases (service : pyval) : list string :=
  match service with
  | PDict d =>
      match dict_get "networks" d with
      | Some (PDict [(_, PDict [("aliases", PList l)])]) => py_str <$> l
      | _ => []
      end
  | _ => []
  end.

Lemma transport_aliases a slot :
  aliases (PDict (transport_service a slot)) = ["worker-" +:+ str_of_Z slot; "transport-" +:+ str_of_Z slot].
Proof. reflexivity. Qed.

Lemma aliases_NoDup a n : NoDup ((services a n).*2 ≫= aliases).
Proof.
  rewrite services_list. cbn [fmap list_fmap snd]. rewrite bind_cons.
  change (aliases (PDict (coordinator_service a))) with ["coordinator"]. cbn [app].
  assert (Hmem : ∀ x l, x ∈ ((λ slot, (service_name slot, PDict (transport_service a slot))) <$> l).*2 ≫= aliases →
    ∃ slot, slot ∈ l ∧ (x = "worker-" +:+ str_of_Z slot ∨ x = "transport-" +:+ str_of_Z slot)).
  { intros x l. rewrite list_elem_of_bind. intros (v & Hx & Hv). rewrite <- list_fmap_compose in Hv.
    apply list_elem_of_fmap in Hv as (slot & -> & Hs). exists slot. split; [done|].
    change (x ∈ aliases (PDict (transport_service a slot))) in Hx. rewrite transport_aliases in Hx. set_solver. }
  apply NoDup_cons. split; [intros (slot & _ & [H|H])%Hmem; discriminate H|].
  assert (Hnd : NoDup (seqZ 0 n)) by apply NoDup_seqZ. induction Hnd as [|slot l Hnot Hnd IH]; [constructor|].
  cbn [fmap list_fmap snd]. rewrite bind_cons, transport_aliases. cbn [app].
  assert (Hfresh : ∀ x, x = "worker-" +:+ str_of_Z slot ∨ x = "transport-" +:+ str_of_Z slot →
    x ∉ ((λ slot, (service_name slot, PDict (transport_service a slot))) <$> l).*2 ≫= aliases).
  { intros x Hx (slot' & Hs & Hx')%Hmem. apply Hnot. assert (slot = slot') as -> by
      (destruct Hx as [->| ->], Hx' as [H|H]; try discriminate H; injection H as H; by apply str_of_Z_inj). done. }
  repeat (apply NoDup_cons; split); [|by apply Hfresh; right|done].
  rewrite not_elem_of_cons. split; [discriminate|by apply Hfresh; left].
Qed.

Lemma check_Ok a placement topology routing n :
  check a placement topology routing = Ok n →
  (v ← dict_item "swarm_nodes" placement; int_of v) = Ok n ∧
  1 ≤ ar_worker_ready a ∧ 1 ≤ ar_baseif_ready a ∧ 1 ≤ ar_baseif_connect a ∧ below 3 (ar_fast_input a) = false.
Proof. unfold check. intros H. result_inv. bool_facts. rewrite Ha. cbn [mbind result_bind]. rewrite Ha0. split_and!; try lia; done. Qed.

Lemma dict_get_set_optional name name' o environ :
  name ≠ name' → dict_get name' (set_optional name o environ) = dict_get name' environ.
Proof. intros Hne. unfold set_optional. destruct o; [by apply dict_get_set_ne|done]. Qed.

(** The supervisor reads its two timeouts back from the environment of its service. *)
Lemma transport_timeouts a :
  1 ≤ ar_baseif_ready a → 1 ≤ ar_baseif_connect a →
  read_timeouts (transport_environment a) = Ok (Timeouts (ar_baseif_ready a) (ar_baseif_connect a) 5).
Proof.
  intros Hr Hc. unfold read_timeouts, env_seconds, dict_get_default, transport_environment.
  rewrite !dict_get_set_optional by done. cbn [dict_get String.eqb]. cbn -[py_int_exn str_of_Z positive].
  rewrite !py_int_exn_str. cbn [mbind result_bind]. change (py_int_exn "5") with (@Ok Z 5). cbn [mbind result_bind].
  unfold positive. rewrite !(proj2 (Z.ltb_ge _ 1)) by lia. done.
Qed.

(** The proxy in the coordinator forwards the MNSIM label of the coordinator's environment. *)
Lemma coordinator_forwards a :
  dict_get "LEGOSIM_MNSIM_FAST_INPUT_SIZE" (child_environment (coordinator_environment a))
  = (λ n, PStr (str_of_Z n)) <$> ar_fast_input a.
Proof.
  unfold child_environment, forwarded_variables, coordinator_environment. cbn [foldl]. unfold forward_variable.
  rewrite !dict_get_set_optional by done. destruct (ar_fast_input a) as [n|]; cbn [set_optional]; [|reflexivity].
  rewrite dict_get_set. cbn [fmap option_fmap option_map]. pose proof (str_of_Z_nonempty n) as Hne. destruct (str_of_Z n); [done|]. reflexivity.
Qed.


Definition demo_arguments : arguments :=
  Arguments "w.yml" "t.json" "r.json" "image" "/opt/legosim/workload.yml" 6 4 false None None None (Some 8) 180 300 180.

