(* ===== verification/Feedback.v ===== *)
(** * Validating a finished run

    Models of [src/scripts/validate_ns3_timing_feedback.py] (module [Timing]): did the next
    phase-one round consume the delays of an ns-3 phase two; and of
    [src/scripts/validate_matmul_dp_results.py] (module [MatmulResult]): are the result markers of
    the block GEMM exact.  Regular expressions of literals and digit groups are matched by
    [match_pattern]. *)

From S2P Require Import Prelude PyValue Proxy.

(** ** Patterns *)

(** A regular expression made of literals and capturing groups of digits.  In every pattern of
    these scripts a group is followed by a character that is not a digit, so that the longest
    run of digits is the only match. *)
Inductive piece := Lit (text : string) | Digits.

Fixpoint span_digits (s : string) : string * string :=
  match s with
  | String c s' => if is_digit c then let '(d, r) := span_digits s' in (String c d, r) else ("", s)
  | EmptyString => ("", "")
  end.

(** A match at the start of the text: the groups and the rest. *)
Fixpoint match_pattern (p : list piece) (s : string) : option (list Z * string) :=
  match p with
  | [] => Some ([], s)
  | Lit t :: p' => match strip_prefix t s with Some r => match_pattern p' r | None => None end
  | Digits :: p' =>
      let '(d, r) := span_digits s in
      match parse_digits 0 false d with
      | Some n => match match_pattern p' r with Some (ns, r') => Some (n :: ns, r') | None => None end
      | None => None
      end
  end.

(** [pattern.search(s)] *)
Fixpoint search (p : list piece) (s : string) : option (list Z) :=
  match match_pattern p s with
  | Some (groups, _) => Some groups
  | None => match s with EmptyString => None | String _ s' => search p s' end
  end.

(** [pattern.finditer(s)] *)
Definition find_all (p : list piece) : string → list (list Z) := scan (match_pattern p).

(** ** CSV records *)

Inductive csv_state := RecordStart | FieldStart | InField | Quoted | QuoteSeen.

(** Whether each record of the text has a field: blank lines have none.  A line break inside
    quotes belongs to the field. *)
Fixpoint csv_go (m : csv_state) (after_cr : bool) (s : string) : list bool :=
  match s with
  | EmptyString => match m with RecordStart => [] | _ => [true] end
  | String c s' =>
      match m with
      | Quoted => csv_go (if Ascii.eqb c DQUOTE then QuoteSeen else Quoted) false s'
      | _ =>
          let at_start := match m with RecordStart => true | _ => false end in
          if at_start && after_cr && Ascii.eqb c NL then csv_go RecordStart false s'
          else if Ascii.eqb c NL || (ord c =? 13)%nat then negb at_start :: csv_go RecordStart (ord c =? 13)%nat s'
          else if Ascii.eqb c DQUOTE && match m with InField => false | _ => true end then csv_go Quoted false s'
          else csv_go (if Ascii.eqb c ","%char then FieldStart else InField) false s'
      end
  end.

(** [sum(1 for _ in csv.DictReader(handle))]: the first record is the header, blank ones are skipped. *)
Definition csv_rows (s : string) : Z := count id (tail (csv_go RecordStart false s)).

Example csv_rows_example :
  csv_rows ("a,b" +:+ nl +:+ "1,2" +:+ nl +:+ nl +:+ "3," +:+ String DQUOTE ("4" +:+ nl +:+ "5" +:+ String DQUOTE nl)) = 2.
Proof. reflexivity. Qed.

Module Timing.

(** [^proc_r([0-9]+)_p2_t([0-9]+)$]; the dollar sign also matches before a final line feed. *)
Definition ROUND_DIRECTORY (name : string) : option (Z * Z) :=
  match match_pattern [Lit "proc_r"; Digits; Lit "_p2_t"; Digits] name with
  | Some ([r; t], rest) => if String.eqb rest "" || String.eqb rest nl then Some (r, t) else None
  | _ => None
  end.
Definition ROUND_START : list piece := [Lit "**** Round "; Digits; Lit " Phase 1"].
Definition LOADED_DELAY : list piece := [Lit "Load "; Digits; Lit " delay records."].

(** [line_count] of a file's text. *)
Definition line_count (text : string) : Z := count (λ line, negb (String.eqb (strip line) "")) (splitlines text).

(** A directory of the artifact root with its files. *)
Record directory := Directory { d_name : string; d_files : gmap string string }.

Abbreviation artifact := (Z * Z * directory)%type.

Definition as_artifact (d : directory) : option artifact :=
  match ROUND_DIRECTORY (d_name d) with
  | Some (r, t) => if bool_decide (is_Some (d_files d !! "phase2_input_bench.txt")) then Some (r, t, d) else None
  | None => None
  end.

(** Tuple order: round, thread, path. *)
Definition artifact_leb (a b : artifact) : bool :=
  let '(r1, t1, d1) := a in let '(r2, t2, d2) := b in
  (r1 <? r2) || ((r1 =? r2) && ((t1 <? t2) || ((t1 =? t2) && String.leb (d_name d1) (d_name d2)))).

(** [phase_two_directories]: the listing comes in any order and is sorted. *)
Definition phase_two_directories (listing : list directory) : list artifact :=
  py_sorted artifact_leb (omap as_artifact listing).

(** [load_counts_by_round]: the state is the current round and the counts so far. *)
Definition load_line (st : option Z * gmap Z Z) (line : string) : option Z * gmap Z Z :=
  let '(current, counts) := st in
  match search ROUND_START line with
  | Some [n] => (Some n, counts)
  | _ => match search LOADED_DELAY line, current with
         | Some [n], Some round => (current, <[round := n]> counts)
         | _, _ => st
         end
  end.
Definition load_counts_by_round (log : string) : gmap Z Z := (foldl load_line (None, ∅) (splitlines log)).2.

Section Validate.
(** [json.loads] on the text of the summary file, and the path of an artifact directory. *)
Context (json_loads : string → result pyval) (path_of : directory → string).

Definition required : list string := ["phase2_delayInfo.txt"; "phase2_metrics.csv"; "phase2_summary.json"].

Definition missing (d : directory) : list string :=
  (λ name, path_of d +:+ "/" +:+ name) <$> filter (λ name, d_files d !! name = None) required.

Definition round_error (round : Z) (text : string) : exn := RuntimeError ("round " +:+ str_of_Z round +:+ " " +:+ text).

(** [validate_round]: the common record count. *)
Definition validate_round (round : Z) (d : directory) : result Z :=
  _ ← raise_if (negb (zlen (missing d) =? 0))
        (round_error round ("is missing Phase-2 artifact(s): " +:+ join ", " (missing d)));
  input ← d_files d !! "phase2_input_bench.txt" ?! FileNotFoundError "phase2_input_bench.txt";
  delay ← d_files d !! "phase2_delayInfo.txt" ?! FileNotFoundError "phase2_delayInfo.txt";
  let bench_records := line_count input in
  let delay_records := line_count delay in
  _ ← raise_if (negb (bench_records =? delay_records))
        (round_error round ("bench/delay record mismatch: " +:+ str_of_Z bench_records +:+ " != " +:+ str_of_Z delay_records));
  metrics ← d_files d !! "phase2_metrics.csv" ?! FileNotFoundError "phase2_metrics.csv";
  let metrics_records := csv_rows metrics in
  _ ← raise_if (negb (bench_records =? metrics_records))
        (round_error round ("bench/metrics record mismatch: " +:+ str_of_Z bench_records +:+ " != " +:+ str_of_Z metrics_records));
  text ← d_files d !! "phase2_summary.json" ?! FileNotFoundError "phase2_summary.json";
  summary ← json_loads text;
  summary ← is_dict summary ?! AttributeError;
  _ ← raise_if (negb (eq_str (dict_get_default "phase2_backend" PNone summary) "ns-3"))
        (round_error round "did not report the ns-3 Phase-2 backend");
  Ok bench_records.

(** The loop of [main]: the report entries and the consumed rounds. *)
Record report := Report { rp_entries : list (string * string); rp_consumed : list Z }.

Definition add_artifact (loaded : gmap Z Z) (rp : report) (a : artifact) : result report :=
  let '(round, thread, d) := a in
  records ← validate_round round d;
  let next_round_loaded := default 0 (loaded !! (round + 1)) in
  let key suffix := "phase2_round_" +:+ str_of_Z round +:+ suffix in
  let thread_key name := key ("_thread_" +:+ str_of_Z thread +:+ name) in
  let entries := rp_entries rp in
  let entries := dict_set (thread_key "_bench_records") (str_of_Z records) entries in
  let entries := dict_set (thread_key "_delay_records") (str_of_Z records) entries in
  let entries := dict_set (thread_key "_metrics_records") (str_of_Z records) entries in
  let entries := dict_set (key "_next_phase1_loaded_records") (str_of_Z next_round_loaded) entries in
  Ok (Report entries (if (0 <? records) && (0 <? next_round_loaded) then rp_consumed rp ++ [round] else rp_consumed rp)).

(** [main] up to the text it writes. *)
Definition main (listing : list directory) (log : string) : result string :=
  let artifacts := phase_two_directories listing in
  latest ← last artifacts ?! RuntimeError "no preserved ns-3 Phase-2 process directory exists";
  rp ← fold_result (add_artifact (load_counts_by_round log)) (Report [] []) artifacts;
  let entries := dict_set "latest_phase2_round" (str_of_Z latest.1.1) (rp_entries rp) in
  let entries := dict_set "latest_phase2_thread" (str_of_Z latest.1.2) entries in
  _ ← raise_if (zlen (rp_consumed rp) =? 0)
        (RuntimeError "ns-3 delayInfo was not loaded as a non-zero next Phase-1 delay list");
  let entries := dict_set "consumed_phase2_rounds" (join "," (str_of_Z <$> rp_consumed rp)) entries in
  let entries := dict_set "timing_feedback" "present" entries in
  Ok (join "" ((λ kv, kv.1 +:+ "=" +:+ kv.2 +:+ nl) <$> py_sorted (λ a b, String.leb a.1 b.1) entries)).

End Validate.
End Timing.

Module TimingFacts.
Import Timing.

Section Facts.
Context (json_loads : string → result pyval) (path_of : directory → string).

Lemma missing_nil d : missing path_of d = [] ↔ ∀ name, name ∈ required → is_Some (d_files d !! name).
Proof.
  unfold missing. split.
  - intros H name Hin. apply not_eq_None_Some. intros Hnone.
    apply fmap_nil_inv in H. assert (name ∈ filter (λ name, d_files d !! name = None) required) as Hm by (apply list_elem_of_filter; done).
    rewrite H in Hm. set_solver.
  - intros H. destruct (filter _ _) as [|name l] eqn:E; [done|].
    assert (Hm : name ∈ filter (λ name, d_files d !! name = None) required) by (rewrite E; set_solver).
    apply list_elem_of_filter in Hm as [Hnone Hin]. destruct (H name Hin). congruence.
Qed.

(** What an accepted round has. *)
Definition complete_round (d : directory) (n : Z) : Prop :=
  ∃ input delay metrics text summary,
    d_files d !! "phase2_input_bench.txt" = Some input ∧ d_files d !! "phase2_delayInfo.txt" = Some delay ∧
    d_files d !! "phase2_metrics.csv" = Some metrics ∧ d_files d !! "phase2_summary.json" = Some text ∧
    line_count input = n ∧ line_count delay = n ∧ csv_rows metrics = n ∧
    json_loads text = Ok (PDict summary) ∧ dict_get "phase2_backend" summary = Some (PStr "ns-3").

Lemma validate_round_Ok r d n : validate_round json_loads path_of r d = Ok n ↔ complete_round d n.
Proof.
  unfold validate_round, complete_round. split.
  - intros H. result_inv. bool_facts. apply is_dict_Some in Ha7 as ->.
    exists a0, a1, a3, a5, a7. repeat (split; [done || congruence|]).
    unfold dict_get_default in Ha8. destruct (dict_get "phase2_backend" a7) as [[]|]; try discriminate Ha8.
    cbn in Ha8. by apply String.eqb_eq in Ha8 as ->.
  - intros (input & delay & metrics & text & summary & H1 & H2 & H3 & H4 & Hn1 & Hn2 & Hn3 & Hj & Hb).
    assert (missing path_of d = []) as -> by (apply missing_nil; intros name Hin; set_unfold in Hin; by destruct Hin as [->|[->|[->|[]]]]).
    rewrite H1, H2, H3, H4. cbn [zlen length Z.of_nat Z.eqb negb raise_if mbind result_bind of_option].
    rewrite Hn1, Hn2, Hn3, Z.eqb_refl. cbn [negb raise_if mbind result_bind]. rewrite Hj. cbn [is_dict of_option mbind result_bind].
    unfold dict_get_default. rewrite Hb. done.
Qed.

(** The rounds whose delays were used. *)
Definition consumes (loaded : gmap Z Z) (a : artifact) : Prop :=
  ∃ n k, complete_round a.2 n ∧ 0 < n ∧ loaded !! (a.1.1 + 1) = Some k ∧ 0 < k.

Lemma add_artifacts loaded artifacts rp :
  (is_ok (fold_result (add_artifact json_loads path_of loaded) rp artifacts) = true ↔
     ∀ a, a ∈ artifacts → ∃ n, complete_round a.2 n) ∧
  (∀ rp', fold_result (add_artifact json_loads path_of loaded) rp artifacts = Ok rp' →
     rp_consumed rp' ≠ [] ↔ rp_consumed rp ≠ [] ∨ ∃ a, a ∈ artifacts ∧ consumes loaded a).
Proof.
  revert rp. induction artifacts as [|[[r t] d] l IH]; intros rp; cbn [fold_result].
  - split; [split; [set_solver|done]|]. intros rp' [= <-]. set_solver.
  - destruct (add_artifact json_loads path_of loaded rp (r, t, d)) as [rp1|e] eqn:E.
    + unfold add_artifact in E. apply bind_Ok in E as (n & Hv & E). apply validate_round_Ok in Hv.
      destruct (IH rp1) as [IH1 IH2]. split.
      * rewrite IH1. split; [intros H a [->|Ha]%elem_of_cons; [by exists n|by apply H]|intros H a Ha; apply H; set_solver].
      * intros rp' H. rewrite (IH2 rp' H). injection E as <-. cbn [rp_consumed].
        assert (Hc : (0 <? n) && (0 <? default 0 (loaded !! (r + 1))) = true ↔ consumes loaded (r, t, d)).
        { unfold consumes. cbn [fst snd]. rewrite andb_true_iff, !Z.ltb_lt. split.
          - intros [Hn Hk]. destruct (loaded !! (r + 1)) as [k|]; [|cbn in Hk; lia]. exists n, k. done.
          - intros (n' & k & Hr' & Hn & -> & Hk). assert (n = n') as -> by
              (destruct Hv as (?&?&?&?&?&H1&_&_&_&<-&_), Hr' as (?&?&?&?&?&H2&_&_&_&<-&_); congruence). done. }
        destruct (_ && _).
        -- split; [|intros _; left; by destruct (rp_consumed rp)].
           intros _. right. exists (r, t, d). split; [set_solver|by apply Hc].
        -- split; [intros [?|(a & Ha & ?)]; [by left|right; exists a; set_solver]|].
           intros [?|(a & [->|Ha]%elem_of_cons & Hcon)]; [by left| |right; by exists a].
           apply Hc in Hcon. done.
    + split; [split; [done|]|done]. intros H. exfalso. destruct (H (r, t, d)) as (n & Hn); [set_solver|].
      unfold add_artifact in E. apply (validate_round_Ok r) in Hn. cbn [snd] in Hn. rewrite Hn in E. discriminate E.
Qed.
End Facts.
End TimingFacts.

Module MatmulResult.

Definition GLOBAL_ROWS : Z := 480.
Definition INNER : Z := 64.
Definition COLUMNS : Z := 64.
(** [INNER * sum(range(1, GLOBAL_ROWS + 1)) * sum(range(1, COLUMNS + 1))] *)
Definition EXPECTED_CHECKSUM : Z := INNER * zsum (seqZ 1 GLOBAL_ROWS) * zsum (seqZ 1 COLUMNS).

Definition MARKER : list piece :=
  [Lit "MATMUL_DP_RESULT verification=ok ranks="; Digits; Lit " global_rows="; Digits; Lit " inner="; Digits;
   Lit " columns="; Digits; Lit " checksum="; Digits; Lit " steady_ns="; Digits].

Definition keys : list string := ["ranks"; "rows"; "inner"; "columns"; "checksum"].
Definition expected (ranks : Z) : list Z := [ranks; GLOBAL_ROWS; INNER; COLUMNS; EXPECTED_CHECKSUM].

(** The mismatches of one marker; the sixth group is not compared. *)
Definition mismatches (ranks : Z) (groups : list Z) : list string :=
  omap (λ kge : string * Z * Z, let '(k, g, e) := kge in
    if g =? e then None else Some (k +:+ "=" +:+ str_of_Z g +:+ " expected=" +:+ str_of_Z e))
    (zip (zip keys groups) (expected ranks)).

Definition check_round (ranks : Z) (round_index : Z) (groups : list Z) : result unit :=
  raise_if (negb (zlen (mismatches ranks groups) =? 0))
    (RuntimeError ("invalid block-GEMM marker in simulation round " +:+ str_of_Z round_index +:+ ": " +:+
                   join ", " (mismatches ranks groups))).

Fixpoint check_rounds (ranks round_index : Z) (parsed : list (list Z)) : result unit :=
  match parsed with
  | [] => Ok ()
  | groups :: rest => _ ← check_round ranks round_index groups; check_rounds ranks (round_index + 1) rest
  end.

Definition report_names : list string := ["ranks"; "global_rows"; "inner"; "columns"; "checksum"; "steady_ns"].

Definition main (ranks : Z) (log : string) : result string :=
  _ ← raise_if ((ranks <? 1) || (35 <? ranks) || negb (GLOBAL_ROWS mod ranks =? 0))
        (ValueError "--ranks must be a supported divisor of 480");
  let parsed := find_all MARKER log in
  result_ ← last parsed ?! RuntimeError "missing MATMUL_DP_RESULT marker";
  _ ← check_rounds ranks 1 parsed;
  Ok ("verification=ok" +:+ nl +:+ "completed_simulation_rounds=" +:+ str_of_Z (zlen parsed) +:+ nl +:+
      join "" ((λ ng : string * Z, ng.1 +:+ "=" +:+ str_of_Z ng.2 +:+ nl) <$> zip report_names result_)).

(** The marker the benchmark prints. *)
Definition marker_text (ranks rows inner columns checksum steady_ns : Z) : string :=
  "MATMUL_DP_RESULT verification=ok ranks=" +:+ str_of_Z ranks +:+ " global_rows=" +:+ str_of_Z rows +:+
  " inner=" +:+ str_of_Z inner +:+ " columns=" +:+ str_of_Z columns +:+ " checksum=" +:+ str_of_Z checksum +:+
  " steady_ns=" +:+ str_of_Z steady_ns.

End MatmulResult.

(** ** Matching printed numbers *)

Lemma span_digits_app d r :
  str_forallb is_digit d = true → (∀ c s, r = String c s → is_digit c = false) → span_digits (d +:+ r) = (d, r).
Proof.
  intros Hd Hr. induction d as [|c d IH]; cbn [str_forallb] in Hd.
  - destruct r as [|c r]; [done|]. cbn. by rewrite (Hr c r).
  - apply andb_prop in Hd as [Hc Hd]. cbn. by rewrite Hc, IH.
Qed.

Lemma str_of_Z_digits n : 0 ≤ n → str_forallb is_digit (str_of_Z n) = true.
Proof. intros Hn. destruct (pretty_Z_cases n) as [[_ ->]|[? _]]; [apply pretty_N_digits|lia]. Qed.

Lemma parse_digits_str n : 0 ≤ n → parse_digits 0 false (str_of_Z n) = Some n.
Proof.
  intros Hn. destruct (pretty_Z_cases n) as [[_ ->]|[? _]]; [|lia].
  rewrite pretty_N_parse. f_equal. by rewrite Z2N.id.
Qed.

Lemma match_digits p n r :
  0 ≤ n → (∀ c s, r = String c s → is_digit c = false) →
  match_pattern (Digits :: p) (str_of_Z n +:+ r)
  = match match_pattern p r with Some (ns, r') => Some (n :: ns, r') | None => None end.
Proof. intros Hn Hr. cbn [match_pattern]. by rewrite span_digits_app, parse_digits_str by (done || by apply str_of_Z_digits). Qed.

Lemma match_lit p t r : match_pattern (Lit t :: p) (t +:+ r) = match_pattern p r.
Proof. cbn [match_pattern]. by rewrite (proj2 (strip_prefix_Some t (t +:+ r) r) eq_refl). Qed.

Section MarkerText.
Import MatmulResult.
Context (a b c d e f : Z) (Hpos : Forall (Z.le 0) [a; b; c; d; e; f]).

(** A printed marker is one match, whatever follows on the next line. *)
Lemma match_marker rest :
  match_pattern MARKER (marker_text a b c d e f +:+ nl +:+ rest) = Some ([a; b; c; d; e; f], nl +:+ rest).
Proof using Hpos.
  repeat (apply Forall_cons in Hpos as [? Hpos]). unfold MARKER, marker_text. rewrite !str_app_assoc.
  repeat (rewrite match_lit, match_digits; [|done|by intros ? ? [= <- _]]). reflexivity.
Qed.
End MarkerText.

(** ** Properties *)

(** A timing-feedback report means what it says.  The validation of a run succeeds exactly
    when some phase-two directory was kept, every kept one is complete (its trace, delay and
    metrics files have the same number of records, and its summary names the ns-3 back end) and
    some non-empty round was followed by a phase one that loaded a positive number of delays. *)
Theorem timing_feedback_validated json_loads path_of listing log :
  let artifacts := Timing.phase_two_directories listing in
  (∀ a, a ∈ artifacts ↔ ∃ d, d ∈ listing ∧ Timing.as_artifact d = Some a) ∧
  (is_ok (Timing.main json_loads path_of listing log) = true ↔
     artifacts ≠ [] ∧ (∀ a, a ∈ artifacts → ∃ n, TimingFacts.complete_round json_loads a.2 n) ∧
     ∃ a, a ∈ artifacts ∧ TimingFacts.consumes json_loads (Timing.load_counts_by_round log) a).
Proof.
  intros artifacts. split.
  - intros a. unfold artifacts, Timing.phase_two_directories. rewrite py_sorted_perm, list_elem_of_omap. done.
  - unfold Timing.main. fold artifacts. destruct (last artifacts) as [latest|] eqn:El.
    2:{ apply last_None in El. rewrite El. cbn. split; [done|by intros [? _]]. }
    cbn [of_option mbind result_bind].
    assert (Hne : artifacts ≠ []) by (intros E; rewrite E in El; done).
    destruct (TimingFacts.add_artifacts json_loads path_of (Timing.load_counts_by_round log) artifacts (Timing.Report [] [])) as [Hall Hcon].
    destruct (fold_result _ _ artifacts) as [rp|e]; cbn [mbind result_bind].
    + specialize (Hcon rp eq_refl). cbn [Timing.rp_consumed] in Hcon.
      destruct (Timing.rp_consumed rp) as [|c l] eqn:Ec.
      * cbn. split; [done|]. intros (_ & _ & a & Ha & Hc). exfalso. by apply (proj2 Hcon); [right; exists a|].
      * replace (zlen (c :: l) =? 0) with false by (symmetry; apply Z.eqb_neq; unfold zlen; cbn [length]; lia).
        cbn. split; [intros _|done]. split; [done|]. split; [by apply Hall|].
        destruct (proj1 Hcon) as [?|?]; done.
    + split; [done|]. intros (_ & H & _). apply Hall in H. discriminate H.
Qed.

(** The five compared numbers of a printed round, and its dispatch time. *)
Abbreviation round_numbers := (Z * Z * Z * Z * Z * Z)%type.

Definition round_text (m : round_numbers) : string :=
  let '(a, b, c, d, e, f) := m in MatmulResult.marker_text a b c d e f +:+ nl.
Definition round_groups (m : round_numbers) : list Z := let '(a, b, c, d, e, f) := m in [a; b; c; d; e; f].

Lemma find_rounds rounds fuel :
  Forall (λ m, Forall (Z.le 0) (round_groups m)) rounds → (2 * length rounds < fuel)%nat →
  scan_go (match_pattern MatmulResult.MARKER) fuel (join "" (round_text <$> rounds)) = round_groups <$> rounds.
Proof.
  intros Hpos. revert fuel. induction Hpos as [|[[[[[a b] c] d] e] f] rounds Hm _ IH]; intros fuel Hf.
  - destruct fuel as [|fuel]; [lia|]. reflexivity.
  - destruct fuel as [|[|fuel]]; [cbn in Hf; lia..|]. rewrite fmap_cons, join_nothing_cons. cbn [round_text].
    rewrite str_app_assoc. cbn [scan_go]. rewrite (match_marker a b c d e f Hm). rewrite fmap_cons. f_equal.
    rewrite <- (IH fuel); [|cbn [length] in Hf; lia]. reflexivity.
Qed.

Lemma rounds_length rounds : (2 * length rounds ≤ str_length (join "" (round_text <$> rounds)))%nat.
Proof.
  induction rounds as [|[[[[[a b] c] d] e] f] rounds IH]; [done|]. rewrite fmap_cons, join_nothing_cons, str_length_app.
  cbn [length round_text MatmulResult.marker_text]. rewrite str_length_app. cbn. lia.
Qed.

Lemma mismatches_nil ranks m :
  MatmulResult.mismatches ranks (round_groups m) = [] ↔ m.1 = (ranks, 480, 64, 64, MatmulResult.EXPECTED_CHECKSUM).
Proof.
  destruct m as [[[[[a b] c] d] e] f]. unfold MatmulResult.mismatches, MatmulResult.expected, MatmulResult.GLOBAL_ROWS, MatmulResult.INNER, MatmulResult.COLUMNS.
  generalize MatmulResult.EXPECTED_CHECKSUM as checksum. intros checksum.
  cbn -[Z.eqb str_of_Z].
  destruct (Z.eqb_spec a ranks), (Z.eqb_spec b 480), (Z.eqb_spec c 64), (Z.eqb_spec d 64), (Z.eqb_spec e checksum);
    split; intros H; try discriminate H; congruence.
Qed.

Lemma check_rounds_ok ranks i rounds :
  is_ok (MatmulResult.check_rounds ranks i (round_groups <$> rounds)) = true ↔
  ∀ m, m ∈ rounds → m.1 = (ranks, 480, 64, 64, MatmulResult.EXPECTED_CHECKSUM).
Proof.
  revert i. induction rounds as [|m rounds IH]; intros i; [split; [set_solver|done]|].
  rewrite fmap_cons. cbn [MatmulResult.check_rounds]. unfold MatmulResult.check_round at 1.
  destruct (MatmulResult.mismatches ranks (round_groups m)) as [|x l] eqn:E.
  - change (is_ok (MatmulResult.check_rounds ranks (i + 1) (round_groups <$> rounds)) = true ↔
      ∀ m', m' ∈ m :: rounds → m'.1 = (ranks, 480, 64, 64, MatmulResult.EXPECTED_CHECKSUM)).
    rewrite IH. apply mismatches_nil in E. split; [intros H m' [->|Hm]%elem_of_cons; [done|by apply H]|intros H m' Hm; apply H; set_solver].
  - replace (zlen (x :: l) =? 0) with false by (symmetry; apply Z.eqb_neq; unfold zlen; cbn [length]; lia).
    cbn. split; [done|]. intros H. assert (Hm := H m ltac:(set_solver)). apply mismatches_nil in Hm. congruence.
Qed.

(** C29: a block-GEMM run is accepted exactly when it is exact.  On a coordinator log made of the
    markers the benchmark prints, validation succeeds exactly when the rank count divides the
    480 rows, there is a marker, and every round reports that rank count, the 480x64x64 shape and
    the exact checksum; the report then gives the number of rounds and the last dispatch time. *)
Theorem matmul_log_validated ranks rounds :
  Forall (λ m, Forall (Z.le 0) (round_groups m)) rounds →
  let log := join "" (round_text <$> rounds) in
  let exact m := m.1 = (ranks, 480, 64, 64, MatmulResult.EXPECTED_CHECKSUM) in
  (is_ok (MatmulResult.main ranks log) = true ↔
     1 ≤ ranks ≤ 35 ∧ 480 mod ranks = 0 ∧ rounds ≠ [] ∧ ∀ m, m ∈ rounds → exact m) ∧
  (∀ report, MatmulResult.main ranks log = Ok report →
     ∃ a b c d e f, last rounds = Some (a, b, c, d, e, f) ∧
       report = join "" ((λ line, line +:+ nl) <$>
         ["verification=ok"; "completed_simulation_rounds=" +:+ str_of_Z (zlen rounds); "ranks=" +:+ str_of_Z a;
          "global_rows=" +:+ str_of_Z b; "inner=" +:+ str_of_Z c; "columns=" +:+ str_of_Z d;
          "checksum=" +:+ str_of_Z e; "steady_ns=" +:+ str_of_Z f])).
Proof.
  intros Hpos log exact.
  assert (Hfind : find_all MatmulResult.MARKER log = round_groups <$> rounds).
  { apply find_rounds; [done|]. pose proof (rounds_length rounds). unfold log. lia. }
  unfold MatmulResult.main. rewrite Hfind, fmap_last. split.
  - destruct ((ranks <? 1) || (35 <? ranks) || negb (MatmulResult.GLOBAL_ROWS mod ranks =? 0)) eqn:Eg; cbn [raise_if mbind result_bind].
    + split; [done|]. intros (H1 & H2 & _). unfold MatmulResult.GLOBAL_ROWS in Eg. rewrite H2 in Eg.
      rewrite (proj2 (Z.ltb_ge ranks 1)), (proj2 (Z.ltb_ge 35 ranks)) in Eg by lia. discriminate Eg.
    + unfold MatmulResult.GLOBAL_ROWS in Eg. bool_facts.
      destruct (last rounds) as [m|] eqn:El; cbn [fmap option_fmap option_map of_option mbind result_bind].
      * pose proof (check_rounds_ok ranks 1 rounds) as Hc. destruct (MatmulResult.check_rounds _ _ _); cbn in Hc |- *.
        -- split; [|done]. intros _. split; [lia|]. split; [done|]. split; [intros ->; discriminate El|by apply Hc].
        -- split; [done|]. intros (_ & _ & _ & Hx). by apply Hc.
      * apply last_None in El. split; [done|]. by intros (_ & _ & ? & _).
  - intros report H. destruct (raise_if _ _) as [u|]; [|done]. cbn [mbind result_bind] in H.
    destruct (last rounds) as [[[[[[a b] c] d] e] f]|]; [|done]. cbn [fmap option_fmap option_map of_option mbind result_bind] in H.
    destruct (MatmulResult.check_rounds _ _ _) as [u'|]; [|done]. cbn [mbind result_bind] in H. injection H as <-.
    exists a, b, c, d, e, f. split; [done|]. unfold zlen. rewrite length_fmap. cbn -[str_of_Z]. by rewrite !str_app_assoc.
Qed.

Lemma matmul_log_validated_witness :
  is_ok (MatmulResult.main 4 (join "" (round_text <$> [(4, 480, 64, 64, MatmulResult.EXPECTED_CHECKSUM, 17)]))) = true.
Proof.
  apply (matmul_log_validated 4 [(4, 480, 64, 64, MatmulResult.EXPECTED_CHECKSUM, 17)]).
  - repeat constructor; vm_compute; discriminate.
  - split; [lia|]. split; [reflexivity|]. split; [discriminate|]. intros m Hm. apply list_elem_of_singleton in Hm as ->. reflexivity.
Defined.
