(* ===== verification/Platform.v ===== *)
(** * The Docker-node platform

    Model of [src/platform/node.py], one node of the 4-CPU plus 8-GPU workload adapter, and of the
    placement and run files of [src/scripts/run_experiments.py].  A node's coroutines talk to
    the other nodes through requests; the replies, the connection attempts and the clocks are a
    [world], and the state records the clock readings taken and the requests sent. *)

From S2P Require Import Prelude PyValue Retry Steady Host.

(** ** Configuration *)

Record profile := Profile {
  pf_label : string;
  pf_rounds : Z;
  pf_input_messages : Z;
  pf_payload_bytes : Z;
  pf_result_bytes : Z;
  pf_cpu_compute_ms : Z;
  pf_gpu_compute_ms : Z;
}.

(** The parts of [config.json] a node reads; [placement] keeps the order of the object. *)
Record config := Config {
  cf_benchmark : string;
  cf_run_id : string;
  cf_container_count : Z;
  cf_placement : list (string * list string);
  cf_proxies : list string;
  cf_output_dir : string;
  cf_bandwidth_mbps : Z;
  cf_propagation_us : Z;
  cf_workload : profile;
}.

(** [load_config]: the serialized configuration of the environment, or else the file. *)
Definition load_config (json_loads : string → result pyval) (serialized : option string) (file : result string) : result pyval :=
  match serialized with
  | Some text => if String.eqb text "" then text ← file; json_loads text else json_loads text
  | None => text ← file; json_loads text
  end.

(** ** Time, requests and errors *)

Record world := World {
  w_connect : nat → string → nat → option ();   (** attempt [i] of request [n] to connect to a host *)
  w_last_error : nat → string → string;         (** the last connection error of a request *)
  w_monotonic : nat → nat → Z;                  (** [time.monotonic] during request [n], in tenths of a second *)
  w_reply : nat → string → pydict → result pydict;  (** the JSON object a host answers request [n] with *)
  w_clock : nat → Z;                            (** successive values of [time.perf_counter_ns] *)
  w_store : string → result unit;               (** making a file's directory and opening the file *)
}.

(** What a node leaves behind: a file or a printed line. *)
Inductive output :=
  | Wrote (path text : string)
  | Printed (line : string).

Record state := State {
  st_reads : nat;                          (** readings taken of the clock *)
  st_sent : list (string * pydict);        (** requests made, oldest first *)
  st_stop : bool;                          (** [stop_event] *)
  st_output : list output;
}.

Definition initial : state := State 0 [] false [].

Definition P (A : Type) : Type := state → state * result A.
#[export] Instance P_ret : MRet P := λ A a s, (s, Ok a).
#[export] Instance P_bind : MBind P := λ A B f m s,
  match m s with (s', Ok a) => f a s' | (s', Err e) => (s', Err e) end.
Definition p_lift {A} (r : result A) : P A := λ s, (s, r).

Definition perf_counter (w : world) : P Z := λ s,
  (State (S (st_reads s)) (st_sent s) (st_stop s) (st_output s), Ok (w_clock w (st_reads s))).

Definition set_stop : P unit := λ s, (State (st_reads s) (st_sent s) true (st_output s), Ok ()).

Definition emit (o : output) : P unit := λ s, (State (st_reads s) (st_sent s) (st_stop s) (st_output s ++ [o]), Ok ()).

Definition record_request (host : string) (payload : pydict) (s : state) : state :=
  State (st_reads s) (st_sent s ++ [(host, payload)]) (st_stop s) (st_output s).

Definition PORT : Z := 7000.

(** The connection loop of [request] number [n]. *)
Definition connection (w : world) (n : nat) (host : string) (timeout : Z) : option (result ()) :=
  let deadline := w_monotonic w n 0 + timeout in
  retry_while (w_connect w n host) (w_monotonic w n) deadline
    (TimeoutError ("Timed out connecting to " +:+ host +:+ ":" +:+ str_of_Z PORT +:+ ": " +:+ w_last_error w n host))
    (retry_fuel (w_monotonic w n 0) deadline) 0.

(** The check of a reply. *)
Definition check_reply (response : pydict) : result pydict :=
  if truthy (dict_get_default "ok" (PBool false) response) then Ok response
  else Err (RuntimeError (py_str (dict_get_default "error" (PStr "remote request failed") response))).

(** [request]: connect before the deadline, send, check the reply.  When the clock of the
    connection loop never reaches the deadline the loop has no end; [request_connects] shows that
    its fuel is enough whenever each attempt takes time. *)
Definition request (w : world) (host : string) (payload : pydict) (timeout : Z) : P pydict := λ s,
  let n := length (st_sent s) in
  (record_request host payload s,
   match connection w n host timeout with
   | None => Err (TimeoutError "the clock stands still")
   | Some (Err e) => Err e
   | Some (Ok _) => response ← w_reply w n host payload; check_reply response
   end).

Definition REQUEST_TIMEOUT : Z := 300.

(** Coroutines run together share no state, so each has a world and a state of its own; the
    first failure, here the task of that index or else the first of the list, is raised. *)
Definition gather {A} (first : nat) (tasks : list (state * result A)) : P (list A) := λ s,
  (State (st_reads s) (st_sent s ++ (tasks ≫= λ t, st_sent t.1)) (st_stop s) (st_output s),
   match tasks !! first with
   | Some (_, Err e) => Err e
   | _ => mapM snd tasks
   end).

(** ** Routing *)

Section Node.
Context (w : world) (c : config) (node_id : Z).

Definition node_name : string := "node" +:+ str_of_Z node_id.

(** [self.roles] *)
Definition roles : list string := default [] (dict_get (str_of_Z node_id) (cf_placement c)).

Fixpoint find_role (role : string) (placement : list (string * list string)) : option string :=
  match placement with
  | [] => None
  | (id, rs) :: rest => if existsb (String.eqb role) rs then Some id else find_role role rest
  end.

Definition host_for_role (role : string) : result string :=
  match find_role role (cf_placement c) with
  | Some id => Ok ("node" +:+ id)
  | None => Err (KeyError ("No Docker node hosts role " +:+ role))
  end.

Definition proxy_for (sequence : Z) : option string :=
  match cf_proxies c with
  | [] => None
  | ps => (λ p, "node" +:+ p) <$> ps !! Z.to_nat (sequence mod zlen ps)
  end.

Definition routed_request (role : string) (payload : pydict) (sequence : Z) : P pydict :=
  target ← p_lift (host_for_role role);
  match proxy_for sequence with
  | None => request w target payload REQUEST_TIMEOUT
  | Some proxy => request w proxy [("op", PStr "forward"); ("target", PStr target); ("payload", PDict payload)] REQUEST_TIMEOUT
  end.

(** The modelled delay and the measured coordination time of one transfer; sleeping only lets
    the clock advance. *)
Definition network_delay (byte_count : Z) (source_role destination_role : string) (sequence : Z) : P (Z * Z) :=
  source ← p_lift (host_for_role source_role);
  destination ← p_lift (host_for_role destination_role);
  if String.eqb source destination then mret (0, 0)
  else
    wait_started ← perf_counter w;
    reply ← routed_request "ns3" [("op", PStr "network_delay"); ("bytes", PInt byte_count)] sequence;
    delay ← p_lift (dict_item "delay_ns" reply);
    delay_ns ← p_lift (int_of delay);
    now ← perf_counter w;
    mret (delay_ns, now - wait_started).

(** ** The simlets *)

(** [self.ns3_delay]: [run] is the ns-3 process, giving its standard output. *)
Definition ns3_delay (run : list string → result string) (byte_count : Z) : result pydict :=
  output ← run ["ns3-delay"; "--bytes=" +:+ str_of_Z byte_count; "--bandwidth-mbps=" +:+ str_of_Z (cf_bandwidth_mbps c);
                "--propagation-us=" +:+ str_of_Z (cf_propagation_us c)];
  n ← py_int_exn (strip output);
  Ok [("delay_ns", PInt n)].

Definition hosts (role : string) : bool := existsb (String.eqb role) roles.

Definition gpu_compute (message : pydict) : result pydict :=
  role ← dict_item "role" message;
  _ ← raise_if (negb (existsb (eq_str role) roles)) (ValueError (node_name +:+ " does not host " +:+ py_str role));
  Ok [("result_bytes", PInt (pf_result_bytes (cf_workload c))); ("role", role)].

(** The two running totals of [run_gpu]. *)
Record totals := Totals { tt_sync : Z; tt_cross : Z }.

(** A timed step: the wait is added to the synchronization time. *)
Definition timed {A} (m : P A) (t : totals) : P (A * totals) :=
  wait_started ← perf_counter w;
  a ← m;
  now ← perf_counter w;
  mret (a, Totals (tt_sync t + (now - wait_started)) (tt_cross t)).

Definition transfer (byte_count : Z) (source_role destination_role : string) (sequence : Z) (t : totals) : P totals :=
  r ← timed (network_delay byte_count source_role destination_role sequence) t;
  mret (Totals (tt_sync r.2) (tt_cross r.2 + r.1.2)).

Fixpoint p_fold {A S} (f : S → A → P S) (s : S) (l : list A) : P S :=
  match l with [] => mret s | x :: r => f s x ≫= λ s', p_fold f s' r end.

(** One round of [run_gpu]; the result of the last round is returned. *)
Definition gpu_round (cpu_role gpu_role : string) (sequence : Z) (st : pydict * totals) (round_index : Z) : P (pydict * totals) :=
  t ← p_fold (λ t i, transfer (pf_payload_bytes (cf_workload c)) cpu_role gpu_role (sequence * 1000 + round_index * 10 + i) t)
        st.2 (seqZ 0 (pf_input_messages (cf_workload c)));
  r ← timed (routed_request gpu_role [("op", PStr "gpu_compute"); ("role", PStr gpu_role)]
               (sequence * 1000 + round_index * 10 + 8)) t;
  t ← transfer (pf_result_bytes (cf_workload c)) gpu_role cpu_role (sequence * 1000 + round_index * 10 + 9) r.2;
  mret (r.1, t).

Definition run_gpu (cpu_role gpu_role : string) (sequence : Z) : P (pydict * totals) :=
  p_fold (gpu_round cpu_role gpu_role sequence) ([], Totals 0 0) (seqZ 0 (pf_rounds (cf_workload c))).

(** [int(cpu_role.removeprefix("cpu"))] *)
Definition cpu_number (cpu_role : string) : result Z :=
  py_int_exn (default cpu_role (strip_prefix "cpu" cpu_role)).

Definition gpu_role (n : Z) : string := "gpu" +:+ str_of_Z n.

End Node.

(** ** The handler of a node *)

Section Handler.
Context (c : config) (node_id : Z).

(** [cpu_workload]: [ws] holds the worlds of the two coroutines it gathers. *)
Definition cpu_workload (ws : nat → world) (first : nat) (message : pydict) : P pydict :=
  role ← p_lift (dict_item "role" message);
  let cpu_role := py_str role in
  _ ← p_lift (raise_if (negb (hosts c node_id cpu_role))
        (ValueError (node_name node_id +:+ " does not host " +:+ cpu_role)));
  cpu_index ← p_lift (cpu_number cpu_role);
  completed_gpus ← gather first
    [run_gpu (ws 0%nat) c cpu_role (gpu_role (cpu_index * 2)) (cpu_index * 2) initial;
     run_gpu (ws 1%nat) c cpu_role (gpu_role (cpu_index * 2 + 1)) (cpu_index * 2 + 1) initial];
  sync ← p_lift (list_max ((λ item, tt_sync item.2) <$> completed_gpus));
  cross ← p_lift (list_max ((λ item, tt_cross item.2) <$> completed_gpus));
  mret [("role", PStr cpu_role); ("synchronization_time_ns", PInt sync); ("cross_machine_time_ns", PInt cross);
        ("gpu_results", PList ((λ item, PDict item.1) <$> completed_gpus))].

(** [dict(v)] of what a peer sends as a payload; a sequence of pairs is not accepted here. *)
Definition dict_of (v : pyval) : result pydict := is_dict v ?! TypeError.

Definition dispatch (w : world) (ws : nat → world) (first : nat) (run : list string → result string)
    (message : pydict) : P pydict :=
  operation ← p_lift (dict_item "op" message);
  if eq_str operation "forward" then
    target ← p_lift (dict_item "target" message);
    v ← p_lift (dict_item "payload" message);
    payload ← p_lift (dict_of v);
    request w (py_str target) payload REQUEST_TIMEOUT
  else if eq_str operation "network_delay" then
    v ← p_lift (dict_item "bytes" message);
    n ← p_lift (int_of v);
    p_lift (ns3_delay c run n)
  else if eq_str operation "gpu_compute" then p_lift (gpu_compute c node_id message)
  else if eq_str operation "cpu_workload" then cpu_workload ws first message
  else if eq_str operation "shutdown" then
    _ ← set_stop;
    mret [("stopping", PStr (node_name node_id))]
  else p_lift (Err (ValueError ("Unsupported operation: " +:+ py_str operation))).

(** [handle]: the object the peer is answered with, whatever the request was. *)
Definition handle (json_loads : string → result pyval) (w : world) (ws : nat → world) (first : nat)
    (run : list string → result string) (raw : string) : state → state * pydict := λ s,
  let served :=
    text ← p_lift (decode_ascii raw);
    value ← p_lift (json_loads text);
    message ← p_lift (is_dict value ?! TypeError);
    dispatch w ws first run message in
  match served s with
  | (s', Ok response) => (s', dict_update [("ok", PBool true)] response)
  | (s', Err e) => (s', [("ok", PBool false); ("error", PStr (exn_str e))])
  end.

(** ** The controller *)

Definition int_item (k : string) (reply : pydict) : result Z :=
  v ← dict_item k reply; is_int v ?! TypeError.

Definition CPU_ROLES : list string := ["cpu0"; "cpu1"; "cpu2"; "cpu3"].

(** [OSError] and its subclasses. *)
Definition is_os_error (e : exn) : bool :=
  match e with OSError _ | TimeoutError _ | FileNotFoundError _ => true | _ => false end.

Definition shutdown_peer (w : world) (id : string) : P unit :=
  n ← p_lift (py_int_exn id);
  if n =? node_id then mret ()
  else λ s, match request w ("node" +:+ id) [("op", PStr "shutdown")] 30 s with
            | (s', Ok _) => (s', Ok ())
            | (s', Err e) => (s', if is_os_error e then Ok () else Err e)
            end.

Fixpoint shutdown_peers (w : world) (ids : list string) : P unit :=
  match ids with
  | [] => mret ()
  | id :: rest => shutdown_peer w id ≫= λ _, shutdown_peers w rest
  end.

(** The sample; [float_div] is the division of two integers to a float. *)
Definition measurement (float_div : Z → Z → result pyval) (completed : list pydict) (total : Z) : result pydict :=
  syncs ← mapM (int_item "synchronization_time_ns") completed;
  sync ← list_max syncs;
  crosses ← mapM (int_item "cross_machine_time_ns") completed;
  cross ← list_max crosses;
  fraction ← float_div sync total;
  Ok [("benchmark", PStr (cf_benchmark c)); ("container_count", PInt (cf_container_count c));
      ("total_time_ns", PInt total); ("synchronization_time_ns", PInt sync);
      ("cross_machine_time_ns", PInt cross); ("synchronization_fraction", fraction);
      ("cpu_results", PList (PDict <$> completed))].

Definition MARKER : string := "MEASUREMENT_JSON=".

Definition measurement_path : string := cf_output_dir c +:+ "/measurement-" +:+ cf_run_id c +:+ ".json".

Definition cpu_task (ws : nat → world) (item : Z * string) : state * result pydict :=
  let '(index, role) := item in
  routed_request (ws (Z.to_nat index)) c role [("op", PStr "cpu_workload"); ("role", PStr role)] index initial.

Definition run_controller (float_div : Z → Z → result pyval) (w : world) (ws : nat → world) (first : nat) : P unit :=
  started ← perf_counter w;
  completed_cpus ← gather first (cpu_task ws <$> enumerate CPU_ROLES);
  finished ← perf_counter w;
  sample ← p_lift (measurement float_div completed_cpus (finished - started));
  _ ← p_lift (w_store w measurement_path);
  _ ← emit (Wrote measurement_path (json_indent 0 (PDict sample)));
  _ ← emit (Printed (MARKER +:+ json_dumps (PDict sample)));
  _ ← shutdown_peers w (cf_placement c).*1;
  set_stop.

(** [run]: the node ends when [stop_event] is set; the node with cpu0 starts the controller. *)
Definition is_controller : bool := hosts c node_id "cpu0".
Definition node_ends (s : state) : bool := st_stop s.

End Handler.

(** ** Laws of the monad *)

Lemma P_bind_Ok {A B} (m : P A) (f : A → P B) s s' b :
  (m ≫= f) s = (s', Ok b) ↔ ∃ s1 a, m s = (s1, Ok a) ∧ f a s1 = (s', Ok b).
Proof. unfold mbind, P_bind. destruct (m s) as [s1 [a|e]]; naive_solver. Qed.

Lemma p_lift_Ok {A} (r : result A) s s' a : p_lift r s = (s', Ok a) ↔ s' = s ∧ r = Ok a.
Proof. unfold p_lift. naive_solver. Qed.

Lemma p_ret_Ok {A} (a b : A) s s' : (mret a : P A) s = (s', Ok b) ↔ s' = s ∧ a = b.
Proof. unfold mret, P_ret. naive_solver. Qed.

Ltac p_inv :=
  repeat match goal with
  | H : (_ ≫= _) _ = (_, Ok _) |- _ =>
      let s := fresh "s" in let a := fresh "a" in let Hm := fresh "Hm" in
      apply P_bind_Ok in H; destruct H as (s & a & Hm & H)
  | H : p_lift _ _ = (_, Ok _) |- _ =>
      let Hr := fresh "Hr" in apply p_lift_Ok in H; destruct H as [-> Hr]
  | H : mret _ _ = (_, Ok _) |- _ => apply p_ret_Ok in H; destruct H as [-> H]; simplify_eq
  end.

Lemma p_fold_inv {A S} (f : S → A → P S) (I : state → S → Prop) l x s s' y :
  p_fold f x l s = (s', Ok y) → I s x →
  (∀ a x1 s1 s2 x2, a ∈ l → I s1 x1 → f x1 a s1 = (s2, Ok x2) → I s2 x2) → I s' y.
Proof.
  revert x s. induction l as [|a l IH]; intros x s H Hi Hstep; cbn [p_fold] in H; p_inv; [done|].
  eapply IH; [exact H| |].
  - eapply (Hstep a); [set_solver|exact Hi|exact Hm].
  - intros a' x1 s1 s2 x2 Hin. apply Hstep. set_solver.
Qed.

Lemma gather_Ok {A} first (tasks : list (state * result A)) s s' l :
  gather first tasks s = (s', Ok l) → st_reads s' = st_reads s ∧ Forall2 (λ t a, t.2 = Ok a) tasks l.
Proof.
  unfold gather. intros [= <- H]. split; [done|].
  assert (Hm : mapM snd tasks = Ok l) by (destruct (tasks !! first) as [[? [?|?]]|]; done).
  by apply mapM_result_Ok in Hm.
Qed.

(** ** Time *)

Definition time (w : world) (s : state) : Z := w_clock w (st_reads s).

(** The clock never goes back. *)
Definition monotone (w : world) : Prop := ∀ i, w_clock w i ≤ w_clock w (S i).

Lemma request_reads w host payload timeout s : st_reads (request w host payload timeout s).1 = st_reads s.
Proof. done. Qed.

Lemma routed_request_reads w c role payload sequence s s' a :
  routed_request w c role payload sequence s = (s', Ok a) → st_reads s' = st_reads s.
Proof.
  unfold routed_request. intros H. p_inv.
  destruct (proxy_for c sequence); match type of H with ?m s = _ => assert (Hs : s' = (m s).1) by (by rewrite H) end;
    by rewrite Hs, request_reads.
Qed.

Lemma perf_counter_Ok w s s' a :
  perf_counter w s = (s', Ok a) → a = time w s ∧ st_reads s' = S (st_reads s).
Proof. by intros [= <- <-]. Qed.

Section Time.
Context (w : world) (Hmono : monotone w).

Lemma network_delay_time c bytes source destination sequence s s' d wait :
  network_delay w c bytes source destination sequence s = (s', Ok (d, wait)) →
  0 ≤ wait ≤ time w s' - time w s ∧
  (host_for_role c source = host_for_role c destination → d = 0 ∧ wait = 0 ∧ s' = s).
Proof using Hmono.
  unfold network_delay. intros H. p_inv.
  destruct (String.eqb_spec a a0) as [->|Hne].
  - p_inv. split; [lia|done].
  - p_inv. apply perf_counter_Ok in Hm as [-> H1], Hm3 as [-> H3].
    apply routed_request_reads in Hm0. split; [|congruence]. unfold time. rewrite H3, Hm0, H1. pose proof (Hmono (st_reads s)). pose proof (Hmono (S (st_reads s))). lia.
Qed.

(** The wait added is the time the step took, within the time of the whole. *)
Lemma timed_time {A} (m : P A) t s s' a t' :
  timed w m t s = (s', Ok (a, t')) →
  ∃ s1 s2 d, m s1 = (s2, Ok a) ∧ t' = Totals (tt_sync t + d) (tt_cross t) ∧
    time w s ≤ time w s1 ∧ time w s2 - time w s1 ≤ d ∧ time w s + d ≤ time w s'.
Proof using Hmono.
  unfold timed. intros H. p_inv.
  apply perf_counter_Ok in Hm as [-> H1], Hm1 as [-> H2].
  eexists _, _, _. split; [exact Hm0|]. split; [done|]. unfold time. rewrite H1, H2.
  pose proof (Hmono (st_reads s)). pose proof (Hmono (st_reads s1)). lia.
Qed.

(** The totals stay within the time since [s0]. *)
Definition within (s0 s : state) (t : totals) : Prop :=
  0 ≤ tt_cross t ≤ tt_sync t ∧ tt_sync t ≤ time w s - time w s0.

Lemma transfer_within c bytes source destination sequence t s0 s s' t' :
  transfer w c bytes source destination sequence t s = (s', Ok t') → within s0 s t → within s0 s' t'.
Proof using Hmono.
  unfold transfer, within. intros H Hin. p_inv. destruct a as [[d wait] t1].
  apply timed_time in Hm as (u1 & u2 & d' & Hn & -> & ? & ? & ?).
  apply network_delay_time in Hn as [? _]. cbn [fst snd tt_sync tt_cross] in *. lia.
Qed.

Lemma request_within c role payload sequence t s0 s s' r :
  timed w (routed_request w c role payload sequence) t s = (s', Ok r) → within s0 s t → within s0 s' r.2.
Proof using Hmono.
  unfold within. intros H Hin. destruct r as [a t'].
  apply timed_time in H as (u1 & u2 & d' & Hn & -> & ? & ? & ?).
  apply routed_request_reads in Hn. unfold time in *. rewrite Hn in *. cbn [snd tt_sync tt_cross] in *. lia.
Qed.

Lemma run_gpu_within c cpu gpu sequence s s' r :
  run_gpu w c cpu gpu sequence s = (s', Ok r) → within s s' r.2.
Proof using Hmono.
  unfold run_gpu. intros H. apply (p_fold_inv _ (λ s1 x, within s s1 x.2)) in H; [done| |].
  - unfold within. cbn [snd tt_sync tt_cross]. lia.
  - intros i [x1 t1] s1 s2 [x2 t2] _ Hin Hr. unfold gpu_round in Hr. p_inv.
    cbn [snd fst] in *. eapply transfer_within; [exact Hm1|]. eapply request_within; [exact Hm0|].
    eapply (p_fold_inv _ (within s)) in Hm; [exact Hm|exact Hin|].
    intros j t3 u3 u4 t4 _ Hw Ht. eapply transfer_within; [exact Ht|exact Hw].
Qed.

(** Between roles of one node nothing counts as cross-machine time. *)
Lemma transfer_local c bytes source destination sequence t s s' t' :
  host_for_role c source = host_for_role c destination →
  transfer w c bytes source destination sequence t s = (s', Ok t') → tt_cross t' = tt_cross t.
Proof using Hmono.
  unfold transfer. intros Hc H. p_inv. destruct a as [[d wait] t1].
  apply timed_time in Hm as (u1 & u2 & d' & Hn & -> & _).
  apply network_delay_time in Hn as [_ Hn]. destruct (Hn Hc) as (_ & -> & _). cbn [fst snd tt_cross]. lia.
Qed.

Lemma run_gpu_local c cpu gpu sequence s s' r :
  host_for_role c cpu = host_for_role c gpu → run_gpu w c cpu gpu sequence s = (s', Ok r) → tt_cross r.2 = 0.
Proof using Hmono.
  intros Hc H. apply (p_fold_inv _ (λ _ x, tt_cross x.2 = 0)) in H; [done|done|].
  intros i [x1 t1] s1 s2 [x2 t2] _ Hin Hr. unfold gpu_round in Hr. p_inv. cbn [snd fst] in *.
  apply transfer_local in Hm1 as ->; [|done]. destruct a0 as [rep t3].
  apply timed_time in Hm0 as (u1 & u2 & d' & _ & -> & _). cbn [snd tt_cross].
  eapply (p_fold_inv _ (λ _ x, tt_cross x = 0)) in Hm; [exact Hm|exact Hin|].
  intros j t4 u3 u4 t5 _ Hw Ht. by apply transfer_local in Ht as ->.
Qed.

End Time.

(** ** One CPU simlet *)

Lemma list_max_Ok l m : list_max l = Ok m → m ∈ l ∧ ∀ x, x ∈ l → x ≤ m.
Proof.
  destruct l as [|x l]; [done|]. intros [= <-]. revert x. induction l as [|y l IH]; intros x; cbn [foldl]; [set_solver by lia|].
  destruct (IH (Z.max x y)) as [Hin Hle]. split.
  - apply elem_of_cons in Hin as [->|?]; [|set_solver]. destruct (Z.max_spec x y) as [[_ ->]|[_ ->]]; set_solver.
  - intros z [->|[->|?]%elem_of_cons]%elem_of_cons; [|pose proof (Hle (Z.max x y) ltac:(set_solver)); lia|apply Hle; set_solver].
    pose proof (Hle (Z.max x y) ltac:(set_solver)). lia.
Qed.

(** The roles a CPU simlet drives live on its own node. *)
Definition colocated (c : config) (cpu_role : string) : Prop :=
  ∀ n k, cpu_number cpu_role = Ok n → k = 0 ∨ k = 1 → host_for_role c cpu_role = host_for_role c (gpu_role (n * 2 + k)).

(** The clock of the coroutines never goes back and stays between [lo] and [hi]. *)
Definition clocked (ws : nat → world) (lo hi : Z) : Prop :=
  ∀ k, monotone (ws k) ∧ ∀ i, lo ≤ w_clock (ws k) i ≤ hi.

Lemma run_gpu_bounds w c cpu gpu sequence s' r lo hi :
  monotone w → (∀ i, lo ≤ w_clock w i ≤ hi) → run_gpu w c cpu gpu sequence initial = (s', Ok r) →
  0 ≤ tt_cross r.2 ≤ tt_sync r.2 ∧ tt_sync r.2 ≤ hi - lo.
Proof.
  intros Hmono Hr H. apply run_gpu_within in H as [? H]; [|done]. split; [done|].
  unfold time in H. pose proof (Hr (st_reads s')). pose proof (Hr (st_reads initial)). lia.
Qed.

Lemma cpu_workload_bounds c id ws first role s s' r lo hi :
  clocked ws lo hi → cpu_workload c id ws first [("op", PStr "cpu_workload"); ("role", PStr role)] s = (s', Ok r) →
  ∃ sync cross results,
    r = [("role", PStr role); ("synchronization_time_ns", PInt sync); ("cross_machine_time_ns", PInt cross); ("gpu_results", results)] ∧
    0 ≤ cross ≤ sync ∧ sync ≤ hi - lo ∧ (colocated c role → cross = 0).
Proof.
  intros Hc H. unfold cpu_workload in H. p_inv. cbn in Hr3. injection Hr3 as <-. cbn [py_str] in *.
  apply gather_Ok in Hm2 as [_ Hall]. apply Forall2_cons_inv_l in Hall as (r0 & l & H0 & Hall & ->).
  apply Forall2_cons_inv_l in Hall as (r1 & l' & H1 & Hall & ->). apply Forall2_nil_inv_l in Hall as ->.
  assert (Hb : ∀ k gpu seq r2, (run_gpu (ws k) c role gpu seq initial).2 = Ok r2 →
            0 ≤ tt_cross r2.2 ≤ tt_sync r2.2 ∧ tt_sync r2.2 ≤ hi - lo ∧
            (host_for_role c role = host_for_role c gpu → tt_cross r2.2 = 0)).
  { intros k gpu seq r2 Hrun. destruct (Hc k) as [Hm Hk]. destruct (run_gpu (ws k) c role gpu seq initial) as [u o] eqn:E. cbn [snd] in Hrun. subst o.
    split_and!; [by eapply run_gpu_bounds..|]. intros Hh. by eapply run_gpu_local. }
  pose proof (Hb _ _ _ _ H0) as (C0 & S0 & L0). pose proof (Hb _ _ _ _ H1) as (C1 & S1 & L1).
  cbn [fmap list_fmap] in *. injection Hr0 as <-. injection Hr as <-. cbn [foldl].
  eexists _, _, _. split; [done|]. split; [lia|]. split; [lia|]. intros Hcol.
  rewrite L0, L1; [done| |]; [by apply (Hcol _ 1); auto|].
  rewrite <- (Z.add_0_r (_ * 2)). by apply (Hcol _ 0); auto.
Qed.

(** ** Properties *)

(** A connection is made or given up after finitely many attempts. *)
Lemma request_connects w n host timeout :
  advances (w_monotonic w n) →
  (∃ j, connection w n host timeout = Some (Ok ()) ∧ first_success (w_connect w n host) 0 j () ∧
     w_monotonic w n j < w_monotonic w n 0 + timeout) ∨
  (∃ e, connection w n host timeout = Some (Err e) ∧ is_os_error e = true).
Proof.
  intros Hadv. unfold connection.
  destruct (retry_while_total (w_connect w n host) (w_monotonic w n) (w_monotonic w n 0 + timeout)
    (TimeoutError ("Timed out connecting to " +:+ host +:+ ":" +:+ str_of_Z PORT +:+ ": " +:+ w_last_error w n host)) Hadv
    (retry_fuel (w_monotonic w n 0) (w_monotonic w n 0 + timeout)) 0) as [([] & j & -> & ? & ?)|(j & -> & _)];
    [unfold retry_fuel; lia|left; eauto|right; eauto].
Qed.

(** A reply of a CPU simlet of [c] that worked between the times [lo] and [hi]. *)
Definition served_by (c : config) (lo hi : Z) (reply : pydict) : Prop :=
  ∃ id ws first role s s' r, role ∈ CPU_ROLES ∧ clocked ws lo hi ∧
    cpu_workload c id ws first [("op", PStr "cpu_workload"); ("role", PStr role)] s = (s', Ok r) ∧
    reply = dict_update [("ok", PBool true)] r.

Lemma served_by_times c lo hi reply :
  served_by c lo hi reply →
  ∃ sync cross, int_item "synchronization_time_ns" reply = Ok sync ∧ int_item "cross_machine_time_ns" reply = Ok cross ∧
    0 ≤ cross ≤ sync ∧ sync ≤ hi - lo ∧ ((∀ role, role ∈ CPU_ROLES → colocated c role) → cross = 0).
Proof.
  intros (id & ws & first & role & s & s' & r & Hrole & Hc & H & ->).
  apply (cpu_workload_bounds _ _ _ _ _ _ _ _ lo hi) in H as (sync & cross & results & -> & ? & ? & Hcol); [|done].
  exists sync, cross. split; [done|]. split; [done|]. split; [done|]. split; [done|]. intros Hall. auto.
Qed.

(** The largest of the values a fallible function gives on a list. *)
Lemma mapM_list_max {A} (f : A → result Z) l ys m :
  mapM f l = Ok ys → list_max ys = Ok m →
  (∃ x, x ∈ l ∧ f x = Ok m) ∧ ∀ x z, x ∈ l → f x = Ok z → z ≤ m.
Proof.
  intros Hl%mapM_result_Ok [Hin Hmax]%list_max_Ok. split.
  - apply list_elem_of_lookup in Hin as [i Hi]. destruct (Forall2_lookup_r _ _ _ _ _ Hl Hi) as (x & Hx & Hf).
    exists x. split; [by eapply list_elem_of_lookup_2|done].
  - intros x z [j Hj]%list_elem_of_lookup Hz. destruct (Forall2_lookup_l _ _ _ _ _ Hl Hj) as (y & Hy & Hf).
    rewrite Hf in Hz. injection Hz as <-. apply Hmax. by eapply list_elem_of_lookup_2.
Qed.

(** C30: the times of a sample are ordered: when every CPU simlet answered from work done between
    the controller's two clock readings, and no clock goes back, then
    0 <= cross-machine time <= synchronization time <= total time, so that the reported
    synchronization fraction is between 0 and 1; and when every CPU simlet shares its node with the
    two GPU simlets it drives the cross-machine time is exactly zero. *)
Theorem measurement_bounds c float_div completed started total sample :
  Forall (served_by c started (started + total)) completed → measurement c float_div completed total = Ok sample →
  ∃ sync cross, dict_get "total_time_ns" sample = Some (PInt total) ∧
    dict_get "synchronization_time_ns" sample = Some (PInt sync) ∧
    dict_get "cross_machine_time_ns" sample = Some (PInt cross) ∧
    0 ≤ cross ≤ sync ∧ sync ≤ total ∧ ((∀ role, role ∈ CPU_ROLES → colocated c role) → cross = 0).
Proof.
  intros Hs H. unfold measurement in H. result_inv. eexists _, _. do 3 (split; [done|]).
  destruct (mapM_list_max _ _ _ _ Ha Ha0) as [(r1 & Hin1 & Hr1) Hmax].
  destruct (mapM_list_max _ _ _ _ Ha1 Ha2) as [(r2 & Hin2 & Hr2) _].
  rewrite Forall_forall in Hs.
  destruct (served_by_times _ _ _ _ (Hs _ Hin1)) as (sync1 & cross1 & Hs1 & _ & _ & Hle1 & _).
  destruct (served_by_times _ _ _ _ (Hs _ Hin2)) as (sync2 & cross2 & Hs2 & Hc2 & ? & ? & Hcol).
  rewrite Hr1 in Hs1. injection Hs1 as <-. rewrite Hr2 in Hc2. injection Hc2 as <-.
  pose proof (Hmax _ _ Hin2 Hs2). split; [lia|]. split; [lia|done].
Qed.

(** ** Replies *)

(** The shape of every reply: distinct keys, [ok] first. *)
Definition reply_shape (reply : pydict) : Prop :=
  NoDup reply.*1 ∧ ∃ v rest, reply = ("ok", v) :: rest.

(** Marking a reply that is marked already changes nothing. *)
Lemma dict_update_same {A} k (v w : A) rest : NoDup ((k, v) :: rest).*1 → dict_update [(k, w)] ((k, v) :: rest) = (k, v) :: rest.
Proof.
  intros Hd. unfold dict_update. cbn [foldl fst snd dict_set]. rewrite String.eqb_refl.
  by apply (dict_update_fresh [(k, v)] rest).
Qed.

Lemma handle_shape c id json_loads w ws first run raw s : reply_shape (handle c id json_loads w ws first run raw s).2.
Proof.
  unfold handle. match goal with |- context [match ?m with _ => _ end] => destruct m as [s' [response|e]] end; cbn [snd].
  - split; [apply dict_update_NoDup, NoDup_singleton|apply dict_update_head].
  - split; [|eauto]. apply NoDup_cons. split; [set_solver|apply NoDup_singleton].
Qed.

Definition forward_message (target : string) (payload : pydict) : pydict :=
  [("op", PStr "forward"); ("target", PStr target); ("payload", PDict payload)].

Lemma dispatch_forward c id w ws first run target payload s :
  dispatch c id w ws first run (forward_message target payload) s = request w target payload REQUEST_TIMEOUT s.
Proof. reflexivity. Qed.

(** What [handle] makes of a request it can decode. *)
Lemma handle_decoded c id json_loads w ws first run raw text message s :
  decode_ascii raw = Ok text → json_loads text = Ok (PDict message) →
  handle c id json_loads w ws first run raw s =
    match dispatch c id w ws first run message s with
    | (s', Ok response) => (s', dict_update [("ok", PBool true)] response)
    | (s', Err e) => (s', [("ok", PBool false); ("error", PStr (exn_str e))])
    end.
Proof. intros Hraw Hjson. unfold handle, mbind, P_bind, p_lift. by rewrite Hraw, Hjson. Qed.

(** What the proxy answers from the reply of the target. *)
Lemma handle_forward c id json_loads w ws first run raw text target payload reply s :
  decode_ascii raw = Ok text → json_loads text = Ok (PDict (forward_message target payload)) →
  connection w (length (st_sent s)) target REQUEST_TIMEOUT = Some (Ok ()) →
  w_reply w (length (st_sent s)) target payload = Ok reply → reply_shape reply →
  (handle c id json_loads w ws first run raw s).2 =
    match check_reply reply with Ok r => r | Err e => [("ok", PBool false); ("error", PStr (exn_str e))] end.
Proof.
  intros Hraw Hjson Hcon Hreply [Hnd (v & rest & ->)].
  rewrite (handle_decoded _ _ _ _ _ _ _ _ _ _ _ Hraw Hjson), dispatch_forward. unfold request. rewrite Hcon, Hreply.
  cbn [mbind result_bind]. unfold check_reply. destruct (truthy _); cbn [snd]; [|done].
  by apply dict_update_same.
Qed.

Lemma check_reply_forwarded reply :
  check_reply (match check_reply reply with Ok r => r | Err e => [("ok", PBool false); ("error", PStr (exn_str e))] end)
  = check_reply reply.
Proof.
  unfold check_reply at 2 3. destruct (truthy (dict_get_default "ok" (PBool false) reply)) eqn:E; [|done].
  unfold check_reply. by rewrite E.
Qed.

(** ** Shutting down *)

(** [m] neither sets nor clears [stop_event]. *)
Definition keeps_stop {A} (m : P A) : Prop := ∀ s, st_stop (m s).1 = st_stop s.

Lemma keeps_stop_bind {A B} (m : P A) (f : A → P B) : keeps_stop m → (∀ a, keeps_stop (f a)) → keeps_stop (m ≫= f).
Proof.
  intros Hm Hf s. unfold mbind, P_bind. specialize (Hm s). destruct (m s) as [s' [a|e]]; [|done].
  by rewrite (Hf a s').
Qed.

Lemma keeps_stop_lift {A} (r : result A) : keeps_stop (p_lift r).
Proof. done. Qed.

Lemma keeps_stop_ret {A} (a : A) : keeps_stop (mret a).
Proof. done. Qed.

Lemma keeps_stop_request w host payload timeout : keeps_stop (request w host payload timeout).
Proof. done. Qed.

Lemma keeps_stop_gather {A} first (tasks : list (state * result A)) : keeps_stop (gather first tasks).
Proof. done. Qed.

Create HintDb platform.
#[export] Hint Resolve keeps_stop_bind keeps_stop_lift keeps_stop_ret keeps_stop_request keeps_stop_gather : platform.

Lemma cpu_workload_stop c id ws first message : keeps_stop (cpu_workload c id ws first message).
Proof. unfold cpu_workload. auto 20 with platform. Qed.

Definition is_shutdown (message : pydict) : bool :=
  match dict_get "op" message with Some v => eq_str v "shutdown" | None => false end.

Lemma dispatch_stop c id w ws first run message s :
  st_stop (dispatch c id w ws first run message s).1 = st_stop s || is_shutdown message.
Proof.
  unfold is_shutdown. destruct (dict_get "op" message) as [v|] eqn:Hop.
  2:{ unfold dispatch, dict_item, mbind, P_bind, p_lift. rewrite Hop. cbn. by rewrite orb_false_r. }
  assert (Hs : dispatch c id w ws first run message s =
    (if eq_str v "shutdown" then (set_stop ≫= λ _, mret [("stopping", PStr (node_name id))]) s
     else dispatch c id w ws first run message s)).
  { destruct (eq_str v "shutdown") eqn:E; [|done]. destruct v as [| | | |t| |]; try done.
    apply String.eqb_eq in E as ->. unfold dispatch, dict_item, mbind, P_bind, p_lift. rewrite Hop. reflexivity. }
  destruct (eq_str v "shutdown") eqn:E; [rewrite Hs; cbn; by rewrite orb_true_r|].
  rewrite orb_false_r. clear Hs. revert s. change (keeps_stop (dispatch c id w ws first run message)).
  unfold dispatch, dict_item. rewrite Hop. intros s. cbn [of_option]. unfold mbind at 1, P_bind at 1, p_lift at 1.
  rewrite E. repeat case_match; try done; revert s; apply keeps_stop_bind; auto 10 with platform.
Qed.

(** A request sets [stop_event] exactly when it is a shutdown request. *)
Lemma handle_stop c id json_loads w ws first run raw text message s :
  decode_ascii raw = Ok text → json_loads text = Ok (PDict message) →
  st_stop (handle c id json_loads w ws first run raw s).1 = st_stop s || is_shutdown message.
Proof.
  intros Hraw Hjson. rewrite (handle_decoded _ _ _ _ _ _ _ _ _ _ _ Hraw Hjson), <- (dispatch_stop c id w ws first run).
  by destruct (dispatch _ _ _ _ _ _ _ _) as [s' [?|?]].
Qed.

(** [m] sets [stop_event] exactly when it succeeds. *)
Definition stops_at_end (m : P unit) : Prop :=
  ∀ s, match m s with (s', Ok _) => st_stop s' = true | (s', Err _) => st_stop s' = st_stop s end.

Lemma stops_bind {A} (m : P A) (f : A → P unit) : keeps_stop m → (∀ a, stops_at_end (f a)) → stops_at_end (m ≫= f).
Proof.
  intros Hm Hf s. unfold mbind, P_bind. specialize (Hm s). destruct (m s) as [s1 [a|e]]; [|done].
  specialize (Hf a s1). destruct (f a s1) as [s2 [u|e]]; [done|]. by rewrite Hf.
Qed.

Lemma keeps_stop_shutdown id w peer : keeps_stop (shutdown_peer id w peer).
Proof.
  apply keeps_stop_bind; [done|]. intros n. destruct (n =? id); [done|]. intros s.
  destruct (request _ _ _ _ s) as [s' [u|e]] eqn:E; cbn; by rewrite <- (keeps_stop_request w ("node" +:+ peer) [("op", PStr "shutdown")] 30 s), E.
Qed.

Lemma keeps_stop_shutdowns id w peers : keeps_stop (shutdown_peers id w peers).
Proof. induction peers as [|peer peers IH]; [done|]. apply keeps_stop_bind; [apply keeps_stop_shutdown|done]. Qed.

Lemma keeps_stop_clock w : keeps_stop (perf_counter w).
Proof. done. Qed.

Lemma keeps_stop_emit o : keeps_stop (emit o).
Proof. done. Qed.

#[export] Hint Resolve keeps_stop_shutdowns keeps_stop_clock keeps_stop_emit : platform.

Lemma run_controller_stops c id float_div w ws first : stops_at_end (run_controller c id float_div w ws first).
Proof.
  unfold run_controller. repeat (apply stops_bind; [solve [auto with platform]|intros ?]). done.
Qed.

Definition shutdown_request (peer : string) : string * pydict := ("node" +:+ peer, [("op", PStr "shutdown")]).

(** The peers of a node, by the number their name stands for. *)
Definition is_peer (id : Z) (peer : string) : bool := match py_int peer with Some n => negb (n =? id) | None => false end.

Lemma shutdown_peers_sent id w peers s s' :
  shutdown_peers id w peers s = (s', Ok ()) →
  st_sent s' = st_sent s ++ (shutdown_request <$> filter (λ p, is_peer id p = true) peers) ∧ st_output s' = st_output s.
Proof.
  revert s. induction peers as [|peer peers IH]; intros s H; cbn [shutdown_peers] in H; p_inv; [by rewrite app_nil_r|].
  apply IH in H as [-> ->]. unfold shutdown_peer, py_int_exn in Hm. p_inv. rewrite filter_cons.
  assert (Hp : is_peer id peer = negb (a0 =? id)) by (unfold is_peer; by rewrite (proj1 (of_option_Ok _ _ _) Hr)).
  rewrite Hp. destruct (a0 =? id) eqn:E; cbn [negb].
  - p_inv. done.
  - cbn [decide decide_rel]. rewrite decide_True by done. destruct (request _ _ _ _ _) as [s1 [u|e]] eqn:Hq.
    all: unfold request in Hq; injection Hq as <- _; injection Hm as <- _; cbn [record_request st_sent st_output].
    all: by rewrite <- app_assoc.
Qed.

Lemma mapM_Err {A B} (f : A → result B) l : Exists (λ x, is_ok (f x) = false) l → ∃ e, mapM f l = Err e.
Proof.
  intros Hex. destruct (mapM f l) as [k|e] eqn:E; [|eauto]. exfalso.
  apply mapM_result_Ok in E. apply Exists_exists in Hex as (x & [i Hi]%list_elem_of_lookup & Hx).
  destruct (Forall2_lookup_l _ _ _ _ _ E Hi) as (y & _ & Hy). by rewrite Hy in Hx.
Qed.

Lemma gather_Err {A} first (tasks : list (state * result A)) s :
  Exists (λ t, is_ok t.2 = false) tasks → ∃ e, (gather first tasks s).2 = Err e.
Proof.
  intros Hex. unfold gather. cbn [snd]. destruct (tasks !! first) as [[u [a|e]]|]; eauto; by apply mapM_Err.
Qed.

Lemma run_controller_fails c id float_div w ws first s :
  Exists (λ t, is_ok t.2 = false) (cpu_task c ws <$> enumerate CPU_ROLES) →
  ∃ e, run_controller c id float_div w ws first s =
    (State (S (st_reads s)) (st_sent s ++ ((cpu_task c ws <$> enumerate CPU_ROLES) ≫= λ t, st_sent t.1)) (st_stop s) (st_output s), Err e).
Proof.
  intros Hex. unfold run_controller. generalize dependent (cpu_task c ws <$> enumerate CPU_ROLES). intros tasks Hex.
  destruct (gather_Err first tasks (perf_counter w s).1 Hex) as [e He]. exists e.
  unfold mbind at 1, P_bind at 1. unfold perf_counter at 1. unfold mbind at 1, P_bind at 1.
  unfold perf_counter in He. cbn [fst] in He.
  destruct (gather first tasks _) as [s1 r] eqn:Hg. cbn [snd] in He. subst r. f_equal.
  unfold gather in Hg. injection Hg as <- _. done.
Qed.

Lemma perf_counter_frame w s s' a :
  perf_counter w s = (s', Ok a) → st_sent s' = st_sent s ∧ st_output s' = st_output s.
Proof. by intros [= <- _]. Qed.

Lemma emit_frame o s s' a : emit o s = (s', Ok a) → st_sent s' = st_sent s ∧ st_output s' = st_output s ++ [o].
Proof. by intros [= <- _]. Qed.

Lemma gather_frame {A} first (tasks : list (state * result A)) s s' a :
  gather first tasks s = (s', Ok a) → st_sent s' = st_sent s ++ (tasks ≫= λ t, st_sent t.1) ∧ st_output s' = st_output s.
Proof. unfold gather. by intros [= <- _]. Qed.


(** ** Forwarding and the shape of replies *)

(** A node that serves one request: its configuration, what it meets and the state it is in. *)
Record server := Server {
  sv_config : config;
  sv_id : Z;
  sv_loads : string → result pyval;
  sv_world : world;
  sv_worlds : nat → world;
  sv_first : nat;
  sv_run : list string → result string;
  sv_state : state;
}.

Definition serve (p : server) (raw : string) : state * pydict :=
  handle (sv_config p) (sv_id p) (sv_loads p) (sv_world p) (sv_worlds p) (sv_first p) (sv_run p) raw (sv_state p).

(** The request made next in state [s] reaches [host], which answers [reply]. *)
Definition answered (w : world) (s : state) (host : string) (payload : pydict) (reply : pydict) : Prop :=
  connection w (length (st_sent s)) host REQUEST_TIMEOUT = Some (Ok ()) ∧
  w_reply w (length (st_sent s)) host payload = Ok reply.

Lemma request_answered w s host payload reply :
  answered w s host payload reply → (request w host payload REQUEST_TIMEOUT s).2 = check_reply reply.
Proof. intros [Hcon Hreply]. unfold request. by rewrite Hcon, Hreply. Qed.

Lemma serve_shape p raw : reply_shape (serve p raw).2.
Proof. unfold serve. apply handle_shape. Qed.

Lemma serve_forward p raw text target payload reply :
  decode_ascii raw = Ok text → sv_loads p text = Ok (PDict (forward_message target payload)) →
  connection (sv_world p) (length (st_sent (sv_state p))) target REQUEST_TIMEOUT = Some (Ok ()) →
  w_reply (sv_world p) (length (st_sent (sv_state p))) target payload = Ok reply → reply_shape reply →
  (serve p raw).2 =
    match check_reply reply with Ok r => r | Err e => [("ok", PBool false); ("error", PStr (exn_str e))] end.
Proof. intros H1 H2 H3 H4 H5. exact (handle_forward _ _ _ _ _ _ _ _ _ _ _ _ _ H1 H2 H3 H4 H5). Qed.

(** A proxy is transparent.  When a request is routed over a proxy, the proxy reaches the
    node that hosts the role and that node answers, the requester ends with exactly what it ends
    with when it asks the node itself: the same object, or an error with the same message. *)
Theorem forward_transparent c w w' role payload sequence s s' target proxy node middle raw raw' text :
  host_for_role c role = Ok target → proxy_for c sequence = Some proxy →
  decode_ascii raw = Ok text → sv_loads middle text = Ok (PDict (forward_message target payload)) →
  answered (sv_world middle) (sv_state middle) target payload (serve node raw').2 →
  answered w s proxy (forward_message target payload) (serve middle raw).2 →
  answered w' s' target payload (serve node raw').2 →
  (routed_request w c role payload sequence s).2 = (request w' target payload REQUEST_TIMEOUT s').2.
Proof.
  intros Hhost Hproxy Hraw Hjson [Hcon Hreply] Hmiddle Hdirect. rewrite (request_answered _ _ _ _ _ Hdirect).
  unfold routed_request, mbind, P_bind, p_lift. rewrite Hhost, Hproxy.
  change [("op", PStr "forward"); ("target", PStr target); ("payload", PDict payload)] with (forward_message target payload).
  rewrite (request_answered _ _ _ _ _ Hmiddle).
  rewrite (serve_forward _ _ _ _ _ _ Hraw Hjson Hcon Hreply (serve_shape node raw')).
  apply check_reply_forwarded.
Qed.

(** The objects a node receives are JSON objects: their keys are distinct. *)
Definition objects (w : world) : Prop := ∀ n host payload d, w_reply w n host payload = Ok d → NoDup d.*1.

Lemma request_accepted w host payload timeout s s' r :
  objects w → request w host payload timeout s = (s', Ok r) →
  NoDup r.*1 ∧ truthy (dict_get_default "ok" (PBool false) r) = true.
Proof.
  intros Ho. unfold request. intros [= _ H]. destruct (connection _ _ _ _) as [[u|e]|]; [|done..].
  result_inv. apply Ho in Ha. unfold check_reply in H. by destruct (truthy _) eqn:E; simplify_eq.
Qed.

Lemma dispatch_reply c id w ws first run message s s' r :
  objects w → dispatch c id w ws first run message s = (s', Ok r) →
  dict_get "ok" r = None ∨ NoDup r.*1 ∧ truthy (dict_get_default "ok" (PBool false) r) = true.
Proof.
  intros Ho H. unfold dispatch in H. p_inv. repeat case_match; p_inv.
  - right. by eapply request_accepted.
  - left. unfold ns3_delay in *. by result_inv.
  - left. unfold gpu_compute in *. by result_inv.
  - left. unfold cpu_workload in H. p_inv. done.
  - by left.
  - done.
Qed.

(** C32: every reply of a node is well formed, whatever bytes it was sent: an object with distinct
    keys whose first key is [ok], which either holds a true value or is followed by the message of
    the error and nothing else; and a request ends the node exactly when it is a shutdown request,
    so that no other request, valid or not, takes a node away from the run. *)
Theorem handle_well_formed p raw :
  objects (sv_world p) →
  reply_shape (serve p raw).2 ∧
  (truthy (dict_get_default "ok" (PBool false) (serve p raw).2) = true ∨
   ∃ m, (serve p raw).2 = [("ok", PBool false); ("error", PStr m)]) ∧
  node_ends (serve p raw).1 =
    node_ends (sv_state p) || match decode_ascii raw ≫= sv_loads p with
                              | Ok (PDict message) => is_shutdown message
                              | _ => false
                              end.
Proof.
  intros Ho. split; [apply serve_shape|]. unfold serve, node_ends.
  destruct (decode_ascii raw) as [text|e] eqn:Hraw.
  2:{ unfold handle, mbind, P_bind, p_lift. rewrite Hraw. cbn. rewrite orb_false_r. eauto. }
  cbn [mbind result_bind]. destruct (sv_loads p text) as [v|e] eqn:Hjson.
  2:{ unfold handle, mbind, P_bind, p_lift. rewrite Hraw, Hjson. cbn. rewrite orb_false_r. eauto. }
  destruct (is_dict v) as [message|] eqn:Hv.
  2:{ unfold handle, mbind, P_bind, p_lift. rewrite Hraw, Hjson. cbn [of_option]. rewrite Hv. cbn.
      destruct v; try done; rewrite orb_false_r; eauto. }
  apply is_dict_Some in Hv as ->. split; [|by eapply handle_stop].
  rewrite (handle_decoded _ _ _ _ _ _ _ _ _ _ _ Hraw Hjson).
  destruct (dispatch _ _ _ _ _ _ _ _) as [s' [r|e]] eqn:E; cbn [snd]; [left|eauto].
  destruct (dispatch_reply _ _ _ _ _ _ _ _ _ _ Ho E) as [Hn|[Hd Ht]]; unfold dict_get_default in *.
  - by rewrite dict_get_update.
  - destruct (dict_get "ok" r) as [v|] eqn:Hk; [|done]. by rewrite (dict_get_update_in _ v).
Qed.

(** ** Examples *)

Definition demo_profile : profile := Profile "demo" 1 1 64 32 1 1.

(** Two nodes; [gpu0] is on the node of [cpu0], [gpu1] is not; the second node is a proxy. *)
Definition demo_config (proxies : list string) : config :=
  Config "demo" "run" 2
    [("0", ["cpu0"; "cpu1"; "gpu0"; "gpu2"; "gpu4"; "gpu6"]); ("1", ["cpu2"; "cpu3"; "gpu1"; "gpu3"; "gpu5"; "gpu7"; "ns3"])]
    proxies "/run" 1000 10 demo_profile.

Definition demo_reply : pydict := [("ok", PBool true); ("delay_ns", PInt 5)].

Definition demo_world (reply : nat → string → pydict → result pydict) : world :=
  World (λ _ _ _, Some ()) (λ _ _, "") (λ _ i, Z.of_nat i) reply (λ i, Z.min (Z.of_nat i) 100) (λ _, Ok ()).

Definition demo_cpu_world : world := demo_world (λ _ _ _, Ok demo_reply).

Definition demo_cpu_reply (role : string) : pydict :=
  [("ok", PBool true); ("role", PStr role); ("synchronization_time_ns", PInt 7); ("cross_machine_time_ns", PInt 2);
   ("gpu_results", PList [PDict demo_reply; PDict demo_reply])].

Lemma demo_served role id :
  role ∈ CPU_ROLES → (cpu_workload (demo_config []) id (λ _, demo_cpu_world) 0
    [("op", PStr "cpu_workload"); ("role", PStr role)] initial).2 = Ok (tail (demo_cpu_reply role)) →
  served_by (demo_config []) 0 100 (demo_cpu_reply role).
Proof.
  intros Hrole H. exists id, (λ _, demo_cpu_world), 0%nat, role, initial.
  destruct (cpu_workload _ _ _ _ _ _) as [s' r]. cbn [snd] in H. subst r. exists s', (tail (demo_cpu_reply role)).
  split; [done|]. split; [|done]. intros k. split; [intros i; cbn; lia|intros i; cbn; lia].
Qed.

Lemma measurement_bounds_witness :
  ∃ sample sync cross,
    measurement (demo_config []) (λ a b, Ok (PInt 0)) (demo_cpu_reply <$> CPU_ROLES) 100 = Ok sample ∧
    dict_get "synchronization_time_ns" sample = Some (PInt sync) ∧
    dict_get "cross_machine_time_ns" sample = Some (PInt cross) ∧ 0 ≤ cross ≤ sync ∧ sync ≤ 100.
Proof.
  destruct (measurement (demo_config []) (λ a b, Ok (PInt 0)) (demo_cpu_reply <$> CPU_ROLES) 100) as [sample|e] eqn:E; [|discriminate E].
  assert (Hs : Forall (served_by (demo_config []) 0 (0 + 100)) (demo_cpu_reply <$> CPU_ROLES)).
  { repeat constructor.
    - apply (demo_served "cpu0" 0); [set_solver|vm_compute; reflexivity].
    - apply (demo_served "cpu1" 0); [set_solver|vm_compute; reflexivity].
    - apply (demo_served "cpu2" 1); [set_solver|vm_compute; reflexivity].
    - apply (demo_served "cpu3" 1); [set_solver|vm_compute; reflexivity]. }
  destruct (measurement_bounds _ _ _ _ _ _ Hs E) as (sync & cross & _ & H1 & H2 & H3 & H4 & _).
  by exists sample, sync, cross.
Defined.

(** The controller of the demo run: every CPU simlet answers; or the second one reports an error. *)
Definition demo_controller (reply : nat → string → pydict → result pydict) : state * result () :=
  run_controller (demo_config []) 0 (λ a b, Ok (PInt 0)) (demo_world reply) (λ _, demo_world reply) 0 initial.


(** A node and the proxy in front of it. *)
Definition demo_server (loads : string → result pyval) (w : world) (id : Z) : server :=
  Server (demo_config ["1"]) id loads w (λ _, w) 0 (λ _, Ok "7") initial.

Definition demo_delay : pydict := [("op", PStr "network_delay"); ("bytes", PInt 64)].
Definition demo_node : server := demo_server (λ _, Ok (PDict demo_delay)) demo_cpu_world 1.
Definition demo_middle : server :=
  demo_server (λ _, Ok (PDict (forward_message "node1" demo_delay))) (demo_world (λ _ _ _, Ok (serve demo_node "").2)) 0.

Lemma forward_transparent_witness :
  (routed_request (demo_world (λ _ _ _, Ok (serve demo_middle "").2)) (demo_config ["1"]) "ns3" demo_delay 0 initial).2
  = Ok [("ok", PBool true); ("delay_ns", PInt 7)].
Proof.
  etransitivity.
  - apply (forward_transparent _ _ (demo_world (λ _ _ _, Ok (serve demo_node "").2)) _ _ _ _ initial "node1" "node1"
      demo_node demo_middle "" "" ""); try reflexivity; split; vm_compute; reflexivity.
  - vm_compute. reflexivity.
Defined.

Lemma handle_well_formed_witness :
  reply_shape (serve demo_node "").2 ∧ node_ends (serve demo_node "").1 = false.
Proof.
  destruct (handle_well_formed demo_node "") as (H1 & _ & H2).
  - intros n host payload d [= <-]. repeat constructor; set_solver.
  - split; [exact H1|]. rewrite H2. vm_compute. reflexivity.
Defined.
