(* ===== verification/Csv.v ===== *)
(** * CSV text and floats

    What the result scripts use of Python's [csv] module (the default dialect: fields separated by
    commas, quoted when they hold a comma, a quote or a line break, a quote inside quotes doubled)
    and the interface of the floats they compute with. *)

From S2P Require Import Prelude PyValue.

Definition CR : ascii := "013"%char.
Definition crlf : string := String CR nl.

(** ** Writing *)

Definition is_special (c : ascii) : bool :=
  Ascii.eqb c ","%char || Ascii.eqb c DQUOTE || Ascii.eqb c NL || Ascii.eqb c CR.

Fixpoint double_quotes (s : string) : string :=
  match s with
  | EmptyString => EmptyString
  | String c s' => if Ascii.eqb c DQUOTE then String c (String c (double_quotes s')) else String c (double_quotes s')
  end.

Definition quoted (s : string) : string := String DQUOTE (double_quotes s +:+ String DQUOTE "").

Definition write_field (s : string) : string :=
  if str_forallb (λ c, negb (is_special c)) s then s else quoted s.

(** [writer.writerow]: a row with a single empty field is quoted. *)
Definition write_row (row : list string) : string :=
  match row with
  | [EmptyString] => quoted "" +:+ crlf
  | _ => join "," (write_field <$> row) +:+ crlf
  end.

Definition write_rows (rows : list (list string)) : string := foldr (λ row s, write_row row +:+ s) "" rows.

(** ** Reading *)

Inductive csv_mode := StartRecord | StartField | InField | InQuotes | QuoteInQuotes.

Definition snoc (s : string) (c : ascii) : string := s +:+ String c "".

(** [csv.reader]: [row] and [field] hold what is read of the current record. *)
Fixpoint read_go (m : csv_mode) (after_cr : bool) (row : list string) (field : string) (s : string) : list (list string) :=
  match s with
  | EmptyString => match m with StartRecord => [] | _ => [row ++ [field]] end
  | String c s' =>
      match m with
      | InQuotes => if Ascii.eqb c DQUOTE then read_go QuoteInQuotes false row field s'
                    else read_go InQuotes false row (snoc field c) s'
      | _ =>
          let start := match m with StartRecord => true | _ => false end in
          if Ascii.eqb c NL || Ascii.eqb c CR then
            if start then if after_cr && Ascii.eqb c NL then read_go StartRecord false [] "" s'
                          else [] :: read_go StartRecord (Ascii.eqb c CR) [] "" s'
            else (row ++ [field]) :: read_go StartRecord (Ascii.eqb c CR) [] "" s'
          else if Ascii.eqb c ","%char then read_go StartField false (row ++ [field]) "" s'
          else if Ascii.eqb c DQUOTE then
            match m with
            | InField => read_go InField false row (snoc field c) s'
            | QuoteInQuotes => read_go InQuotes false row (snoc field c) s'
            | _ => read_go InQuotes false row field s'
            end
          else read_go InField false row (snoc field c) s'
      end
  end.

Definition read_rows (s : string) : list (list string) := read_go StartRecord false [] "" s.

(** [csv.DictReader]: the first record names the columns, the last of equal names counts, empty
    records are skipped; a missing field is [None], fields beyond the names are kept apart. *)
Abbreviation csv_record := (list (string * option string)).

Fixpoint set_fields (names fields : list string) (d : csv_record) : csv_record :=
  match names with [] => d | n :: ns => set_fields ns (tail fields) (dict_set n (head fields) d) end.

Definition name_fields (names fields : list string) : csv_record := set_fields names fields [].

Definition dict_rows (s : string) : list csv_record :=
  match filter (λ r, r ≠ []) (read_rows s) with
  | [] => []
  | names :: rows => name_fields names <$> rows
  end.

(** [row[k]] as a text *)
Definition field_of (k : string) (r : csv_record) : result string :=
  v ← dict_item k r; v ?! TypeError.

(** ** Floats *)

(** Python floats are used through these operations. *)
Class Floats (F : Type) := {
  f_of_Z : Z → F;
  f_of_value : pyval → result F;          (** a number of a JSON object *)
  f_mul : F → F → F;
  f_add : F → F → F;
  f_sub : F → F → F;
  f_div : F → F → result F;               (** [ZeroDivisionError] *)
  f_ratio : Z → Z → result F;             (** [a / b] of two integers *)
  f_abs : F → F;
  f_ltb : F → F → bool;
  f_eqb : F → F → bool;
  f_lit : Z → Z → F;                      (** the literal [n / d] *)
  f_round : nat → F → F;                  (** [round(x, n)] *)
  f_value : F → pyval;                    (** the number as a JSON value *)
  f_mean : list F → result F;             (** [statistics.mean]; an empty list raises *)
  f_fmean : list F → result F;            (** [statistics.fmean]; an empty list raises *)
  f_stdev : list F → result F;            (** [statistics.stdev]; fewer than two data points raise *)
  f_parse : string → result F;            (** [float(text)] *)
  f_repr : F → string;
  f_fixed : nat → F → string;             (** [f"{x:.nf}"] *)
  f_sci : nat → F → string;               (** [f"{x:.ne}"] *)
}.

(** The text of a float reads back as that float. *)
Class FloatText (F : Type) `{Floats F} := f_parse_repr : ∀ x : F, f_parse (f_repr x) = Ok x.

(** Integers in place of floats, to evaluate examples. *)
#[export] Instance integer_floats : Floats Z := {
  f_of_Z := id;
  f_of_value v := int_of v;
  f_mul := Z.mul;
  f_add := Z.add;
  f_sub := Z.sub;
  f_div a b := if b =? 0 then Err (ValueError "division by zero") else Ok (a / b);
  f_ratio a b := if b =? 0 then Err (ValueError "division by zero") else Ok (a / b);
  f_abs := Z.abs;
  f_ltb := Z.ltb;
  f_eqb := Z.eqb;
  f_lit n d := n / d;
  f_round _ := id;
  f_value := PInt;
  f_mean l := if zlen l =? 0 then Err (ValueError "mean requires at least one data point") else Ok (zsum l / zlen l);
  f_fmean l := if zlen l =? 0 then Err (ValueError "fmean requires at least one data point") else Ok (zsum l / zlen l);
  f_stdev l := if zlen l <? 2 then Err (ValueError "stdev requires at least two data points")
    else Ok (Z.sqrt (zsum ((λ x, (x - zsum l / zlen l) ^ 2) <$> l) / (zlen l - 1)));
  f_parse := py_int_exn;
  f_repr := str_of_Z;
  f_fixed _ := str_of_Z;
  f_sci _ := str_of_Z;
}.

#[export] Instance integer_text : FloatText Z.
Proof. exact py_int_exn_str. Qed.

(** ** Reading what was written *)

Lemma snoc_app f c s : snoc f c +:+ s = f +:+ String c s.
Proof. unfold snoc. by rewrite str_app_assoc. Qed.

Definition field_end (s : string) : Prop := ∃ c r, s = String c r ∧ (c = ","%char ∨ c = CR).

Definition starts_field (m : csv_mode) : Prop := m = StartRecord ∨ m = StartField.

Lemma read_plain m row field w s :
  str_forallb (λ c, negb (is_special c)) w = true → m = InField ∨ (m = StartField ∨ m = StartRecord) ∧ w ≠ "" →
  read_go m false row field (w +:+ s) = read_go InField false row (field +:+ w) s.
Proof.
  revert m field. induction w as [|c w IH]; intros m field Hw Hm.
  - destruct Hm as [->|[_ ?]]; [by rewrite str_app_nil_r|done].
  - cbn [str_forallb] in Hw. apply andb_true_iff in Hw as [Hc Hw]. apply negb_true_iff in Hc.
    unfold is_special in Hc. repeat (apply orb_false_iff in Hc as [Hc ?]).
    assert (Hstep : read_go m false row field (String c (w +:+ s)) = read_go InField false row (snoc field c) (w +:+ s)).
    { cbn [read_go]. destruct Hm as [->|[[->| ->] _]]; rewrite Hc; repeat match goal with H : _ = false |- _ => rewrite H; clear H end; done. }
    change (String c w +:+ s) with (String c (w +:+ s)). rewrite Hstep, IH by (done || by left).
    by rewrite snoc_app.
Qed.

Lemma read_quoted_body row field w s :
  read_go InQuotes false row field (double_quotes w +:+ String DQUOTE s) = read_go QuoteInQuotes false row (field +:+ w) s.
Proof.
  revert field. induction w as [|c w IH]; intros field; [by rewrite str_app_nil_r|].
  cbn [double_quotes]. destruct (Ascii.eqb_spec c DQUOTE) as [->|Hc]; rewrite <- (snoc_app _ _ w), <- IH; [done|].
  change (String c (double_quotes w) +:+ ?t) with (String c (double_quotes w +:+ t)). cbn [read_go].
  by rewrite (proj2 (Ascii.eqb_neq _ _) Hc).
Qed.

(** A separator after a field. *)
Lemma read_comma m row field s :
  m ≠ InQuotes → read_go m false row field (String "," s) = read_go StartField false (row ++ [field]) "" s.
Proof. by destruct m. Qed.

Lemma read_crlf m row field s :
  m ≠ InQuotes → m ≠ StartRecord →
  read_go m false row field (crlf +:+ s) = (row ++ [field]) :: read_go StartRecord false [] "" s.
Proof. by destruct m. Qed.

(** One field, up to what follows it: the mode it leaves accepts a separator. *)
Lemma read_field m row w s :
  m = StartField ∨ m = StartRecord →
  (w = "" → m = StartField) →
  ∃ m', m' ≠ InQuotes ∧ m' ≠ StartRecord ∧ read_go m false row "" (write_field w +:+ s) = read_go m' false row w s.
Proof.
  intros Hm Hw. unfold write_field. destruct (str_forallb _ w) eqn:Hp.
  - destruct (decide (w = "")) as [->|Hne].
    + exists StartField. rewrite (Hw eq_refl). done.
    + exists InField. split; [done|]. split; [done|]. rewrite read_plain by auto. done.
  - exists QuoteInQuotes. split; [done|]. split; [done|]. unfold quoted.
    change (String DQUOTE (double_quotes w +:+ String DQUOTE "") +:+ s) with
      (String DQUOTE ((double_quotes w +:+ String DQUOTE "") +:+ s)).
    rewrite str_app_assoc. change (String DQUOTE "" +:+ s) with (String DQUOTE s).
    rewrite <- (read_quoted_body row "" w s : _ = read_go QuoteInQuotes false row w s). by destruct Hm as [->| ->].
Qed.

Lemma read_fields row w ws s :
  read_go StartField false row "" (join "," (write_field <$> w :: ws) +:+ crlf +:+ s)
  = (row ++ w :: ws) :: read_rows s.
Proof.
  revert row w. induction ws as [|v ws IH]; intros row w.
  - cbn [fmap list_fmap join]. destruct (read_field StartField row w (crlf +:+ s)) as (m & ? & ? & ->); [auto..|].
    by rewrite read_crlf.
  - rewrite fmap_cons, join_cons, !str_app_assoc by done.
    destruct (read_field StartField row w ("," +:+ (join "," (write_field <$> v :: ws) +:+ crlf +:+ s))) as (m & ? & ? & ->); [auto..|].
    change ("," +:+ ?t) with (String "," t). rewrite read_comma by done. by rewrite IH, <- app_assoc.
Qed.

(** The first field of a record may not be empty, unless another follows it. *)
Lemma read_write_row row s : row ≠ [] → read_rows (write_row row +:+ s) = row :: read_rows s.
Proof.
  intros Hne. destruct row as [|w ws]; [done|]. unfold write_row, read_rows.
  destruct (decide (w = "" ∧ ws = [])) as [[-> ->]|Hn]; [done|].
  assert (Hrow : (match w :: ws with [EmptyString] => quoted "" +:+ crlf | _ => join "," (write_field <$> w :: ws) +:+ crlf end)
    = join "," (write_field <$> w :: ws) +:+ crlf) by (destruct w, ws; naive_solver).
  rewrite Hrow, str_app_assoc. destruct (decide (w = "")) as [->|Hw].
  - destruct ws as [|v ws]; [naive_solver|]. rewrite fmap_cons, join_cons, !str_app_assoc by done.
    change (write_field "" +:+ ?t) with t. change ("," +:+ ?t) with (String "," t).
    rewrite read_comma by done. by rewrite read_fields.
  - destruct ws as [|v ws].
    + cbn [fmap list_fmap join]. destruct (read_field StartRecord [] w (crlf +:+ s)) as (m & ? & ? & ->); [auto|done|].
      by rewrite read_crlf.
    + rewrite fmap_cons, join_cons, !str_app_assoc by done.
      destruct (read_field StartRecord [] w ("," +:+ (join "," (write_field <$> v :: ws) +:+ crlf +:+ s))) as (m & ? & ? & ->); [auto|done|].
      change ("," +:+ ?t) with (String "," t). rewrite read_comma by done. by rewrite read_fields.
Qed.

Lemma read_write_rows rows : Forall (λ r, r ≠ []) rows → read_rows (write_rows rows) = rows.
Proof. induction 1 as [|r rows Hr _ IH]; [done|]. change (write_rows (r :: rows)) with (write_row r +:+ write_rows rows). by rewrite read_write_row, IH. Qed.

(** The records a [csv.DictReader] makes of a table written row by row. *)
Lemma dict_rows_written names rows :
  names ≠ [] → Forall (λ r, r ≠ []) rows → dict_rows (write_rows (names :: rows)) = name_fields names <$> rows.
Proof.
  intros Hn Hr. unfold dict_rows. rewrite read_write_rows by (by constructor).
  rewrite filter_cons_True by done. f_equal. induction Hr as [|r rows ? _ IH]; [done|]. by rewrite filter_cons_True, IH.
Qed.
