(* ===== verification/Experiments.v ===== *)
(** * The container experiments

    Model of [src/scripts/run_experiments.py], which places the 4-CPU plus 8-GPU workload on 1, 2,
    4 and 8 containers, runs every container set, collects the controller's sample from its log
    and keeps [summary.csv], which [Reports.Analyze] averages. *)

From S2P Require Import Prelude PyValue Csv Worker Proxy Steady Host Platform.

(** ** Workloads and placement *)

Definition WORKLOADS : list (string * profile) :=
  [("mlp", Profile "MLP" 6 2 262144 32768 8 35);
   ("dlrm", Profile "DLRM" 8 3 65536 16384 5 22);
   ("resnet50", Profile "ResNet-50" 5 2 393216 65536 7 30);
   ("mixtral8x7b", Profile "Mixtral-8x7B" 10 2 524288 131072 5 18);
   ("bfs", Profile "BFS" 12 2 24576 8192 2 6);
   ("fft", Profile "FFT" 8 2 131072 32768 3 12);
   ("pagerank", Profile "PageRank" 10 2 32768 16384 2 8);
   ("pde", Profile "PDE" 7 2 98304 24576 4 16)].

Definition placements : list (Z * list (string * list string)) :=
  [(1, [("0", ["cpu0"; "cpu1"; "cpu2"; "cpu3"] ++ (gpu_role <$> seqZ 0 8) ++ ["ns3"])]);
   (2, [("0", ["cpu0"; "cpu1"; "gpu0"; "gpu2"; "gpu4"; "gpu6"]);
        ("1", ["cpu2"; "cpu3"; "gpu1"; "gpu3"; "gpu5"; "gpu7"; "ns3"])]);
   (4, [("0", ["cpu0"; "gpu0"; "gpu3"]); ("1", ["cpu1"; "gpu2"; "gpu5"]); ("2", ["cpu2"; "gpu4"; "gpu7"]);
        ("3", ["cpu3"; "gpu6"; "gpu1"; "ns3"])]);
   (8, [("0", ["cpu0"; "gpu0"]); ("1", ["cpu1"; "gpu2"]); ("2", ["cpu2"; "gpu4"]); ("3", ["cpu3"; "gpu6"]);
        ("4", ["gpu1"]); ("5", ["gpu3"]); ("6", ["gpu5"]); ("7", ["gpu7"; "ns3"])])].

Fixpoint lookup_count {A} (n : Z) (l : list (Z * A)) : option A :=
  match l with [] => None | (m, a) :: r => if m =? n then Some a else lookup_count n r end.

Definition placement_for (container_count : Z) : result (list (string * list string)) :=
  lookup_count container_count placements ?! KeyError (str_of_Z container_count).

Definition CONTAINER_COUNTS : list Z := [1; 2; 4; 8].

(** ** Run files *)

Definition run_id (benchmark : string) (container_count repetition : Z) : string :=
  benchmark +:+ "-nodes" +:+ str_of_Z container_count +:+ "-rep" +:+ str_of_Z repetition.

Definition make_config (benchmark : string) (container_count repetition : Z) : result config :=
  placement ← placement_for container_count;
  workload ← dict_item benchmark WORKLOADS;
  Ok (Config (pf_label workload) (run_id benchmark container_count repetition) container_count placement []
        "/run" 1000 10 workload).

Definition strs (l : list string) : pyval := PList (PStr <$> l).

Definition profile_json (p : profile) : pyval :=
  PDict [("label", PStr (pf_label p)); ("rounds", PInt (pf_rounds p));
         ("input_messages_per_round", PInt (pf_input_messages p)); ("payload_bytes", PInt (pf_payload_bytes p));
         ("result_bytes", PInt (pf_result_bytes p)); ("cpu_compute_ms", PInt (pf_cpu_compute_ms p));
         ("gpu_compute_ms", PInt (pf_gpu_compute_ms p))].

Definition config_json (c : config) : pydict :=
  [("run_id", PStr (cf_run_id c)); ("benchmark", PStr (cf_benchmark c)); ("container_count", PInt (cf_container_count c));
   ("placement", PDict ((λ p, (p.1, strs p.2)) <$> cf_placement c)); ("proxies", strs (cf_proxies c));
   ("output_dir", PStr (cf_output_dir c));
   ("network", PDict [("bandwidth_mbps", PInt (cf_bandwidth_mbps c)); ("propagation_us", PInt (cf_propagation_us c))]);
   ("workload", profile_json (cf_workload c)); ("source_workload", PStr "ODHS Table II reduced-input synthetic trace")].

Definition service (c : config) (id : string) : string * pyval :=
  ("node" +:+ id, PDict [("image", PStr "chipsystemsim:latest"); ("command", strs ["--node-id"; id]);
     ("environment", PDict [("SIM_CONFIG", PStr (json_dumps (PDict (config_json c))))]); ("networks", strs ["simulation"])]).

Definition compose (c : config) : pydict :=
  [("services", PDict (service c <$> (cf_placement c).*1));
   ("networks", PDict [("simulation", PDict [("driver", PStr "bridge")])])].

(** [write_run_files]: the path of the compose file. *)
Definition write_run_files (results benchmark : string) (container_count repetition : Z) : H string :=
  let run_dir := path_div (path_div results "runs") (run_id benchmark container_count repetition) in
  _ ← h_mkdir run_dir;
  c ← h_lift (make_config benchmark container_count repetition);
  _ ← h_write (path_div run_dir "config.json") (json_indent 0 (PDict (config_json c)));
  let compose_path := path_div run_dir "compose.json" in
  _ ← h_write compose_path (json_indent 0 (PDict (compose c)));
  mret compose_path.

(** ** Measurements *)

(** [line.split(marker, 1)[1]] of a line that holds the marker *)
Fixpoint after_marker (marker s : string) : option string :=
  match strip_prefix marker s with
  | Some r => Some r
  | None => match s with EmptyString => None | String _ s' => after_marker marker s' end
  end.

Fixpoint first_marked (marker : string) (lines : list string) : option string :=
  match lines with
  | [] => None
  | l :: r => match after_marker marker l with Some t => Some t | None => first_marked marker r end
  end.

Section Rows.
Context {F : Type} `{!Floats F} (json_loads : string → result pyval).

Record row := Row {
  rw_benchmark : string;
  rw_containers : Z;
  rw_repetition : Z;
  rw_total : F;
  rw_synchronization : F;
  rw_cross : F;
  rw_fraction : F;
  rw_efficiency : option F;
}.

(** [result[k] / 1e9] *)
Definition seconds (k : string) (sample : pydict) : result F :=
  v ← dict_item k sample; x ← f_of_value v; f_div x (f_of_Z 1000000000).

Definition collect_measurement (log_output : string) (container_count repetition : Z) : result row :=
  encoded ← first_marked MARKER (splitlines log_output) ?! RuntimeError "CPU container did not emit a measurement record";
  value ← json_loads encoded;
  sample ← is_dict value ?! TypeError;
  b ← dict_item "benchmark" sample;
  benchmark ← is_str b ?! TypeError;
  total ← seconds "total_time_ns" sample;
  synchronization ← seconds "synchronization_time_ns" sample;
  cross ← seconds "cross_machine_time_ns" sample;
  f ← dict_item "synchronization_fraction" sample;
  fraction ← f_of_value f;
  Ok (Row benchmark container_count repetition total synchronization cross fraction None).

(** ** The summary *)

Definition same_benchmark (b : string) (r : row) : bool := String.eqb (rw_benchmark r) b.

(** [statistics.mean] of the one-container times of a benchmark *)
Definition baseline (rows : list row) (b : string) : result F :=
  f_mean (rw_total <$> filter (λ r, same_benchmark b r && (rw_containers r =? 1) = true) rows).

Definition efficiency (base : F) (r : row) : result row :=
  e ← f_div base (f_mul (rw_total r) (f_of_Z (rw_containers r)));
  Ok (Row (rw_benchmark r) (rw_containers r) (rw_repetition r) (rw_total r) (rw_synchronization r) (rw_cross r)
        (rw_fraction r) (Some e)).

(** The baselines are computed before any row is changed. *)
Definition with_efficiency (rows : list row) : result (list row) :=
  _ ← mapM (baseline rows) (remove_dups (rw_benchmark <$> rows));
  mapM (λ r, base ← baseline rows (rw_benchmark r); efficiency base r) rows.

Definition FIELDS : list string :=
  ["benchmark"; "containers"; "repetition"; "total_time_s"; "synchronization_time_s"; "cross_machine_time_s";
   "synchronization_fraction"; "parallel_efficiency"].

Definition row_fields (r : row) : list string :=
  [rw_benchmark r; str_of_Z (rw_containers r); str_of_Z (rw_repetition r); f_repr (rw_total r);
   f_repr (rw_synchronization r); f_repr (rw_cross r); f_repr (rw_fraction r); default "" (f_repr <$> rw_efficiency r)].

(** The text of [summary.csv]. *)
Definition summary_text (rows : list row) : string := write_rows (FIELDS :: (row_fields <$> rows)).

Definition parse_row (r : csv_record) : result row :=
  benchmark ← field_of "benchmark" r;
  containers ← (t ← field_of "containers" r; py_int_exn t);
  repetition ← (t ← field_of "repetition" r; py_int_exn t);
  total ← (t ← field_of "total_time_s" r; f_parse t);
  synchronization ← (t ← field_of "synchronization_time_s" r; f_parse t);
  cross ← (t ← field_of "cross_machine_time_s" r; f_parse t);
  fraction ← (t ← field_of "synchronization_fraction" r; f_parse t);
  e ← (t ← field_of "parallel_efficiency" r; f_parse t);
  Ok (Row benchmark containers repetition total synchronization cross fraction (Some e)).

Definition rows_of_text (text : string) : result (list row) := mapM parse_row (dict_rows text).

(** ** The script *)

Record setting := Setting {
  se_results : string;
  se_python : string;
  se_analyze : string;             (** [ROOT / "scripts" / "analyze_results.py"] *)
  se_absolute : string → string;   (** [os.path.abspath] *)
}.

Context (exec : capturing) (se : setting).

Definition summary_path : string := path_div (se_results se) "summary.csv".

Definition load_existing_rows : H (list row) :=
  exists_ ← h_is_file summary_path;
  if exists_ : bool then
    text ← h_read summary_path;
    h_lift (rows_of_text text)
  else mret [].

Definition analyze_command : list string := [se_python se; se_analyze se; summary_path].

Definition write_summary (rows : list row) : H unit :=
  rows ← h_lift (with_efficiency rows);
  _ ← h_lift (raise_if (zlen rows =? 0) IndexError);
  _ ← h_write summary_path (summary_text rows);
  h_run (quiet exec) analyze_command.

(** One run of the matrix: benchmark, containers, repetition. *)
Abbreviation point := (string * Z * Z)%type.

Definition project (p : point) : string :=
  let '(benchmark, container_count, repetition) := p in
  "sl" +:+ str_take 5 benchmark +:+ str_of_Z container_count +:+ "r" +:+ str_of_Z repetition.

Definition compose_file (p : point) : string :=
  let '(benchmark, container_count, repetition) := p in
  se_absolute se (path_div (path_div (path_div (se_results se) "runs") (run_id benchmark container_count repetition)) "compose.json").

Definition compose_command (p : point) (rest : list string) : list string :=
  ["docker"; "compose"; "--project-name"; project p; "--file"; compose_file p] ++ rest.

Definition up_command (p : point) : list string :=
  compose_command p ["up"; "--abort-on-container-exit"; "--exit-code-from"; "node0"].
Definition down_command (p : point) : list string := compose_command p ["down"; "--volumes"; "--timeout"; "1"].

(** The body of the loops. *)
Definition run_point (p : point) : H row :=
  let '(benchmark, container_count, repetition) := p in
  _ ← write_run_files (se_results se) benchmark container_count repetition;
  text ← h_finally (h_output exec (up_command p)) (h_run (quiet exec) (down_command p));
  h_lift (collect_measurement text container_count repetition).

Record arguments := Arguments {
  ar_repetitions : Z;
  ar_benchmarks : list string;
  ar_append : bool;
  ar_skip_build : bool;
}.

(** The order of the loops. *)
Definition points (a : arguments) : list point :=
  benchmark ← ar_benchmarks a; count ← CONTAINER_COUNTS; repetition ← seqZ 1 (ar_repetitions a);
  [(benchmark, count, repetition)].

Definition image_command (a : arguments) : list string :=
  if ar_skip_build a then ["docker"; "image"; "inspect"; "chipsystemsim:latest"]
  else ["docker"; "build"; "--tag"; "chipsystemsim:latest"; "--file"; "docker/Dockerfile"; "."].

(** [main]; removing the files of earlier runs is left to [clear], which runs no command. *)
Definition main (clear : H unit) (a : arguments) : H unit :=
  _ ← h_lift (raise_if (ar_repetitions a <? 1) (ValueError "--repetitions must be at least one"));
  _ ← h_mkdir (se_results se);
  _ ← clear;
  _ ← h_run (quiet exec) (image_command a);
  rows ← (if ar_append a then load_existing_rows else mret []);
  collected ← h_map run_point (points a);
  write_summary (rows ++ collected).

End Rows.
Arguments row : clear implicits.

(** ** Laws *)

(** Integers convert to floats, and dividing by a non-zero integer succeeds. *)
Class FloatLaws (F : Type) `{Floats F} := {
  f_of_int : ∀ z, f_of_value (PInt z) = Ok (f_of_Z z);
  f_div_int : ∀ (x : F) n, n ≠ 0 → is_ok (f_div x (f_of_Z n)) = true;
}.

(** A text whose first part lacks a character of the marker does not begin with the marker. *)
Lemma strip_prefix_lacks c m a b :
  lacks c a = true → lacks c m = false → (str_length m ≤ str_length a)%nat → strip_prefix m (a +:+ b) = None.
Proof.
  intros Ha Hm Hl. destruct (strip_prefix m (a +:+ b)) as [r|] eqn:E; [|done]. apply strip_prefix_Some in E.
  exfalso. revert a Ha Hl E. induction m as [|x m IH]; intros a Ha Hl E; [done|].
  destruct a as [|y a]; [cbn in Hl; lia|]. unfold lacks in *. cbn [str_forallb] in *. injection E as -> E.
  apply andb_true_iff in Ha as [Hy Ha]. rewrite Hy in Hm. cbn in Hm, Hl. eapply IH; [exact Hm|exact Ha|lia|exact E].
Qed.

Lemma after_marker_here m s : after_marker m (m +:+ s) = Some s.
Proof.
  assert (H : strip_prefix m (m +:+ s) = Some s) by (by apply strip_prefix_Some).
  destruct (m +:+ s) as [|c r] eqn:E; cbn [after_marker]; by rewrite H.
Qed.

(** The marker is found behind the label a log viewer puts in front of a line. *)
Lemma after_marker_found prefix t : lacks "=" prefix = true → after_marker MARKER (prefix +:+ MARKER +:+ t) = Some t.
Proof.
  induction prefix as [|c p IH]; intros Hl; [apply (after_marker_here MARKER)|].
  change (String c p +:+ MARKER +:+ t) with (String c (p +:+ MARKER +:+ t)). cbn [after_marker].
  assert (Hs : strip_prefix MARKER (String c (p +:+ MARKER +:+ t)) = None).
  { change (String c (p +:+ MARKER +:+ t)) with (String c (p +:+ "MEASUREMENT_JSON" +:+ ("=" +:+ t))).
    rewrite <- str_app_assoc.
    change (String c ((p +:+ "MEASUREMENT_JSON") +:+ ("=" +:+ t))) with (String c (p +:+ "MEASUREMENT_JSON") +:+ ("=" +:+ t)).
    apply (strip_prefix_lacks "="); [|done|].
    - unfold lacks in *. cbn [str_forallb] in *. apply andb_true_iff in Hl as [-> Hl]. cbn [andb].
      by rewrite str_forallb_app, Hl.
    - cbn [str_length]. rewrite str_length_app. cbn. lia. }
  rewrite Hs. apply IH. unfold lacks in *. cbn [str_forallb] in Hl. by apply andb_true_iff in Hl as [_ ?].
Qed.

Lemma first_marked_found marker before line t after :
  (∀ l, l ∈ before → after_marker marker l = None) → after_marker marker line = Some t →
  first_marked marker (before ++ line :: after) = Some t.
Proof.
  intros Hb Hl. induction before as [|l before IH]; cbn [app first_marked]; [by rewrite Hl|].
  rewrite (Hb l) by set_solver. apply IH. set_solver.
Qed.

(** ** Placement *)

Definition ROLES : list string := CPU_ROLES ++ (gpu_role <$> seqZ 0 8) ++ ["ns3"].

(** The GPU simlets of CPU simlet [i] that live on its node. *)
Definition local_gpus (p : list (string * list string)) (i : Z) : list Z :=
  filter (λ k, find_role (gpu_role (i * 2 + k)) p = find_role ("cpu" +:+ str_of_Z i) p) [0; 1].

Lemma lookup_count_In {A} n (l : list (Z * A)) a : lookup_count n l = Some a → (n, a) ∈ l.
Proof.
  induction l as [|[m b] l IH]; [done|]. cbn [lookup_count]. destruct (Z.eqb_spec m n) as [->|]; [intros [= ->]; by left|].
  intros H. right. auto.
Qed.

(** The check of one placement, by evaluation. *)
Definition placement_ok (n : Z) (p : list (string * list string)) : bool :=
  bool_decide (p.*1 = str_of_Z <$> seqZ 0 n) &&
  bool_decide (NoDup (concat p.*2)) && bool_decide (length ROLES = length (concat p.*2)) &&
  forallb (λ role, bool_decide (role ∈ concat p.*2) &&
    existsb (λ id, bool_decide (find_role role p = Some (str_of_Z id))) (seqZ 0 n) &&
    forallb (λ id, Bool.eqb (existsb (String.eqb role) (default [] (dict_get (str_of_Z id) p)))
                            (bool_decide (find_role role p = Some (str_of_Z id)))) (seqZ 0 n)) ROLES &&
  forallb (λ i, bool_decide (zlen (local_gpus p i) = (if n =? 1 then 2 else 1))) (seqZ 0 4).

Lemma placements_ok n p : (n, p) ∈ placements → placement_ok n p = true.
Proof.
  assert (H : forallb (λ np, placement_ok np.1 np.2) placements = true) by (vm_compute; reflexivity).
  rewrite forallb_forall in H. intros Hin%list_elem_of_In. apply (H _ Hin).
Qed.

(** C33: the placements put the same twelve simlets and the ns-3 model on 1, 2, 4 or 8 nodes:
    the nodes are numbered from 0, every role has exactly one node, so that each request of the
    workload is sent to the one node that hosts its role and is not refused there; the services
    of the compose file are the hosts the requests name; and with more than one node each CPU
    simlet has exactly one of its two GPU simlets on its own node, so every distributed run has
    the same number of cross-node pairs. *)
Theorem placement_sound n p c :
  placement_for n = Ok p → cf_placement c = p →
  p.*1 = str_of_Z <$> seqZ 0 n ∧ concat p.*2 ≡ₚ ROLES ∧
  (∀ role, role ∈ ROLES → ∃ id, id ∈ seqZ 0 n ∧ host_for_role c role = Ok (node_name id) ∧
     ∀ id', id' ∈ seqZ 0 n → hosts c id' role = true ↔ id' = id) ∧
  (service c <$> p.*1).*1 = node_name <$> seqZ 0 n ∧
  (∀ i, i ∈ seqZ 0 4 → zlen (local_gpus p i) = (if n =? 1 then 2 else 1)).
Proof.
  intros Hp Hc. unfold placement_for in Hp. apply of_option_Ok, lookup_count_In, placements_ok in Hp.
  unfold placement_ok in Hp. bool_facts. rename H into Hids, H0 into Hlocal, H1 into Hroles, H2 into Hlen, H3 into Hnd.
  rewrite forallb_forall in Hroles, Hlocal. split; [done|].
  assert (Hin : ∀ role, role ∈ ROLES → role ∈ concat p.*2).
  { intros role Hrole%list_elem_of_In. specialize (Hroles _ Hrole). by bool_facts. }
  split; [|split; [|split]].
  - symmetry. apply submseteq_length_Permutation; [|by rewrite Hlen].
    apply NoDup_submseteq; [|done]. vm_compute. repeat constructor; set_solver.
  - intros role Hrole%list_elem_of_In. specialize (Hroles _ Hrole). bool_facts.
    rename H1 into Hex, H0 into Hall. apply existsb_exists in Hex as (id & Hid%list_elem_of_In & Hfind). bool_facts.
    rewrite forallb_forall in Hall. exists id. split; [done|].
    split; [unfold host_for_role; by rewrite Hc, Hfind|].
    intros id' Hid'. unfold hosts, roles. rewrite Hc.
    rewrite (Bool.eqb_prop _ _ (Hall _ (proj1 (list_elem_of_In _ _) Hid'))), bool_decide_eq_true, Hfind.
    split; [by intros [= ?%str_of_Z_inj]|by intros ->].
  - rewrite Hids, <- !list_fmap_compose. done.
  - intros i Hi%list_elem_of_In. specialize (Hlocal _ Hi). by bool_facts.
Qed.

Lemma placement_sound_witness :
  ∃ p, placement_for 4 = Ok p ∧ concat p.*2 ≡ₚ ROLES ∧
    (∀ i, i ∈ seqZ 0 4 → zlen (local_gpus p i) = 1).
Proof.
  destruct (placement_for 4) as [p|] eqn:E; [|discriminate E]. exists p. split; [done|].
  pose proof (placement_sound 4 p (Config "" "" 4 p [] "" 0 0 (Profile "" 0 0 0 0 0 0)) E eq_refl) as (_ & H1 & _ & _ & H2).
  split; [exact H1|exact H2].
Defined.

(** ** Collection *)

Lemma dict_item_get {A} k (v : A) d : dict_get k d = Some v → dict_item k d = Ok v.
Proof. intros Hk. unfold dict_item. by rewrite Hk. Qed.

Section Facts.
Context {F : Type} `{!Floats F} `{!FloatLaws F}.

Lemma f_div_some (x : F) n : n ≠ 0 → ∃ y, f_div x (f_of_Z n) = Ok y.
Proof using All. intros Hn. pose proof (f_div_int x n Hn). destruct (f_div x (f_of_Z n)); [eauto|done]. Qed.

Lemma seconds_int k z sample : dict_get k sample = Some (PInt z) → seconds k sample = f_div (f_of_Z z : F) (f_of_Z 1000000000).
Proof using All. intros Hk. unfold seconds, dict_item. rewrite Hk. cbn [of_option mbind result_bind]. by rewrite f_of_int. Qed.

Lemma measurement_fields c float_div completed total sample :
  measurement c float_div completed total = Ok sample →
  ∃ sync cross fraction, float_div sync total = Ok fraction ∧
    dict_get "benchmark" sample = Some (PStr (cf_benchmark c)) ∧ dict_get "total_time_ns" sample = Some (PInt total) ∧
    dict_get "synchronization_time_ns" sample = Some (PInt sync) ∧ dict_get "cross_machine_time_ns" sample = Some (PInt cross) ∧
    dict_get "synchronization_fraction" sample = Some fraction.
Proof using Type. unfold measurement. intros H. result_inv. eexists _, _, _. split; [eassumption|done]. Qed.

(** The sample the controller prints is the row the experiment script collects.  When the log
    of the containers shows the controller's line behind a label without an equals sign, and no
    line before it holds the marker, the row has the benchmark of the configuration, the counts
    of the run and the sample's times in seconds. *)
Theorem measurement_collected json_loads c float_div completed total sample fraction log before label after n k :
  measurement c float_div completed total = Ok sample →
  splitlines log = before ++ (label +:+ MARKER +:+ json_dumps (PDict sample)) :: after →
  (∀ l, l ∈ before → after_marker MARKER l = None) → lacks "=" label = true →
  json_loads (json_dumps (PDict sample)) = Ok (PDict sample) →
  (v ← dict_item "synchronization_fraction" sample; f_of_value v) = Ok fraction →
  ∃ r : row F, collect_measurement json_loads log n k = Ok r ∧
    rw_benchmark r = cf_benchmark c ∧ rw_containers r = n ∧ rw_repetition r = k ∧ rw_fraction r = fraction ∧
    rw_efficiency r = None ∧ f_div (f_of_Z total) (f_of_Z 1000000000) = Ok (rw_total r) ∧
    (∀ z, dict_get "synchronization_time_ns" sample = Some (PInt z) → f_div (f_of_Z z) (f_of_Z 1000000000) = Ok (rw_synchronization r)) ∧
    (∀ z, dict_get "cross_machine_time_ns" sample = Some (PInt z) → f_div (f_of_Z z) (f_of_Z 1000000000) = Ok (rw_cross r)).
Proof using All.
  intros Hm Hlog Hbefore Hlabel Hjson Hfrac.
  apply measurement_fields in Hm as (sync & cross & fr & _ & Hb & Ht & Hs & Hc & Hf).
  assert (Hne : 1000000000 ≠ 0) by lia.
  destruct (f_div_some (f_of_Z total) _ Hne) as [tt Htt], (f_div_some (f_of_Z sync) _ Hne) as [ss Hss],
    (f_div_some (f_of_Z cross) _ Hne) as [cc Hcc].
  exists (Row (cf_benchmark c) n k tt ss cc fraction None). split.
  - unfold collect_measurement. rewrite Hlog, (first_marked_found MARKER before _ (json_dumps (PDict sample))).
    2: done. 2: by apply after_marker_found.
    cbn [of_option mbind result_bind]. rewrite Hjson. cbn [of_option mbind result_bind is_dict].
    rewrite (dict_item_get _ _ _ Hb). cbn [of_option mbind result_bind is_str].
    rewrite (seconds_int _ _ _ Ht), (seconds_int _ _ _ Hs), (seconds_int _ _ _ Hc), Htt, Hss, Hcc.
    rewrite (dict_item_get _ _ _ Hf) in Hfrac |- *. cbn [mbind result_bind] in Hfrac |- *. by rewrite Hfrac.
  - cbn. rewrite Hs, Hc. split_and!; [done..| |]; intros z [= <-]; done.
Qed.

End Facts.

(** ** The summary file *)

Section Summary.
Context {F : Type} `{!Floats F} `{!FloatText F}.

Lemma parse_row_fields (r : row F) e :
  rw_efficiency r = Some e → parse_row (name_fields FIELDS (row_fields r)) = Ok r.
Proof using All.
  intros He. destruct r as [b n k t s c f o]. cbn in He. subst o. unfold row_fields. cbn [rw_benchmark rw_containers rw_repetition rw_total rw_synchronization rw_cross rw_fraction rw_efficiency default from_option fmap option_fmap option_map].
  unfold parse_row, field_of, dict_item. cbn [name_fields set_fields FIELDS head tail dict_set dict_get String.eqb Ascii.eqb Bool.eqb of_option mbind result_bind].
  rewrite !py_int_exn_str. cbn [mbind result_bind id]. unfold id. by rewrite !f_parse_repr.
Qed.

Lemma rows_of_summary rows :
  (∀ r : row F, r ∈ rows → is_Some (rw_efficiency r)) → rows_of_text (summary_text rows) = Ok rows.
Proof using All.
  intros He. unfold rows_of_text, summary_text. rewrite dict_rows_written; [|done|].
  - induction rows as [|r rows IH]; [done|]. rewrite !fmap_cons, mapM_result_cons.
    destruct (He r) as [e Hr]; [by left|]. rewrite (parse_row_fields r e Hr). cbn [mbind result_bind].
    rewrite IH; [done|]. intros r' Hr'. apply He. by right.
  - apply Forall_fmap, Forall_forall. by intros [].
Qed.

Lemma with_efficiency_some (rows rows' : list (row F)) :
  with_efficiency rows = Ok rows' → ∀ r, r ∈ rows' → is_Some (rw_efficiency r).
Proof using Type.
  unfold with_efficiency. intros H. result_inv. apply mapM_result_Ok in H. intros r [i Hi]%list_elem_of_lookup.
  destruct (Forall2_lookup_r _ _ _ _ _ H Hi) as (r0 & _ & Hr). unfold efficiency in Hr. result_inv. cbn. eauto.
Qed.

Context (exec : capturing) (se : setting).

(** What [write_summary] stores is what [--append] loads: as long as the analysis leaves the
    file alone, the rows read back are the rows written, in their order, with the efficiency
    each was given, whatever characters the benchmark labels hold. *)
Theorem summary_round_trip rows h h' :
  write_summary exec se rows h = (h', Ok ()) →
  (∀ n fs, fs_files (exec n (analyze_command se) fs).1 !! summary_path se = fs_files fs !! summary_path se) →
  ∃ stored, with_efficiency rows = Ok stored ∧ load_existing_rows se h' = (h', Ok stored).
Proof using All.
  intros H Hkeep. unfold write_summary in H. h_inv. exists a. split; [done|].
  apply h_write_Ok in Hm1 as [_ Hfs]. apply h_run_Ok in H as [Hrun _].
  assert (Hfile : h_files h' !! summary_path se = Some (summary_text a)).
  { unfold h_files. unfold quiet in Hrun. destruct (exec _ (analyze_command se) (h_fs h2)) as [fs [status text]] eqn:E.
    injection Hrun as <- ->. specialize (Hkeep (length (h_calls h2)) (h_fs h2)). rewrite E in Hkeep. cbn [fst] in Hkeep. rewrite Hkeep, Hfs.
    cbn [fs_files]. apply lookup_insert_eq. }
  unfold load_existing_rows, mbind, H_bind, h_is_file, h_read, h_lift. rewrite Hfile, bool_decide_eq_true_2 by eauto.
  rewrite Hfile. cbn [of_option]. rewrite rows_of_summary; [done|]. by eapply with_efficiency_some.
Qed.

End Summary.

(** ** Commands *)

Section Commands.
Context {F : Type} `{!Floats F} (json_loads : string → result pyval) (exec : capturing) (se : setting).

Lemma runs_write_run_files results b n k : runs (write_run_files results b n k) [].
Proof using Type. unfold write_run_files. runs_step. apply runs_ret. Qed.

Lemma run_point_blocks p : runs_blocks (run_point (F:=F) json_loads exec se p) [[up_command se p; down_command se p]].
Proof using Type.
  destruct p as [[b n] k]. unfold run_point. apply runs_blocks_after; [apply runs_write_run_files|]. intros _.
  apply runs_blocks_end; [|intros; apply runs_lift]. apply runs_blocks_one.
  apply (h_calls_finally _ _ [_] [_]); intros h; [apply h_calls_output|apply h_calls_run].
Qed.

Lemma runs_load : runs (load_existing_rows (F:=F) se) [].
Proof using Type.
  unfold load_existing_rows. apply runs_after; [auto with host|]. intros [|]; [|apply runs_ret].
  runs_step. apply runs_lift.
Qed.

(** The commands of a whole experiment. *)
Definition blocks (a : arguments) : list (list (list string)) :=
  [[image_command a]] ++ ((λ p, [up_command se p; down_command se p]) <$> points a) ++ [[analyze_command se]].

(** C34: an experiment leaves no containers behind.  The script runs the image command, then for
    every benchmark, container count and repetition in order the command that starts the
    containers directly followed by the one that removes them and their volumes, then the
    analysis; on any failure it stops after an initial part of these steps, and a start, failed
    or not, is always followed by its removal. *)
Theorem experiment_cleans_up clear a : runs clear [] → runs_blocks (main (F:=F) json_loads exec se clear a) (blocks a).
Proof using Type.
  intros Hclear. unfold main, blocks. do 2 (apply runs_blocks_after; [auto with host|intros _]).
  apply runs_blocks_after; [done|intros _]. apply runs_blocks_bind.
  { apply runs_blocks_one. intros h. apply h_calls_run. }
  intros _. apply runs_blocks_after; [destruct (ar_append a); [apply runs_load|apply runs_ret]|]. intros rows.
  apply runs_blocks_bind; [apply runs_blocks_map, run_point_blocks|]. intros collected.
  unfold write_summary. do 3 (apply runs_blocks_after; [auto with host|intros ?]).
  apply runs_blocks_one. intros h. apply h_calls_run.
Qed.

End Commands.

(** ** Examples *)

#[local] Instance integer_laws : FloatLaws Z.
Proof.
  split; [done|]. intros x n Hn. cbn. unfold id. by rewrite (proj2 (Z.eqb_neq n 0) Hn).
Qed.

Definition demo_sample : pydict :=
  match measurement (demo_config []) (λ a b, Ok (PInt 0)) (demo_cpu_reply <$> CPU_ROLES) 3000000000 with
  | Ok sample => sample
  | Err _ => []
  end.

Definition demo_log : string :=
  "ready" +:+ nl +:+ "node0-1  | " +:+ MARKER +:+ json_dumps (PDict demo_sample) +:+ nl.

Lemma measurement_collected_witness :
  ∃ r : row Z, collect_measurement (λ _, Ok (PDict demo_sample)) demo_log 2 1 = Ok r ∧
    rw_benchmark r = "demo" ∧ rw_total r = 3.
Proof.
  destruct (measurement_collected (F:=Z) (λ _, Ok (PDict demo_sample)) (demo_config []) (λ a b, Ok (PInt 0))
    (demo_cpu_reply <$> CPU_ROLES) 3000000000 demo_sample 0 demo_log ["ready"] "node0-1  | " [] 2 1)
    as (r & H1 & H2 & _ & _ & _ & _ & H3 & _).
  1, 2: vm_compute; reflexivity.
  1: intros l ->%list_elem_of_singleton; reflexivity.
  1-3: reflexivity.
  exists r. split; [exact H1|]. split; [rewrite H2; reflexivity|]. vm_compute in H3. by injection H3.
Defined.

Definition demo_rows : list (row Z) := [Row "MLP, small" 1 1 40 4 2 0 None; Row "MLP, small" 2 1 25 5 3 0 None].
Definition demo_setting : setting := Setting "/results" "python3" "/scripts/analyze_results.py" id.
Definition demo_host : host := Host (Filesystem {["/results"]} ∅) [] 0.
Definition still : capturing := λ _ _ fs, (fs, (0, "")).

Lemma summary_round_trip_witness :
  ∃ h' stored, write_summary still demo_setting demo_rows demo_host = (h', Ok ()) ∧
    load_existing_rows demo_setting h' = (h', Ok stored) ∧ length stored = 2%nat.
Proof.
  destruct (write_summary still demo_setting demo_rows demo_host) as [h' [[]|e]] eqn:E; [|vm_compute in E; discriminate E].
  destruct (summary_round_trip still demo_setting demo_rows demo_host h' E) as (stored & H1 & H2); [reflexivity|].
  exists h', stored. split; [reflexivity|]. split; [exact H2|]. vm_compute in H1. by injection H1 as <-.
Defined.

Lemma experiment_cleans_up_witness :
  runs_blocks (main (F:=Z) (λ _, Err TypeError) still demo_setting (mret ()) (Arguments 1 ["mlp"] false true))
    (blocks demo_setting (Arguments 1 ["mlp"] false true)) ∧
  length (blocks demo_setting (Arguments 1 ["mlp"] false true)) = 6%nat.
Proof. split; [apply experiment_cleans_up, runs_ret|reflexivity]. Defined.
