(* ===== verification/Traces.v ===== *)
(** * Command traces and polling loops

    The scripts that drive a Docker Swarm poll it until something happens or a deadline passes,
    and clean up whatever happened.  This file gives them the polling loop, whose fuel is enough
    when the clock advances, and a logic for the commands a program appends to the trace. *)

From S2P Require Import Prelude PyValue Worker Host.

(** ** Traces *)

(** Every run of [m] appends commands that, with its result, satisfy [Q]. *)
Definition traced {A} (m : H A) (Q : list (list string) → result A → Prop) : Prop :=
  ∀ h, ∃ cs, h_calls (m h).1 = h_calls h ++ cs ∧ Q cs (m h).2.

Lemma traced_impl {A} (m : H A) (Q R : list (list string) → result A → Prop) :
  traced m Q → (∀ cs r, Q cs r → R cs r) → traced m R.
Proof. intros Hm Himp h. destruct (Hm h) as (cs & Hc & HQ). exists cs. auto. Qed.

Lemma traced_bind {A B} (m : H A) (f : A → H B) Q R :
  traced m Q →
  (∀ cs a, Q cs (Ok a) → traced (f a) (λ cs' r, R (cs ++ cs') r)) → (∀ cs e, Q cs (Err e) → R cs (Err e)) →
  traced (m ≫= f) R.
Proof.
  intros Hm Hf He h. destruct (Hm h) as (cs & Hc & HQ). unfold mbind, H_bind. destruct (m h) as [h1 [a|e]]; cbn [fst snd] in *.
  - destruct (Hf _ _ HQ h1) as (cs' & Hc' & HR). exists (cs ++ cs'). by rewrite Hc', Hc, app_assoc.
  - exists cs. auto.
Qed.

(** Only commands that satisfy [p] are run. *)
Definition only {A} (p : list string → Prop) (m : H A) : Prop := traced m (λ cs _, Forall p cs).

Lemma only_quiet {A} p (m : H A) : runs m [] → only p m.
Proof.
  intros Hm h. destruct (Hm h) as (ran & left_ & Heq & Hc & _). symmetry in Heq. apply app_eq_nil in Heq as [-> ->].
  exists []. split; [done|constructor].
Qed.

Lemma only_bind {A B} p (m : H A) (f : A → H B) : only p m → (∀ a, only p (f a)) → only p (m ≫= f).
Proof.
  intros Hm Hf. eapply traced_bind; [exact Hm| |done]. intros cs a Hcs. eapply traced_impl; [apply Hf|].
  intros cs' r Hcs'. by apply Forall_app.
Qed.

Lemma only_capture p exec command : p command → only p (h_capture exec command).
Proof.
  intros Hp h. exists [command]. unfold h_capture. destruct (exec _ command (h_fs h)). split; [done|by constructor].
Qed.

Lemma only_output p exec command : p command → only p (h_output exec command).
Proof. intros Hp. apply only_bind; [by apply only_capture|]. intros out. apply only_quiet, runs_lift. Qed.

Lemma only_run p exec command : p command → only p (h_run exec command).
Proof.
  intros Hp h. exists [command]. unfold h_run. destruct (exec _ command (h_fs h)). split; [done|by constructor].
Qed.

Lemma only_for {A} p (f : A → H unit) l : (∀ x, x ∈ l → only p (f x)) → only p (h_for f l).
Proof.
  induction l as [|x l IH]; intros Hf; [apply only_quiet, runs_ret|].
  apply only_bind; [apply Hf; by left|]. intros _. apply IH. intros y Hy. apply Hf. by right.
Qed.

Lemma only_map {A B} p (f : A → H B) l : (∀ x, x ∈ l → only p (f x)) → only p (h_map f l).
Proof.
  induction l as [|x l IH]; intros Hf; [apply only_quiet, runs_ret|].
  apply only_bind; [apply Hf; by left|]. intros y. apply only_bind; [apply IH; intros z Hz; apply Hf; by right|].
  intros ys. apply only_quiet, runs_ret.
Qed.

Lemma only_except {A} p (m : H A) handles handler :
  only p m → (∀ e, only p (handler e)) → only p (h_except m handles handler).
Proof.
  intros Hm Hh h. unfold h_except. destruct (Hm h) as (cs & Hc & Hcs). destruct (m h) as [h1 [a|e]]; cbn [fst snd] in *.
  - by exists cs.
  - destruct (handles e); [|by exists cs]. destruct (Hh e h1) as (cs' & Hc' & Hcs'). exists (cs ++ cs').
    rewrite Hc', Hc, app_assoc. split; [done|by apply Forall_app].
Qed.

(** The result of a cleaned-up program: its own, unless the cleaning up fails. *)
Definition after_cleanup {A} (r : result A) (c : result unit) : result A := match c with Ok _ => r | Err e => Err e end.

Lemma traced_finally {A} (m : H A) cleanup Q R :
  traced m Q → traced cleanup R →
  traced (h_finally m cleanup) (λ cs r, ∃ cs1 cs2 r1 r2, cs = cs1 ++ cs2 ∧ Q cs1 r1 ∧ R cs2 r2 ∧ r = after_cleanup r1 r2).
Proof.
  intros Hm Hc h. unfold h_finally. destruct (Hm h) as (cs1 & H1 & HQ). destruct (m h) as [h1 r]. cbn [fst snd] in *.
  destruct (Hc h1) as (cs2 & H2 & HR). destruct (cleanup h1) as [h2 o]. cbn [fst snd] in *.
  exists (cs1 ++ cs2). destruct o; cbn [fst snd]; (split; [by rewrite H2, H1, app_assoc|]); do 4 eexists; (split; [done|]);
    (split; [exact HQ|]); split; [exact HR|done|exact HR|done].
Qed.

(** ** Errors *)

(** [m] only raises errors that satisfy [P]. *)
Definition raises {A} (P : exn → Prop) (m : H A) : Prop := ∀ h e, (m h).2 = Err e → P e.

Definition os_error (e : exn) : Prop := ∃ m, e = OSError m.

Lemma raises_impl {A} (P Q : exn → Prop) (m : H A) : raises P m → (∀ e, P e → Q e) → raises Q m.
Proof. intros Hm Hpq h e He. eauto. Qed.

Lemma raises_bind {A B} P (m : H A) (f : A → H B) : raises P m → (∀ a, raises P (f a)) → raises P (m ≫= f).
Proof.
  intros Hm Hf h e. unfold mbind, H_bind. specialize (Hm h). destruct (m h) as [h1 [a|e1]]; [apply Hf|].
  intros [= ->]. by apply Hm.
Qed.

Lemma raises_ret {A} P (a : A) : raises P (mret a).
Proof. done. Qed.

Lemma raises_for {A} P (f : A → H unit) l : (∀ x, raises P (f x)) → raises P (h_for f l).
Proof. intros Hf. induction l as [|x l IH]; [done|]. by apply raises_bind. Qed.

Lemma raises_except {A} P Q (m : H A) handles handler :
  raises P m → (∀ e, P e → handles e = false → Q e) → (∀ e, raises Q (handler e)) → raises Q (h_except m handles handler).
Proof.
  intros Hm Hpq Hh h e. unfold h_except. specialize (Hm h). destruct (m h) as [h1 [a|e1]]; [done|].
  destruct (handles e1) eqn:E; [apply Hh|]. intros [= <-]. apply Hpq; [by apply Hm|done].
Qed.

Lemma raises_write path text : raises os_error (h_write path text).
Proof.
  intros h e. unfold h_write, write_bytes. destruct (_ || _); cbn; [|done]. intros [= <-]. by eexists.
Qed.

Lemma raises_mkdir path : raises os_error (h_mkdir path).
Proof. intros h e. unfold h_mkdir. destruct (bool_decide _); [|done]. intros [= <-]. by eexists. Qed.

Lemma raises_capture exec command P : raises P (h_capture exec command).
Proof. intros h e. unfold h_capture. by destruct (exec _ _ _). Qed.

Lemma raises_is_file path P : raises P (h_is_file path).
Proof. done. Qed.

Lemma raises_now clock P : raises P (h_now clock).
Proof. done. Qed.

(** A checked command fails with the error of a non-zero exit status. *)
Definition status_error (e : exn) : Prop := ∃ m, e = RuntimeError m.

Lemma raises_output exec command : raises status_error (h_output exec command).
Proof.
  apply raises_bind; [apply raises_capture|]. intros [status text] h e. cbn. unfold check_returncode. cbn.
  destruct (status =? 0); [done|]. intros [= <-]. by eexists.
Qed.

Create HintDb trace.
#[export] Hint Resolve only_capture only_output only_run only_for only_map only_bind only_except
  raises_bind raises_ret raises_for raises_write raises_mkdir raises_capture raises_is_file raises_now : trace.

Lemma traced_and {A} (m : H A) (P : exn → Prop) Q : traced m Q → raises P m → traced m (λ cs r, Q cs r ∧ ∀ e, r = Err e → P e).
Proof. intros Hm Hr h. destruct (Hm h) as (cs & Hc & HQ). exists cs. split; [done|]. split; [done|]. apply Hr. Qed.

(** ** Polling *)

(** [while now() < deadline: ...] with a body that may leave the loop with a value, and what
    follows when the deadline has passed. *)
Fixpoint h_poll {A} (clock : nat → Z) (deadline : Z) (body : H (option A)) (expired : H A) (fuel : nat) : H A :=
  match fuel with
  | O => h_lift (Err (TimeoutError "the clock stands still"))
  | S fuel =>
      now ← h_now clock;
      if now <? deadline then
        r ← body;
        match r with
        | Some a => mret a
        | None => h_poll clock deadline body expired fuel
        end
      else expired
  end.

(** Enough for a loop that starts before the deadline with [span] time left. *)
Definition poll_fuel (span : Z) : nat := S (S (Z.to_nat span)).

(** Each reading of the clock is later than the one before. *)
Definition ticking (clock : nat → Z) : Prop := ∀ i, clock i + 1 ≤ clock (S i).

(** [m] does not take readings back. *)
Definition reads_on {A} (m : H A) : Prop := ∀ h, (h_reads h ≤ h_reads (m h).1)%nat.

Lemma ticking_le clock i j : ticking clock → (i ≤ j)%nat → clock i + Z.of_nat (j - i) ≤ clock j.
Proof.
  intros Ht Hle. induction Hle as [|j Hle IH]; [replace (i - i)%nat with O by lia; lia|].
  replace (Z.of_nat (S j - i)) with (Z.of_nat (j - i) + 1) by lia. specialize (Ht j). lia.
Qed.

Lemma reads_on_bind {A B} (m : H A) (f : A → H B) : reads_on m → (∀ a, reads_on (f a)) → reads_on (m ≫= f).
Proof.
  intros Hm Hf h. unfold mbind, H_bind. specialize (Hm h). destruct (m h) as [h1 [a|e]]; cbn [fst] in *; [|done].
  specialize (Hf a h1). lia.
Qed.

Lemma reads_on_ret {A} (a : A) : reads_on (mret a).
Proof. by intros h. Qed.

Lemma reads_on_lift {A} (r : result A) : reads_on (h_lift r).
Proof. by intros h. Qed.

Lemma reads_on_now clock : reads_on (h_now clock).
Proof. intros h. cbn. lia. Qed.

Lemma reads_on_write path text : reads_on (h_write path text).
Proof. intros h. unfold h_write. destruct (write_bytes _ _ _). cbn. lia. Qed.

Lemma reads_on_mkdir path : reads_on (h_mkdir path).
Proof. intros h. unfold h_mkdir. destruct (bool_decide _); cbn; lia. Qed.

Lemma reads_on_capture exec command : reads_on (h_capture exec command).
Proof. intros h. unfold h_capture. destruct (exec _ _ _). cbn. lia. Qed.

Lemma reads_on_for {A} (f : A → H unit) l : (∀ x, reads_on (f x)) → reads_on (h_for f l).
Proof. intros Hf. induction l as [|x l IH]; [apply reads_on_ret|]. by apply reads_on_bind. Qed.

Lemma reads_on_map {A B} (f : A → H B) l : (∀ x, reads_on (f x)) → reads_on (h_map f l).
Proof.
  intros Hf. induction l as [|x l IH]; [apply reads_on_ret|]. apply reads_on_bind; [done|]. intros y.
  apply reads_on_bind; [done|]. intros ys. apply reads_on_ret.
Qed.

Create HintDb reads.
#[export] Hint Resolve reads_on_bind reads_on_ret reads_on_lift reads_on_now reads_on_write reads_on_mkdir
  reads_on_capture reads_on_for reads_on_map : reads.

(** The state after a program that ended with a value. *)
Lemma reads_on_Ok {A} (m : H A) h h' r : reads_on m → m h = (h', r) → (h_reads h ≤ h_reads h')%nat.
Proof. intros Hm He. specialize (Hm h). by rewrite He in Hm. Qed.

(** More fuel than enough changes nothing. *)
Lemma h_poll_enough {A} clock deadline (body : H (option A)) expired fuel more h :
  ticking clock → reads_on body → (Z.to_nat (deadline - clock (h_reads h)) < fuel)%nat →
  h_poll clock deadline body expired (fuel + more) h = h_poll clock deadline body expired fuel h.
Proof.
  intros Ht Hb. revert h. induction fuel as [|fuel IH]; intros h Hf; [lia|]. cbn [Nat.add h_poll].
  unfold mbind at 1 3, H_bind at 1 3, h_now. destruct (Z.ltb_spec (clock (h_reads h)) deadline); [|done].
  unfold mbind, H_bind. specialize (Hb (Host (h_fs h) (h_calls h) (S (h_reads h)))).
  destruct (body _) as [h1 [[a|]|e]]; [done| |done]. cbn [fst h_reads] in Hb. apply IH.
  pose proof (ticking_le clock (h_reads h) (h_reads h1) Ht ltac:(lia)). lia.
Qed.

Lemma only_poll {A} p clock deadline (body : H (option A)) expired fuel :
  only p body → only p expired → only p (h_poll clock deadline body expired fuel).
Proof.
  intros Hb He. induction fuel as [|fuel IH]; [apply only_quiet, runs_lift|]. cbn [h_poll].
  apply only_bind; [apply only_quiet, runs_now|]. intros now. destruct (now <? deadline); [|done].
  apply only_bind; [done|]. intros [a|]; [apply only_quiet, runs_ret|done].
Qed.

(** What a loop that ends with a value has seen: the body gave it, or the deadline passed. *)
Lemma h_poll_Ok {A} clock deadline (body : H (option A)) expired fuel h h' a :
  h_poll clock deadline body expired fuel h = (h', Ok a) →
  (∃ h1, body h1 = (h', Ok (Some a))) ∨ (∃ h1, deadline ≤ clock (h_reads h1) ∧
     expired (Host (h_fs h1) (h_calls h1) (S (h_reads h1))) = (h', Ok a)).
Proof.
  revert h. induction fuel as [|fuel IH]; intros h Hp; [done|]. cbn [h_poll] in Hp.
  apply H_bind_Ok in Hp as (h1 & now & [= <- <-] & Hp).
  destruct (Z.ltb_spec (clock (h_reads h)) deadline).
  - apply H_bind_Ok in Hp as (h2 & r & Hb & Hp). destruct r as [b|]; [|by apply IH in Hp].
    left. injection Hp as <- <-. eauto.
  - right. eauto.
Qed.

(** A loop that carries a state; the flag of the body, and of the result, tells whether the loop
    was left by [break]. *)
Fixpoint h_loop {T} (clock : nat → Z) (deadline : Z) (body : T → H (bool * T)) (fuel : nat) (t : T) : H (bool * T) :=
  match fuel with
  | O => h_lift (Err (TimeoutError "the clock stands still"))
  | S fuel =>
      now ← h_now clock;
      if now <? deadline then
        r ← body t;
        if r.1 : bool then mret r else h_loop clock deadline body fuel r.2
      else mret (false, t)
  end.

Lemma h_loop_enough {T} clock deadline (body : T → H (bool * T)) fuel more t h :
  ticking clock → (∀ t, reads_on (body t)) → (Z.to_nat (deadline - clock (h_reads h)) < fuel)%nat →
  h_loop clock deadline body (fuel + more) t h = h_loop clock deadline body fuel t h.
Proof.
  intros Ht Hb. revert t h. induction fuel as [|fuel IH]; intros t h Hf; [lia|]. cbn [Nat.add h_loop].
  unfold mbind at 1 3, H_bind at 1 3, h_now. destruct (Z.ltb_spec (clock (h_reads h)) deadline); [|done].
  unfold mbind, H_bind. specialize (Hb t (Host (h_fs h) (h_calls h) (S (h_reads h)))).
  destruct (body t _) as [h1 [[[] t1]|e]]; cbn [fst snd]; [done| |done]. cbn [fst h_reads] in Hb. apply IH.
  pose proof (ticking_le clock (h_reads h) (h_reads h1) Ht ltac:(lia)). lia.
Qed.

Lemma only_loop {T} p clock deadline (body : T → H (bool * T)) fuel t :
  (∀ t, only p (body t)) → only p (h_loop clock deadline body fuel t).
Proof.
  intros Hb. revert t. induction fuel as [|fuel IH]; intros t; [apply only_quiet, runs_lift|]. cbn [h_loop].
  apply only_bind; [apply only_quiet, runs_now|]. intros now. destruct (now <? deadline); [|apply only_quiet, runs_ret].
  apply only_bind; [done|]. intros [[] t']; [apply only_quiet, runs_ret|apply IH].
Qed.

(** A reading taken. *)
Definition tick (h : host) : host := Host (h_fs h) (h_calls h) (S (h_reads h)).

(** An invariant of the state, and what a [break] establishes. *)
Lemma h_loop_Ok {T} clock deadline (body : T → H (bool * T)) fuel t h h' b t' (I J : host → T → Prop) :
  h_loop clock deadline body fuel t h = (h', Ok (b, t')) → I h t → (∀ h t, I h t → I (tick h) t) →
  (∀ t h h' b t', I h t → body t h = (h', Ok (b, t')) → if b : bool then J h' t' else I h' t') →
  if b then J h' t' else I h' t'.
Proof.
  intros H Hi Htick Hstep. revert t h H Hi. induction fuel as [|fuel IH]; intros t h H Hi; [done|]. cbn [h_loop] in H.
  apply H_bind_Ok in H as (h1 & now & [= <- <-] & H). apply Htick in Hi. change (Host _ _ _) with (tick h) in H.
  destruct (clock (h_reads h) <? deadline); [|by injection H as <- <- <-].
  apply H_bind_Ok in H as (h2 & [b1 t1] & Hb & H). specialize (Hstep _ _ _ _ _ Hi Hb).
  destruct b1; cbn [fst snd] in H; [by injection H as <- <- <-|by eapply IH].
Qed.

Lemma reads_on_loop {T} clock deadline (body : T → H (bool * T)) fuel t :
  (∀ t, reads_on (body t)) → reads_on (h_loop clock deadline body fuel t).
Proof.
  intros Hb. revert t. induction fuel as [|fuel IH]; intros t; [apply reads_on_lift|]. cbn [h_loop].
  apply reads_on_bind; [apply reads_on_now|]. intros now. destruct (now <? deadline); [|apply reads_on_ret].
  apply reads_on_bind; [done|]. intros [[] t']; [apply reads_on_ret|apply IH].
Qed.

#[export] Hint Resolve reads_on_loop : reads.

(** ** Guarded commands *)

Section Guard.
Context (command : list string) (good : list (list string) → nat → Prop).
Context (good_app : ∀ cs cs' i, good cs i → good (cs ++ cs') i).

(** From [h] on, [m] only adds to the trace, and runs [command] only where [good] holds of the
    trace and the position. *)
Definition guarded_at {A} (m : H A) (h : host) : Prop :=
  (∃ cs, h_calls (m h).1 = h_calls h ++ cs) ∧
  ∀ i, (length (h_calls h) ≤ i)%nat → h_calls (m h).1 !! i = Some command → good (h_calls (m h).1) i.

Lemma guarded_only {A} (m : H A) h : only (λ c, c ≠ command) m → guarded_at m h.
Proof using Type.
  intros Hm. destruct (Hm h) as (cs & Heq & Hcs). split; [by exists cs|]. intros i Hi Hc.
  rewrite Heq, lookup_app_r in Hc by done. rewrite Forall_forall in Hcs.
  by destruct (Hcs _ (list_elem_of_lookup_2 _ _ _ Hc)).
Qed.

Lemma guarded_bind {A B} (m : H A) (f : A → H B) h :
  guarded_at m h → (∀ h1 a, m h = (h1, Ok a) → guarded_at (f a) h1) → guarded_at (m ≫= f) h.
Proof using good_app.
  unfold guarded_at, mbind, H_bind. intros [[cs Hcs] Hm] Hf. destruct (m h) as [h1 [a|e]] eqn:E; cbn [fst] in *; [|by split; [exists cs|]].
  destruct (Hf h1 a eq_refl) as [[cs' Heq] Hgood]. split; [exists (cs ++ cs'); by rewrite Heq, Hcs, app_assoc|].
  intros i Hi Hc. destruct (decide (length (h_calls h1) ≤ i)%nat) as [Hle|Hlt]; [by apply Hgood|].
  rewrite Heq in *. apply good_app, Hm; [done|]. by rewrite lookup_app_l in Hc by lia.
Qed.

Lemma guarded_after {A B} (m : H A) (f : A → H B) h :
  only (λ c, c ≠ command) m → (∀ h1 a, m h = (h1, Ok a) → guarded_at (f a) h1) → guarded_at (m ≫= f) h.
Proof using good_app. intros Hm. apply guarded_bind, guarded_only, Hm. Qed.

End Guard.
