(* ===== verification/Swarm.v ===== *)
(** * Running native workloads on a Swarm

    Model of [src/scripts/run_real_swarm.py]: the checks of the Swarm, the generator pipeline of
    one workload, the deployment of its stack, the polling of the coordinator and the capture of
    evidence before the stack is removed.  Docker is the effect of the commands; the clock is a
    sequence of readings. *)

From S2P Require Import Prelude PyValue Worker Proxy Feedback Host Traces.

Record site := Site {
  si_python : string;                      (** [sys.executable] *)
  si_root : string;                        (** [ROOT] *)
  si_parent : string;                      (** [ROOT.parent] *)
  si_loads : string → result pyval;        (** [json.loads] *)
  si_clock : nat → Z;                      (** readings of [time.monotonic] *)
  si_second : Z;                           (** how far a second is on that clock *)
  si_exec : capturing;                     (** Docker and the generators *)
}.

Definition WORKLOAD_PARAMETERS : list (string * (Z * Z)) :=
  [("mlp", (6, 4)); ("dlrm", (4, 4)); ("resnet", (6, 200)); ("bfs", (6, 4))].

(** A non-zero exit status of a checked command. *)
Definition is_called_process_error (e : exn) : bool := match e with RuntimeError _ => true | _ => false end.

(** ** Text of commands *)

Definition docker_info : list string := ["docker"; "info"; "--format"; "{{.Swarm.LocalNodeState}}"].
Definition node_ls : list string := ["docker"; "node"; "ls"; "--format"; "{{json .}}"].
Definition node_inspect (id : string) : list string := ["docker"; "node"; "inspect"; id].
Definition service_ps (stack : string) : list string :=
  ["docker"; "service"; "ps"; stack +:+ "_coordinator"; "--format"; "{{json .}}"].
Definition stack_ls : list string := ["docker"; "stack"; "ls"; "--format"; "{{.Name}}"].
Definition network_ls : list string := ["docker"; "network"; "ls"; "--format"; "{{.Name}}"].
Definition service_logs (stack service : string) : list string := ["docker"; "service"; "logs"; stack +:+ "_" +:+ service].
Definition stack_deploy (file stack : string) : list string := ["docker"; "stack"; "deploy"; "--compose-file"; file; stack].
Definition stack_rm (stack : string) : list string := ["docker"; "stack"; "rm"; stack].
Definition docker_ps (stack : string) : list string :=
  ["docker"; "ps"; "--filter"; "label=com.docker.swarm.service.name=" +:+ stack +:+ "_coordinator"; "--format"; "{{.ID}}"].
Definition find_logs (container : string) : list string :=
  ["docker"; "exec"; container; "/bin/bash"; "-lc"; "find /opt/legosim -maxdepth 1 -type d -name 'proc_r*' -print"].
Definition docker_cp (container path destination : string) : list string :=
  ["docker"; "cp"; container +:+ ":" +:+ path; destination].

(** A digit from 1 to 9 and more digits after the marker, all matches from the left. *)
Definition STATUS_MARKER : string := "terminate with status = ".

Definition failure_at (s : string) : option (string * string) :=
  match strip_prefix STATUS_MARKER s with
  | Some (String c r) =>
      if is_digit c && negb (Ascii.eqb c "0"%char)
      then let '(d, rest) := span_digits r in Some (String c d, rest) else None
  | _ => None
  end.

(** [re.findall] with that pattern. *)
Definition child_failures : string → list string := scan failure_at.

Section Swarm.
Context (si : site).

Definition run (command : list string) : H unit := out ← h_output (si_exec si) command; mret ().
Definition output (command : list string) : H string := h_output (si_exec si) command.

Definition require_active_swarm : H unit :=
  text ← output docker_info;
  h_lift (raise_if (negb (String.eqb (strip text) "active")) (RuntimeError "Docker Swarm is not active on this manager")).

(** [[json.loads(line) for line in text.splitlines() if line]] *)
Definition json_lines (text : string) : result (list pyval) :=
  mapM (si_loads si) (filter (λ line, line ≠ "") (splitlines text)).

Definition node_id (v : pyval) : result string :=
  d ← is_dict v ?! TypeError; i ← dict_item "ID" d; is_str i ?! TypeError.

(** [(v or {}).items()] *)
Definition dict_or_empty (v : pyval) : result pydict := if truthy v then is_dict v ?! AttributeError else Ok [].

(** [{str(key): str(value) ...}] *)
Definition text_items (d : pydict) : list (string * string) := (λ kv, (kv.1, py_str kv.2)) <$> d.

(** [json.loads(stdout)[0].get("Spec", {}).get("Labels", {}) or {}] with keys and values as texts *)
Definition labels_of (text : string) : result (list (string * string)) :=
  v ← si_loads si text;
  l ← is_list v ?! TypeError;
  first ← head l ?! IndexError;
  d ← is_dict first ?! AttributeError;
  spec ← is_dict (dict_get_default "Spec" (PDict []) d) ?! AttributeError;
  let labels := dict_get_default "Labels" (PDict []) spec in
  kvs ← dict_or_empty labels;
  Ok (text_items kvs).

Definition label (slot : Z) : string := "chipsystemsim.node." +:+ str_of_Z slot.

Definition has_label (labels : list (string * string)) (slot : Z) : bool :=
  match dict_get (label slot) labels with Some v => String.eqb v "true" | None => false end.

Definition require_node_labels (node_count : Z) : H unit :=
  text ← output node_ls;
  nodes ← h_lift (json_lines text);
  _ ← h_lift (raise_if (zlen nodes <? node_count)
        (RuntimeError ("need " +:+ str_of_Z node_count +:+ " Swarm nodes, found " +:+ str_of_Z (zlen nodes))));
  labels_by_node ← h_map (λ v, id ← h_lift (node_id v); text ← output (node_inspect id); h_lift (labels_of text)) nodes;
  h_for (λ slot, h_lift (raise_if (negb (existsb (λ labels, has_label labels slot) labels_by_node))
      (RuntimeError ("no Swarm node has label " +:+ label slot +:+ "=true")))) (seqZ 0 node_count).

Definition task_state (v : pyval) : result string :=
  d ← is_dict v ?! AttributeError; Ok (py_str (dict_get_default "CurrentState" (PStr "") d)).

(** Completion and running tasks are preferred over retained failures. *)
Definition aggregate_state (states : list string) : string :=
  if existsb (startswith "Complete") states then "Complete"
  else if existsb (startswith "Running") states then "Running"
  else if existsb (startswith "Failed") states then "Failed"
  else if existsb (startswith "Rejected") states then "Rejected"
  else default "missing" (head states).

Definition coordinator_state (stack : string) : H string :=
  text ← output (service_ps stack);
  tasks ← h_lift (json_lines text);
  states ← h_lift (mapM task_state tasks);
  mret (aggregate_state states).

(** One look at the stacks and networks. *)
Definition removal_body (stack : string) : H (option ()) :=
  stacks ← output stack_ls;
  networks ← output network_ls;
  mret (if existsb (String.eqb stack) (splitlines stacks) ||
           existsb (String.eqb (stack +:+ "_chipsystemsim")) (splitlines networks) then None else Some ()).

Definition REMOVAL_TIMEOUT : Z := 60.

Definition wait_for_stack_removal (stack : string) : H unit :=
  now ← h_now (si_clock si);
  h_poll (si_clock si) (now + REMOVAL_TIMEOUT * si_second si) (removal_body stack)
    (h_lift (Err (TimeoutError ("Swarm did not remove stack " +:+ stack +:+ " within " +:+ str_of_Z REMOVAL_TIMEOUT +:+ " seconds"))))
    (poll_fuel (REMOVAL_TIMEOUT * si_second si)).

(** ** Evidence *)

(** A command whose status is ignored. *)
Definition unchecked (command : list string) : H unit := _ ← h_capture (si_exec si) command; mret ().

(** The process logs of the container that [first_container] picks from the listing. *)
Definition capture_container (first_container : string → option string) (stack run_dir : string) : H unit :=
  h_except
    (text ← output (docker_ps stack);
     match first_container text with
     | None => mret ()
     | Some container =>
         paths ← output (find_logs container);
         let destination := path_div run_dir "coordinator-process-logs" in
         _ ← h_mkdir destination;
         h_for (λ path, if String.eqb (strip path) "" then mret () else unchecked (docker_cp container (strip path) destination))
           (splitlines paths)
     end)
    is_called_process_error (λ _, mret ()).

(** [stdout.splitlines()[0].strip()] *)
Definition first_container (text : string) : option string := strip <$> head (splitlines text).

Definition capture_process_logs : string → string → H unit := capture_container first_container.

Definition services (node_count : Z) : list string :=
  "coordinator" :: ((λ slot, "transport-" +:+ str_of_Z slot) <$> seqZ 0 node_count).

Definition log_path (run_dir service : string) : string := path_div run_dir (service +:+ ".log").

(** The log of one service, unless it is saved already. *)
Definition save_log (stack run_dir service : string) : H unit :=
  saved ← h_is_file (log_path run_dir service);
  if saved : bool then mret ()
  else h_except (text ← output (service_logs stack service); h_write (log_path run_dir service) text)
         is_called_process_error (λ _, mret ()).

(** The [finally] clause of [run_one]. *)
Definition tear_down (stack run_dir : string) (node_count : Z) : H unit :=
  _ ← h_for (save_log stack run_dir) (services node_count);
  _ ← capture_process_logs stack run_dir;
  _ ← unchecked (stack_rm stack);
  wait_for_stack_removal stack.

(** ** One workload *)

(** The options of [run_one] handed to the generators. *)
Record options := Options {
  op_timeout : Z;
  op_sniper_cores : option Z;
  op_sniper_maxthreads : option Z;
  op_stream_output : bool;
}.

Definition real (name : string) : string := path_div (path_div (si_root si) "real") name.
Definition script (name : string) (rest : list string) : list string := si_python si :: real name :: rest.

Definition optional_int (name : string) (v : option Z) : list string :=
  match v with Some n => [name; str_of_Z n] | None => [] end.

(** [manifest["workloads"][workload]["yaml"]] *)
Definition workload_yaml (text workload : string) : result string :=
  v ← si_loads si text;
  manifest ← is_dict v ?! TypeError;
  w ← dict_item "workloads" manifest;
  workloads ← is_dict w ?! TypeError;
  e ← dict_item workload workloads;
  entry ← is_dict e ?! TypeError;
  y ← dict_item "yaml" entry;
  is_str y ?! TypeError.

(** [str(Path(yaml).parent)]: what [relative_to] leaves of a relative manifest path. *)
Definition parent_of (path : string) : string :=
  match rpartition_on "/" (path_str path) with Some (directory, _) => directory | None => "." end.

(** The four generator commands before the stack is named. *)
Definition preparation (o : options) (workload yaml run_dir : string) (node_count : Z) : list (list string) :=
  let file := path_div run_dir in
  let source_yaml := path_div (path_div (si_parent si) "LEGOSIM_MICRO") yaml in
  [ script "generate_placement.py" [workload; "--nodes"; str_of_Z node_count; "--output"; file "placement.json"];
    script "generate_simbricks_topology.py" ["--nodes"; str_of_Z node_count; "--output"; file "topology.json"];
    script "generate_simbricks_routing.py" ["--placement"; file "placement.json"; "--topology"; file "topology.json";
      "--output"; file "routing.json"];
    script "generate_distributed_yaml.py"
      (["--source-yaml"; source_yaml; "--placement"; file "placement.json";
        "--benchmark-root"; "/opt/legosim/" +:+ parent_of yaml; "--remote-phase2"] ++
       optional_int "--sniper-cores" (op_sniper_cores o) ++ optional_int "--sniper-maxthreads" (op_sniper_maxthreads o) ++
       ["--output"; file "workload.yml"] ++ (if op_stream_output o then ["--stream-output"] else [])) ].

Definition stack_command (run_dir image stack : string) (width flit_size : Z) : list string :=
  let file := path_div run_dir in
  script "generate_swarm_stack.py"
    ["--placement"; file "placement.json"; "--topology"; file "topology.json"; "--routing"; file "routing.json";
     "--workload-yaml"; file "workload.yml"; "--image"; image; "--output"; file "stack.yml";
     "--stack-name"; stack; "--topology-width"; str_of_Z width; "--flit-size"; str_of_Z flit_size].

(** One round of the polling loop: [Some] when the coordinator has completed cleanly. *)
Definition watch (stack run_dir : string) : H (option ()) :=
  state ← coordinator_state stack;
  if startswith "Complete" state then
    log_text ← output (service_logs stack "coordinator");
    _ ← h_write (log_path run_dir "coordinator") log_text;
    let failures := child_failures log_text in
    _ ← h_lift (raise_if (negb (zlen failures =? 0))
          (RuntimeError ("coordinator exited after failed native phase process(es): " +:+ join ", " failures)));
    mret (Some ())
  else if startswith "Failed" state || startswith "Rejected" state then
    h_lift (Err (RuntimeError ("coordinator failed: " +:+ state)))
  else mret None.

(** The [try] clause. *)
Definition deploy_and_watch (o : options) (stack run_dir : string) : H unit :=
  _ ← run (stack_deploy (path_div run_dir "stack.yml") stack);
  now ← h_now (si_clock si);
  h_poll (si_clock si) (now + op_timeout o * si_second si) (watch stack run_dir)
    (h_lift (Err (TimeoutError ("coordinator did not complete within " +:+ str_of_Z (op_timeout o) +:+ " seconds"))))
    (poll_fuel (op_timeout o * si_second si)).

Definition stack_name (workload : string) (node_count : Z) : string :=
  "chipsystemsim_" +:+ workload +:+ "_" +:+ str_of_Z node_count.

Definition run_dir_of (output_root workload : string) (node_count : Z) : string :=
  path_div output_root (workload +:+ "-nodes" +:+ str_of_Z node_count).

Definition prepare (o : options) (workload image output_root : string) (node_count : Z) : H unit :=
  parameters ← h_lift (dict_item workload WORKLOAD_PARAMETERS);
  let '(width, flit_size) := parameters in
  let run_dir := run_dir_of output_root workload node_count in
  let stack := stack_name workload node_count in
  _ ← h_mkdir_new run_dir;
  text ← h_read (real "workloads.json");
  yaml ← h_lift (workload_yaml text workload);
  _ ← h_for run (preparation o workload yaml run_dir node_count);
  _ ← wait_for_stack_removal stack;
  run (stack_command run_dir image stack width flit_size).

Definition run_one (o : options) (workload : string) (node_count : Z) (image output_root : string) : H unit :=
  let run_dir := run_dir_of output_root workload node_count in
  let stack := stack_name workload node_count in
  _ ← prepare o workload image output_root node_count;
  h_finally (deploy_and_watch o stack run_dir) (tear_down stack run_dir node_count).

(** ** The command line *)

Record arguments := Arguments {
  ar_image : option string;
  ar_workload_image : list string;
  ar_output_dir : string;
  ar_workloads : list string;
  ar_nodes : list Z;
  ar_options : options;
}.

Definition usage (message : string) : exn := SystemExit message.

(** One [--workload-image WORKLOAD=IMAGE]. *)
Definition add_image (images : list (string * string)) (item : string) : result (list (string * string)) :=
  match partition_on "=" item with
  | (workload, Some image) =>
      if is_ok (dict_item workload WORKLOAD_PARAMETERS) && negb (String.eqb image "") then
        _ ← raise_if (is_ok (dict_item workload images)) (usage ("duplicate --workload-image for " +:+ workload));
        Ok (dict_set workload image images)
      else Err (usage "--workload-image must be WORKLOAD=IMAGE")
  | _ => Err (usage "--workload-image must be WORKLOAD=IMAGE")
  end.

(** [not arguments.image]: a missing or empty default. *)
Definition no_default (a : arguments) : bool :=
  match ar_image a with Some i => String.eqb i "" | None => true end.

Definition missing_images (a : arguments) (images : list (string * string)) : list string :=
  filter (λ w, negb (is_ok (dict_item w images)) && no_default a = true) (ar_workloads a).

Definition image_for (a : arguments) (images : list (string * string)) (workload : string) : result string :=
  match dict_get workload images with Some i => Ok i | None => ar_image a ?! AssertionError end.

Definition main (a : arguments) : H unit :=
  images ← h_lift (fold_result add_image [] (ar_workload_image a));
  _ ← h_lift (raise_if (negb (zlen (missing_images a images) =? 0))
        (usage ("provide --image or --workload-image for: " +:+ join ", " (missing_images a images))));
  _ ← require_active_swarm;
  _ ← h_mkdir (ar_output_dir a);
  h_for (λ node_count,
    _ ← require_node_labels node_count;
    h_for (λ workload,
      image ← h_lift (image_for a images workload);
      run_one (ar_options a) workload node_count image (ar_output_dir a)) (ar_workloads a)) (ar_nodes a).

End Swarm.

(** ** Failures in a log *)

(** Somewhere the log reports a child that ended with a non-zero status. *)
Definition reports_failure (text : string) : Prop :=
  ∃ a c b, text = a +:+ STATUS_MARKER +:+ String c b ∧ is_digit c = true ∧ c ≠ "0"%char.

Lemma failure_at_Some s d rest : failure_at s = Some (d, rest) → (str_length rest < str_length s)%nat.
Proof.
  unfold failure_at. destruct (strip_prefix STATUS_MARKER s) as [[|c r]|] eqn:E; try done.
  apply strip_prefix_Some in E as ->. destruct (_ && _); [|done]. destruct (span_digits r) as [d' rest'] eqn:Es.
  intros [= <- <-]. rewrite str_length_app. cbn [str_length].
  assert (Hr : ∀ t d t', span_digits t = (d, t') → (str_length t' ≤ str_length t)%nat).
  { induction t as [|x t IH]; intros u t' Hs; cbn in Hs; [by injection Hs as <- <-|].
    destruct (is_digit x); [|by injection Hs as <- <-]. destruct (span_digits t) as [u' t'']. injection Hs as <- <-.
    specialize (IH _ _ eq_refl). cbn. lia. }
  specialize (Hr _ _ _ Es). lia.
Qed.

Lemma child_failures_nil text : child_failures text = [] ↔ ¬ reports_failure text.
Proof.
  unfold child_failures. rewrite scan_nil. split.
  - intros H (a & c & b & -> & Hd & Hc). specialize (H a (STATUS_MARKER +:+ String c b) eq_refl).
    unfold failure_at in H. rewrite (proj2 (strip_prefix_Some STATUS_MARKER (STATUS_MARKER +:+ String c b) (String c b)) eq_refl) in H.
    rewrite Hd, (proj2 (Ascii.eqb_neq c "0") Hc) in H. cbn in H. by destruct (span_digits b).
  - intros Hn a rest ->. unfold failure_at. destruct (strip_prefix STATUS_MARKER rest) as [[|c r]|] eqn:E; try done.
    apply strip_prefix_Some in E as ->. destruct (is_digit c) eqn:Hd; [|done].
    destruct (Ascii.eqb_spec c "0") as [->|Hc]; [done|]. cbn. exfalso. apply Hn. by exists a, c, r.
Qed.

Section Facts.
Context (si : site).

(** ** Removal *)

Lemma reads_on_body stack : reads_on (removal_body si stack).
Proof.
  intros h. unfold removal_body, output, h_output, h_capture, mbind, H_bind, h_lift.
  destruct (si_exec si _ stack_ls (h_fs h)) as [fs [status text]]. cbn [h_calls h_fs].
  destruct (check_returncode stack_ls (status, text)); cbn [h_calls h_fs]; [|done].
  destruct (si_exec si _ network_ls fs) as [fs' [status' text']]. by destruct (check_returncode network_ls (status', text')).
Qed.

(** What a wait changes and how long it lasts: its fuel is enough, it only lists stacks and
    networks, and when it succeeds the last listings show neither the stack nor its network. *)
Lemma removal_fuel stack h more :
  ticking (si_clock si) → 0 ≤ si_second si →
  wait_for_stack_removal si stack h =
  (now ← h_now (si_clock si);
   h_poll (si_clock si) (now + REMOVAL_TIMEOUT * si_second si) (removal_body si stack)
    (h_lift (Err (TimeoutError ("Swarm did not remove stack " +:+ stack +:+ " within " +:+ str_of_Z REMOVAL_TIMEOUT +:+ " seconds"))))
    (poll_fuel (REMOVAL_TIMEOUT * si_second si) + more)) h.
Proof using Type.
  intros Ht Hs. unfold wait_for_stack_removal, mbind, H_bind, h_now. symmetry. apply h_poll_enough; [done|apply reads_on_body|].
  cbn [h_reads]. unfold poll_fuel. specialize (Ht (h_reads h)). lia.
Qed.

Definition is_listing (c : list string) : Prop := c = stack_ls ∨ c = network_ls.

Lemma only_removal (p : list string → Prop) stack : p stack_ls → p network_ls → only p (wait_for_stack_removal si stack).
Proof using Type.
  intros H1 H2. apply only_bind; [apply only_quiet, runs_now|]. intros now.
  apply only_poll; [|apply only_quiet, runs_lift].
  apply only_bind; [by apply only_output|]. intros a. apply only_bind; [by apply only_output|]. intros b.
  apply only_quiet, runs_ret.
Qed.

(** ** Tearing down *)

Lemma raises_process_logs pick stack run_dir : raises os_error (capture_container si pick stack run_dir).
Proof using Type.
  unfold capture_container. apply (raises_except (λ e, status_error e ∨ os_error e)).
  - apply raises_bind; [eapply raises_impl; [apply raises_output|auto]|]. intros text.
    destruct (pick text) as [container|]; [|done].
    apply raises_bind; [eapply raises_impl; [apply raises_output|auto]|]. intros paths.
    apply raises_bind; [eapply raises_impl; [apply raises_mkdir|auto]|]. intros _. apply raises_for. intros path.
    destruct (String.eqb _ _); [done|]. apply raises_bind; [apply raises_capture|done].
  - intros e [[m ->]|?]; [done|auto].
  - done.
Qed.

Lemma raises_save_log stack run_dir service : raises os_error (save_log si stack run_dir service).
Proof using Type.
  unfold save_log. apply raises_bind; [done|]. intros [|]; [done|].
  apply (raises_except (λ e, status_error e ∨ os_error e)).
  - apply raises_bind; [eapply raises_impl; [apply raises_output|auto]|]. intros text.
    eapply raises_impl; [apply raises_write|auto].
  - intros e [[m ->]|?]; [done|auto].
  - done.
Qed.

(** A program all of whose commands may be anything. *)
Lemma traced_any {A} (m : H A) : only (λ _, True) m → traced m (λ _ _, True).
Proof using Type. intros Hm. by eapply traced_impl. Qed.

Lemma only_process_logs (p : list string → Prop) pick stack run_dir :
  (∀ c, c = docker_ps stack ∨ (∃ x, c = find_logs x) ∨ (∃ x y z, c = docker_cp x y z) → p c) →
  only p (capture_container si pick stack run_dir).
Proof using Type.
  intros Hp. unfold capture_container. apply only_except; [|intros; apply only_quiet, runs_ret].
  apply only_bind; [apply only_output, Hp; auto|]. intros text.
  destruct (pick text) as [container|]; [|apply only_quiet, runs_ret].
  apply only_bind; [apply only_output, Hp; eauto|]. intros paths.
  apply only_bind; [apply only_quiet, runs_mkdir_ok|]. intros _. apply only_for. intros path _.
  destruct (String.eqb _ _); [apply only_quiet, runs_ret|].
  apply only_bind; [apply only_capture, Hp; eauto 10|intros; apply only_quiet, runs_ret].
Qed.

Lemma only_save_log (p : list string → Prop) stack run_dir service :
  p (service_logs stack service) → only p (save_log si stack run_dir service).
Proof using Type.
  intros Hp. unfold save_log. apply only_bind; [apply only_quiet, runs_is_file|]. intros [|]; [apply only_quiet, runs_ret|].
  apply only_except; [|intros; apply only_quiet, runs_ret].
  apply only_bind; [by apply only_output|]. intros. apply only_quiet, runs_write.
Qed.

(** [rm] is run unless a file cannot be written. *)
Definition cleaned (rm : list string) (cs : list (list string)) (r : result ()) : Prop :=
  rm ∈ cs ∨ ∃ e, r = Err e ∧ os_error e.

(** Saving evidence may fail on the file system only. *)
Lemma traced_evidence {A} rm (m : H A) (f : A → H unit) :
  only (λ _, True) m → raises os_error m → (∀ a, traced (f a) (cleaned rm)) → traced (m ≫= f) (cleaned rm).
Proof using Type.
  intros Ho Hr Hf. eapply traced_bind; [apply traced_and; [by apply traced_any|exact Hr]| |].
  - intros cs a _. eapply traced_impl; [apply Hf|]. intros cs' r [Hin|He]; [left; set_solver|by right].
  - intros cs e [_ He]. right. eauto.
Qed.

Lemma traced_remove stack :
  traced (_ ← unchecked si (stack_rm stack); wait_for_stack_removal si stack) (cleaned (stack_rm stack)).
Proof using Type.
  eapply (traced_bind _ _ (λ cs _, cs = [stack_rm stack])).
  - intros h. exists [stack_rm stack]. unfold unchecked, mbind, H_bind, h_capture.
    by destruct (si_exec si _ (stack_rm stack) (h_fs h)) as [fs out].
  - intros cs [] ->. eapply traced_impl; [apply traced_any, (only_removal (λ _, True)); done|].
    intros cs' r _. left. set_solver.
  - intros cs e ->. left. set_solver.
Qed.

Lemma traced_tear_down stack run_dir n : traced (tear_down si stack run_dir n) (cleaned (stack_rm stack)).
Proof using Type.
  apply traced_evidence; [apply only_for; intros; by apply only_save_log|apply raises_for; intros; apply raises_save_log|].
  intros _. apply traced_evidence; [by apply only_process_logs|apply raises_process_logs|]. intros _. apply traced_remove.
Qed.

(** [deploy] is followed by [rm], unless evidence could not be written. *)
Definition removed {A} (deploy rm : list string) (cs : list (list string)) (r : result A) : Prop :=
  (deploy ∉ cs) ∨
  ∃ before after, cs = before ++ deploy :: after ∧ (deploy ∉ before) ∧ (rm ∈ after ∨ ∃ e, r = Err e ∧ os_error e).

Lemma traced_stack {A B} deploy rm (prep : H A) (work : A → H B) (clean : H unit) :
  only (λ c, c ≠ deploy) prep → (∀ a, traced (work a) (λ cs _, ∃ rest, cs = deploy :: rest)) →
  traced clean (cleaned rm) → traced (a ← prep; h_finally (work a) clean) (removed deploy rm).
Proof using Type.
  intros Hp Hw Hc. eapply traced_bind; [exact Hp| |].
  - intros cs a Hcs. eapply traced_impl; [apply traced_finally; [apply Hw|exact Hc]|].
    intros cs' r (cs1 & cs2 & r1 & r2 & -> & [rest ->] & HR & ->). right. exists cs, (rest ++ cs2).
    split; [done|]. split; [rewrite Forall_forall in Hcs; intros Hin; by apply (Hcs _ Hin)|].
    destruct HR as [Hin|(e & -> & He)]; [left; set_solver|right; eauto].
  - intros cs e Hcs. left. rewrite Forall_forall in Hcs. intros Hin. by apply (Hcs _ Hin).
Qed.

(** ** One workload *)

Lemma script_not_docker name rest c : si_python si ≠ "docker" → script si name rest ≠ "docker" :: c.
Proof using Type. intros Hp [= H _]. done. Qed.

Lemma only_prepare o workload image root n :
  si_python si ≠ "docker" →
  only (λ c, c ≠ stack_deploy (path_div (run_dir_of root workload n) "stack.yml") (stack_name workload n))
    (prepare si o workload image root n).
Proof using Type.
  intros Hp. set (p := λ c, c ≠ _). assert (Hs : ∀ name rest, p (script si name rest)) by (intros; by apply script_not_docker).
  unfold prepare. apply only_bind; [apply only_quiet, runs_lift|]. intros [width flit].
  apply only_bind; [apply only_quiet, runs_mkdir|]. intros _.
  apply only_bind; [apply only_quiet, runs_read|]. intros text.
  apply only_bind; [apply only_quiet, runs_lift|]. intros yaml.
  apply only_bind.
  { apply only_for. intros c Hc. apply only_bind; [|intros; apply only_quiet, runs_ret]. apply only_output.
    unfold preparation in Hc. set_unfold in Hc. destruct Hc as [->|[->|[->|[->|[]]]]]; apply Hs. }
  intros _. apply only_bind; [by apply only_removal|]. intros _.
  apply only_bind; [apply only_output, Hs|intros; apply only_quiet, runs_ret].
Qed.

(** A program that starts with a checked command. *)
Lemma traced_first {A} command (f : () → H A) :
  (∀ u, only (λ _, True) (f u)) → traced (u ← run si command; f u) (λ cs _, ∃ rest, cs = command :: rest).
Proof using Type.
  intros Hf. eapply (traced_bind _ _ (λ cs _, cs = [command])).
  - intros h. exists [command]. unfold run, h_output, mbind, H_bind, h_capture, h_lift.
    destruct (si_exec si _ command (h_fs h)) as [fs out]. by destruct (check_returncode command out).
  - intros cs u ->. eapply traced_impl; [apply traced_any, Hf|]. intros cs' r _. by exists cs'.
  - intros cs e ->. by exists [].
Qed.

Lemma only_coordinator_state stack : only (λ _, True) (coordinator_state si stack).
Proof using Type.
  apply only_bind; [by apply only_output|]. intros text. apply only_bind; [apply only_quiet, runs_lift|]. intros tasks.
  apply only_bind; [apply only_quiet, runs_lift|]. intros; apply only_quiet, runs_ret.
Qed.

Lemma traced_deploy o stack run_dir :
  traced (deploy_and_watch si o stack run_dir)
    (λ cs _, ∃ rest, cs = stack_deploy (path_div run_dir "stack.yml") stack :: rest).
Proof using Type.
  apply traced_first. intros _. apply only_bind; [apply only_quiet, runs_now|]. intros now.
  apply only_poll; [|apply only_quiet, runs_lift].
  apply only_bind; [apply only_coordinator_state|]. intros state. destruct (startswith "Complete" state).
  - apply only_bind; [by apply only_output|]. intros text. apply only_bind; [apply only_quiet, runs_write|]. intros _.
    apply only_bind; [apply only_quiet, runs_lift|]. intros; apply only_quiet, runs_ret.
  - destruct (_ || _); apply only_quiet; [apply runs_lift|apply runs_ret].
Qed.

End Facts.


(** A run that succeeds has a clean log.  When [run_one] returns, the last look at the
    coordinator found a completed task, and the log saved at that moment reports no child
    process with a non-zero exit status. *)
Theorem run_one_clean si o workload n image root h h' :
  run_one si o workload n image root h = (h', Ok ()) →
  ∃ hw h1 text, watch si (stack_name workload n) (run_dir_of root workload n) hw = (h1, Ok (Some ())) ∧
    h_files h1 !! log_path (run_dir_of root workload n) "coordinator" = Some text ∧ ¬ reports_failure text ∧
    tear_down si (stack_name workload n) (run_dir_of root workload n) n h1 = (h', Ok ()).
Proof.
  intros H. unfold run_one in H. apply H_bind_Ok in H as (h0 & u & _ & H). unfold h_finally in H.
  destruct (deploy_and_watch _ _ _ _ h0) as [h1 r] eqn:E. destruct (tear_down _ _ _ _ h1) as [h2 [[]|e]] eqn:Et; [|done].
  injection H as -> ->. unfold deploy_and_watch in E. apply H_bind_Ok in E as (ha & [] & _ & E).
  apply H_bind_Ok in E as (hb & now & _ & E). apply h_poll_Ok in E as [[hw E]|(hw & _ & E)]; [|done].
  exists hw, h1. pose proof E as Ew. unfold watch in E. apply H_bind_Ok in E as (hc & state & _ & E).
  destruct (startswith "Complete" state); [|destruct (_ || _); done].
  apply H_bind_Ok in E as (hd & text & _ & E). apply H_bind_Ok in E as (he & [] & Hw & E).
  apply H_bind_Ok in E as (hf & [] & Hr & E). apply h_lift_Ok in Hr as [-> Hr]. injection E as ->.
  apply h_write_Ok in Hw as [_ Hw]. exists text. split; [done|]. split; [unfold h_files; rewrite Hw; apply lookup_insert_eq|].
  split; [|done]. apply child_failures_nil. apply raise_if_Ok, negb_false_iff, Z.eqb_eq in Hr.
  destruct (child_failures text); [done|]. by rewrite zlen_cons in Hr; pose proof (zlen_nonneg l); lia.
Qed.

(** The assertion on the image never fails once the missing images were checked. *)
Lemma image_known a images workload :
  missing_images a images = [] → workload ∈ ar_workloads a → ∃ image, image_for a images workload = Ok image.
Proof.
  intros Hm Hin. unfold image_for. destruct (dict_get workload images) as [i|] eqn:E; [eauto|].
  destruct (ar_image a) as [i|] eqn:Ei; [eauto|]. exfalso.
  assert (Hw : workload ∈ missing_images a images); [|rewrite Hm in Hw; set_solver].
  apply list_elem_of_filter. split; [|done]. unfold no_default, dict_item. by rewrite E, Ei.
Qed.

(** ** Examples *)

(** A Swarm on which the coordinator is complete at the first look. *)
Definition demo_manifest : pyval :=
  PDict [("workloads", PDict [("mlp", PDict [("yaml", PStr "benchmark/mlp/mlp.yml")])])].

Definition demo_site (log : string) : site := {|
  si_python := "python3"; si_root := "/repo"; si_parent := "/";
  si_loads := λ text, if String.eqb text "task" then Ok (PDict [("CurrentState", PStr "Complete 2 seconds ago")]) else Ok demo_manifest;
  si_clock := Z.of_nat; si_second := 1;
  si_exec := λ _ c fs, (fs, (0, match c with
    | _ :: "service" :: "ps" :: _ => "task"
    | _ :: "service" :: "logs" :: _ => log
    | _ => ""
    end)%string) |}.

Definition demo_start : host := Host (Filesystem {["/results"]} {["/repo/real/workloads.json" := "{}"]}) [] 0.
Definition demo_options : options := Options 100 None (Some 4) false.


Lemma run_one_clean_witness :
  ∃ h' text, run_one (demo_site "All process has exit") demo_options "mlp" 2 "image" "/results" demo_start = (h', Ok ()) ∧
    ¬ reports_failure text.
Proof.
  destruct (run_one (demo_site "All process has exit") demo_options "mlp" 2 "image" "/results" demo_start) as [h' [[]|e]] eqn:E;
    [|vm_compute in E; discriminate E].
  destruct (run_one_clean _ _ _ _ _ _ _ _ E) as (hw & h1 & text & _ & _ & Hn & _). exists h', text. split; [reflexivity|exact Hn].
Defined.
