(* ===== verification/Imported.v ===== *)
(** * Screening imported benchmarks

    Model of [src/scripts/run_imported_swarm.py]: one external benchmark at a time is prepared for
    one node, deployed, watched and classified; its stack is removed whatever happened. *)

From S2P Require Import Prelude PyValue Worker Proxy Feedback Host Traces Swarm.

(** ** The original YAML *)

(** [int(values[values.index(name) + 1])]; a missing name, a missing value and a value that is no
    integer leave the process aside. *)
Fixpoint value_after (name : string) (values : list pyval) : result pyval :=
  match values with
  | [] => Err (ValueError "is not in list")
  | v :: rest => if eq_str v name then head rest ?! IndexError else value_after name rest
  end.

Definition int_after (name : string) (values : list pyval) : result Z := v ← value_after name values; int_of v.

Definition is_lookup_error (e : exn) : bool := match e with ValueError _ | IndexError => true | _ => false end.

Definition mesh_of (process : pyval) : result (option (Z * Z)) :=
  d ← is_dict process ?! AttributeError;
  values ← iterate (dict_get_default "args" (PList []) d);
  match (a ← int_after "-A" values; f ← int_after "-F" values; Ok (a, f)) with
  | Ok p => Ok (Some p)
  | Err e => if is_lookup_error e then Ok None else Err e
  end.

Fixpoint first_mesh (processes : list pyval) : result (Z * Z) :=
  match processes with
  | [] => Ok (2, 4)
  | p :: rest => m ← mesh_of p; match m with Some wf => Ok wf | None => first_mesh rest end
  end.

(** [mesh_options] of the parsed YAML *)
Definition mesh_options (config : pyval) : result (Z * Z) :=
  d ← is_dict config ?! AttributeError;
  processes ← iterate (dict_get_default "phase2" (PList []) d);
  first_mesh processes.

(** ** Failures *)

Definition lower_char (c : ascii) : ascii :=
  if (65 <=? ord c)%nat && (ord c <=? 90)%nat then ascii_of_nat (ord c + 32) else c.

Fixpoint lower (s : string) : string :=
  match s with EmptyString => EmptyString | String c s' => String (lower_char c) (lower s') end.

(** [PIN_CRASH.search], which ignores case. *)
Definition pin_crash (log : string) : bool :=
  contains "pin app terminated abnormally" (lower log) || contains "tool (or pin) caused signal" (lower log).

(** [FAILED_PROCESS.search] *)
Definition failed_process (log : string) : bool := negb (zlen (child_failures log) =? 0).

Definition native_failure (log : string) : bool := failed_process log || pin_crash log.

Section Imported.
Context (si : site) (yaml_load : string → result pyval) (source_root : string).

(** ** Evidence *)

Definition capture_log (stack run_dir service : string) : H unit :=
  h_except (text ← output si (service_logs stack service); h_write (log_path run_dir service) text)
    is_called_process_error (λ _, h_write (log_path run_dir service) ("service logs unavailable" +:+ nl)).

Definition capture_logs (stack run_dir : string) : H unit :=
  h_for (capture_log stack run_dir) ["coordinator"; "transport-0"].

(** [stdout.strip().splitlines()[0]] *)
Definition first_container (text : string) : option string := head (splitlines (strip text)).

Definition capture_process_logs : string → string → H unit := capture_container si first_container.

Definition tear_down (stack run_dir : string) : H unit :=
  _ ← capture_logs stack run_dir;
  _ ← capture_process_logs stack run_dir;
  _ ← unchecked si (stack_rm stack);
  wait_for_stack_removal si stack.

(** ** One benchmark *)

Record screen_options := ScreenOptions {
  so_timeout : Z;
  so_gdb_process_index : option Z;
  so_transport_ptrace : bool;
  so_sniper_cores : option Z;
  so_sniper_fast_forward : bool;
  so_sniper_maxthreads : option Z;
}.

(** The single YAML file next to a makefile: [sorted(source_dir.glob("*.yml"))] has one element. *)
Definition yaml_files (source_dir : string) (files : gmap string string) : list string :=
  filter (λ path, match strip_prefix (source_dir +:+ "/") path with
                  | Some name => lacks "/" name && endswith ".yml" name
                  | None => false end = true) (map_to_list files).*1.

Definition source_yaml_of (benchmark : string) : H (option string) := λ h,
  let source_dir := path_div source_root benchmark in
  (h, Ok (match h_files h !! path_div source_dir "makefile", yaml_files source_dir (h_files h) with
          | Some _, [path] => Some path
          | _, _ => None
          end)).

Definition preparation (o : screen_options) (benchmark source_yaml run_dir : string) (shared_assets : bool) : list (list string) :=
  let file := path_div run_dir in
  [ script si "generate_placement.py" ["--source-yaml"; source_yaml; "--workload-name"; benchmark; "--nodes"; "1";
      "--output"; file "placement.json"];
    script si "generate_simbricks_topology.py" ["--nodes"; "1"; "--output"; file "topology.json"];
    script si "generate_simbricks_routing.py" ["--placement"; file "placement.json"; "--topology"; file "topology.json";
      "--output"; file "routing.json"];
    script si "generate_distributed_yaml.py"
      (["--source-yaml"; source_yaml; "--placement"; file "placement.json";
        "--benchmark-root"; "/opt/legosim/benchmark/" +:+ benchmark] ++
       (if shared_assets then ["--shared-worker-asset"; "/opt/legosim/benchmark/" +:+ benchmark +:+ "/mapDevice.csv"] else []) ++
       optional_int "--gdb-process-index" (so_gdb_process_index o) ++ optional_int "--sniper-cores" (so_sniper_cores o) ++
       (if so_sniper_fast_forward o then ["--sniper-fast-forward"] else []) ++
       optional_int "--sniper-maxthreads" (so_sniper_maxthreads o) ++
       ["--stream-output"; "--output"; file "workload.yml"]) ].

Definition stack_command (o : screen_options) (run_dir image stack : string) (width flit_size : Z) : list string :=
  let file := path_div run_dir in
  script si "generate_swarm_stack.py"
    (["--placement"; file "placement.json"; "--topology"; file "topology.json"; "--routing"; file "routing.json";
      "--workload-yaml"; file "workload.yml"; "--image"; image; "--output"; file "stack.yml"; "--stack-name"; stack] ++
     (if so_transport_ptrace o then ["--transport-ptrace"] else []) ++
     ["--topology-width"; str_of_Z width; "--flit-size"; str_of_Z flit_size]).

(** One round of the loop: [Some result] when the benchmark is classified. *)
Definition classify_log (log : string) (result : pydict) : pydict :=
  let result := dict_set "native_failures" (PBool (native_failure log)) result in
  let result := dict_set "pin_crash" (PBool (pin_crash log)) result in
  dict_set "status" (PStr (if native_failure log then "native-process-failed"
                           else if contains "All process has exit" log then "completed"
                           else "coordinator-completed-without-marker")) result.

Definition watch (stack run_dir : string) (result : pydict) : H (option pydict) :=
  state ← coordinator_state si stack;
  live_log ← output si (service_logs stack "coordinator");
  if native_failure live_log then
    mret (Some (dict_set "pin_crash" (PBool (pin_crash live_log))
            (dict_set "native_failures" (PBool true) (dict_set "status" (PStr "native-process-failed") result))))
  else if String.eqb state "Complete" then
    _ ← capture_logs stack run_dir;
    log ← h_read (log_path run_dir "coordinator");
    mret (Some (classify_log log result))
  else if existsb (String.eqb state) ["Failed"; "Rejected"; "missing"] then
    mret (Some (dict_set "status" (PStr ("coordinator-" +:+ lower state)) result))
  else mret None.

(** The [try] and [except] clauses. *)
Definition deploy_and_watch (o : screen_options) (stack run_dir : string) (result : pydict) : H pydict :=
  h_except
    (_ ← run si (stack_deploy (path_div run_dir "stack.yml") stack);
     now ← h_now (si_clock si);
     h_poll (si_clock si) (now + so_timeout o * si_second si) (watch stack run_dir result)
       (mret (dict_set "status" (PStr "timeout") result)) (poll_fuel (so_timeout o * si_second si)))
    is_called_process_error
    (λ e, mret (dict_set "error" (PStr (exn_str e)) (dict_set "status" (PStr "orchestration-error") result))).

Definition pending (benchmark source_yaml image : string) (width flit_size : Z) : pydict :=
  [("benchmark", PStr benchmark); ("source_yaml", PStr source_yaml); ("image", PStr image);
   ("topology_width", PInt width); ("flit_size", PInt flit_size); ("status", PStr "pending")].

Definition screen_stack (benchmark : string) : string := "chipsystemsim_screen_" +:+ lower benchmark.

Definition prepare (o : screen_options) (benchmark image run_dir source_yaml : string) : H pydict :=
  let stack := screen_stack benchmark in
  _ ← h_mkdir_new run_dir;
  text ← h_read source_yaml;
  config ← h_lift (yaml_load text);
  mesh ← h_lift (mesh_options config);
  let '(width, flit_size) := mesh in
  shared_assets ← h_is_file (path_div (path_div source_root benchmark) "mapDevice.csv");
  _ ← h_for (run si) (preparation o benchmark source_yaml run_dir shared_assets);
  _ ← wait_for_stack_removal si stack;
  _ ← run si (stack_command o run_dir image stack width flit_size);
  mret (pending benchmark source_yaml image width flit_size).

Definition run_one (o : screen_options) (benchmark image output_root : string) : H pydict :=
  found ← source_yaml_of benchmark;
  match found : option string with
  | None => mret [("benchmark", PStr benchmark); ("status", PStr "incomplete-source")]
  | Some source_yaml =>
      let run_dir := path_div output_root benchmark in
      let stack := screen_stack benchmark in
      result ← prepare o benchmark image run_dir source_yaml;
      h_finally (deploy_and_watch o stack run_dir result) (tear_down stack run_dir)
  end.

(** ** The command line *)

Record arguments := Arguments {
  ar_benchmarks : list string;
  ar_output_dir : string;
  ar_image : option string;
  ar_options : screen_options;
}.

Definition image_of (a : arguments) (benchmark : string) : string :=
  match ar_image a with
  | Some i => if String.eqb i "" then "chipsystemsim:single-stage-" +:+ lower benchmark else i
  | None => "chipsystemsim:single-stage-" +:+ lower benchmark
  end.

(** The summary is rewritten after every benchmark. *)
Fixpoint screen_all (a : arguments) (done_ : list pydict) (benchmarks : list string) : H unit :=
  match benchmarks with
  | [] => mret ()
  | benchmark :: rest =>
      entry ← run_one (ar_options a) benchmark (image_of a benchmark) (ar_output_dir a);
      let summary := done_ ++ [entry] in
      _ ← h_write (path_div (ar_output_dir a) "summary.json") (json_indent 0 (PList (PDict <$> summary)) +:+ nl);
      screen_all a summary rest
  end.

Definition main (a : arguments) : H unit :=
  _ ← require_active_swarm si;
  _ ← require_node_labels si 1;
  _ ← h_mkdir (ar_output_dir a);
  screen_all a [] (ar_benchmarks a).

End Imported.

(** ** Removal *)

Section Facts.
Context (si : site) (yaml_load : string → result pyval) (source_root : string).

Lemma raises_capture_log stack run_dir service : raises os_error (capture_log si stack run_dir service).
Proof using Type.
  apply (raises_except (λ e, status_error e ∨ os_error e)).
  - apply raises_bind; [eapply raises_impl; [apply raises_output|auto]|]. intros text.
    eapply raises_impl; [apply raises_write|auto].
  - intros e [[m ->]|?]; [done|auto].
  - intros e. apply raises_write.
Qed.

Lemma only_capture_log (p : list string → Prop) stack run_dir service :
  p (service_logs stack service) → only p (capture_log si stack run_dir service).
Proof using Type.
  intros Hp. apply only_except; [|intros; apply only_quiet, runs_write].
  apply only_bind; [by apply only_output|]. intros. apply only_quiet, runs_write.
Qed.

Lemma only_capture_logs stack run_dir : only (λ _, True) (capture_logs si stack run_dir).
Proof using Type. apply only_for. intros; by apply only_capture_log. Qed.

Lemma traced_imported_tear_down stack run_dir : traced (tear_down si stack run_dir) (cleaned (stack_rm stack)).
Proof using Type.
  apply traced_evidence; [apply only_capture_logs|apply raises_for; intros; apply raises_capture_log|].
  intros _. apply traced_evidence; [by apply only_process_logs|apply raises_process_logs|]. intros _. apply traced_remove.
Qed.

Lemma only_watch stack run_dir result : only (λ _, True) (watch si stack run_dir result).
Proof using Type.
  apply only_bind; [apply only_coordinator_state|]. intros state. apply only_bind; [by apply only_output|]. intros log.
  destruct (native_failure log); [apply only_quiet, runs_ret|]. destruct (String.eqb state "Complete").
  - apply only_bind; [apply only_capture_logs|]. intros _. apply only_bind; [apply only_quiet, runs_read|].
    intros; apply only_quiet, runs_ret.
  - destruct (existsb _ _); apply only_quiet, runs_ret.
Qed.

Lemma traced_except {A} (m : H A) handles handler Q :
  traced m (λ cs _, Q cs) → (∀ e h, h_calls (handler e h).1 = h_calls h) → traced (h_except m handles handler) (λ cs _, Q cs).
Proof using Type.
  intros Hm Hh h. unfold h_except. destruct (Hm h) as (cs & Hc & HQ). destruct (m h) as [h1 [a|e]]; cbn [fst snd] in *.
  - by exists cs.
  - destruct (handles e); [|by exists cs]. exists cs. by rewrite Hh.
Qed.

Lemma traced_screen_deploy o stack run_dir result :
  traced (deploy_and_watch si o stack run_dir result)
    (λ cs _, ∃ rest, cs = stack_deploy (path_div run_dir "stack.yml") stack :: rest).
Proof using Type.
  apply (traced_except _ _ _ (λ cs, ∃ rest, cs = stack_deploy (path_div run_dir "stack.yml") stack :: rest)); [|done].
  apply traced_first. intros _. apply only_bind; [apply only_quiet, runs_now|]. intros now.
  apply only_poll; [apply only_watch|apply only_quiet, runs_ret].
Qed.

Lemma only_screen_prepare o benchmark image run_dir source_yaml :
  si_python si ≠ "docker" →
  only (λ c, c ≠ stack_deploy (path_div run_dir "stack.yml") (screen_stack benchmark))
    (prepare si yaml_load source_root o benchmark image run_dir source_yaml).
Proof using Type.
  intros Hp. set (p := λ c, c ≠ _). assert (Hs : ∀ name rest, p (script si name rest)) by (intros; by apply script_not_docker).
  unfold prepare. apply only_bind; [apply only_quiet, runs_mkdir|]. intros _.
  apply only_bind; [apply only_quiet, runs_read|]. intros text.
  apply only_bind; [apply only_quiet, runs_lift|]. intros config.
  apply only_bind; [apply only_quiet, runs_lift|]. intros [width flit].
  apply only_bind; [apply only_quiet, runs_is_file|]. intros shared.
  apply only_bind.
  { apply only_for. intros c Hc. apply only_bind; [|intros; apply only_quiet, runs_ret]. apply only_output.
    unfold preparation in Hc. set_unfold in Hc. destruct Hc as [->|[->|[->|[->|[]]]]]; apply Hs. }
  intros _. apply only_bind; [by apply only_removal|]. intros _.
  apply only_bind; [|intros; apply only_quiet, runs_ret].
  apply only_bind; [apply only_output, Hs|intros; apply only_quiet, runs_ret].
Qed.

Lemma traced_screen o benchmark image root :
  si_python si ≠ "docker" →
  traced (run_one si yaml_load source_root o benchmark image root)
    (removed (stack_deploy (path_div (path_div root benchmark) "stack.yml") (screen_stack benchmark)) (stack_rm (screen_stack benchmark))).
Proof using Type.
  intros Hp. unfold run_one. eapply (traced_bind _ _ (λ cs _, cs = [])).
  - intros h. exists []. unfold source_yaml_of. cbn [fst]. by rewrite app_nil_r.
  - intros cs found ->. cbn [app]. destruct found as [source_yaml|].
    + apply traced_stack; [by apply only_screen_prepare|intros; apply traced_screen_deploy|apply traced_imported_tear_down].
    + intros h. exists []. rewrite app_nil_r. split; [done|]. left. set_solver.
  - intros cs e ->. left. set_solver.
Qed.

(** ** Verdicts *)

Definition status_of (result : pydict) : option pyval := dict_get "status" result.

(** What the log says when a benchmark counts as completed. *)
Definition completed_log (log : string) : Prop :=
  contains "All process has exit" log = true ∧ ¬ reports_failure log ∧ pin_crash log = false.

Lemma native_failure_false log : native_failure log = false ↔ ¬ reports_failure log ∧ pin_crash log = false.
Proof using Type.
  unfold native_failure, failed_process. rewrite orb_false_iff, negb_false_iff, Z.eqb_eq, <- child_failures_nil.
  split; intros [H1 H2]; (split; [|done]); [|by rewrite H1].
  destruct (child_failures log) as [|f fs]; [done|]. rewrite zlen_cons in H1. pose proof (zlen_nonneg fs). lia.
Qed.

Lemma classify_completed log result :
  status_of (classify_log log result) = Some (PStr "completed") → completed_log log.
Proof using Type.
  unfold status_of, classify_log. rewrite dict_get_set. destruct (native_failure log) eqn:E; [done|].
  destruct (contains _ log) eqn:Ec; [|done]. intros _. split; [done|]. by apply native_failure_false.
Qed.

Lemma watch_completed stack run_dir result h h' r :
  watch si stack run_dir result h = (h', Ok (Some r)) → status_of r = Some (PStr "completed") →
  ∃ log, h_files h' !! log_path run_dir "coordinator" = Some log ∧ completed_log log.
Proof using Type.
  unfold watch. intros H Hs. apply H_bind_Ok in H as (h1 & state & _ & H). apply H_bind_Ok in H as (h2 & live & _ & H).
  destruct (native_failure live).
  { injection H as _ <-. unfold status_of in Hs. by rewrite dict_get_set_ne, dict_get_set_ne, dict_get_set in Hs. }
  destruct (String.eqb state "Complete").
  - apply H_bind_Ok in H as (h3 & u & _ & H). apply H_bind_Ok in H as (h4 & log & Hr & H). injection H as <- <-.
    unfold h_read in Hr. injection Hr as -> Hr. apply of_option_Ok in Hr. exists log. split; [done|]. by eapply classify_completed.
  - destruct (existsb _ _); [|done]. injection H as _ <-. unfold status_of in Hs. by rewrite dict_get_set in Hs.
Qed.

End Facts.

(** A benchmark is only called completed when it is.  When [run_one] returns the status
    [completed], the coordinator's log that was saved as evidence at that moment holds the marker
    of the end of all processes, reports no child with a non-zero status and shows no crash of
    Pin; and for every status, a stack that was deployed has been removed again unless evidence
    could not be written. *)
Theorem screened_honestly si yaml_load source_root o benchmark image root h :
  si_python si ≠ "docker" →
  let m := run_one si yaml_load source_root o benchmark image root in
  (∀ h' result, m h = (h', Ok result) → status_of result = Some (PStr "completed") →
     ∃ h1 log, h_files h1 !! log_path (path_div root benchmark) "coordinator" = Some log ∧ completed_log log ∧
       tear_down si (screen_stack benchmark) (path_div root benchmark) h1 = (h', Ok ())) ∧
  traced m (removed (stack_deploy (path_div (path_div root benchmark) "stack.yml") (screen_stack benchmark))
              (stack_rm (screen_stack benchmark))).
Proof.
  intros Hp m. split; [|by apply traced_screen]. intros h' result H Hs. subst m. unfold run_one in H.
  apply H_bind_Ok in H as (h0 & found & _ & H). destruct found as [source_yaml|]; [|by injection H as _ <-].
  apply H_bind_Ok in H as (h1 & r0 & _ & H). unfold h_finally in H.
  destruct (deploy_and_watch _ _ _ _ _ h1) as [h2 r] eqn:E. destruct (tear_down _ _ _ h2) as [h3 [[]|e]] eqn:Et; [|done].
  injection H as -> ->. unfold deploy_and_watch, h_except in E.
  destruct ((_ ← run si _; _) h1) as [h4 [a|e]] eqn:Ew.
  - injection E as -> ->. apply H_bind_Ok in Ew as (ha & u & _ & Ew). apply H_bind_Ok in Ew as (hb & now & _ & Ew).
    apply h_poll_Ok in Ew as [[hw Ew]|(hw & _ & Ew)].
    + apply watch_completed in Ew as (log & Hf & Hc); [|done]. by exists h2, log.
    + injection Ew as _ <-. unfold status_of in Hs. by rewrite dict_get_set in Hs.
  - destruct (is_called_process_error e); [|done]. injection E as _ <-. unfold status_of in Hs.
    by rewrite dict_get_set_ne, dict_get_set in Hs.
Qed.

Definition demo_imported : host :=
  Host (Filesystem {["/results"]} {["/src/fft/makefile" := ""; "/src/fft/fft.yml" := "{}"]}) [] 0.

Lemma screened_honestly_witness :
  ∃ h' result, run_one (demo_site "All process has exit") (λ _, Ok (PDict [])) "/src" (ScreenOptions 100 None false None false None)
      "fft" "image" "/results" demo_imported = (h', Ok result) ∧ status_of result = Some (PStr "completed") ∧
    ∃ log, completed_log log.
Proof.
  destruct (run_one (demo_site "All process has exit") (λ _, Ok (PDict [])) "/src" (ScreenOptions 100 None false None false None)
      "fft" "image" "/results" demo_imported) as [h' [result|e]] eqn:E; [|vm_compute in E; discriminate E].
  assert (Hs : status_of result = Some (PStr "completed")).
  { assert (Hr : Ok result = (run_one (demo_site "All process has exit") (λ _, Ok (PDict [])) "/src" (ScreenOptions 100 None false None false None)
      "fft" "image" "/results" demo_imported).2) by (rewrite E; reflexivity). vm_compute in Hr. injection Hr as ->. reflexivity. }
  destruct (screened_honestly (demo_site "All process has exit") (λ _, Ok (PDict [])) "/src" (ScreenOptions 100 None false None false None)
    "fft" "image" "/results" demo_imported ltac:(done)) as [H _].
  destruct (H h' result E Hs) as (h1 & log & _ & Hlog & _).
  exists h', result. split; [reflexivity|]. split; [exact Hs|]. exists log. exact Hlog.
Defined.
