(* ===== verification/Remote.v ===== *)
(** * Functional runs on a remote Swarm

    Model of [src/scripts/run_remote_functional_matrix.py]: the commands it sends to a Swarm manager
    over SSH, the files it uploads, the polling of one placement and the evidence it keeps.  The
    other remote scripts share [remote_command], [wait_for_removal], [rewrite_stack] and
    [service_log]. *)

From S2P Require Import Prelude PyValue Worker Proxy Feedback Host Traces Swarm.

(** ** The manager *)

(** What the manager answers, given how many operations came before; a timeout is an error. *)
Record remote := Remote {
  rm_ssh : nat → string → result (Z * string);           (** [exec_command]: exit code and both streams *)
  rm_put : nat → string → string → result ();            (** an uploaded file *)
  rm_get : nat → string → result string;                 (** a downloaded file *)
  rm_list : nat → string → result (list string);         (** the names in a directory *)
  rm_clock : nat → Z;                                    (** readings of [time.monotonic] *)
  rm_second : Z;                                         (** how far a second is on that clock *)
  rm_rounded : Z → pyval;                                (** [round(t, 3)] of a span, in seconds *)
  rm_yaml : string → result pyval;                       (** [yaml.safe_load] *)
  rm_dump : pyval → string;                              (** [yaml.safe_dump(v, sort_keys=False)] *)
  rm_loads : string → result pyval;                      (** [json.loads] *)
}.

(** An operation on the manager; it is recorded like a command. *)
Definition h_step {A} (entry : list string) (r : nat → result A) : H A := λ h,
  (Host (h_fs h) (h_calls h ++ [entry]) (h_reads h), r (length (h_calls h))).

Section Remote.
Context (rm : remote).

Definition ssh (command : string) : list string := ["ssh"; command].

Definition remote_command (command : string) : H (Z * string) := h_step (ssh command) (λ n, rm_ssh rm n command).
Definition put (path text : string) : H unit := h_step ["put"; path; text] (λ n, rm_put rm n path text).
Definition get (path : string) : H string := h_step ["get"; path] (λ n, rm_get rm n path).
Definition list_directory (path : string) : H (list string) := h_step ["list"; path] (λ n, rm_list rm n path).

(** [remote_command] whose result is not used. *)
Definition remote_ignored (command : string) : H unit := _ ← remote_command command; mret ().

Definition now : H Z := h_now (rm_clock rm).

(** ** Stacks *)

Definition rm_command (stack : string) : string := "sudo docker stack rm " +:+ stack.
Definition ls_command : string := "sudo docker stack ls --format '{{.Name}}'".
Definition inspect_command (stack : string) : string := "sudo docker network inspect " +:+ stack +:+ "_chipsystemsim".

(** [Some ()] when the listing shows no such stack and its network is gone. *)
Definition gone (stack : string) : H (option ()) :=
  stacks ← remote_command ls_command;
  network ← remote_command (inspect_command stack);
  mret (if negb (existsb (String.eqb stack) (strip <$> splitlines stacks.2)) && negb (network.1 =? 0) then Some () else None).

Definition wait_for_removal (stack : string) : H unit :=
  _ ← remote_ignored (rm_command stack);
  t ← now;
  h_poll (rm_clock rm) (t + 45 * rm_second rm) (gone stack)
    (h_lift (Err (RuntimeError ("previous stack " +:+ stack +:+ " did not disappear within 45 seconds"))))
    (poll_fuel (45 * rm_second rm)).

(** [d[k1]...[kn] = v] in nested objects. *)
Fixpoint set_in (path : list string) (v : pyval) (d : pydict) : result pydict :=
  match path with
  | [] => Ok d
  | [k] => Ok (dict_set k v d)
  | k :: rest => x ← dict_item k d; inner ← is_dict x ?! TypeError; inner' ← set_in rest v inner; Ok (dict_set k (PDict inner') d)
  end.

Definition set_image (image : string) (kv : string * pyval) : result (string * pyval) :=
  service ← is_dict kv.2 ?! TypeError; Ok (kv.1, PDict (dict_set "image" (PStr image) service)).

(** [rewrite_stack] of the parsed file: every image, and the files of the three configs. *)
Definition rewrite_stack_value (stack : pyval) (remote_directory image : string) : result pydict :=
  d ← is_dict stack ?! TypeError;
  s ← dict_item "services" d;
  services ← is_dict s ?! AttributeError;
  services' ← mapM (set_image image) services;
  let d := dict_set "services" (PDict services') d in
  d ← set_in ["configs"; "workload"; "file"] (PStr (remote_directory +:+ "/workload.yml")) d;
  d ← set_in ["configs"; "topology"; "file"] (PStr (remote_directory +:+ "/topology.json")) d;
  set_in ["configs"; "routing"; "file"] (PStr (remote_directory +:+ "/routing.json")) d.

Definition rewrite_stack (source remote_directory image : string) : H string :=
  text ← h_read source;
  stack ← h_lift (rm_yaml rm text);
  d ← h_lift (rewrite_stack_value stack remote_directory image);
  mret (rm_dump rm (PDict d)).

(** ** Services *)

Definition state_format : string := "{{.DesiredState}}|{{.CurrentState}}|{{.Error}}".

Definition state_command (stack service : string) : string :=
  "sudo docker service ps --no-trunc --format '" +:+ state_format +:+ "' " +:+ stack +:+ "_" +:+ service.

(** Whether each service has a task that runs and should run. *)
Definition service_state (stack service : string) : H bool :=
  out ← remote_command (state_command stack service);
  mret (existsb (startswith "Running|Running") (splitlines out.2)).

Definition service_states (stack : string) (node_count : Z) : H (list bool) :=
  h_map (service_state stack) (services node_count).

Definition log_command (stack service : string) (tail_ : option Z) : string :=
  "sudo docker service logs" +:+ (match tail_ with Some n => " --tail " +:+ str_of_Z n | None => "" end) +:+ " " +:+ stack +:+ "_" +:+ service.

Definition service_log (stack service : string) (tail_ : option Z) : H string :=
  out ← remote_command (log_command stack service tail_); mret out.2.

(** ** One point of the matrix *)

Definition PHASE_ONE_COUNTS : list (string * Z) :=
  [("mlp", 7); ("dlrm", 2); ("resnet", 7); ("bfs", 7); ("fft", 9); ("pagerank", 9); ("pde", 9); ("moe", 8)].

(** A marker and the digits after it. *)
Definition number_at (marker s : string) : option (string * string) :=
  match strip_prefix marker s with
  | Some r => let '(d, rest) := span_digits r in if String.eqb d "" then None else Some (d, rest)
  | None => None
  end.

(** The digits after every occurrence of a marker. *)
Definition numbered (marker : string) : string → list string := scan (number_at marker).

(** [len(set(PHASE_ONE_PROXY.findall(log)))] *)
Definition proxy_count (log : string) : Z := zlen (remove_dups (numbered "proxy: started process_id=phase1-" log)).

(** The fields of the result that the polling loop changes; times are spans since the start. *)
Record progress := Progress {
  pg_ready : option Z;
  pg_all_started : option Z;
  pg_first_command : option Z;
  pg_proxies : Z;
  pg_ok : bool;
}.

(** [if result[k] is None and condition: result[k] = elapsed] *)
Definition first_time (field : option Z) (condition : bool) (elapsed : Z) : option Z :=
  match field with Some t => Some t | None => if condition then Some elapsed else None end.

Definition poll_point (stack : string) (node_count phase_one : Z) (started : Z) (p : progress) : H (bool * progress) :=
  t ← now;
  let elapsed := t - started in
  states ← service_states stack node_count;
  log ← service_log stack "coordinator" (Some 2000);
  let proxies := proxy_count log in
  let ready := first_time (pg_ready p) (forallb id states) elapsed in
  let all_started := first_time (pg_all_started p) (phase_one <=? proxies) elapsed in
  let first_command := first_time (pg_first_command p) (contains "[INTERCMD]" log) elapsed in
  let ok := match all_started, first_command with Some _, Some _ => true | _, _ => false end in
  mret (ok, Progress ready all_started first_command proxies ok).

Record point := Point {
  pt_workload : string;
  pt_nodes : Z;
  pt_source : string;
  pt_output : string;
  pt_timeout : Z;
  pt_observation : Z;
  pt_image : string;
}.

Definition point_stack (p : point) : string :=
  "chipsystemsim_" +:+ pt_workload p +:+ "_functional_" +:+ str_of_Z (pt_nodes p).
Definition point_directory (p : point) : string := "/home/legosim/functional-matrix/" +:+ point_stack p.

Definition deploy_command (directory stack : string) : string :=
  "sudo docker stack deploy --resolve-image never -c " +:+ directory +:+ "/stack.yml " +:+ stack.

Definition span_value (t : option Z) : pyval := match t with Some t => rm_rounded rm t | None => PNone end.

Definition point_status (code : Z) (p : progress) : string :=
  if pg_ok p then "functional-ok" else if code =? 0 then "timeout" else "deployment-error".

(** The result object before the measured times are added. *)
Definition point_json (p : point) (code : Z) (g : progress) : pydict :=
  [("nodes", PInt (pt_nodes p)); ("workload", PStr (pt_workload p)); ("stack", PStr (point_stack p));
   ("image", PStr (pt_image p)); ("mode", PStr "instruction-limited-functional-startup");
   ("timeout_seconds", PInt (pt_timeout p)); ("observation_seconds", PInt (pt_observation p));
   ("deploy_exit_code", PInt code); ("ready_seconds", span_value (pg_ready g));
   ("all_phase1_started_seconds", span_value (pg_all_started g));
   ("first_interchiplet_command_seconds", span_value (pg_first_command g));
   ("phase1_proxy_count", PInt (pg_proxies g)); ("status", PStr (point_status code g))].

Definition nothing_yet : progress := Progress None None None 0 false.

(** Uploading a local file. *)
Definition upload (source target : string) : H unit := text ← h_read source; put target text.

Definition upload_configuration (p : point) : H string :=
  _ ← h_for (λ name, upload (path_div (pt_source p) name) (point_directory p +:+ "/" +:+ name))
        ["workload.yml"; "topology.json"; "routing.json"];
  stack_text ← rewrite_stack (path_div (pt_source p) "stack.yml") (point_directory p) (pt_image p);
  _ ← put (point_directory p +:+ "/stack.yml") stack_text;
  mret stack_text.

(** Keeping the processes alive for the observation period. *)
Definition observe (seconds : Z) : H unit :=
  t ← now;
  _ ← h_loop (rm_clock rm) (t + seconds * rm_second rm) (λ _ : unit, mret (false, ())) (poll_fuel (seconds * rm_second rm)) ();
  mret ().

(** What [run_point] returns: the object, and for a measured point its progress and the span of
    the measurement. *)
Record outcome := Outcome { oc_json : pydict; oc_measured : option (progress * Z) }.

Definition run_point (p : point) : H outcome :=
  let stack := point_stack p in
  _ ← h_mkdir_new (pt_output p);
  _ ← remote_ignored ("mkdir -p " +:+ point_directory p);
  stack_text ← upload_configuration p;
  _ ← h_write (path_div (pt_output p) "stack.yml") stack_text;
  _ ← wait_for_removal stack;
  started ← now;
  deployed ← remote_command (deploy_command (point_directory p) stack);
  let '(code, deployment) := deployed in
  _ ← h_write (path_div (pt_output p) "deployment.log") deployment;
  if negb (code =? 0) then mret (Outcome (point_json p code nothing_yet) None)
  else
    phase_one ← h_lift (dict_item (pt_workload p) PHASE_ONE_COUNTS);
    polled ← h_loop (rm_clock rm) (started + pt_timeout p * rm_second rm) (poll_point stack (pt_nodes p) phase_one started)
               (poll_fuel (pt_timeout p * rm_second rm)) nothing_yet;
    let g := polled.2 : progress in
    _ ← (if pg_ok g && negb (pt_observation p =? 0) then observe (pt_observation p) else mret ());
    t ← now;
    let elapsed := t - started in
    _ ← h_for (λ service, text ← service_log stack service (Some 1500); h_write (path_div (pt_output p) (service +:+ ".log")) text)
          (services (pt_nodes p));
    t' ← now;
    let json := point_json p code g ++ [("measurement_elapsed_seconds", rm_rounded rm elapsed);
                                        ("collection_elapsed_seconds", rm_rounded rm (t' - started))] in
    _ ← h_write (path_div (pt_output p) "result.json") (json_indent 0 (PDict json));
    _ ← wait_for_removal stack;
    mret (Outcome json (Some (g, elapsed))).

(** ** The matrix *)

Record arguments := Arguments {
  ar_source_root : string;
  ar_output_root : string;
  ar_image : string;
  ar_nodes : list Z;
  ar_workloads : list string;
  ar_timeout : Z;
  ar_observation : Z;
}.

Definition point_of (a : arguments) (workload : string) (nodes : Z) : point :=
  let name := workload +:+ "-nodes" +:+ str_of_Z nodes in
  Point workload nodes (path_div (ar_source_root a) name) (path_div (ar_output_root a) name) (ar_timeout a) (ar_observation a) (ar_image a).

(** [main], once the client is connected. *)
Definition main (a : arguments) : H unit :=
  results ← h_map run_point (workload ← ar_workloads a; nodes ← ar_nodes a; [point_of a workload nodes]);
  _ ← h_mkdir (ar_output_root a);
  h_write (path_div (ar_output_root a) "summary.json") (json_indent 0 (PList ((λ r, PDict (oc_json r)) <$> results))).

End Remote.

(** ** Traces *)

Lemma traced_step {A} entry (r : nat → result A) : traced (h_step entry r) (λ cs _, cs = [entry]).
Proof. intros h. by exists [entry]. Qed.

Lemma only_step {A} (p : list string → Prop) entry (r : nat → result A) : p entry → only p (h_step entry r).
Proof. intros Hp h. exists [entry]. split; [done|by constructor]. Qed.

Lemma only_remote rm (p : list string → Prop) command : p (ssh command) → only p (remote_command rm command).
Proof. apply only_step. Qed.

(** A program that starts with an operation on the manager. *)
Lemma traced_step_first {A B} entry (r : nat → result A) (f : A → H B) :
  (∀ a, only (λ _, True) (f a)) → traced (a ← h_step entry r; f a) (λ cs _, ∃ rest, cs = entry :: rest).
Proof.
  intros Hf. eapply traced_bind; [apply traced_step| |].
  - intros cs a ->. eapply traced_impl; [apply Hf|]. intros cs' r' _. by exists cs'.
  - intros cs e ->. by exists [].
Qed.

Lemma only_gone rm (p : list string → Prop) stack :
  p (ssh ls_command) → p (ssh (inspect_command stack)) → only p (gone rm stack).
Proof.
  intros H1 H2. apply only_bind; [by apply only_remote|]. intros a. apply only_bind; [by apply only_remote|].
  intros b. apply only_quiet, runs_ret.
Qed.

Lemma only_remote_removal rm (p : list string → Prop) stack :
  p (ssh (rm_command stack)) → p (ssh ls_command) → p (ssh (inspect_command stack)) → only p (wait_for_removal rm stack).
Proof.
  intros H1 H2 H3. apply only_bind; [apply only_bind; [by apply only_remote|intros; apply only_quiet, runs_ret]|]. intros _.
  apply only_bind; [apply only_quiet, runs_now|]. intros t. apply only_poll; [by apply only_gone|apply only_quiet, runs_lift].
Qed.

(** Waiting for removal starts by asking for it. *)
Lemma traced_remote_removal rm stack :
  traced (wait_for_removal rm stack) (λ cs _, ∃ rest, cs = ssh (rm_command stack) :: rest).
Proof.
  eapply traced_bind; [apply (traced_step_first _ _ (λ _, mret ())); intros; apply only_quiet, runs_ret| |].
  - intros cs u [rest ->]. eapply traced_impl.
    + apply (only_bind (λ _, True)); [apply only_quiet, runs_now|]. intros t.
      apply only_poll; [by apply only_gone|apply only_quiet, runs_lift].
    + intros cs' r _. by exists (rest ++ cs').
  - done.
Qed.

(** ** Evidence *)

Lemma reads_on_step {A} entry (r : nat → result A) : reads_on (h_step entry r).
Proof. intros h. cbn. lia. Qed.

Lemma reads_on_remote rm command : reads_on (remote_command rm command).
Proof. apply reads_on_step. Qed.

#[export] Hint Resolve reads_on_step reads_on_remote : reads.

Section Evidence.
Context (rm : remote) (Hmono : ∀ i, rm_clock rm i ≤ rm_clock rm (S i)).

Lemma rm_clock_le i j : (i ≤ j)%nat → rm_clock rm i ≤ rm_clock rm j.
Proof using Hmono. induction 1 as [|j Hle IH]; [lia|]. specialize (Hmono j). lia. Qed.

(** A recorded span lies between the start and the next reading of the clock. *)
Definition span_ok (started : Z) (h : host) (t : option Z) : Prop :=
  ∀ z, t = Some z → 0 ≤ z ≤ rm_clock rm (h_reads h) - started.

Definition both (g : progress) : bool :=
  match pg_all_started g, pg_first_command g with Some _, Some _ => true | _, _ => false end.

Definition good (started : Z) (h : host) (g : progress) : Prop :=
  started ≤ rm_clock rm (h_reads h) ∧ pg_ok g = both g ∧
  span_ok started h (pg_ready g) ∧ span_ok started h (pg_all_started g) ∧ span_ok started h (pg_first_command g).

Lemma good_later started h h' g : good started h g → (h_reads h ≤ h_reads h')%nat → good started h' g.
Proof using Hmono.
  intros (Hs & Hok & H1 & H2 & H3) Hle%rm_clock_le. unfold good, span_ok in *.
  split; [lia|]. split; [done|]. split_and!; intros z Hz; [apply H1 in Hz|apply H2 in Hz|apply H3 in Hz]; lia.
Qed.

Lemma first_time_ok started h h' field condition elapsed :
  span_ok started h field → (h_reads h ≤ h_reads h')%nat → 0 ≤ elapsed ≤ rm_clock rm (h_reads h') - started →
  span_ok started h' (first_time field condition elapsed).
Proof using Hmono.
  intros Hf Hle%rm_clock_le He z. unfold first_time. destruct field as [t|]; [intros [= ->]; specialize (Hf _ eq_refl); lia|].
  destruct condition; [|done]. by intros [= <-].
Qed.

Lemma poll_point_good stack nodes phase_one started g h h' b g' :
  good started h g → poll_point rm stack nodes phase_one started g h = (h', Ok (b, g')) → good started h' g' ∧ b = pg_ok g'.
Proof using Hmono.
  intros (Hs & Hok & H1 & H2 & H3) H. unfold poll_point in H.
  apply H_bind_Ok in H as (h1 & t & [= <- <-] & H). apply H_bind_Ok in H as (h2 & states & Hst & H).
  apply H_bind_Ok in H as (h3 & log & Hlog & H). injection H as <- <- <-.
  apply reads_on_Ok in Hst; [|unfold service_states, service_state; auto 10 with reads].
  apply reads_on_Ok in Hlog; [|unfold service_log; auto 10 with reads]. cbn [h_reads] in *.
  assert (Hle : rm_clock rm (h_reads h) ≤ rm_clock rm (h_reads h3)) by (apply rm_clock_le; lia).
  split; [|done]. unfold good. cbn [pg_ready pg_all_started pg_first_command pg_ok]. split; [lia|]. split; [done|].
  split_and!; eapply first_time_ok; eauto; lia.
Qed.

Lemma gone_Ok stack h h' : wait_for_removal rm stack h = (h', Ok ()) → ∃ hw, gone rm stack hw = (h', Ok (Some ())).
Proof using Type.
  unfold wait_for_removal. intros H. apply H_bind_Ok in H as (h1 & u & _ & H). apply H_bind_Ok in H as (h2 & t & _ & H).
  apply h_poll_Ok in H as [H|(hw & _ & H)]; [done|done].
Qed.

End Evidence.

(** The evidence of a functional run.  When [run_point] returns a measured point, its status is
    [functional-ok] exactly when a time was recorded both for the start of all phase-one
    processes and for the first inter-chiplet command; every recorded time lies between the
    start and the end of the measurement, so that no reported startup time exceeds the measured
    run time; and the last look at the manager found the stack and its network gone.  Without a
    measurement the deployment was refused and the status says so. *)
Theorem functional_evidence rm p h h' oc :
  (∀ i, rm_clock rm i ≤ rm_clock rm (S i)) → run_point rm p h = (h', Ok oc) →
  match oc_measured oc with
  | None => dict_get "status" (oc_json oc) = Some (PStr "deployment-error")
  | Some (g, elapsed) =>
      dict_get "status" (oc_json oc) = Some (PStr (if both g then "functional-ok" else "timeout")) ∧
      dict_get "measurement_elapsed_seconds" (oc_json oc) = Some (rm_rounded rm elapsed) ∧
      (∀ t, pg_ready g = Some t ∨ pg_all_started g = Some t ∨ pg_first_command g = Some t → 0 ≤ t ≤ elapsed) ∧
      ∃ hw, gone rm (point_stack p) hw = (h', Ok (Some ()))
  end.
Proof.
  intros Hmono H. unfold run_point in H. do 5 apply H_bind_Ok in H as (? & ? & _ & H).
  apply H_bind_Ok in H as (h1 & started & [= <- <-] & H). apply H_bind_Ok in H as (h2 & [code text] & Hd & H).
  apply H_bind_Ok in H as (h3 & u & Hw & H). destruct (negb (code =? 0)) eqn:Hcode.
  { injection H as _ <-. cbn [oc_measured oc_json]. apply negb_true_iff in Hcode. unfold point_json, point_status. cbn [nothing_yet pg_ok].
    by rewrite Hcode. }
  apply negb_false_iff in Hcode. apply H_bind_Ok in H as (h4 & phase_one & [-> _]%h_lift_Ok & H).
  apply H_bind_Ok in H as (h5 & [b g] & Hl & H). cbn [snd] in H.
  apply reads_on_Ok in Hd; [|auto with reads]. apply reads_on_Ok in Hw; [|auto with reads]. cbn [h_reads] in Hd.
  assert (Hgood : good rm (rm_clock rm (h_reads x7)) h5 g).
  { pose proof (h_loop_Ok _ _ _ _ _ _ _ _ _ (good rm (rm_clock rm (h_reads x7))) (good rm (rm_clock rm (h_reads x7))) Hl) as Hinv.
    assert (Hb : if b then good rm (rm_clock rm (h_reads x7)) h5 g else good rm (rm_clock rm (h_reads x7)) h5 g); [|by destruct b].
    apply Hinv.
    - split; [apply rm_clock_le; [done|lia]|]. split; [done|]. by split_and!.
    - intros h0 t Hg. eapply good_later; [done|exact Hg|cbn; lia].
    - intros t h0 h1' b' t' Hg Hb. eapply poll_point_good in Hb as [Hg' _]; [|done|exact Hg]. by destruct b'. }
  apply H_bind_Ok in H as (h6 & u6 & Ho & H). apply H_bind_Ok in H as (h7 & t & [= <- <-] & H).
  apply H_bind_Ok in H as (h8 & u8 & _ & H). apply H_bind_Ok in H as (h9 & t' & _ & H).
  apply H_bind_Ok in H as (h10 & u10 & _ & H). apply H_bind_Ok in H as (h11 & [] & Hgone & H). injection H as -> <-.
  cbn [oc_measured oc_json]. apply Z.eqb_eq in Hcode as ->. destruct Hgood as (Hs & Hok & H1 & H2 & H3).
  apply reads_on_Ok in Ho; [|destruct (_ && _); [unfold observe, now; auto 10 with reads|apply reads_on_ret]].
  apply (rm_clock_le rm Hmono) in Ho.
  split; [unfold point_json, point_status; rewrite Hok; by destruct (both g)|]. split; [done|].
  split; [|by eapply gone_Ok].
  intros z [Hz|[Hz|Hz]]; [apply H1 in Hz|apply H2 in Hz|apply H3 in Hz]; lia.
Qed.

(** ** Example *)

(** A manager whose coordinator starts two processes and issues a command at once. *)
Definition demo_remote : remote := {|
  rm_ssh := λ _ c,
    Ok (if startswith "sudo docker network inspect" c then 1 else 0,
        (if startswith "sudo docker service ps" c then "Running|Running 3 seconds ago|"
         else if startswith "sudo docker service logs" c
              then "proxy: started process_id=phase1-0 proxy: started process_id=phase1-1 [INTERCMD]" else "")%string);
  rm_put := λ _ _ _, Ok (); rm_get := λ _ _, Ok ""; rm_list := λ _ _, Ok [];
  rm_clock := Z.of_nat; rm_second := 1; rm_rounded := PInt;
  rm_yaml := λ _, Ok (PDict [("services", PDict [("coordinator", PDict [])]);
    ("configs", PDict [("workload", PDict []); ("topology", PDict []); ("routing", PDict [])])]);
  rm_dump := json_dumps; rm_loads := λ _, Err TypeError |}.

Definition demo_point : point := Point "dlrm" 1 "/src" "/out" 60 0 "image".
Definition demo_sources : host :=
  Host (Filesystem ∅ (list_to_map ((λ n, ("/src/" +:+ n, "")) <$> ["workload.yml"; "topology.json"; "routing.json"; "stack.yml"]))) [] 0.

Lemma functional_evidence_witness :
  ∃ h' oc g elapsed, run_point demo_remote demo_point demo_sources = (h', Ok oc) ∧ oc_measured oc = Some (g, elapsed) ∧
    dict_get "status" (oc_json oc) = Some (PStr "functional-ok") ∧
    (∀ t, pg_ready g = Some t ∨ pg_all_started g = Some t ∨ pg_first_command g = Some t → 0 ≤ t ≤ elapsed).
Proof.
  destruct (run_point demo_remote demo_point demo_sources) as [h' [oc|e]] eqn:E; [|vm_compute in E; discriminate E].
  assert (Hclock : ∀ i, rm_clock demo_remote i ≤ rm_clock demo_remote (S i)) by (intros i; cbn; lia).
  pose proof (functional_evidence demo_remote demo_point demo_sources h' oc Hclock E) as H.
  assert (Hr : Ok oc = (run_point demo_remote demo_point demo_sources).2) by (rewrite E; reflexivity).
  vm_compute in Hr. injection Hr as ->. cbn [oc_measured] in H. destruct H as (H1 & _ & H2 & _).
  do 4 eexists. split; [reflexivity|]. split; [reflexivity|]. split; [exact H1|exact H2].
Defined.
