(* ===== verification/MlpDpMatrix.v ===== *)
(** * Validated data-parallel runs

    Model of [src/scripts/run_mlp_dp_matrix.py]: it deploys the data-parallel MLP on a remote Swarm,
    waits until all eight ranks have printed their model, compares the models with one another,
    with the first node count of the repetition and with the reference model, and keeps the logs
    and a summary. *)

From S2P Require Import Prelude PyValue Csv Steady Worker Proxy Feedback Experiments Host Traces Swarm Remote.

Definition RANKS : Z := 8.

(** [max] of a generator of floats *)
Definition f_max {F} `{Floats F} (l : list F) : result F :=
  match l with
  | [] => Err (ValueError "max() arg is an empty sequence")
  | x :: r => Ok (foldl (λ m y, if f_ltb m y then y else m) x r)
  end.

Section Models.
Context {F : Type} `{!Floats F}.

(** ** Result markers *)

Definition is_value_char (c : ascii) : bool :=
  is_digit c || existsb (Ascii.eqb c) ["e"; "E"; "+"; "."; ","; "-"]%char.

Fixpoint span_values (s : string) : string * string :=
  match s with
  | String c s' => if is_value_char c then let '(d, r) := span_values s' in (String c d, r) else ("", s)
  | EmptyString => ("", "")
  end.

Record marker := Marker { mk_rank : Z; mk_iterations : Z; mk_parameters : Z; mk_values : string }.

Definition RESULT : list piece :=
  [Lit "MLP_DP_RESULT rank="; Digits; Lit " iterations="; Digits; Lit " parameters="; Digits; Lit " values="].

Definition marker_at (s : string) : option (marker * string) :=
  match match_pattern RESULT s with
  | Some ([r; i; p], rest) =>
      let '(v, rest') := span_values rest in
      if String.eqb v "" then None else Some (Marker r i p v, rest')
  | _ => None
  end.

(** [RESULT.finditer(text)] *)
Definition markers : string → list marker := scan marker_at.

Definition marker_values (m : marker) : result (list F) :=
  mapM f_parse (filter (λ item, item ≠ "") (split_on "," (mk_values m))).

(** [previous != values] of two lists of floats *)
Fixpoint list_feqb (a b : list F) : bool :=
  match a, b with
  | [], [] => true
  | x :: a, y :: b => f_eqb x y && list_feqb a b
  | _, _ => false
  end.

Abbreviation models := (list (Z * list F)).

Fixpoint model_of (rank : Z) (m : models) : option (list F) :=
  match m with [] => None | (r, v) :: rest => if r =? rank then Some v else model_of rank rest end.

Definition add_marker (acc : models) (m : marker) : result models :=
  values ← marker_values m;
  _ ← raise_if (negb (mk_iterations m =? 100) || negb (mk_parameters m =? zlen values))
        (RuntimeError ("malformed MLP-DP result for rank " +:+ str_of_Z (mk_rank m)));
  match model_of (mk_rank m) acc with
  | Some previous =>
      _ ← raise_if (negb (list_feqb previous values))
            (RuntimeError ("rank " +:+ str_of_Z (mk_rank m) +:+ " emitted conflicting final models"));
      Ok acc
  | None => Ok (acc ++ [(mk_rank m, values)])
  end.

(** [models_from_logs] *)
Definition models_from_logs (log_text : string) : result models :=
  m ← fold_result add_marker [] (markers log_text);
  _ ← raise_if (negb (bool_decide (list_to_set m.*1 =@{gset Z} list_to_set (seqZ 0 RANKS))))
        (RuntimeError ("expected ranks 0.." +:+ str_of_Z (RANKS - 1) +:+ ", found " +:+
                       repr (PList (PInt <$> py_sorted Z.leb m.*1))));
  Ok m.

(** ** Comparison *)

Definition zip_floats (f : F → F → result F) (a b : list F) : result (list F) := mapM (λ p, f p.1 p.2) (zip a b).

(** [max(abs(left), 1e-30)] *)
Definition scale_of (left_ : F) : F :=
  let tiny := f_lit 1 (10 ^ 30) in if f_ltb (f_abs left_) tiny then tiny else f_abs left_.

Definition max_error (reference candidate : list F) : result (F * F) :=
  _ ← raise_if (negb (zlen reference =? zlen candidate)) (RuntimeError "model parameter count differs from reference");
  absolute ← (d ← zip_floats (λ l r, Ok (f_abs (f_sub l r))) reference candidate; f_max d);
  relative ← (d ← zip_floats (λ l r, f_div (f_abs (f_sub l r)) (scale_of l)) reference candidate; f_max d);
  Ok (absolute, relative).

Record comparison := Comparison { cm_absolute : F; cm_relative : F }.

(** The differences exceed both tolerances. *)
Definition differs (absolute_tolerance relative_tolerance : F) (e : F * F) : bool :=
  f_ltb absolute_tolerance e.1 && f_ltb relative_tolerance e.2.

Definition assert_equivalent (reference candidate : list F) (absolute_tolerance relative_tolerance : F)
    (description : string) : result comparison :=
  e ← max_error reference candidate;
  _ ← raise_if (differs absolute_tolerance relative_tolerance e)
        (RuntimeError (description +:+ " differs from baseline: abs=" +:+ f_sci 3 e.1 +:+ ", rel=" +:+ f_sci 3 e.2));
  Ok (Comparison e.1 e.2).

Definition comparison_json (c : comparison) : pyval :=
  PDict [("max_absolute_error", f_value (cm_absolute c)); ("max_relative_error", f_value (cm_relative c))].

(** ** Router metrics *)

Section Metrics.
Context (json_loads : string → result pyval).

(** The records of one log: what follows the marker on each line that has it. *)
Definition log_metrics (log : string) : result (list pydict) :=
  fold_result (λ acc line,
    match after_marker "pipe-metric: " line with
    | None => Ok acc
    | Some text => v ← json_loads text; d ← is_dict v ?! TypeError; Ok (acc ++ [d])
    end) [] (splitlines log).

Definition sum_int (k : string) (l : list pydict) : result Z :=
  zs ← mapM (λ d, v ← dict_item k d; int_of v) l; Ok (zsum zs).

(** [sum(...) / 1_000_000_000] *)
Definition in_seconds (ns : Z) : result F := f_ratio ns 1000000000.

Definition percent (x wall_seconds : F) : result F := f_div (f_mul (f_of_Z 100) x) wall_seconds.

Definition is_cross (d : pydict) : result bool := v ← dict_item "cross_node" d; Ok (truthy v).

(** [[metric for metric in metrics if metric["cross_node"]]] *)
Definition cross_records (l : list pydict) : result (list pydict) :=
  flags ← mapM is_cross l; Ok (filter (λ p, p.1 = true) (zip flags l)).*2.

Definition pipe_metric_summary (logs : list string) (wall_seconds : F) : result pydict :=
  per_log ← mapM log_metrics logs;
  let metrics := concat per_log in
  cross_node ← cross_records metrics;
  elapsed_ns ← sum_int "elapsed_ns" cross_node;
  elapsed ← in_seconds elapsed_ns;
  wait_ns ← sum_int "synchronization_wait_ns" cross_node;
  wait ← in_seconds wait_ns;
  bytes ← sum_int "bytes" cross_node;
  elapsed_percent ← percent elapsed wall_seconds;
  wait_percent ← percent wait wall_seconds;
  Ok [("all_pipe_operation_count", PInt (zlen metrics)); ("cross_node_operation_count", PInt (zlen cross_node));
      ("cross_node_router_bytes", PInt bytes);
      ("cross_node_router_elapsed_seconds", f_value (f_round 6 elapsed));
      ("cross_node_synchronization_wait_seconds", f_value (f_round 6 wait));
      ("cross_node_router_elapsed_wall_percent", f_value (f_round 6 elapsed_percent));
      ("cross_node_synchronization_wait_wall_percent", f_value (f_round 6 wait_percent))].

End Metrics.

(** ** One job *)

Context (rm : remote) (span_seconds : Z → F).   (** [round(t, 3)] of a span of the clock, in seconds *)

Record job := Job {
  jb_source : string;
  jb_output : string;
  jb_nodes : Z;
  jb_repetition : Z;
  jb_image : string;
  jb_timeout : Z;
}.

Definition job_stack (j : job) : string :=
  "chipsystemsim_mlp_dp_n" +:+ str_of_Z (jb_nodes j) +:+ "_r" +:+ str_of_Z (jb_repetition j).
Definition job_directory (j : job) : string := "/home/legosim/mlp-dp/" +:+ job_stack j.

Definition upload_job (j : job) : H string :=
  _ ← h_for (λ name, upload rm (path_div (jb_source j) name) (job_directory j +:+ "/" +:+ name))
        ["workload.yml"; "topology.json"; "routing.json"];
  stack ← rewrite_stack rm (path_div (jb_source j) "stack.yml") (job_directory j) (jb_image j);
  _ ← put rm (job_directory j +:+ "/stack.yml") stack;
  mret stack.

Definition transport (slot : Z) : string := "transport-" +:+ str_of_Z slot.

Definition transport_texts (j : job) (tail_ : option Z) : H (list string) :=
  h_map (λ slot, service_log rm (job_stack j) (transport slot) tail_) (seqZ 0 (jb_nodes j)).

(** One round of the polling loop; a [RuntimeError] means that a model is missing or bad. *)
Definition poll_models (j : job) : H (option models) :=
  logs ← transport_texts j (Some 4000);
  match models_from_logs (join nl logs) with
  | Ok m => mret (Some m)
  | Err e => if is_called_process_error e then mret None else h_lift (Err e)
  end.

Definition await_models (j : job) (started : Z) : H models :=
  h_poll (rm_clock rm) (started + jb_timeout j * rm_second rm) (poll_models j)
    (h_lift (Err (TimeoutError ("MLP-DP result markers did not appear within " +:+ str_of_Z (jb_timeout j) +:+ " seconds"))))
    (poll_fuel (jb_timeout j * rm_second rm)).

Definition rank_model (m : models) (rank : Z) : result (list F) := model_of rank m ?! KeyError (str_of_Z rank).

(** Every other rank against rank 0. *)
Definition compare_ranks (j : job) (m : models) : result (list comparison) :=
  mapM (λ rank,
    first ← rank_model m 0; other ← rank_model m rank;
    assert_equivalent first other (f_lit 1 (10 ^ 12)) (f_lit 1 (10 ^ 12))
      ("rank " +:+ str_of_Z rank +:+ " in " +:+ job_stack j)) (seqZ 1 (RANKS - 1)).

(** The completed job: its model and the object of [result.json]. *)
Record completed := Completed { cp_model : list F; cp_json : pydict }.

Definition collect_job (j : job) (started : Z) (m : models) : H completed :=
  complete_logs ← transport_texts j None;
  _ ← h_for (λ p, h_write (path_div (jb_output j) (transport p.1 +:+ ".log")) p.2) (enumerate complete_logs);
  coordinator ← service_log rm (job_stack j) "coordinator" (Some 4000);
  _ ← h_write (path_div (jb_output j) "coordinator.log") coordinator;
  within_run ← h_lift (compare_ranks j m);
  t ← now rm;
  let wall_seconds := span_seconds (t - started) in
  model ← h_lift (rank_model m 0);
  absolute ← h_lift (f_max (cm_absolute <$> within_run));
  relative ← h_lift (f_max (cm_relative <$> within_run));
  metrics ← h_lift (pipe_metric_summary (rm_loads rm) complete_logs wall_seconds);
  let json := [("nodes", PInt (jb_nodes j)); ("repetition", PInt (jb_repetition j)); ("status", PStr "completed");
    ("wall_seconds", f_value wall_seconds); ("model", PList (f_value <$> model));
    ("within_run_max_absolute_error", f_value absolute); ("within_run_max_relative_error", f_value relative);
    ("pipe_metrics", PDict metrics)] in
  _ ← h_write (path_div (jb_output j) "result.json") (json_indent 0 (PDict json));
  mret (Completed model json).

(** The [try] clause. *)
Definition try_job (j : job) (started : Z) : H completed := m ← await_models j started; collect_job j started m.

Definition run_once (j : job) : H completed :=
  let stack := job_stack j in
  _ ← h_mkdir_new (jb_output j);
  _ ← remote_ignored rm ("mkdir -p " +:+ job_directory j);
  stack_text ← upload_job j;
  _ ← h_write (path_div (jb_output j) "stack.yml") stack_text;
  _ ← wait_for_removal rm stack;
  started ← now rm;
  deployed ← remote_command rm (deploy_command (job_directory j) stack);
  _ ← h_write (path_div (jb_output j) "deployment.log") deployed.2;
  _ ← h_lift (raise_if (negb (deployed.1 =? 0)) (RuntimeError ("Swarm deployment failed for " +:+ stack)));
  h_finally (try_job j started) (wait_for_removal rm stack).

(** ** The matrix *)

Record arguments := Arguments {
  ar_source_root : string;
  ar_output_root : string;
  ar_image : string;
  ar_nodes : list Z;
  ar_repetitions : Z;
  ar_timeout : Z;
  ar_absolute : F;
  ar_relative : F;
}.

Definition job_of (a : arguments) (repetition nodes : Z) : job :=
  Job (path_div (ar_source_root a) ("mlp-dp-nodes" +:+ str_of_Z nodes))
    (path_div (path_div (ar_output_root a) ("nodes" +:+ str_of_Z nodes)) ("rep-" +:+ str_of_Z repetition))
    nodes repetition (ar_image a) (ar_timeout a).

Definition description (repetition nodes : Z) : string :=
  str_of_Z nodes +:+ "-node repetition " +:+ str_of_Z repetition.

(** [{key: value for ... if key != "model"}] *)
Definition without_model (d : pydict) : pydict := filter (λ kv, kv.1 ≠ "model") d.

(** One job of the matrix and its two comparisons; [reference] is the first model of the
    repetition. *)
Definition run_job (a : arguments) (expected_model : list F) (repetition : Z) (st : option (list F) * list pydict) (nodes : Z)
    : H (option (list F) * list pydict) :=
  let j := job_of a repetition nodes in
  r ← run_once j;
  reference_comparison ← h_lift (assert_equivalent expected_model (cp_model r) (ar_absolute a) (ar_relative a)
      (description repetition nodes +:+ " against reference"));
  compared ← h_lift (match st.1 with
    | None => Ok (Comparison (f_of_Z 0) (f_of_Z 0))
    | Some reference => assert_equivalent reference (cp_model r) (ar_absolute a) (ar_relative a) (description repetition nodes)
    end);
  let json := cp_json r ++ [("baseline_comparison", comparison_json compared); ("reference_comparison", comparison_json reference_comparison)] in
  _ ← h_write (path_div (jb_output j) "result.json") (json_indent 0 (PDict json));
  mret (Some (default (cp_model r) st.1), st.2 ++ [without_model json]).

Definition run_repetition (a : arguments) (expected_model : list F) (summaries : list pydict) (repetition : Z) : H (list pydict) :=
  st ← h_fold (run_job a expected_model repetition) (None, summaries) (ar_nodes a); mret st.2.

(** [main], once the client is connected. *)
Definition main (expected_model : list F) (a : arguments) : H unit :=
  _ ← h_lift (raise_if (ar_repetitions a <? 1) (ValueError "--repetitions must be positive"));
  summaries ← h_fold (run_repetition a expected_model) [] (seqZ 1 (ar_repetitions a));
  _ ← h_mkdir (ar_output_root a);
  h_write (path_div (ar_output_root a) "summary.json") (json_indent 0 (PList (PDict <$> summaries))).

End Models.

(** ** Models *)

Section Facts.
Context {F : Type} `{!Floats F}.

(** What the accepted models say about one marker. *)
Definition agrees (m : list (Z * list F)) (k : marker) : Prop :=
  mk_iterations k = 100 ∧
  ∃ v v', marker_values k = Ok v ∧ mk_parameters k = zlen v ∧ model_of (mk_rank k) m = Some v' ∧ (v' = v ∨ list_feqb v' v = true).

Lemma model_of_app rank (m : list (Z * list F)) r v :
  model_of rank (m ++ [(r, v)]) =
  match model_of rank m with Some v' => Some v' | None => if r =? rank then Some v else None end.
Proof using Type. induction m as [|[r' v'] m IH]; [done|]. cbn [app model_of]. by destruct (r' =? rank). Qed.

Lemma model_of_In rank (m : list (Z * list F)) v : model_of rank m = Some v → rank ∈ m.*1.
Proof using Type.
  induction m as [|[r v'] m IH]; [done|]. cbn [model_of]. destruct (Z.eqb_spec r rank) as [->|]; [intros _; by left|].
  intros Hm. right. by apply IH.
Qed.

Lemma In_model_of rank (m : list (Z * list F)) : rank ∈ m.*1 → is_Some (model_of rank m).
Proof using Type.
  induction m as [|[r v] m IH]; intros Hin; [by apply elem_of_nil in Hin|]. cbn [model_of].
  destruct (Z.eqb_spec r rank); [eauto|]. apply IH. by apply elem_of_cons in Hin as [->|?].
Qed.

Lemma agrees_later m r v k : agrees m k → agrees (m ++ [(r, v)]) k.
Proof using Type.
  intros (Hi & v0 & v1 & H1 & H2 & H3 & H4). split; [done|]. exists v0, v1. split_and!; [done..| |done].
  by rewrite model_of_app, H3.
Qed.

Lemma add_marker_Ok m k m' :
  add_marker m k = Ok m' → agrees m' k ∧ (∀ k', agrees m k' → agrees m' k').
Proof using Type.
  unfold add_marker. intros H. result_inv. bool_facts.
  destruct (model_of (mk_rank k) m) as [prev|] eqn:E; result_inv; bool_facts.
  - split; [|done]. split; [done|]. exists a, prev. split_and!; [done..|]. right. done.
  - split; [|intros; by apply agrees_later]. split; [done|]. exists a, a. split_and!; [done..| |by left].
    by rewrite model_of_app, E, Z.eqb_refl.
Qed.

Lemma models_from_logs_Ok text m :
  models_from_logs text = Ok m →
  (∀ k, k ∈ markers text → agrees m k) ∧ (∀ rank, is_Some (model_of rank m) ↔ 0 ≤ rank < RANKS).
Proof using Type.
  unfold models_from_logs. intros H. result_inv. bool_facts. split.
  - apply (fold_result_inv add_marker (λ pre acc, ∀ k, k ∈ pre → agrees acc k) (markers text) [] m); [set_solver| |done].
    intros pre k acc acc' IH _ [Hk Hkeep]%add_marker_Ok k' [?|Hin%list_elem_of_singleton]%elem_of_app; [auto|by rewrite Hin].
  - intros rank. assert (Hset : rank ∈ m.*1 ↔ rank ∈ seqZ 0 RANKS).
    { rewrite <- !(elem_of_list_to_set (C:=gset Z)). by rewrite Ha0. }
    rewrite elem_of_seqZ in Hset. change (0 + RANKS) with RANKS in Hset. rewrite <- Hset.
    split; [by intros [v Hv%model_of_In]|apply In_model_of].
Qed.

(** ** One job *)

(** [candidate] is within the tolerances of [reference]. *)
Definition close (absolute relative : F) (reference candidate : list F) : Prop :=
  ∃ e, max_error reference candidate = Ok e ∧ differs absolute relative e = false.

Lemma assert_equivalent_Ok reference candidate absolute relative text c :
  assert_equivalent reference candidate absolute relative text = Ok c → close absolute relative reference candidate.
Proof using Type. unfold assert_equivalent, close. intros H. result_inv. eauto. Qed.

Context (rm : remote) (span_seconds : Z → F).

Lemma only_transports j tail_ : only (λ _, True) (transport_texts rm j tail_).
Proof using Type.
  apply only_map. intros slot _. apply only_bind; [by apply only_remote|intros; apply only_quiet, runs_ret].
Qed.

Lemma only_upload_job (p : list string → Prop) j :
  (∀ path text, p ["put"; path; text]) → only p (upload_job rm j).
Proof using Type.
  intros Hp. apply only_bind.
  { apply only_for. intros name _. apply only_bind; [apply only_quiet, runs_read|]. intros; by apply only_step. }
  intros _. apply only_bind.
  { apply only_bind; [apply only_quiet, runs_read|]. intros; apply only_bind; [apply only_quiet, runs_lift|].
    intros; apply only_bind; [apply only_quiet, runs_lift|]. intros; apply only_quiet, runs_ret. }
  intros stack. apply only_bind; [by apply only_step|]. intros; apply only_quiet, runs_ret.
Qed.

Lemma poll_models_Ok j h h' m :
  poll_models rm j h = (h', Ok (Some m)) → ∃ logs, models_from_logs (join nl logs) = Ok m.
Proof using Type.
  unfold poll_models. intros H. apply H_bind_Ok in H as (h1 & logs & _ & H). exists logs.
  destruct (models_from_logs (join nl logs)) as [m'|e]; [by injection H as _ ->|].
  by destruct (is_called_process_error e).
Qed.

Lemma await_models_Ok j started h h' m :
  await_models rm j started h = (h', Ok m) → ∃ logs, models_from_logs (join nl logs) = Ok m.
Proof using Type.
  unfold await_models. intros [[hw H]|(hw & _ & H)]%h_poll_Ok; [by apply poll_models_Ok in H|done].
Qed.

Lemma compare_ranks_Ok j m l rank :
  compare_ranks j m = Ok l → 1 ≤ rank < RANKS →
  ∃ first other, model_of 0 m = Some first ∧ model_of rank m = Some other ∧
    close (f_lit 1 (10 ^ 12)) (f_lit 1 (10 ^ 12)) first other.
Proof using Type.
  unfold compare_ranks. intros H%mapM_result_Ok Hr.
  assert (Hin : rank ∈ seqZ 1 (RANKS - 1)) by (apply elem_of_seqZ; lia).
  apply list_elem_of_lookup in Hin as [i Hi]. destruct (Forall2_lookup_l _ _ _ _ _ H Hi) as (c & _ & Hc).
  unfold rank_model in Hc. result_inv. eexists _, _. split; [done|]. split; [done|]. by eapply assert_equivalent_Ok.
Qed.

Lemma collect_job_Ok j started m h h' r :
  collect_job rm span_seconds j started m h = (h', Ok r) →
  model_of 0 m = Some (cp_model r) ∧ ∃ l, compare_ranks j m = Ok l.
Proof using Type.
  unfold collect_job. intros H. h_inv. injection H as _ <-. cbn [cp_model].
  split; [|eauto]. unfold rank_model in *. by result_inv.
Qed.

(** The ranks of one job: markers of one log agree with the models, there is one model for each
    rank, and each is close to that of rank 0, which the job reports. *)
Definition validated (model : list F) : Prop :=
  ∃ logs m, models_from_logs (join nl logs) = Ok m ∧
    (∀ k, k ∈ markers (join nl logs) → agrees m k) ∧ model_of 0 m = Some model ∧
    ∀ rank, 1 ≤ rank < RANKS → ∃ other, model_of rank m = Some other ∧ close (f_lit 1 (10 ^ 12)) (f_lit 1 (10 ^ 12)) model other.

Lemma run_once_validated j h h' r : run_once rm span_seconds j h = (h', Ok r) → validated (cp_model r).
Proof using Type.
  unfold run_once. intros H. do 8 apply H_bind_Ok in H as (? & ? & _ & H). apply H_bind_Ok in H as (h1 & u & _ & H).
  unfold h_finally in H. match type of H with (let '(_, _) := ?c in _) = _ => destruct c as [h2 o] eqn:E end.
  destruct (wait_for_removal rm (job_stack j) h2) as [h3 [[]|e]]; [|done]. injection H as -> ->.
  apply H_bind_Ok in E as (h4 & m & Hm & E). apply await_models_Ok in Hm as [logs Hm]. apply collect_job_Ok in E as [H0 [l Hl]].
  exists logs, m. split; [done|]. split; [by apply models_from_logs_Ok|]. split; [done|]. intros rank Hr.
  destruct (compare_ranks_Ok _ _ _ _ Hl Hr) as (first & other & Hf & Ho & Hc). rewrite H0 in Hf. injection Hf as <-. eauto.
Qed.

Lemma only_await j started : only (λ _, True) (await_models rm j started).
Proof using Type.
  apply only_poll; [|apply only_quiet, runs_lift]. apply only_bind; [apply only_transports|]. intros logs.
  destruct (models_from_logs _) as [m|e]; [apply only_quiet, runs_ret|].
  destruct (is_called_process_error e); apply only_quiet; [apply runs_ret|apply runs_lift].
Qed.

Lemma only_collect j started m : only (λ _, True) (collect_job rm span_seconds j started m).
Proof using Type.
  apply only_bind; [apply only_transports|]. intros logs. apply only_bind.
  { apply only_for. intros p _. apply only_quiet, runs_write. }
  intros _. apply only_bind; [apply only_bind; [by apply only_remote|intros; apply only_quiet, runs_ret]|]. intros text.
  apply only_bind; [apply only_quiet, runs_write|]. intros _. apply only_bind; [apply only_quiet, runs_lift|]. intros within_run.
  apply only_bind; [apply only_quiet, runs_now|]. intros t.
  do 4 (apply only_bind; [apply only_quiet, runs_lift|]; intros ?).
  apply only_bind; [apply only_quiet, runs_write|]. intros _. apply only_quiet, runs_ret.
Qed.

(** The commands after an accepted deployment. *)
Lemma traced_job j started :
  traced (h_finally (try_job rm span_seconds j started) (wait_for_removal rm (job_stack j)))
    (λ cs _, ssh (rm_command (job_stack j)) ∈ cs).
Proof using Type.
  eapply traced_impl; [apply traced_finally; [apply traced_any|apply traced_remote_removal]|].
  - apply only_bind; [apply only_await|]. intros m. apply only_collect.
  - intros cs r (cs1 & cs2 & r1 & r2 & -> & _ & [rest ->] & _). set_solver.
Qed.

(** [deploy] is the last operation of a run that fails, or [rm] follows. *)
Definition deployed_then_removed {A} (deploy rm_ : list string) (cs : list (list string)) (r : result A) : Prop :=
  (deploy ∉ cs) ∨
  ∃ before after, cs = before ++ deploy :: after ∧ (deploy ∉ before) ∧ ((after = [] ∧ is_ok r = false) ∨ rm_ ∈ after).

Lemma traced_prefix {A B} deploy rm_ (m : H A) (f : A → H B) :
  only (λ c, c ≠ deploy) m → (∀ a, traced (f a) (deployed_then_removed deploy rm_)) →
  traced (m ≫= f) (deployed_then_removed deploy rm_).
Proof using Type.
  intros Hm Hf. eapply traced_bind; [exact Hm| |].
  - intros cs a Hcs. rewrite Forall_forall in Hcs. assert (Hn : deploy ∉ cs) by (intros Hin; by apply (Hcs _ Hin)).
    eapply traced_impl; [apply Hf|]. intros cs' r [Hn'|(before & after & -> & Hb & Ha)]; [left; set_solver|].
    right. exists (cs ++ before), after. rewrite <- app_assoc. split; [done|]. split; [set_solver|done].
  - intros cs e Hcs. rewrite Forall_forall in Hcs. left. intros Hin. by apply (Hcs _ Hin).
Qed.

(** A quiet step after the deployment. *)
Lemma traced_after {A B} deploy rm_ (m : H A) (f : A → H B) cs0 :
  runs m [] → (∀ a, traced (f a) (λ cs r, deployed_then_removed deploy rm_ (cs0 ++ cs) r)) →
  (∀ e : exn, deployed_then_removed (A:=B) deploy rm_ cs0 (Err e)) →
  traced (m ≫= f) (λ cs r, deployed_then_removed deploy rm_ (cs0 ++ cs) r).
Proof using Type.
  intros Hm Hf He. eapply (traced_bind _ _ (λ cs _, cs = [])).
  - intros h. destruct (Hm h) as (ran & left_ & Heq & Hc & _). symmetry in Heq. apply app_eq_nil in Heq as [-> ->].
    by exists [].
  - intros cs a ->. apply Hf.
  - intros cs e ->. rewrite app_nil_r. apply He.
Qed.

Lemma traced_run_once j :
  traced (run_once rm span_seconds j)
    (deployed_then_removed (ssh (deploy_command (job_directory j) (job_stack j))) (ssh (rm_command (job_stack j)))).
Proof using Type.
  unfold run_once. set (deploy := ssh (deploy_command _ _)).
  apply traced_prefix; [apply only_quiet, runs_mkdir|]. intros _.
  apply traced_prefix; [apply only_bind; [by apply only_remote|intros; apply only_quiet, runs_ret]|]. intros _.
  apply traced_prefix; [by apply only_upload_job|]. intros text.
  apply traced_prefix; [apply only_quiet, runs_write|]. intros _.
  apply traced_prefix; [by apply only_remote_removal|]. intros _.
  apply traced_prefix; [apply only_quiet, runs_now|]. intros started.
  assert (Hend : ∀ e : exn, deployed_then_removed (A:=completed (F:=F)) deploy (ssh (rm_command (job_stack j))) [deploy] (Err e)).
  { intros e. right. exists [], []. split; [done|]. split; [set_solver|by left]. }
  eapply traced_bind; [apply traced_step| |intros cs e ->; apply Hend].
  intros cs deployed ->. apply traced_after; [apply runs_write| |done]. intros _.
  apply traced_after; [apply runs_lift| |done]. intros _.
  eapply traced_impl; [apply traced_job|]. intros cs r Hin. right. exists [], cs. split; [done|]. split; [set_solver|by right].
Qed.

End Facts.

(** A finished data-parallel job is validated and its stack removed.  When [run_once] returns a
    model, the log it waited for gives every rank from 0 to 7 exactly one model: each result
    marker in it names 100 iterations, the number of its values, and values equal to the model of
    its rank, and no rank's model differs from the reported one by more than both tolerances.
    And after the stack was deployed it is removed before [run_once] ends, whatever happens; only
    a deployment that fails itself, or whose log cannot be written, ends the run at once. *)
Theorem job_validated {F} `{!Floats F} rm (span_seconds : Z → F) j h :
  (∀ h' r, run_once rm span_seconds j h = (h', Ok r) → validated (cp_model r)) ∧
  traced (run_once rm span_seconds j)
    (deployed_then_removed (ssh (deploy_command (job_directory j) (job_stack j))) (ssh (rm_command (job_stack j)))).
Proof. split; [intros h' r; apply run_once_validated|apply traced_run_once]. Qed.
