(* ===== verification/Scalability.v ===== *)
(** * Repeated MLP scalability samples

    Model of [src/scripts/run_mlp_scalability.py]: it deploys the transports of one sample, waits
    until every worker is ready, starts the coordinator, watches one epoch of the MLP phase graph
    and keeps the evidence, and repeats that for every node count, repetition and epoch. *)

From S2P Require Import Prelude PyValue Csv Placement Worker Proxy Feedback Host Traces Swarm Remote DistributedYaml.

(** ** Markers *)

(** The text up to the end of the line, and the rest from there. *)
Fixpoint span_line (s : string) : string * string :=
  match s with
  | EmptyString => ("", "")
  | String c s' => if Ascii.eqb c NL then ("", s) else let '(l, r) := span_line s' in (String c l, r)
  end.

(** [PIPE_METRIC]: a record reaches to the last brace of its line. *)
Definition metric_at (s : string) : option (string * string) :=
  match strip_prefix "pipe-metric: {" s with
  | Some r =>
      let '(line, rest) := span_line r in
      match rpartition_on "}" line with
      | Some (body, after) => if String.eqb body "" then None else Some (body, after +:+ rest)
      | None => None
      end
  | None => None
  end.

Definition metric_count (log_text : string) : Z := zlen (scan metric_at log_text).

(** [PHASE_ONE_EXIT] *)
Definition exit_at (s : string) : option (string * Z * string) :=
  match number_at "worker: process phase1-" s with
  | Some (d, r) => match number_at " exited rc=" r with
                   | Some (code, rest) => (λ z, ("phase1-" +:+ d, z, rest)) <$> py_int code
                   | None => None
                   end
  | None => None
  end.

Definition phase_one_exits (log_text : string) : list (string * Z) :=
  foldl (λ d kv, dict_set kv.1 kv.2 d) [] (scan exit_at log_text).

Definition spawn_count (phase log_text : string) : Z :=
  zlen (remove_dups (numbered ("worker: spawn request process_id=" +:+ phase +:+ "-") log_text)).

Definition phase_one_spawn_count (log_text : string) : Z := spawn_count "phase1" log_text.
Definition phase_two_spawn_count (log_text : string) : Z := spawn_count "phase2" log_text.

Definition ready_count (log_text : string) : Z := zlen (scan (literal_at "worker: ready port=9300") log_text).

Definition EXPECTED_MLP_PIPECOMM_EVENTS : Z := 18.

(** [PHASE_ONE_COUNTS["mlp"]] *)
Definition mlp_processes : Z := dict_get_default "mlp" 0 PHASE_ONE_COUNTS.

(** ** Rewriting the workload *)

(** The argument list without an option and the value after it. *)
Fixpoint without_option (name : string) (arguments : list pyval) : list pyval :=
  match arguments with
  | [] => []
  | a :: rest =>
      if eq_str a name then match rest with [] => [] | _ :: rest => without_option name rest end
      else a :: without_option name rest
  end.

Definition without_flag (name : string) (arguments : list pyval) : list pyval := filter (λ a, eq_str a name = false) arguments.

(** [process["args"] = f(list(process.get("args", [])))] *)
Definition map_arguments (f : list pyval → list pyval) (p : process) : result process :=
  arguments ← iterate (dict_get_default "args" (PList []) p); Ok (dict_set "args" (PList (f arguments)) p).

(** [v[k] = x] *)
Definition set_item (k : string) (x v : pyval) : result pyval := d ← is_dict v ?! TypeError; Ok (PDict (dict_set k x d)).

Definition change_arguments (f : list pyval → list pyval) (v : pyval) : result pyval :=
  p ← is_dict v ?! AttributeError; PDict <$> map_arguments f p.

Definition remove_limit : pyval → result pyval := change_arguments (without_option "--gpgpu-max-instructions").
Definition remove_forward : pyval → result pyval := change_arguments (without_flag "--fast-forward").
Definition keep_output : pyval → result pyval := set_item "is_to_stdout" (PBool true).

(** [for process in workload.get(phase, []): change(process)]; the processes are changed in place. *)
Definition change_phase (phase : string) (change : pyval → result pyval) (workload : pydict) : result pydict :=
  match dict_get phase workload with
  | None => Ok workload
  | Some v =>
      l ← iterate v;
      l ← mapM change l;
      Ok (match v with PList _ => dict_set phase (PList l) workload | _ => workload end)
  end.

Definition remove_gpgpu_instruction_limits : pydict → result pydict := change_phase "phase1" remove_limit.
Definition remove_sniper_fast_forward : pydict → result pydict := change_phase "phase1" remove_forward.
Definition enable_proxy_evidence (workload : pydict) : result pydict :=
  workload ← change_phase "phase1" keep_output workload; change_phase "phase2" keep_output workload.

Definition rewrite_workload (unbounded_gpgpu unbounded_sniper : bool) (v : pyval) : result pydict :=
  workload ← is_dict v ?! AttributeError;
  workload ← enable_proxy_evidence workload;
  workload ← (if unbounded_gpgpu then remove_gpgpu_instruction_limits workload else Ok workload);
  if unbounded_sniper then remove_sniper_fast_forward workload else Ok workload.

(** ** Rewriting the stack *)

(** [services["coordinator"].setdefault("deploy", {})["replicas"] = 0] *)
Definition hold_coordinator (services : pydict) : result pydict :=
  c ← dict_item "coordinator" services;
  service ← is_dict c ?! AttributeError;
  deploy ← set_item "replicas" (PInt 0) (dict_get_default "deploy" (PDict []) service);
  Ok (dict_set "coordinator" (PDict (dict_set "deploy" deploy service)) services).

Definition set_environment (train_iterations : option Z) (parallel_gpu_tasks : bool) (environment : pyval) : result pyval :=
  environment ← match train_iterations with
                | Some n => set_item "LEGOSIM_MLP_TRAIN_ITERATIONS" (PStr (str_of_Z n)) environment
                | None => Ok environment
                end;
  if parallel_gpu_tasks then set_item "LEGOSIM_MLP_PARALLEL_GPU_TASKS" (PStr "1") environment else Ok environment.

Definition prewarm_service (train_iterations : option Z) (parallel_gpu_tasks : bool) (kv : string * pyval) : result (string * pyval) :=
  if startswith "transport-" kv.1 then
    service ← is_dict kv.2 ?! AttributeError;
    environment ← set_environment train_iterations parallel_gpu_tasks (dict_get_default "environment" (PDict []) service);
    Ok (kv.1, PDict (dict_set "environment" environment service))
  else Ok kv.

Definition prewarm_value (train_iterations : option Z) (parallel_gpu_tasks : bool) (stack : pyval) : result pydict :=
  d ← is_dict stack ?! TypeError;
  s ← dict_item "services" d;
  services ← is_dict s ?! TypeError;
  services ← hold_coordinator services;
  services ← mapM (prewarm_service train_iterations parallel_gpu_tasks) services;
  Ok (dict_set "services" (PDict services) d).

(** ** The manager *)

Definition is_timeout (e : exn) : bool := match e with TimeoutError _ => true | _ => false end.
Definition is_os_error (e : exn) : bool := match e with OSError _ | FileNotFoundError _ | TimeoutError _ => true | _ => false end.

Definition bounded_log (stack service : string) : string :=
  "timeout 15s sudo docker service logs --tail 500 " +:+ stack +:+ "_" +:+ service.

Definition transport (slot : Z) : string := "transport-" +:+ str_of_Z slot.

Definition transport_logs_command (stack : string) (node_count : Z) : string :=
  join " " ((λ slot, "(" +:+ bounded_log stack (transport slot) +:+ " || true) &") <$> seqZ 0 node_count) +:+ " wait".

(** The state of the task that should run: [Some true] when it is complete, [Some false] when it failed. *)
Definition terminal_line (line : string) : option bool :=
  match partition_on "|" line with
  | (desired, Some remainder) =>
      if String.eqb desired "Running" then
        if startswith "Complete|" remainder then Some true
        else if startswith "Failed|" remainder || startswith "Rejected|" remainder then Some false
        else None
      else None
  | (_, None) => None
  end.

Definition terminal_state (text : string) : option bool := head (omap terminal_line (splitlines text)).

Definition process_logs_command (stack directory : string) : string :=
  "container=$(sudo docker ps -aq --filter label=com.docker.swarm.service.name=" +:+ stack +:+ "_coordinator | head -n 1); " +:+
  "test -n " +:+ String DQUOTE "$container" +:+ String DQUOTE " || exit 0; " +:+
  "mkdir -p " +:+ directory +:+ "/coordinator-process-logs; " +:+
  "for path in proc_r1_p1_t0 proc_r1_p1_t1 proc_r1_p1_t2 proc_r1_p1_t3 " +:+
  "proc_r1_p1_t4 proc_r1_p1_t5 proc_r1_p1_t6 proc_r1_p2_t0; do " +:+
  "sudo docker cp " +:+ String DQUOTE "$container" +:+ String DQUOTE ":/opt/legosim/$path " +:+
  directory +:+ "/coordinator-process-logs/ 2>/dev/null || true; done; " +:+
  "sudo docker cp " +:+ String DQUOTE "$container" +:+ String DQUOTE ":/opt/legosim/bridge-trace.log " +:+
  directory +:+ "/coordinator-process-logs/ 2>/dev/null || true".

Definition snapshot_command (stack directory : string) (node_count : Z) : string :=
  "mkdir -p " +:+ directory +:+ "/runtime-snapshot; " +:+
  "for service in " +:+ join " " (services node_count) +:+ "; do " +:+
  "container=$(sudo docker ps -q --filter label=com.docker.swarm.service.name=" +:+ stack +:+ "_$service | head -n 1); " +:+
  "test -n " +:+ String DQUOTE "$container" +:+ String DQUOTE " || continue; { " +:+
  "echo " +:+ String DQUOTE "service=$service container=$container" +:+ String DQUOTE "; " +:+
  "sudo docker exec " +:+ String DQUOTE "$container" +:+ String DQUOTE " sh -c " +:+
  "'ps -eo pid,ppid,stat,wchan:32,etime,cmd; echo ---sockets---; ss -ntp' 2>&1 || true; " +:+
  "} > " +:+ directory +:+ "/runtime-snapshot/$service.txt; done".

Section Samples.
Context {F : Type} `{!Floats F} (rm : remote) (seconds : Z → F).   (** a span of the clock, in seconds *)

Definition transport_logs (stack : string) (node_count : Z) : H string :=
  out ← remote_command rm (transport_logs_command stack node_count); mret out.2.

(** [None] when the manager timed out. *)
Definition try_transport_logs (stack : string) (node_count : Z) : H (option string) :=
  h_except (text ← transport_logs stack node_count; mret (Some text)) is_timeout (λ _, mret None).

Definition coordinator_terminal_state (stack : string) : H (option bool) :=
  out ← remote_command rm (state_command stack "coordinator"); mret (terminal_state out.2).

(** ** One sample *)

Record settings := Settings {
  st_timeout : Z;
  st_image : string;
  st_expected : Z;
  st_train_iterations : option Z;
  st_parallel_gpu_tasks : bool;
  st_natural : bool;
  st_unbounded_gpgpu : bool;
  st_unbounded_sniper : bool;
}.

Record sample := Sample {
  sa_source : string;
  sa_output : string;
  sa_nodes : Z;
  sa_repetition : Z;
  sa_run_id : string;
}.

Definition sample_stack (s : sample) : string :=
  "chipsystemsim_mlp_scale_" +:+ sa_run_id s +:+ "_" +:+ str_of_Z (sa_nodes s) +:+ "_rep_" +:+ str_of_Z (sa_repetition s).
Definition sample_directory (s : sample) : string := "/home/legosim/mlp-scalability/" +:+ sample_stack s.

Definition rewrite_prewarm_stack (o : settings) (s : sample) : H string :=
  text ← rewrite_stack rm (path_div (sa_source s) "stack.yml") (sample_directory s) (st_image o);
  stack ← h_lift (rm_yaml rm text);
  d ← h_lift (prewarm_value (st_train_iterations o) (st_parallel_gpu_tasks o) stack);
  mret (rm_dump rm (PDict d)).

(** What the script uploads; the stack it returns. *)
Definition upload_sample (o : settings) (s : sample) : H string :=
  _ ← h_for (λ name, upload rm (path_div (sa_source s) name) (sample_directory s +:+ "/" +:+ name)) ["topology.json"; "routing.json"];
  text ← h_read (path_div (sa_source s) "workload.yml");
  v ← h_lift (rm_yaml rm text);
  workload ← h_lift (rewrite_workload (st_unbounded_gpgpu o) (st_unbounded_sniper o) v);
  _ ← put rm (sample_directory s +:+ "/workload.yml") (rm_dump rm (PDict workload));
  stack_text ← rewrite_prewarm_stack o s;
  _ ← put rm (sample_directory s +:+ "/stack.yml") stack_text;
  mret stack_text.

Definition rounded (x : F) : pyval := f_value (f_round 3 x).
Definition set_time (k : string) (span : Z) (result : pydict) : pydict := dict_set k (rounded (seconds span)) result.
Definition set_status (status : string) (result : pydict) : pydict := dict_set "status" (PStr status) result.
Definition missing (k : string) (result : pydict) : bool := match dict_get k result with Some PNone => true | _ => false end.

Definition initial_result (o : settings) (s : sample) (code : Z) : pydict :=
  [("workload", PStr "mlp"); ("nodes", PInt (sa_nodes s)); ("repetition", PInt (sa_repetition s));
   ("stack", PStr (sample_stack s)); ("image", PStr (st_image o));
   ("mode", PStr (if st_natural o then "natural-mlp-completion" else "fixed-mlp-communication-epoch"));
   ("expected_pipecomm_events", PInt (st_expected o)); ("timeout_seconds", PInt (st_timeout o));
   ("deploy_exit_code", PInt code); ("ready_seconds", PNone); ("all_phase1_started_seconds", PNone);
   ("first_interchiplet_command_seconds", PNone); ("completed_pipecomm_events", PInt 0); ("phase_one_exit_count", PInt 0);
   ("epoch_completion_seconds", PNone); ("communication_epoch_wall_seconds", PNone); ("phase_graph_wall_seconds", PNone);
   ("natural_completion_seconds", PNone); ("status", PStr (if code =? 0 then "timeout" else "deployment-error"))].

(** One look at the transports before the coordinator is started. *)
Definition poll_ready (s : sample) : H (option bool) :=
  log ← try_transport_logs (sample_stack s) (sa_nodes s);
  mret (match log : option string with Some text => if sa_nodes s <=? ready_count text then Some true else None | None => None end).

(** Whether every worker became ready in time. *)
Definition prewarm (o : settings) (s : sample) (prewarm_started : Z) : H bool :=
  h_poll (rm_clock rm) (prewarm_started + st_timeout o * rm_second rm) (poll_ready s) (mret false)
    (poll_fuel (st_timeout o * rm_second rm)).

(** One look at the running epoch: whether it is over, and the result so far. *)
Definition note_ready (s : sample) (started : Z) (result : pydict) : H pydict :=
  if missing "ready_seconds" result then
    states ← service_states rm (sample_stack s) (sa_nodes s);
    if forallb id states then t ← now rm; mret (set_time "ready_seconds" (t - started) result) else mret result
  else mret result.

Definition failed_exits (text : string) : list (string * Z) := filter (λ kv, kv.2 ≠ 0) (phase_one_exits text).

Definition exit_codes (exits : list (string * Z)) : pyval := PDict ((λ kv, (kv.1, PInt kv.2)) <$> exits).

(** The coordinator ended: a natural completion, unless processes of the phase graph are missing. *)
Definition completed_naturally (text : string) (elapsed : Z) (result : pydict) : pydict :=
  if (mlp_processes <=? phase_one_spawn_count text) && (1 <=? phase_two_spawn_count text)
  then set_status "natural-completion" (set_time "natural_completion_seconds" elapsed result)
  else dict_set "phase_two_spawn_count" (PInt (phase_two_spawn_count text))
         (dict_set "phase_one_spawn_count" (PInt (phase_one_spawn_count text)) (set_status "incomplete-native-phase-graph" result)).

(** [completion - float(result[k])], rounded *)
Definition since (completion : F) (k : string) (d : pydict) : result pyval :=
  v ← dict_item k d; x ← f_of_value v; Ok (rounded (f_sub completion x)).

Definition complete_epoch (completion : F) (result_ : pydict) : result pydict :=
  let result_ := dict_set "epoch_completion_seconds" (rounded completion) result_ in
  result_ ← (if missing "first_interchiplet_command_seconds" result_ then Ok result_
             else wall ← since completion "first_interchiplet_command_seconds" result_;
                  Ok (dict_set "communication_epoch_wall_seconds" wall result_));
  graph ← since completion "all_phase1_started_seconds" result_;
  Ok (set_status "communication-epoch-complete" (dict_set "phase_graph_wall_seconds" graph result_)).

Definition note_command (coordinator_log : string) (elapsed : Z) (result : pydict) : pydict :=
  if missing "first_interchiplet_command_seconds" result && contains "[INTERCMD]" coordinator_log
  then set_time "first_interchiplet_command_seconds" elapsed result else result.

Definition note_started (text : string) (elapsed : Z) (result : pydict) : pydict :=
  if missing "all_phase1_started_seconds" result && (mlp_processes <=? phase_one_spawn_count text)
  then set_time "all_phase1_started_seconds" elapsed result else result.

(** What follows the test of the terminal state. *)
Definition watch_epoch (o : settings) (coordinator_log text : string) (started elapsed : Z) (result : pydict) : H (bool * pydict) :=
  t ← now rm;
  let result := note_started text (t - started) (note_command coordinator_log elapsed result) in
  if negb (st_natural o) && negb (missing "all_phase1_started_seconds" result) then
    let result := dict_set "completed_pipecomm_events" (PInt (metric_count text)) result in
    if st_expected o <=? metric_count text then
      t' ← now rm;
      result ← h_lift (complete_epoch (seconds (t' - started)) result);
      mret (true, result)
    else mret (false, result)
  else mret (false, result).

Definition poll_sample (o : settings) (s : sample) (started : Z) (result : pydict) : H (bool * pydict) :=
  result ← note_ready s started result;
  coordinator_log ← service_log rm (sample_stack s) "coordinator" (Some 2000);
  log ← try_transport_logs (sample_stack s) (sa_nodes s);
  match log : option string with
  | None => mret (false, result)
  | Some text =>
      let result := dict_set "phase_one_exit_count" (PInt (zlen (phase_one_exits text))) result in
      if negb (zlen (failed_exits text) =? 0) then
        mret (true, dict_set "phase_one_exit_codes" (exit_codes (failed_exits text)) (set_status "phase-one-failed" result))
      else
        t ← now rm;
        terminal ← (if st_natural o then coordinator_terminal_state (sample_stack s) else mret None);
        match terminal : option bool with
        | Some false => mret (true, set_status "coordinator-failed" result)
        | Some true => mret (true, completed_naturally text (t - started) result)
        | None => watch_epoch o coordinator_log text started (t - started) result
        end
  end.

(** ** Evidence *)

Definition remote_logs (s : sample) : string := sample_directory s +:+ "/coordinator-process-logs".
Definition remote_snapshot (s : sample) : string := sample_directory s +:+ "/runtime-snapshot".
Definition archive_directory (s : sample) : string := path_div (sa_output s) "coordinator-process-logs".
Definition snapshot_directory (s : sample) : string := path_div (sa_output s) "runtime-snapshot".

(** [sftp.get(source, target)] *)
Definition download (source target : string) : H unit := text ← get rm source; h_write target text.

Definition download_process (s : sample) (name : string) : H unit :=
  if startswith "proc_r" name then
    let source := remote_logs s +:+ "/" +:+ name in
    let target := path_div (archive_directory s) name in
    _ ← h_mkdir target;
    entries ← list_directory rm source;
    h_for (λ entry, if startswith "." entry then mret () else download (source +:+ "/" +:+ entry) (path_div target entry)) entries
  else mret ().

Definition download_snapshot (s : sample) (name : string) : H unit :=
  if endswith ".txt" name then download (remote_snapshot s +:+ "/" +:+ name) (path_div (snapshot_directory s) name) else mret ().

(** The [try] clause; an [OSError] ends it. *)
Definition download_evidence (s : sample) : H unit :=
  h_except
    (_ ← download (remote_logs s +:+ "/bridge-trace.log") (path_div (archive_directory s) "bridge-trace.log");
     processes ← list_directory rm (remote_logs s);
     _ ← h_for (download_process s) processes;
     snapshots ← list_directory rm (remote_snapshot s);
     h_for (download_snapshot s) snapshots)
    is_os_error (λ _, mret ()).

Definition collect_log (s : sample) (service : string) : H unit :=
  text ← h_except (out ← remote_command rm (bounded_log (sample_stack s) service); mret out.2)
           is_timeout (λ e, mret ("log collection timed out: " +:+ exn_str e +:+ nl));
  h_write (log_path (sa_output s) service) text.

(** After the loop: evidence, final counts and removal. *)
Definition collect_sample (s : sample) (started : Z) (result : pydict) : H pydict :=
  _ ← remote_ignored rm (snapshot_command (sample_stack s) (sample_directory s) (sa_nodes s));
  _ ← remote_ignored rm (process_logs_command (sample_stack s) (sample_directory s));
  _ ← h_mkdir (archive_directory s);
  _ ← h_mkdir (snapshot_directory s);
  _ ← download_evidence s;
  _ ← h_for (collect_log s) (services (sa_nodes s));
  logs ← h_map (λ slot, h_read (log_path (sa_output s) (transport slot))) (seqZ 0 (sa_nodes s));
  let final := join nl logs in
  let result := dict_set "completed_pipecomm_events" (PInt (metric_count final)) result in
  let result := dict_set "phase_one_exit_count" (PInt (zlen (phase_one_exits final))) result in
  t ← now rm;
  let result := set_time "collection_elapsed_seconds" (t - started) result in
  _ ← h_write (path_div (sa_output s) "result.json") (json_indent 0 (PDict result));
  _ ← wait_for_removal rm (sample_stack s);
  mret result.

Definition scale_command (stack : string) : string := "sudo docker service scale " +:+ stack +:+ "_coordinator=1".

(** The epoch itself, once every worker is ready. *)
Definition run_epoch (o : settings) (s : sample) (prewarm_started : Z) (result : pydict) : H pydict :=
  started ← now rm;
  _ ← remote_ignored rm (scale_command (sample_stack s));
  let result := set_time "prewarm_elapsed_seconds" (started - prewarm_started) result in
  polled ← h_loop (rm_clock rm) (started + st_timeout o * rm_second rm) (poll_sample o s started)
             (poll_fuel (st_timeout o * rm_second rm)) result;
  collect_sample s started (polled.2 : pydict).

Definition expire_prewarm (s : sample) (prewarm_started : Z) (result : pydict) : H pydict :=
  t ← now rm;
  let result := set_time "prewarm_elapsed_seconds" (t - prewarm_started) (set_status "prewarm-timeout" result) in
  _ ← h_write (path_div (sa_output s) "result.json") (json_indent 0 (PDict result));
  _ ← wait_for_removal rm (sample_stack s);
  mret result.

Definition deploy_sample (o : settings) (s : sample) : H pydict :=
  let stack := sample_stack s in
  _ ← h_mkdir_new (sa_output s);
  _ ← remote_ignored rm ("mkdir -p " +:+ sample_directory s);
  stack_text ← upload_sample o s;
  _ ← h_write (path_div (sa_output s) "stack.yml") stack_text;
  _ ← wait_for_removal rm stack;
  prewarm_started ← now rm;
  deployed ← remote_command rm (deploy_command (sample_directory s) stack);
  let '(code, deployment) := deployed in
  let result := initial_result o s code in
  _ ← h_write (path_div (sa_output s) "deployment.log") deployment;
  if negb (code =? 0) then mret result
  else
    ready ← prewarm o s prewarm_started;
    if ready : bool then run_epoch o s prewarm_started result else expire_prewarm s prewarm_started result.

(** ** The matrix *)

Record arguments := Arguments {
  ar_source_root : string;
  ar_output_root : string;
  ar_source_suffix : string;
  ar_nodes : list Z;
  ar_repetitions : Z;
  ar_first_repetition : Z;
  ar_epochs : Z;
  ar_settings : settings;
}.

Context (run_id : string).   (** ten hexadecimal digits of the digest of the output root *)

Definition check_arguments (a : arguments) : result unit :=
  _ ← raise_if (st_expected (ar_settings a) <? 1) (ValueError "--expected-pipecomm-events must be positive");
  _ ← raise_if (below_one (st_train_iterations (ar_settings a))) (ValueError "--train-iterations must be positive");
  raise_if (ar_epochs a <? 1) (ValueError "--epochs-per-sample must be positive").

Definition success_status (o : settings) : string :=
  if st_natural o then "natural-completion" else "communication-epoch-complete".

Definition repetition_directory (a : arguments) (node_count repetition : Z) : string :=
  path_div (path_div (ar_output_root a) ("nodes" +:+ str_of_Z node_count)) ("rep-" +:+ str_of_Z repetition).

Definition source_directory (a : arguments) (node_count : Z) : string :=
  path_div (ar_source_root a) ("mlp-nodes" +:+ str_of_Z node_count +:+ ar_source_suffix a).

Definition sample_of (a : arguments) (node_count repetition epoch : Z) : sample :=
  Sample (source_directory a node_count)
    (path_div (repetition_directory a node_count repetition) ("epoch-" +:+ str_of_Z epoch))
    node_count repetition (run_id +:+ "e" +:+ str_of_Z epoch).

Definition run_epoch_sample (a : arguments) (node_count repetition : Z) (done_ : list pydict) (epoch : Z) : H (list pydict) :=
  r ← deploy_sample (ar_settings a) (sample_of a node_count repetition epoch);
  status ← h_lift (dict_item "status" r);
  _ ← h_lift (raise_if (negb (eq_str status (success_status (ar_settings a))))
        (RuntimeError ("epoch " +:+ str_of_Z epoch +:+ " failed: " +:+ repr (PDict r))));
  mret (done_ ++ [r]).

(** [float(v or 0)] *)
Definition float_or_zero (v : pyval) : result F := f_of_value (if truthy v then v else PInt 0).
(** [int(v or 0)] *)
Definition int_or_zero (v : pyval) : result Z := int_of (if truthy v then v else PInt 0).

Definition total (values : list F) : F := foldl f_add (f_of_Z 0) values.

Definition sample_json (a : arguments) (node_count repetition : Z) (epochs : list pydict) : result pydict :=
  natural ← mapM (λ r, v ← dict_item "natural_completion_seconds" r; float_or_zero v) epochs;
  prewarms ← mapM (λ r, float_or_zero (dict_get_default "prewarm_elapsed_seconds" PNone r)) epochs;
  events ← mapM (λ r, int_or_zero (dict_get_default "completed_pipecomm_events" PNone r)) epochs;
  Ok [("workload", PStr "mlp"); ("nodes", PInt node_count); ("repetition", PInt repetition);
      ("epochs_per_sample", PInt (ar_epochs a)); ("mode", PStr "serial-native-mlp-epochs");
      ("status", PStr (success_status (ar_settings a)));
      ("natural_completion_seconds", rounded (total natural)); ("prewarm_elapsed_seconds", rounded (total prewarms));
      ("completed_pipecomm_events", PInt (zsum events)); ("epoch_results", PList (PDict <$> epochs))].

Definition run_repetition (a : arguments) (node_count : Z) (samples : list pydict) (repetition : Z) : H (list pydict) :=
  epochs ← h_fold (run_epoch_sample a node_count repetition) [] (seqZ 1 (ar_epochs a));
  json ← h_lift (sample_json a node_count repetition epochs);
  _ ← h_mkdir (repetition_directory a node_count repetition);
  _ ← h_write (path_div (repetition_directory a node_count repetition) "result.json") (json_indent 0 (PDict json));
  mret (samples ++ [json]).

Definition h_is_dir (path : string) : H bool := λ h, (h, Ok (bool_decide (path ∈ fs_dirs (h_fs h)))).

Definition run_nodes (a : arguments) (samples : list pydict) (node_count : Z) : H (list pydict) :=
  present ← h_is_dir (source_directory a node_count);
  _ ← h_lift (raise_if (negb present) (FileNotFoundError ("generated MLP source directory not found: " +:+ source_directory a node_count)));
  h_fold (run_repetition a node_count) samples (seqZ (ar_first_repetition a) (ar_repetitions a)).

(** [main], once the client is connected. *)
Definition main (a : arguments) : H unit :=
  _ ← h_lift (check_arguments a);
  samples ← h_fold (run_nodes a) [] (ar_nodes a);
  _ ← h_mkdir (ar_output_root a);
  h_write (path_div (ar_output_root a) "samples.json") (json_indent 0 (PList (PDict <$> samples))).

End Samples.

(** ** Lifting the smoke-test limits *)

(** The generator's options without its smoke-test limits. *)
Definition unlimited (o : DistributedYaml.options) : DistributedYaml.options :=
  DistributedYaml.Options (op_stream_output o) (op_benchmark_root o) (op_shared_worker_asset o) (op_remote_phase2 o) (op_ns3 o)
    (op_ns3_cycle_ns o) (op_ns3_link_rate o) (op_ns3_link_delay_ns o) (op_ns3_queue_packets o) (op_ns3_localize o)
    (op_gdb_process_index o) (op_sniper_cores o) false (op_sniper_maxthreads o) (op_max_cta o) None.

Definition free_of (name : string) (args : list pyval) : Prop := ∀ a, a ∈ args → eq_str a name = false.

Lemma free_of_nil name : free_of name [].
Proof. intros a Ha. by apply not_elem_of_nil in Ha. Qed.

Lemma free_of_app name a b : free_of name (a ++ b) ↔ free_of name a ∧ free_of name b.
Proof. unfold free_of. set_solver. Qed.

Lemma free_of_cons name x a : free_of name (x :: a) ↔ eq_str x name = false ∧ free_of name a.
Proof. unfold free_of. set_solver. Qed.

Lemma without_option_free name a b : free_of name a → without_option name (a ++ b) = a ++ without_option name b.
Proof.
  induction a as [|x a IH]; intros H; [done|]. apply free_of_cons in H as [Hx H]. cbn [app without_option].
  rewrite Hx. f_equal. by apply IH.
Qed.

Lemma without_option_id name a : free_of name a → without_option name a = a.
Proof. intros H. rewrite <- (app_nil_r a). by rewrite without_option_free. Qed.

Lemma without_option_pair name v rest : without_option name (PStr name :: v :: rest) = without_option name rest.
Proof. cbn. by rewrite String.eqb_refl. Qed.

Lemma without_flag_app name a b : without_flag name (a ++ b) = without_flag name a ++ without_flag name b.
Proof. apply filter_app. Qed.

Lemma without_flag_id name a : free_of name a → without_flag name a = a.
Proof.
  induction a as [|x a IH]; intros H; [done|]. apply free_of_cons in H as [Hx H]. unfold without_flag.
  rewrite filter_cons_True by done. f_equal. by apply IH.
Qed.

(** What the fast-forward option adds to the wrapped command. *)
Lemma wrapped_unlimited o index command args c a staged :
  wrapped_command o "phase1" index command args = Ok (c, a, staged) →
  ∃ front ff back, a = front ++ ff ++ back ∧ (ff = [] ∨ ff = [PStr "--fast-forward"]) ∧
    wrapped_command (unlimited o) "phase1" index command args = Ok (c, front ++ back, staged).
Proof.
  unfold wrapped_command. change (String.eqb "phase1" "phase1") with true. change (String.eqb "phase1" "phase2") with false.
  cbv zeta. intros H. apply bind_Ok in H as ([c1 a1] & Hs & H). apply bind_Ok in H as (a2 & Hf & H).
  apply bind_Ok in H as (a3 & Hm & H). cbn [fst snd] in *. injection H as -> <- <-.
  change (select_debugger (unlimited o)) with (select_debugger o). rewrite Hs. cbn [mbind result_bind fst snd].
  assert (Hff : ∃ ff, a2 = ff ++ a1 ∧ (ff = [] ∨ ff = [PStr "--fast-forward"])).
  { unfold add_fast_forward, on_sniper in Hf. destruct (op_sniper_fast_forward o); cbn [andb] in Hf.
    - destruct (is_str c) as [s|]; [|done]. destruct (endswith _ s); injection Hf as <-; [exists [PStr "--fast-forward"]|exists []]; auto.
    - injection Hf as <-. by exists []; auto. }
  destruct Hff as (ff & -> & Hff).
  assert (Hmt : ∃ front, a3 = front ++ ff ++ a1 ∧ add_maxthreads (unlimited o) true c a1 = Ok (front ++ a1)).
  { unfold add_maxthreads, on_sniper in *. cbn [unlimited op_sniper_maxthreads]. destruct (op_sniper_maxthreads o) as [n|].
    - destruct (is_str c) as [s|]; [|done]. destruct (endswith _ s).
      + apply bind_Ok in Hm as (u & Hu & Hm). injection Hm as <-. rewrite Hu. by exists [PStr ("--maxthreads=" +:+ str_of_Z n)].
      + injection Hm as <-. by exists [].
    - injection Hm as <-. by exists []. }
  destruct Hmt as (front & -> & Hmt). exists front, ff, a1. split; [done|]. split; [done|].
  unfold add_fast_forward. cbn [unlimited op_sniper_fast_forward andb mbind result_bind]. by rewrite Hmt.
Qed.

(** What the instruction limit adds to the call of the proxy. *)
Lemma proxy_unlimited o index slot pre_copy staged command args l :
  proxy_arguments o "phase1" index slot pre_copy staged command args = Ok l →
  ∃ front limit, l = front ++ limit ++ command :: args ∧
    (limit = [] ∨ ∃ n, limit = [PStr "--gpgpu-max-instructions"; n]) ∧
    ∀ args', proxy_arguments (unlimited o) "phase1" index slot pre_copy staged command args' = Ok (front ++ command :: args').
Proof.
  unfold proxy_arguments. intros H. apply bind_Ok in H as (cta & Hc & H). apply bind_Ok in H as (limit & Hl & H).
  injection H as <-. cbn [unlimited op_max_cta op_max_instructions]. rewrite Hc. cbn [mbind result_bind limit_option].
  exists ((PStr <$> ["/opt/chipsystemsim-distributed/process_proxy.py"; "--worker"; "worker-" +:+ str_of_Z slot +:+ ":9300";
         "--process-id"; "phase1-" +:+ str_of_Z index; "--pre-copy"]) ++ pre_copy :: (PStr <$> staged ++ asset_options o) ++ cta), limit.
  split; [cbn; by rewrite <- !app_assoc|]. split.
  - unfold limit_option in Hl. destruct (op_max_instructions o) as [n|]; [|injection Hl as <-; auto].
    change (String.eqb "phase1" "phase1") with true in Hl. cbv iota in Hl. destruct (in_value _ _) as [[]|]; cbn in Hl; [| |done]; injection Hl as <-; eauto.
  - intros args'. cbn. by rewrite <- !app_assoc.
Qed.

Abbreviation limit_name := "--gpgpu-max-instructions".
Abbreviation forward_name := "--fast-forward".

(** The argument list of a wrapped process is that of the unlimited one with the limits added. *)
Lemma wrap_unlimited o placed_ p index q :
  wrap_process o placed_ p "phase1" index = Ok q →
  ∃ q' l l', wrap_process (unlimited o) placed_ p "phase1" index = Ok q' ∧
    dict_get "args" q = Some (PList l) ∧ dict_get "args" q' = Some (PList l') ∧ q' = dict_set "args" (PList l') q ∧
    (free_of limit_name l' → free_of forward_name l' → without_flag forward_name (without_option limit_name l) = l').
Proof.
  unfold wrap_process. intros H. apply bind_Ok in H as (slot & Hslot & H). apply bind_Ok in H as (c & Hc & H).
  apply bind_Ok in H as (args & Ha & H). apply bind_Ok in H as (c' & Hc' & H). apply bind_Ok in H as (pre_copy & Hp & H).
  apply bind_Ok in H as ([[command a] staged] & Hw & H). apply bind_Ok in H as (l & Hl & H).
  apply wrapped_unlimited in Hw as (front & ff & back & -> & Hff & Hw').
  apply proxy_unlimited in Hl as (lead & limit & -> & Hlimit & Hl').
  rewrite Hslot, Hc. cbn [mbind result_bind]. rewrite Ha. cbn [mbind result_bind].
  change (expand_text (unlimited o)) with (expand_text o). rewrite Hc'. cbn [mbind result_bind]. rewrite Hp. cbn [mbind result_bind].
  change (expand_argument (unlimited o)) with (expand_argument o). rewrite Hw'. cbn [mbind result_bind].
  rewrite Hl'. cbn [mbind result_bind].
  set (l := lead ++ limit ++ command :: front ++ ff ++ back) in *. set (l' := lead ++ command :: front ++ back).
  change (op_stream_output (unlimited o)) with (op_stream_output o).
  eexists _, l, l'. split; [reflexivity|].
  assert (Hlim : free_of limit_name l' → free_of forward_name l' → without_flag forward_name (without_option limit_name l) = l').
  { subst l l'. rewrite !free_of_app, !free_of_cons, !free_of_app. intros (H1 & H2 & H3 & H4) (F1 & F2 & F3 & F4).
    rewrite without_option_free by done.
    assert (Hrest : without_option limit_name (limit ++ command :: front ++ ff ++ back) = command :: front ++ ff ++ back).
    { assert (Hfree : free_of limit_name (command :: front ++ ff ++ back)).
      { rewrite free_of_cons, !free_of_app. split_and!; [done..| |done]. destruct Hff as [-> | ->]; [apply free_of_nil|].
        intros x Hx%list_elem_of_singleton. by subst x. }
      destruct Hlimit as [->|[n ->]]; [by apply without_option_id|]. cbn [app].
      rewrite without_option_pair. by apply without_option_id. }
    rewrite Hrest. change (command :: front ++ ff ++ back) with ([command] ++ front ++ ff ++ back).
    assert (Hcommand : free_of forward_name [command]) by (apply free_of_cons; split; [done|apply free_of_nil]).
    rewrite !without_flag_app, (without_flag_id _ lead F1), (without_flag_id _ _ Hcommand), (without_flag_id _ front F3), (without_flag_id _ back F4).
    destruct Hff as [-> | ->]; [by rewrite app_nil_l|done]. }
  destruct (op_stream_output o); injection H as <-.
  - rewrite !dict_get_set_ne, !dict_get_pop_ne, !dict_get_set by done. split_and!; [done..| |exact Hlim].
    rewrite (dict_set_comm "args" "is_to_stdout"), (dict_set_pop "args"), dict_set_set; [done..|]. rewrite dict_get_pop_ne, dict_get_set by done. eauto.
  - rewrite !dict_get_pop_ne, !dict_get_set by done. split_and!; [done..| |exact Hlim].
    by rewrite (dict_set_pop "args"), dict_set_set.
Qed.

Lemma wrap_unlimited_phase2 o placed_ p index :
  wrap_process (unlimited o) placed_ p "phase2" index = wrap_process o placed_ p "phase2" index.
Proof.
  unfold wrap_process, wrapped_command, proxy_arguments, limit_option.
  change (String.eqb "phase2" "phase1") with false. change (String.eqb "phase2" "phase2") with true. cbv zeta iota.
  unfold add_fast_forward. cbn [unlimited andb op_max_instructions op_sniper_fast_forward op_stream_output].
  change (select_debugger (unlimited o)) with (select_debugger o).
  change (add_maxthreads (unlimited o)) with (add_maxthreads o). change (expand_text (unlimited o)) with (expand_text o).
  change (expand_argument (unlimited o)) with (expand_argument o). change (asset_options (unlimited o)) with (asset_options o).
  change (op_max_cta (unlimited o)) with (op_max_cta o). by destruct (op_max_instructions o).
Qed.

(** How a process and its unlimited version are related. *)
Definition lifted (q q' : process) : Prop :=
  ∃ l l', dict_get "args" q = Some (PList l) ∧ dict_get "args" q' = Some (PList l') ∧ q' = dict_set "args" (PList l') q ∧
    (free_of limit_name l' → free_of forward_name l' → without_flag forward_name (without_option limit_name l) = l').

Lemma wrap_all_unlimited o placed_ (items : list (Z * process)) qs :
  mapM (λ item, wrap_process o placed_ item.2 "phase1" item.1) items = Ok qs →
  ∃ qs', mapM (λ item, wrap_process (unlimited o) placed_ item.2 "phase1" item.1) items = Ok qs' ∧ Forall2 lifted qs qs'.
Proof.
  intros H%mapM_result_Ok. induction H as [|item q items qs H _ (qs' & IH & Hl)]; [by exists []|].
  apply wrap_unlimited in H as (q' & l & l' & Hw & H). exists (q' :: qs'). split.
  - apply mapM_result_Ok. constructor; [done|]. by apply mapM_result_Ok.
  - constructor; [|done]. by exists l, l'.
Qed.

Lemma Forall2_between {A B C} (P : A → B → Prop) (Q : B → C → Prop) l k :
  Forall2 (λ x z, ∃ y, P x y ∧ Q y z) l k → ∃ m, Forall2 P l m ∧ Forall2 Q m k.
Proof.
  induction 1 as [|x z l k (y & Hp & Hq) _ (m & H1 & H2)]; [by exists []|]. exists (y :: m). by split; constructor.
Qed.

Lemma Forall2_In_r {A B} (P : A → B → Prop) l k : Forall2 P l k → Forall2 (λ x y, P x y ∧ y ∈ k) l k.
Proof.
  induction 1 as [|x y l k H _ IH]; constructor; [split; [done|by left]|].
  eapply Forall2_impl; [exact IH|]. intros x' y' [? ?]. split; [done|by right].
Qed.

(** A workload of two phases, and a change of all processes of one. *)
Definition phases (ps1 ps2 : list process) : pydict := [("phase1", PList (PDict <$> ps1)); ("phase2", PList (PDict <$> ps2))].

Definition changes (change : pyval → result pyval) (p p' : process) : Prop := change (PDict p) = Ok (PDict p').

Lemma mapM_changes change ps ps' : Forall2 (changes change) ps ps' → mapM change (PDict <$> ps) = Ok (PDict <$> ps').
Proof. induction 1 as [|p p' ps ps' H _ IH]; [done|]. cbn. rewrite H. cbn. by rewrite IH. Qed.

Lemma change_phase1 change ps1 ps1' ps2 :
  Forall2 (changes change) ps1 ps1' → change_phase "phase1" change (phases ps1 ps2) = Ok (phases ps1' ps2).
Proof. intros H%mapM_changes. unfold change_phase. cbn. by rewrite H. Qed.

Lemma change_phase2 change ps1 ps2 ps2' :
  Forall2 (changes change) ps2 ps2' → change_phase "phase2" change (phases ps1 ps2) = Ok (phases ps1 ps2').
Proof. intros H%mapM_changes. unfold change_phase. cbn. by rewrite H. Qed.

Definition with_output (p : process) : process := dict_set "is_to_stdout" (PBool true) p.

Lemma with_output_changes ps : Forall2 (changes keep_output) ps (with_output <$> ps).
Proof. induction ps; by constructor. Qed.

Lemma evidence_phases ps1 ps2 : enable_proxy_evidence (phases ps1 ps2) = Ok (phases (with_output <$> ps1) (with_output <$> ps2)).
Proof.
  unfold enable_proxy_evidence. rewrite (change_phase1 _ _ _ _ (with_output_changes ps1)). cbn [mbind result_bind].
  by rewrite (change_phase2 _ _ _ _ (with_output_changes ps2)).
Qed.

Lemma change_arguments_changes f p l :
  dict_get "args" p = Some (PList l) → changes (change_arguments f) p (dict_set "args" (PList (f l)) p).
Proof. intros H. unfold changes, change_arguments, map_arguments, dict_get_default. cbn. by rewrite H. Qed.

(** The processes without smoke-test options in their unlimited form. *)
Definition plain_arguments (qs : list process) : Prop :=
  ∀ q l, q ∈ qs → dict_get "args" q = Some (PList l) → free_of limit_name l ∧ free_of forward_name l.

Lemma lifted_changes qs qs' :
  Forall2 lifted qs qs' → plain_arguments qs' →
  ∃ m, Forall2 (changes remove_limit) (with_output <$> qs) m ∧ Forall2 (changes remove_forward) m (with_output <$> qs').
Proof.
  intros H Hplain. apply Forall2_between. apply Forall2_fmap. eapply Forall2_impl; [by apply Forall2_In_r|].
  intros q q' [(l & l' & Hl & Hl' & Hq & Hf) Hin]. destruct (Hplain q' l' Hin Hl') as [H1 H2]. specialize (Hf H1 H2).
  eexists. split; [apply (change_arguments_changes _ _ l)|].
  { unfold with_output. by rewrite dict_get_set_ne. }
  assert (Heq : with_output q' = dict_set "args" (PList (without_flag forward_name (without_option limit_name l)))
                  (dict_set "args" (PList (without_option limit_name l)) (with_output q))).
  { rewrite dict_set_set, Hf. unfold with_output. rewrite (dict_set_comm "args" "is_to_stdout"); [|done|by rewrite Hl]. by rewrite <- Hq. }
  rewrite Heq. apply change_arguments_changes. by rewrite dict_get_set.
Qed.

(** Lifting the smoke-test limits undoes them.  When the generator wraps a workload with an
    instruction limit or with the fast-forward option of Sniper, it would wrap it without them
    too; and the rewriting of the scalability script with both limits lifted turns the limited
    workload into exactly what it makes of the unlimited one, provided no argument of the
    unlimited processes is one of the two options. *)
Theorem limits_lifted o config placed_ c :
  DistributedYaml.main o config placed_ = Ok c →
  ∃ c', DistributedYaml.main (unlimited o) config placed_ = Ok c' ∧
    (plain_arguments (phase1 c') →
     rewrite_workload true true (PDict (phases (phase1 c) (phase2 c))) =
     rewrite_workload false false (PDict (phases (phase1 c') (phase2 c')))).
Proof.
  unfold DistributedYaml.main. intros H. apply bind_Ok in H as ([] & Hck & H). apply bind_Ok in H as (ps2 & Hns3 & H).
  apply bind_Ok in H as (ps1 & Hw1 & H). apply bind_Ok in H as (ps2' & Hw2 & H). injection H as <-.
  apply wrap_all_unlimited in Hw1 as (ps1' & Hw1' & Hl). exists (SourceConfig ps1' ps2'). split.
  - assert (Hck' : check_options (unlimited o) = Ok ()).
    { revert Hck. unfold check_options. cbn [unlimited op_max_cta op_max_instructions op_ns3_cycle_ns op_ns3_link_delay_ns op_ns3_queue_packets
        op_remote_phase2 op_ns3 below_one]. destruct (below_one (op_max_cta o)); [done|].
      by destruct (below_one (op_max_instructions o)). }
    rewrite Hck'. cbn [mbind result_bind]. change (op_ns3 (unlimited o)) with (op_ns3 o).
    change (ns3_process (unlimited o)) with (ns3_process o). rewrite Hns3. cbn [mbind result_bind]. unfold wrap_all in *.
    rewrite Hw1'. cbn [mbind result_bind]. change (op_remote_phase2 (unlimited o)) with (op_remote_phase2 o).
    destruct (op_remote_phase2 o); [|by injection Hw2 as <-].
    assert (Hw2' : mapM (λ item, wrap_process (unlimited o) placed_ item.2 "phase2" item.1) (enumerate ps2) = Ok ps2').
    { apply mapM_result_Ok. eapply Forall2_impl; [by apply mapM_result_Ok|]. intros item q. by rewrite wrap_unlimited_phase2. }
    by rewrite Hw2'.
  - intros Hplain. cbn [phase1 phase2] in *. destruct (lifted_changes _ _ Hl Hplain) as (m & H1 & H2).
    unfold rewrite_workload. cbn [is_dict of_option mbind result_bind]. rewrite !evidence_phases. cbn [mbind result_bind].
    unfold remove_gpgpu_instruction_limits. rewrite (change_phase1 _ _ _ _ H1). cbn [mbind result_bind].
    unfold remove_sniper_fast_forward. by rewrite (change_phase1 _ _ _ _ H2).
Qed.

(** ** Starting the coordinator *)

Section Facts.
Context {F : Type} `{!Floats F} (rm : remote) (seconds : Z → F).

Definition query (s : sample) : string := transport_logs_command (sample_stack s) (sa_nodes s).

(** The [n]th operation asked for the logs of the transports and got [text]. *)
Definition answered (s : sample) (cs : list (list string)) (n : nat) (text : string) : Prop :=
  cs !! n = Some (ssh (query s)) ∧ ∃ code, rm_ssh rm n (query s) = Ok (code, text).

(** The operation before the [i]th found every worker ready. *)
Definition ready_before (s : sample) (cs : list (list string)) (i : nat) : Prop :=
  ∃ j text, i = S j ∧ answered s cs j text ∧ sa_nodes s ≤ ready_count text.

Lemma answered_app s cs cs' n text : answered s cs n text → answered s (cs ++ cs') n text.
Proof using Type. intros [H1 H2]. split; [by apply lookup_app_l_Some|done]. Qed.

Lemma ready_before_app s cs cs' i : ready_before s cs i → ready_before s (cs ++ cs') i.
Proof using Type. intros (j & text & Hi & Ha & Hr). exists j, text. split; [done|]. split; [by apply answered_app|done]. Qed.

Abbreviation not_scale s := (λ c : list string, c ≠ ssh (scale_command (sample_stack s))).

Lemma query_not_scale s : not_scale s (ssh (query s)).
Proof using Type.
  intros [= H]. revert H. unfold query, transport_logs_command. destruct (seqZ 0 (sa_nodes s)) as [|x [|y l]]; cbn; discriminate.
Qed.

Lemma only_ignored p command : p (ssh command) → only p (remote_ignored rm command).
Proof using Type. intros Hp. apply only_bind; [by apply only_remote|intros; apply only_quiet, runs_ret]. Qed.

Lemma calls_ignored command h : h_calls (remote_ignored rm command h).1 = h_calls h ++ [ssh command].
Proof using Type. unfold remote_ignored, remote_command, h_step, mbind, H_bind. by destruct (rm_ssh rm _ _). Qed.

Lemma only_service_log p stack service tail_ : p (ssh (log_command stack service tail_)) → only p (service_log rm stack service tail_).
Proof using Type. intros Hp. apply only_bind; [by apply only_remote|intros; apply only_quiet, runs_ret]. Qed.

Lemma only_try_logs s : only (not_scale s) (try_transport_logs rm (sample_stack s) (sa_nodes s)).
Proof using Type.
  apply only_except; [|intros; apply only_quiet, runs_ret]. apply only_bind; [|intros; apply only_quiet, runs_ret].
  apply only_bind; [apply only_remote, query_not_scale|intros; apply only_quiet, runs_ret].
Qed.

Lemma only_upload (p : list string → Prop) source target :
  (∀ path text, p ["put"; path; text]) → only p (upload rm source target).
Proof using Type. intros Hp. apply only_bind; [apply only_quiet, runs_read|]. intros; by apply only_step. Qed.

Lemma only_rewrite (p : list string → Prop) source directory image : only p (rewrite_stack rm source directory image).
Proof using Type.
  apply only_bind; [apply only_quiet, runs_read|]. intros. apply only_bind; [apply only_quiet, runs_lift|]. intros.
  apply only_bind; [apply only_quiet, runs_lift|]. intros. apply only_quiet, runs_ret.
Qed.

Lemma only_upload_sample (p : list string → Prop) o s :
  (∀ path text, p ["put"; path; text]) → only p (upload_sample rm o s).
Proof using Type.
  intros Hp. apply only_bind; [by apply only_for; intros; apply only_upload|]. intros _.
  apply only_bind; [apply only_quiet, runs_read|]. intros. apply only_bind; [apply only_quiet, runs_lift|]. intros.
  apply only_bind; [apply only_quiet, runs_lift|]. intros. apply only_bind; [by apply only_step|]. intros _.
  apply only_bind.
  { apply only_bind; [apply only_rewrite|]. intros. apply only_bind; [apply only_quiet, runs_lift|]. intros.
    apply only_bind; [apply only_quiet, runs_lift|]. intros. apply only_quiet, runs_ret. }
  intros. apply only_bind; [by apply only_step|]. intros. apply only_quiet, runs_ret.
Qed.

Lemma only_watch_epoch p o coordinator_log text started elapsed r :
  only p (watch_epoch rm seconds o coordinator_log text started elapsed r).
Proof using Type.
  unfold watch_epoch. apply only_bind; [apply only_quiet, runs_now|]. intros t.
  destruct (negb (st_natural o) && _); [|apply only_quiet, runs_ret]. destruct (st_expected o <=? _); [|apply only_quiet, runs_ret].
  apply only_bind; [apply only_quiet, runs_now|]. intros t'. apply only_bind; [apply only_quiet, runs_lift|].
  intros. apply only_quiet, runs_ret.
Qed.

Lemma only_poll_sample o s started r : only (not_scale s) (poll_sample rm seconds o s started r).
Proof using Type.
  unfold poll_sample. apply only_bind.
  { unfold note_ready. destruct (missing _ r); [|apply only_quiet, runs_ret]. apply only_bind.
    - apply only_map. intros service _. apply only_bind; [by apply only_remote|intros; apply only_quiet, runs_ret].
    - intros states. destruct (forallb _ _); [|apply only_quiet, runs_ret].
      apply only_bind; [apply only_quiet, runs_now|]. intros. apply only_quiet, runs_ret. }
  intros r1. apply only_bind; [by apply only_service_log|]. intros log. apply only_bind; [apply only_try_logs|]. intros [text|]; [|apply only_quiet, runs_ret].
  destruct (negb _); [apply only_quiet, runs_ret|]. apply only_bind; [apply only_quiet, runs_now|]. intros t. apply only_bind.
  { destruct (st_natural o); [|apply only_quiet, runs_ret]. apply only_bind; [by apply only_remote|intros; apply only_quiet, runs_ret]. }
  intros [[]|]; [apply only_quiet, runs_ret..|apply only_watch_epoch].
Qed.

Lemma only_download (p : list string → Prop) source target : (∀ path, p ["get"; path]) → only p (download rm source target).
Proof using Type. intros Hp. apply only_bind; [by apply only_step|]. intros. apply only_quiet, runs_write. Qed.

Lemma only_evidence (p : list string → Prop) s :
  (∀ path, p ["get"; path]) → (∀ path, p ["list"; path]) → only p (download_evidence rm s).
Proof using Type.
  intros Hg Hl. apply only_except; [|intros; apply only_quiet, runs_ret].
  apply only_bind; [by apply only_download|]. intros _. apply only_bind; [by apply only_step|]. intros processes.
  apply only_bind.
  { apply only_for. intros name _. unfold download_process. destruct (startswith _ _); [|apply only_quiet, runs_ret].
    apply only_bind; [apply only_quiet, runs_mkdir_ok|]. intros _. apply only_bind; [by apply only_step|]. intros entries.
    apply only_for. intros entry _. destruct (startswith _ _); [apply only_quiet, runs_ret|by apply only_download]. }
  intros _. apply only_bind; [by apply only_step|]. intros snapshots. apply only_for. intros name _.
  unfold download_snapshot. destruct (endswith _ _); [by apply only_download|apply only_quiet, runs_ret].
Qed.

Lemma only_collect_sample s started r : only (not_scale s) (collect_sample rm seconds s started r).
Proof using Type.
  apply only_bind; [by apply only_ignored|]. intros _. apply only_bind; [by apply only_ignored|]. intros _.
  do 2 (apply only_bind; [apply only_quiet, runs_mkdir_ok|]; intros _).
  apply only_bind; [by apply only_evidence|]. intros _. apply only_bind.
  { apply only_for. intros service _. apply only_bind; [|intros; apply only_quiet, runs_write].
    apply only_except; [|intros; apply only_quiet, runs_ret]. apply only_bind; [by apply only_remote|]. intros; apply only_quiet, runs_ret. }
  intros _. apply only_bind; [by apply only_map; intros; apply only_quiet, runs_read|]. intros logs.
  apply only_bind; [apply only_quiet, runs_now|]. intros t. apply only_bind; [apply only_quiet, runs_write|]. intros _.
  apply only_bind; [by apply only_remote_removal|]. intros _. apply only_quiet, runs_ret.
Qed.

Lemma only_expire s prewarm_started r : only (not_scale s) (expire_prewarm rm seconds s prewarm_started r).
Proof using Type.
  apply only_bind; [apply only_quiet, runs_now|]. intros t. apply only_bind; [apply only_quiet, runs_write|]. intros _.
  apply only_bind; [by apply only_remote_removal|]. intros _. apply only_quiet, runs_ret.
Qed.

(** The last operation found every worker ready. *)
Definition ready_now (s : sample) (h : host) : Prop := ready_before s (h_calls h) (length (h_calls h)).

(** What a successful look at the transports saw. *)
Lemma try_logs_Some s h h' text :
  try_transport_logs rm (sample_stack s) (sa_nodes s) h = (h', Ok (Some text)) →
  h_calls h' = h_calls h ++ [ssh (query s)] ∧ answered s (h_calls h') (length (h_calls h)) text.
Proof using Type.
  unfold try_transport_logs, h_except, transport_logs, remote_command, h_step, mbind, H_bind. fold (query s).
  destruct (rm_ssh rm (length (h_calls h)) (query s)) as [[code text']|e] eqn:E; [|by destruct (is_timeout e)].
  intros [= <- <-]. cbn [h_calls]. split; [done|]. split; [|by exists code]. by rewrite lookup_app_r, Nat.sub_diag by lia.
Qed.

Lemma prewarm_ready o s prewarm_started h h' :
  prewarm rm o s prewarm_started h = (h', Ok true) → ready_now s h'.
Proof using Type.
  unfold prewarm. intros [[hw H]|(hw & _ & H)]%h_poll_Ok; [|done]. unfold poll_ready in H.
  apply H_bind_Ok in H as (h1 & log & Hlog & H). destruct log as [text|]; [|done]. injection H as -> Hr.
  destruct (sa_nodes s <=? ready_count text) eqn:E; [|done]. apply Z.leb_le in E. apply try_logs_Some in Hlog as [Hc Ha].
  exists (length (h_calls hw)), text. split; [|done]. rewrite Hc, length_app. cbn. lia.
Qed.

Lemma guarded_epoch o s prewarm_started r h :
  ready_now s h → guarded_at (ssh (scale_command (sample_stack s))) (ready_before s) (run_epoch rm seconds o s prewarm_started r) h.
Proof using Type.
  intros Hr. apply (guarded_after _ _ (ready_before_app s)); [apply only_quiet, runs_now|].
  intros h1 started [= <- <-]. apply (guarded_bind _ _ (ready_before_app s)).
  - unfold guarded_at. rewrite calls_ignored. cbn [h_calls]. split; [by eexists|]. intros i Hi Hc. rewrite lookup_app_r in Hc by done.
    assert (i = length (h_calls h)) as -> by (apply lookup_lt_Some in Hc; cbn [length] in Hc; lia). by apply ready_before_app.
  - intros h2 u _. apply guarded_only. apply only_bind; [apply only_loop; intros; apply only_poll_sample|].
    intros [b r']. apply only_collect_sample.
Qed.

Lemma only_prewarm o s prewarm_started : only (not_scale s) (prewarm rm o s prewarm_started).
Proof using Type.
  apply only_poll; [|apply only_quiet, runs_ret]. apply only_bind; [apply only_try_logs|]. intros; apply only_quiet, runs_ret.
Qed.

Lemma guarded_deploy o s h : guarded_at (ssh (scale_command (sample_stack s))) (ready_before s) (deploy_sample rm seconds o s) h.
Proof using Type.
  unfold deploy_sample. pose proof (@guarded_after (ssh (scale_command (sample_stack s))) _ (ready_before_app s)) as after.
  apply after; [apply only_quiet, runs_mkdir|]. intros h1 _ _. apply after; [by apply only_ignored|]. intros h2 _ _.
  apply after; [by apply only_upload_sample|]. intros h3 text _. apply after; [apply only_quiet, runs_write|]. intros h4 _ _.
  apply after; [by apply only_remote_removal|]. intros h5 _ _. apply after; [apply only_quiet, runs_now|]. intros h6 started _.
  apply after; [by apply only_remote|]. intros h7 [code deployment] _. apply after; [apply only_quiet, runs_write|]. intros h8 _ _.
  destruct (negb (code =? 0)); [apply guarded_only, only_quiet, runs_ret|].
  apply after; [apply only_prewarm|]. intros h9 [] Hr; [by eapply guarded_epoch, prewarm_ready|apply guarded_only, only_expire].
Qed.

(** ** A completed epoch *)

(** A look at the transports after the [lo]th operation got [text]. *)
Definition seen (s : sample) (lo : nat) (h : host) (text : string) : Prop :=
  ∃ n, (lo ≤ n)%nat ∧ answered s (h_calls h) n text.

Definition started_all (s : sample) (lo : nat) (h : host) : Prop :=
  ∃ text, seen s lo h text ∧ mlp_processes ≤ phase_one_spawn_count text.

Definition counted (o : settings) (s : sample) (lo : nat) (h : host) : Prop :=
  ∃ text, seen s lo h text ∧ st_expected o ≤ metric_count text ∧ failed_exits text = [].

Definition status_of (r : pydict) : option pyval := dict_get "status" r.
Definition complete : option pyval := Some (PStr "communication-epoch-complete").

(** What a running loop knows, and what holds when it is left. *)
Definition watching (s : sample) (lo : nat) (h : host) (r : pydict) : Prop :=
  (lo ≤ length (h_calls h))%nat ∧ status_of r = Some (PStr "timeout") ∧
  (missing "all_phase1_started_seconds" r = true ∨ started_all s lo h).

Definition finished (o : settings) (s : sample) (lo : nat) (h : host) (r : pydict) : Prop :=
  (lo ≤ length (h_calls h))%nat ∧
  (status_of r = complete → st_natural o = false ∧ started_all s lo h ∧ counted o s lo h).

(** [h'] continues [h]. *)
Definition continues (h h' : host) : Prop := ∃ cs, h_calls h' = h_calls h ++ cs.

Lemma only_continues {A} p (m : H A) h h' r : only p m → m h = (h', r) → continues h h'.
Proof using Type. intros Hm He. destruct (Hm h) as (cs & Hc & _). rewrite He in Hc. by exists cs. Qed.

Lemma seen_later s lo h h' text : seen s lo h text → continues h h' → seen s lo h' text.
Proof using Type. intros (n & Hn & Ha) [cs Hc]. exists n. split; [done|]. rewrite Hc. by apply answered_app. Qed.

Lemma started_later s lo h h' : started_all s lo h → continues h h' → started_all s lo h'.
Proof using Type. intros (text & Hs & Hc) Hh. exists text. split; [by eapply seen_later|done]. Qed.

Lemma continues_trans h1 h2 h3 : continues h1 h2 → continues h2 h3 → continues h1 h3.
Proof using Type. intros [cs1 H1] [cs2 H2]. exists (cs1 ++ cs2). by rewrite H2, H1, app_assoc. Qed.

Lemma continues_length h h' : continues h h' → (length (h_calls h) ≤ length (h_calls h'))%nat.
Proof using Type. intros [cs ->]. rewrite length_app. lia. Qed.

Lemma note_ready_Ok s started r h h' r' :
  note_ready rm seconds s started r h = (h', Ok r') →
  continues h h' ∧ status_of r' = status_of r ∧ missing "all_phase1_started_seconds" r' = missing "all_phase1_started_seconds" r.
Proof using Type.
  intros H. split; [eapply (only_continues (λ _, True)); [|exact H]|].
  { unfold note_ready. destruct (missing _ r); [|apply only_quiet, runs_ret]. apply only_bind.
    - apply only_map. intros service _. apply only_bind; [by apply only_remote|intros; apply only_quiet, runs_ret].
    - intros states. destruct (forallb _ _); [|apply only_quiet, runs_ret].
      apply only_bind; [apply only_quiet, runs_now|]. intros. apply only_quiet, runs_ret. }
  unfold note_ready in H. destruct (missing "ready_seconds" r); [|by injection H as _ <-].
  apply H_bind_Ok in H as (h1 & states & _ & H). destruct (forallb _ _); [|by injection H as _ <-].
  apply H_bind_Ok in H as (h2 & t & _ & H). injection H as _ <-. unfold status_of, missing, set_time.
  by rewrite !dict_get_set_ne.
Qed.

Lemma complete_epoch_Ok completion r r' : complete_epoch completion r = Ok r' → status_of r' = complete.
Proof using Type.
  unfold complete_epoch. intros H. apply bind_Ok in H as (r1 & _ & H). apply bind_Ok in H as (g & _ & H). injection H as <-.
  apply dict_get_set.
Qed.

Lemma watching_command s lo h r coordinator_log elapsed :
  watching s lo h r → watching s lo h (note_command seconds coordinator_log elapsed r).
Proof using Type.
  unfold note_command. destruct (_ && _); [|done]. unfold watching, set_time, status_of, missing. by rewrite !dict_get_set_ne.
Qed.

Lemma watching_started s lo h r text elapsed :
  watching s lo h r → seen s lo h text → watching s lo h (note_started seconds text elapsed r).
Proof using Type.
  unfold note_started. destruct (_ && _) eqn:E; [|done]. apply andb_true_iff in E as [_ E%Z.leb_le].
  intros (Hlo & Hs & _) Hseen. unfold watching, set_time, status_of. rewrite dict_get_set_ne by done.
  split; [done|]. split; [done|]. right. by exists text.
Qed.

Lemma watch_epoch_ok o s lo coordinator_log text started elapsed r h h' b r' :
  watching s lo h r → seen s lo h text → failed_exits text = [] →
  watch_epoch rm seconds o coordinator_log text started elapsed r h = (h', Ok (b, r')) →
  if b then finished o s lo h' r' else watching s lo h' r'.
Proof using Type.
  intros Hw Hseen Hf H. unfold watch_epoch in H. apply H_bind_Ok in H as (h1 & t & [= <- <-] & H).
  set (r2 := note_started _ _ _ _) in H.
  assert (Hw2 : watching s lo h r2) by (by apply watching_started, Hseen; apply watching_command).
  clearbody r2. clear Hw r. destruct (negb (st_natural o) && _) eqn:E; [|injection H as <- <- <-; exact Hw2].
  apply andb_true_iff in E as [En%negb_true_iff Em%negb_true_iff]. destruct Hw2 as (Hlo & Hs & Hall).
  destruct Hall as [Hall|Hall]; [congruence|].
  destruct (st_expected o <=? metric_count text) eqn:Ec.
  - apply H_bind_Ok in H as (h2 & t' & [= <- <-] & H). apply H_bind_Ok in H as (h3 & r3 & [-> Hr3]%h_lift_Ok & H).
    injection H as <- <- <-. split; [done|]. intros _. split; [done|]. split; [exact Hall|]. exists text. split; [exact Hseen|].
    split; [by apply Z.leb_le|done].
  - injection H as <- <- <-. unfold watching, status_of, missing. rewrite !dict_get_set_ne by done. split; [done|]. split; [done|by right].
Qed.

Lemma watching_later s lo h h' r : watching s lo h r → continues h h' → watching s lo h' r.
Proof using Type.
  intros (Hlo & Hs & Hall) Hc. split; [apply continues_length in Hc; lia|]. split; [done|].
  destruct Hall as [?|?]; [by left|right; by eapply started_later].
Qed.

(** A status that is not the one of a completed epoch. *)
Lemma finished_otherwise o s lo h r status :
  (lo ≤ length (h_calls h))%nat → status_of r = Some (PStr status) → status ≠ "communication-epoch-complete" → finished o s lo h r.
Proof using Type. intros Hlo Hs Hne. split; [done|]. rewrite Hs. by intros [= ->]. Qed.

Lemma failed_exits_nil text : negb (zlen (failed_exits text) =? 0) = false → failed_exits text = [].
Proof using Type. intros H%negb_false_iff%Z.eqb_eq. destruct (failed_exits text); [done|]. rewrite zlen_cons in H. pose proof (zlen_nonneg l). lia. Qed.

Lemma poll_sample_ok o s lo started r h h' b r' :
  watching s lo h r → poll_sample rm seconds o s started r h = (h', Ok (b, r')) →
  if b then finished o s lo h' r' else watching s lo h' r'.
Proof using Type.
  intros Hw H. unfold poll_sample in H. apply H_bind_Ok in H as (h1 & r1 & (Hc1 & Hs1 & Hm1)%note_ready_Ok & H).
  apply H_bind_Ok in H as (h2 & clog & Hl & H). apply H_bind_Ok in H as (h3 & log & Hlog & H).
  assert (Hw1 : watching s lo h1 r1).
  { eapply watching_later in Hc1; [|exact Hw]. unfold watching in *. by rewrite Hs1, Hm1. }
  eapply (only_continues (λ _, True)) in Hl; [|by apply only_service_log]. assert (Hw2 := watching_later _ _ _ _ _ Hw1 Hl).
  destruct log as [text|].
  2:{ injection H as <- <- <-. eapply watching_later; [exact Hw2|]. eapply only_continues; [apply only_try_logs|exact Hlog]. }
  apply try_logs_Some in Hlog as [Hc3 Ha].
  assert (Hcont : continues h2 h3) by (by eexists). assert (Hlo2 : (lo ≤ length (h_calls h2))%nat) by apply Hw2.
  assert (Hseen : seen s lo h3 text) by (by exists (length (h_calls h2))).
  assert (Hlo3 : (lo ≤ length (h_calls h3))%nat) by (apply continues_length in Hcont; lia).
  set (r2 := dict_set "phase_one_exit_count" _ r1) in H.
  assert (Hw3 : watching s lo h3 r2).
  { eapply watching_later in Hcont; [|exact Hw2]. unfold watching, r2, status_of, missing in *. by rewrite !dict_get_set_ne. }
  clearbody r2. clear Hw Hw1 Hw2 Hs1 Hm1. destruct (negb (zlen (failed_exits text) =? 0)) eqn:Ef.
  { injection H as <- <- <-. eapply finished_otherwise; [done| |]; [unfold status_of, set_status; by rewrite dict_get_set_ne, dict_get_set|done]. }
  apply failed_exits_nil in Ef. apply H_bind_Ok in H as (h4 & t & [= <- <-] & H). apply H_bind_Ok in H as (h5 & terminal & Ht & H).
  assert (Hc5 : continues h3 h5).
  { change (continues (tick h3) h5). eapply (only_continues (λ _, True)); [|exact Ht].
    destruct (st_natural o); [|apply only_quiet, runs_ret]. apply only_bind; [by apply only_remote|intros; apply only_quiet, runs_ret]. }
  assert (Hlo5 := continues_length _ _ Hc5). destruct terminal as [[]|].
  - injection H as <- <- <-. unfold completed_naturally. destruct (_ && _);
      (eapply finished_otherwise; [lia| |]; [unfold status_of, set_status, set_time; rewrite ?dict_get_set_ne by done; apply dict_get_set|done]).
  - injection H as <- <- <-. eapply finished_otherwise; [lia| |]; [apply dict_get_set|done].
  - eapply watch_epoch_ok; [by eapply watching_later|by eapply seen_later|done|exact H].
Qed.

Lemma collect_sample_Ok s started r h h' r' :
  collect_sample rm seconds s started r h = (h', Ok r') →
  status_of r' = status_of r ∧ ∃ hw, gone rm (sample_stack s) hw = (h', Ok (Some ())).
Proof using Type.
  unfold collect_sample. intros H. do 9 apply H_bind_Ok in H as (? & ? & _ & H). apply H_bind_Ok in H as (h1 & [] & Hg & H).
  injection H as -> <-. split; [unfold status_of, set_time; by rewrite !dict_get_set_ne|by eapply gone_Ok].
Qed.

(** An epoch that the script calls complete, seen from the start of its coordinator. *)
Definition epoch_evidence (o : settings) (s : sample) (lo : nat) (h : host) : Prop :=
  st_natural o = false ∧ started_all s lo h ∧ counted o s lo h ∧ ∃ hw, gone rm (sample_stack s) hw = (h, Ok (Some ())).

Lemma counted_later o s lo h h' : counted o s lo h → continues h h' → counted o s lo h'.
Proof using Type. intros (text & Hs & Hc) Hh. exists text. split; [by eapply seen_later|done]. Qed.

Lemma run_epoch_complete o s prewarm_started r h h' r' :
  status_of r = Some (PStr "timeout") → missing "all_phase1_started_seconds" r = true →
  run_epoch rm seconds o s prewarm_started r h = (h', Ok r') → status_of r' = complete →
  h_calls h' !! length (h_calls h) = Some (ssh (scale_command (sample_stack s))) ∧
  epoch_evidence o s (S (length (h_calls h))) h'.
Proof using Type.
  intros Hr Hm H Hs. unfold run_epoch in H. apply H_bind_Ok in H as (h1 & started & [= <- <-] & H).
  apply H_bind_Ok in H as (h2 & u & Hscale & H). apply H_bind_Ok in H as (h3 & [b g] & Hl & H). cbn [snd] in H.
  assert (Hc2 : h_calls h2 = h_calls h ++ [ssh (scale_command (sample_stack s))]).
  { pose proof (calls_ignored (scale_command (sample_stack s)) (tick h)) as Hc. change (Host _ _ _) with (tick h) in Hscale.
    by rewrite Hscale in Hc. }
  set (lo := S (length (h_calls h))). set (r1 := set_time _ _ _ r) in Hl.
  assert (Hw : watching s lo h2 r1).
  { split; [rewrite Hc2, length_app; cbn; lia|]. unfold r1, status_of, missing, set_time in *. rewrite !dict_get_set_ne by done.
    split; [done|by left]. }
  pose proof (h_loop_Ok _ _ _ _ _ _ _ _ _ (watching s lo) (finished o s lo) Hl Hw) as Hend.
  assert (Hb : if b then finished o s lo h3 g else watching s lo h3 g).
  { apply Hend; [done|]. intros t h0 h0' b0 t0. apply poll_sample_ok. }
  eapply (only_continues (λ _, True)) in Hl; [|apply only_loop; intros; eapply traced_impl; [apply only_poll_sample|by intros; apply Forall_true]].
  assert (H' := H). apply collect_sample_Ok in H' as [Hg Hgone]. rewrite Hg in Hs.
  eapply only_continues in H; [|apply only_collect_sample]. destruct b.
  - destruct Hb as [_ Hb]. destruct (Hb Hs) as (Hn & Hall & Hcount). split.
    + destruct (continues_trans _ _ _ Hl H) as [cs ->]. rewrite Hc2, <- app_assoc. by apply list_lookup_middle.
    + split; [done|]. split; [by eapply started_later|]. split; [by eapply counted_later|done].
  - destruct Hb as (_ & Hb & _). rewrite Hb in Hs. discriminate Hs.
Qed.

Lemma deploy_complete o s h h' r :
  deploy_sample rm seconds o s h = (h', Ok r) → status_of r = complete →
  ∃ i, (length (h_calls h) ≤ i)%nat ∧ h_calls h' !! i = Some (ssh (scale_command (sample_stack s))) ∧ epoch_evidence o s (S i) h'.
Proof using Type.
  intros H Hs. unfold deploy_sample in H. assert (Hcont : continues h h) by (exists []; by rewrite app_nil_r).
  apply H_bind_Ok in H as (h1 & u1 & H1 & H). eapply (only_continues (λ _, True)) in H1; [|apply only_quiet, runs_mkdir].
  apply H_bind_Ok in H as (h2 & u2 & H2 & H). eapply (only_continues (λ _, True)) in H2; [|by apply only_ignored].
  apply H_bind_Ok in H as (h3 & u3 & H3 & H). eapply (only_continues (λ _, True)) in H3; [|by apply only_upload_sample].
  apply H_bind_Ok in H as (h4 & u4 & H4 & H). eapply (only_continues (λ _, True)) in H4; [|apply only_quiet, runs_write].
  apply H_bind_Ok in H as (h5 & u5 & H5 & H). eapply (only_continues (λ _, True)) in H5; [|by apply only_remote_removal].
  apply H_bind_Ok in H as (h6 & u6 & H6 & H). eapply (only_continues (λ _, True)) in H6; [|apply only_quiet, runs_now].
  apply H_bind_Ok in H as (h7 & [code text] & H7 & H). eapply (only_continues (λ _, True)) in H7; [|by apply only_remote].
  apply H_bind_Ok in H as (h8 & u8 & H8 & H). eapply (only_continues (λ _, True)) in H8; [|apply only_quiet, runs_write].
  destruct (negb (code =? 0)) eqn:Ecode.
  { injection H as <- <-. exfalso. apply negb_true_iff in Ecode. revert Hs. unfold status_of, initial_result. rewrite Ecode. discriminate. }
  apply negb_false_iff in Ecode. apply H_bind_Ok in H as (h9 & ready & H9 & H).
  eapply (only_continues (not_scale s)) in H9; [|apply only_prewarm].
  assert (Hall : continues h h9) by eauto 12 using continues_trans.
  destruct ready.
  - eapply run_epoch_complete in H as [Hi He]; [|unfold status_of, initial_result; by rewrite Ecode|done|done].
    exists (length (h_calls h9)). split; [by apply continues_length|done].
  - unfold expire_prewarm in H. apply H_bind_Ok in H as (h10 & t & _ & H). apply H_bind_Ok in H as (h11 & u & _ & H).
    apply H_bind_Ok in H as (h12 & u' & _ & H). injection H as _ <-. exfalso. revert Hs. unfold status_of, set_time, set_status.
    rewrite dict_get_set_ne, dict_get_set by done. discriminate.
Qed.

(** ** Natural completion *)

(** A line of [docker service ps] in the format asked for: the current state is a word and its age. *)
Definition docker_line (line : string) : Prop :=
  ∃ desired state age error, line = desired +:+ "|" +:+ state +:+ " " +:+ age +:+ "|" +:+ error ∧
    lacks "|" desired = true ∧ lacks "|" state = true ∧ lacks " " state = true.

(** The first of two separators in a text. *)
Lemma first_separator x y a b u v :
  lacks x a = true → lacks y a = true → lacks x b = true → lacks y b = true →
  a +:+ String x u = b +:+ String y v → x = y.
Proof using Type.
  revert b. induction a as [|c a IH]; intros [|d b] H1 H2 H3 H4 H; cbn in *.
  - congruence.
  - injection H as <- _. apply andb_true_iff in H3 as [H3 _]. by rewrite Ascii.eqb_refl in H3.
  - injection H as -> _. apply andb_true_iff in H2 as [H2 _]. by rewrite Ascii.eqb_refl in H2.
  - injection H as <- H. bool_facts. by eapply IH.
Qed.

Lemma not_state state rest word :
  lacks "|" state = true → lacks " " state = true → lacks "|" word = true → lacks " " word = true →
  startswith (word +:+ "|") (state +:+ String " " rest) = false.
Proof using Type.
  intros H1 H2 H3 H4. apply bool_decide_eq_false. intros [r Hr%strip_prefix_Some]. rewrite str_app_assoc in Hr.
  apply first_separator in Hr; done.
Qed.

Lemma partition_on_app c a b : lacks c a = true → partition_on c (a +:+ String c b) = (a, Some b).
Proof using Type.
  induction a as [|x a IH]; cbn; [by rewrite Ascii.eqb_refl|]. intros H. apply andb_true_iff in H as [H%negb_true_iff Ha].
  by rewrite H, IH.
Qed.

Lemma docker_terminal line : docker_line line → terminal_line line = None.
Proof using Type.
  intros (desired & state & age & error & -> & Hd & Hs & Hs'). unfold terminal_line.
  change ("|" +:+ state +:+ " " +:+ age +:+ "|" +:+ error) with (String "|" (state +:+ String " " (age +:+ "|" +:+ error))).
  rewrite partition_on_app by done. destruct (String.eqb desired "Running"); [|done].
  change "Complete|" with ("Complete" +:+ "|"). change "Failed|" with ("Failed" +:+ "|"). change "Rejected|" with ("Rejected" +:+ "|").
  by rewrite !not_state.
Qed.

Lemma docker_terminal_state text : Forall docker_line (splitlines text) → terminal_state text = None.
Proof using Type.
  unfold terminal_state. induction 1 as [|line l H _ IH]; [done|]. cbn. by rewrite docker_terminal.
Qed.

(** The tasks of the coordinator are listed in that format. *)
Definition docker_format (s : sample) : Prop :=
  ∀ n code text, rm_ssh rm n (state_command (sample_stack s) "coordinator") = Ok (code, text) → Forall docker_line (splitlines text).

Lemma poll_natural o s started r h h' b r' :
  st_natural o = true → docker_format s → status_of r = Some (PStr "timeout") →
  poll_sample rm seconds o s started r h = (h', Ok (b, r')) →
  status_of r' = Some (PStr (if b then "phase-one-failed" else "timeout")).
Proof using Type.
  intros Hn Hd Hr H. unfold poll_sample in H. apply H_bind_Ok in H as (h1 & r1 & (_ & Hs1 & _)%note_ready_Ok & H).
  rewrite Hr in Hs1. apply H_bind_Ok in H as (h2 & clog & _ & H). apply H_bind_Ok in H as (h3 & log & _ & H).
  destruct log as [text|]; [|by injection H as _ <- <-]. set (r2 := dict_set "phase_one_exit_count" _ r1) in H.
  assert (Hs2 : status_of r2 = Some (PStr "timeout")) by (unfold r2, status_of; by rewrite dict_get_set_ne). clearbody r2.
  destruct (negb (zlen (failed_exits text) =? 0)).
  { injection H as _ <- <-. unfold status_of, set_status. by rewrite dict_get_set_ne, dict_get_set. }
  apply H_bind_Ok in H as (h4 & t & [= <- <-] & H). apply H_bind_Ok in H as (h5 & terminal & Ht & H). rewrite Hn in Ht.
  unfold coordinator_terminal_state in Ht. apply H_bind_Ok in Ht as (h6 & [code text'] & Hq & Ht). injection Ht as _ <-.
  unfold remote_command, h_step in Hq. injection Hq as _ Hq. apply Hd, docker_terminal_state in Hq. cbn [snd] in H. rewrite Hq in H.
  unfold watch_epoch in H. apply H_bind_Ok in H as (h7 & t' & _ & H). rewrite Hn in H. cbn [negb andb] in H. injection H as _ <- <-.
  unfold note_started, note_command, status_of, set_time. by repeat case_match; rewrite ?dict_get_set_ne.
Qed.

Lemma deploy_natural o s h h' r :
  st_natural o = true → docker_format s → deploy_sample rm seconds o s h = (h', Ok r) →
  status_of r ∈ [Some (PStr "deployment-error"); Some (PStr "prewarm-timeout"); Some (PStr "timeout"); Some (PStr "phase-one-failed")].
Proof using Type.
  intros Hn Hd H. unfold deploy_sample in H. do 6 apply H_bind_Ok in H as (? & ? & _ & H).
  apply H_bind_Ok in H as (h7 & [code text] & _ & H). apply H_bind_Ok in H as (h8 & u8 & _ & H).
  destruct (negb (code =? 0)) eqn:Ecode.
  { injection H as _ <-. apply negb_true_iff in Ecode. unfold status_of, initial_result. rewrite Ecode. by left. }
  apply negb_false_iff in Ecode. apply H_bind_Ok in H as (h9 & [] & _ & H).
  - unfold run_epoch in H. apply H_bind_Ok in H as (h10 & started & _ & H). apply H_bind_Ok in H as (h11 & u & _ & H).
    apply H_bind_Ok in H as (h12 & [b g] & Hl & H). apply collect_sample_Ok in H as [-> _]. cbn [snd].
    pose proof (h_loop_Ok _ _ _ _ _ _ _ _ _ (λ _ r, status_of r = Some (PStr "timeout"))
      (λ _ r, status_of r = Some (PStr "phase-one-failed")) Hl) as Hend.
    assert (Hb : if b then status_of g = Some (PStr "phase-one-failed") else status_of g = Some (PStr "timeout")).
    { apply Hend; [|done|].
      - unfold status_of, set_time. rewrite dict_get_set_ne by done. unfold initial_result. by rewrite Ecode.
      - intros t h0 h0' b0 t0 Ht Hp. apply (poll_natural _ _ _ _ _ _ _ _ Hn Hd Ht) in Hp. by destruct b0. }
    destruct b; rewrite Hb; set_solver.
  - unfold expire_prewarm in H. apply H_bind_Ok in H as (h10 & t & _ & H). apply H_bind_Ok in H as (h11 & u & _ & H).
    apply H_bind_Ok in H as (h12 & u' & _ & H). injection H as _ <-. unfold status_of, set_time, set_status.
    rewrite dict_get_set_ne, dict_get_set by done. set_solver.
Qed.

End Facts.

(** The coordinator waits for its workers.  Whatever the manager answers, and however the run
    of a sample ends, the command that starts the coordinator is only issued directly after a
    look at the transport logs that showed at least one ready marker per worker. *)
Theorem coordinator_after_ready {F} `{!Floats F} rm (seconds : Z → F) o s h i :
  let calls := h_calls (deploy_sample rm seconds o s h).1 in
  (length (h_calls h) ≤ i)%nat → calls !! i = Some (ssh (scale_command (sample_stack s))) →
  ∃ j code text, i = S j ∧ calls !! j = Some (ssh (transport_logs_command (sample_stack s) (sa_nodes s))) ∧
    rm_ssh rm j (transport_logs_command (sample_stack s) (sa_nodes s)) = Ok (code, text) ∧ sa_nodes s ≤ ready_count text.
Proof.
  intros calls Hi Hc. destruct (guarded_deploy rm seconds o s h) as [_ Hg].
  destruct (Hg i Hi Hc) as (j & text & -> & [Hj [code Hcode]] & Hr). by exists j, code, text.
Qed.

(** A sample is complete only when its epoch was seen to complete.  When [deploy_sample]
    returns the status of a completed communication epoch, the run did not ask for natural
    completion; after the command that started the coordinator some look at the transports
    showed launches of all seven phase-one processes, and some look showed at least the expected
    number of transfer records and no failed process; and the last look at the manager found
    the stack and its network gone. *)
Theorem epoch_complete {F} `{!Floats F} rm (seconds : Z → F) o s h h' r :
  deploy_sample rm seconds o s h = (h', Ok r) → dict_get "status" r = Some (PStr "communication-epoch-complete") →
  let asked n text := h_calls h' !! n = Some (ssh (transport_logs_command (sample_stack s) (sa_nodes s))) ∧
                      ∃ code, rm_ssh rm n (transport_logs_command (sample_stack s) (sa_nodes s)) = Ok (code, text) in
  st_natural o = false ∧
  ∃ i, (length (h_calls h) ≤ i)%nat ∧ h_calls h' !! i = Some (ssh (scale_command (sample_stack s))) ∧
    (∃ n text, (i < n)%nat ∧ asked n text ∧ 7 ≤ phase_one_spawn_count text) ∧
    (∃ n text, (i < n)%nat ∧ asked n text ∧ st_expected o ≤ metric_count text ∧ failed_exits text = []) ∧
    ∃ hw, gone rm (sample_stack s) hw = (h', Ok (Some ())).
Proof.
  intros H Hs asked. destruct (deploy_complete _ _ _ _ _ _ _ H Hs) as (i & Hi & Hc & Hn & (t1 & (n1 & Hn1 & Ha1) & Hs1) & (t2 & (n2 & Hn2 & Ha2) & Hs2) & Hg).
  split; [exact Hn|]. exists i. split; [exact Hi|]. split; [exact Hc|]. split; [by exists n1, t1|]. split; [|exact Hg].
  exists n2, t2. split; [lia|]. split; [exact Ha2|exact Hs2].
Qed.

(** ** Examples *)

(** A worker that is ready, has launched the seven processes and has made two transfers. *)
Definition demo_log : string :=
  join nl ("worker: ready port=9300" ::
    ((λ i, "worker: spawn request process_id=phase1-" +:+ str_of_Z i) <$> seqZ 0 7) ++
    ["pipe-metric: {a}"; "worker: process phase1-3 exited rc=0"; "pipe-metric: {b} }"]).

Example markers_counted :
  ready_count demo_log = 1 ∧ phase_one_spawn_count demo_log = 7 ∧ metric_count demo_log = 2 ∧
  phase_one_exits demo_log = [("phase1-3", 0)].
Proof. by vm_compute. Qed.

Definition demo_manager : remote := {|
  rm_ssh := λ _ c,
    Ok (if startswith "sudo docker network inspect" c then 1 else 0, if startswith "(timeout" c then demo_log else "");
  rm_put := λ _ _ _, Ok (); rm_get := λ _ _, Err (OSError "missing"); rm_list := λ _ _, Ok [];
  rm_clock := Z.of_nat; rm_second := 1; rm_rounded := PInt;
  rm_yaml := λ text, Ok (if String.eqb text "w" then PDict [("phase1", PList [])] else
    PDict [("services", PDict [("coordinator", PDict []); ("transport-0", PDict [])]);
           ("configs", PDict [("workload", PDict []); ("topology", PDict []); ("routing", PDict [])])]);
  rm_dump := json_dumps; rm_loads := λ _, Err TypeError |}.

Definition demo_settings : settings := Settings 60 "image" 2 (Some 3) false false true false.
Definition demo_sample : sample := Sample "/src" "/out" 1 1 "id".
Definition demo_host : host :=
  Host (Filesystem ∅ (list_to_map [("/src/workload.yml", "w"); ("/src/topology.json", ""); ("/src/routing.json", ""); ("/src/stack.yml", "")])) [] 0.

Lemma coordinator_after_ready_witness :
  ∃ i j code text,
    h_calls (deploy_sample demo_manager id demo_settings demo_sample demo_host).1 !! i = Some (ssh (scale_command (sample_stack demo_sample))) ∧
    i = S j ∧ rm_ssh demo_manager j (transport_logs_command (sample_stack demo_sample) (sa_nodes demo_sample)) = Ok (code, text) ∧
    sa_nodes demo_sample ≤ ready_count text.
Proof.
  assert (Hi : h_calls (deploy_sample demo_manager id demo_settings demo_sample demo_host).1 !! 10%nat
               = Some (ssh (scale_command (sample_stack demo_sample)))) by (vm_compute; reflexivity).
  destruct (coordinator_after_ready demo_manager id demo_settings demo_sample demo_host 10) as (j & code & text & Hj & _ & Ha & Hr);
    [cbn; lia|exact Hi|].
  exists 10%nat, j, code, text. split; [exact Hi|]. split; [exact Hj|]. split; [exact Ha|exact Hr].
Defined.

Lemma epoch_complete_witness :
  ∃ h' r i, deploy_sample demo_manager id demo_settings demo_sample demo_host = (h', Ok r) ∧
    dict_get "status" r = Some (PStr "communication-epoch-complete") ∧
    h_calls h' !! i = Some (ssh (scale_command (sample_stack demo_sample))).
Proof.
  destruct (deploy_sample demo_manager id demo_settings demo_sample demo_host) as [h' [r|e]] eqn:E; [|vm_compute in E; discriminate E].
  assert (Hs : dict_get "status" r = Some (PStr "communication-epoch-complete")).
  { assert (Hr : Ok r = (deploy_sample demo_manager id demo_settings demo_sample demo_host).2) by (rewrite E; reflexivity).
    vm_compute in Hr. injection Hr as ->. reflexivity. }
  destruct (epoch_complete demo_manager id demo_settings demo_sample demo_host h' r E Hs) as (_ & i & _ & Hi & _).
  exists h', r, i. split; [reflexivity|]. split; [exact Hs|exact Hi].
Defined.

Definition demo_options : DistributedYaml.options :=
  DistributedYaml.Options false None [] true false 1 "128Gbps" 1 100000 false None (Some 2) true None None (Some 500).

Definition demo_config : source_config :=
  SourceConfig [[("cmd", PStr "/opt/sniper/run-sniper"); ("args", PList [PStr "mlp"])];
                [("cmd", PStr "gpu"); ("args", PList [PInt 1]); ("pre_copy", PStr "gpgpu-sim")]] [].

Definition demo_placed : list placed := [Placed "phase1" 0 0 "node0" None; Placed "phase1" 1 1 "node1" None].

Lemma limits_lifted_witness :
  ∃ c c', DistributedYaml.main demo_options demo_config demo_placed = Ok c ∧
    DistributedYaml.main (unlimited demo_options) demo_config demo_placed = Ok c' ∧ phase1 c ≠ phase1 c' ∧
    rewrite_workload true true (PDict (phases (phase1 c) (phase2 c))) =
    rewrite_workload false false (PDict (phases (phase1 c') (phase2 c'))).
Proof.
  destruct (DistributedYaml.main demo_options demo_config demo_placed) as [c|e] eqn:E; [|vm_compute in E; discriminate E].
  destruct (limits_lifted demo_options demo_config demo_placed c E) as (c' & E' & H).
  assert (E0 := E). vm_compute in E0. injection E0 as <-. assert (E1 := E'). vm_compute in E1. injection E1 as <-.
  eexists _, _. split; [reflexivity|]. split; [exact E'|]. split; [discriminate|]. apply H.
  intros q l Hq Hl. cbn [phase1] in Hq. repeat (apply elem_of_cons in Hq as [->|Hq]; [
    cbn in Hl; injection Hl as <-; split; repeat (apply free_of_cons; split; [reflexivity|]); apply free_of_nil|]).
  by apply not_elem_of_nil in Hq.
Defined.

(** Natural completion is never observed.  Against a manager that lists the coordinator's tasks
    in Docker's format, where the current state is a word followed by its age, a sample that waits
    for natural completion ends as timed out, refused, not ready or with a failed process,
    whatever the coordinator did: the states the script tests for do not occur. *)
Theorem natural_never_observed {F} `{!Floats F} rm (seconds : Z → F) o s h h' r :
  st_natural o = true → docker_format rm s → deploy_sample rm seconds o s h = (h', Ok r) →
  dict_get "status" r ∈ [Some (PStr "deployment-error"); Some (PStr "prewarm-timeout"); Some (PStr "timeout"); Some (PStr "phase-one-failed")].
Proof. apply deploy_natural. Qed.

(** A sample of the summary: the results of all its epochs, each of them a success. *)
Definition successful (o : settings) (epochs : Z) (json : pydict) : Prop :=
  ∃ results, dict_get "epoch_results" json = Some (PList (PDict <$> results)) ∧ zlen results = Z.max 0 epochs ∧
    ∀ r, r ∈ results → dict_get "status" r = Some (PStr (success_status o)).

Section Matrix.
Context {F : Type} `{!Floats F} (rm : remote) (seconds : Z → F) (run_id : string).

Lemma run_epoch_sample_Ok a nodes repetition done_ epoch h h' results :
  run_epoch_sample rm seconds run_id a nodes repetition done_ epoch h = (h', Ok results) →
  ∃ r, results = done_ ++ [r] ∧ dict_get "status" r = Some (PStr (success_status (ar_settings a))).
Proof using Type.
  unfold run_epoch_sample. intros H. h_inv. injection H as _ <-. eexists. split; [reflexivity|].
  unfold dict_item in *. result_inv. bool_facts. destruct a1; try done. cbn [eq_str] in *. bool_facts. by subst.
Qed.

Lemma sample_json_Ok a nodes repetition epochs json :
  sample_json a nodes repetition epochs = Ok json → dict_get "epoch_results" json = Some (PList (PDict <$> epochs)).
Proof using Type. unfold sample_json. intros H. result_inv. reflexivity. Qed.

Lemma run_repetition_Ok a nodes samples repetition h h' samples' :
  run_repetition rm seconds run_id a nodes samples repetition h = (h', Ok samples') →
  ∃ json, samples' = samples ++ [json] ∧ successful (ar_settings a) (ar_epochs a) json.
Proof using Type.
  unfold run_repetition. intros H. apply H_bind_Ok in H as (h1 & epochs & He & H). apply H_bind_Ok in H as (h2 & json & [-> Hj]%h_lift_Ok & H).
  apply H_bind_Ok in H as (h3 & u3 & _ & H). apply H_bind_Ok in H as (h4 & u4 & _ & H). injection H as _ <-.
  exists json. split; [done|]. exists epochs. split; [by eapply sample_json_Ok|].
  pose proof (h_fold_inv _ (λ pre l, length l = length pre ∧ ∀ r, r ∈ l → dict_get "status" r = Some (PStr (success_status (ar_settings a))))
    _ _ _ _ _ He) as Hinv.
  destruct Hinv as [Hlen Hall]; [split; [done|intros r Hr; by apply not_elem_of_nil in Hr]| |].
  - intros pre x t1 t2 h5 h6 [Hlen Hall] (r & -> & Hr)%run_epoch_sample_Ok. split; [rewrite !length_app; cbn; lia|].
    intros r' [?|Hin%list_elem_of_singleton]%elem_of_app; [auto|by subst r'].
  - split; [|exact Hall]. unfold zlen. rewrite Hlen, length_seqZ. lia.
Qed.

(** What a loop over repetitions, and one over node counts, adds to the samples. *)
Definition grown (a : arguments) (n : Z) (samples samples' : list pydict) : Prop :=
  ∃ l, samples' = samples ++ l ∧ zlen l = n ∧ Forall (successful (ar_settings a) (ar_epochs a)) l.

Lemma grown_nil a samples : grown a 0 samples samples.
Proof using Type. exists []. by rewrite app_nil_r. Qed.

Lemma grown_app a n m samples1 samples2 samples3 :
  grown a n samples1 samples2 → grown a m samples2 samples3 → grown a (n + m) samples1 samples3.
Proof using Type.
  intros (l1 & -> & <- & H1) (l2 & -> & <- & H2). exists (l1 ++ l2). rewrite app_assoc. split; [done|].
  split; [unfold zlen; rewrite length_app; lia|by apply Forall_app].
Qed.

Lemma run_nodes_Ok a samples nodes h h' samples' :
  run_nodes rm seconds run_id a samples nodes h = (h', Ok samples') → grown a (Z.max 0 (ar_repetitions a)) samples samples'.
Proof using Type.
  unfold run_nodes. intros H. apply H_bind_Ok in H as (h1 & present & _ & H). apply H_bind_Ok in H as (h2 & u & _ & H).
  pose proof (h_fold_inv _ (λ pre t, grown a (zlen pre) samples t) _ _ _ _ _ H (grown_nil _ _)) as Hinv.
  replace (Z.max 0 (ar_repetitions a)) with (zlen (seqZ (ar_first_repetition a) (ar_repetitions a))) by (unfold zlen; rewrite length_seqZ; lia).
  apply Hinv. intros pre x t1 t2 h3 h4 Hg (json & -> & Hj)%run_repetition_Ok. replace (zlen (pre ++ [x])) with (zlen pre + 1) by (unfold zlen; rewrite length_app; cbn; lia).
  eapply grown_app; [exact Hg|]. exists [json]. split; [done|]. split; [done|by constructor].
Qed.

End Matrix.

(** The summary only holds successful samples.  When the scalability script succeeds, its
    summary has one sample for every node count and repetition, and each sample holds the results
    of all its epochs, every one of them with the status of success for the requested mode: the
    first epoch that ends otherwise ends the script. *)
Theorem samples_successful {F} `{!Floats F} rm (seconds : Z → F) run_id a h h' :
  main rm seconds run_id a h = (h', Ok ()) →
  ∃ samples, h_files h' !! path_div (ar_output_root a) "samples.json" = Some (json_indent 0 (PList (PDict <$> samples))) ∧
    zlen samples = zlen (ar_nodes a) * Z.max 0 (ar_repetitions a) ∧
    Forall (successful (ar_settings a) (ar_epochs a)) samples.
Proof.
  unfold main. intros H. apply H_bind_Ok in H as (h1 & u1 & _ & H). apply H_bind_Ok in H as (h2 & samples & Hs & H).
  apply H_bind_Ok in H as (h3 & u3 & _ & H). apply h_write_Ok in H as [_ Hw]. exists samples.
  split; [unfold h_files; rewrite Hw; apply lookup_insert_eq|].
  pose proof (h_fold_inv _ (λ pre t, grown a (zlen pre * Z.max 0 (ar_repetitions a)) [] t) _ _ _ _ _ Hs (grown_nil _ _)) as Hinv.
  destruct Hinv as (l & -> & Hlen & Hall); [|by split].
  intros pre x t1 t2 h4 h5 Hg Hr%run_nodes_Ok. replace (zlen (pre ++ [x])) with (zlen pre + 1) by (unfold zlen; rewrite length_app; cbn; lia).
  rewrite Z.mul_add_distr_r, Z.mul_1_l. by eapply grown_app.
Qed.

(** The same manager, with a coordinator whose task is complete. *)
Definition demo_docker : remote := {|
  rm_ssh := λ n c, if startswith "sudo docker service ps" c then Ok (0, "Shutdown|Complete 3 seconds ago|") else rm_ssh demo_manager n c;
  rm_put := rm_put demo_manager; rm_get := rm_get demo_manager; rm_list := rm_list demo_manager;
  rm_clock := rm_clock demo_manager; rm_second := 1; rm_rounded := PInt; rm_yaml := rm_yaml demo_manager;
  rm_dump := json_dumps; rm_loads := λ _, Err TypeError |}.

Definition demo_natural : settings := Settings 3 "image" 2 None false true false false.

Lemma natural_never_observed_witness :
  ∃ h' r, deploy_sample demo_docker id demo_natural demo_sample demo_host = (h', Ok r) ∧
    dict_get "status" r ∈ [Some (PStr "deployment-error"); Some (PStr "prewarm-timeout"); Some (PStr "timeout"); Some (PStr "phase-one-failed")].
Proof.
  destruct (deploy_sample demo_docker id demo_natural demo_sample demo_host) as [h' [r|e]] eqn:E; [|vm_compute in E; discriminate E].
  exists h', r. split; [reflexivity|].
  apply (natural_never_observed demo_docker id demo_natural demo_sample demo_host h' r); [reflexivity| |exact E].
  intros n code text Ht. vm_compute in Ht. injection Ht as <- <-.
  constructor; [|constructor]. exists "Shutdown", "Complete", "3 seconds ago", "". repeat split.
Defined.

Definition demo_arguments : arguments := Arguments "/src" "/out" "" [1] 1 1 1 demo_settings.
Definition demo_matrix_host : host :=
  Host (Filesystem {["/src/mlp-nodes1"]} (list_to_map ((λ n, ("/src/mlp-nodes1/" +:+ n, if String.eqb n "workload.yml" then "w" else "")) <$>
    ["workload.yml"; "topology.json"; "routing.json"; "stack.yml"]))) [] 0.

Lemma samples_successful_witness :
  ∃ h' samples, main demo_manager id "id" demo_arguments demo_matrix_host = (h', Ok ()) ∧ zlen samples = 1 ∧
    Forall (successful demo_settings 1) samples.
Proof.
  destruct (main demo_manager id "id" demo_arguments demo_matrix_host) as [h' [[]|e]] eqn:E; [|vm_compute in E; discriminate E].
  destruct (samples_successful demo_manager id "id" demo_arguments demo_matrix_host h' E) as (samples & _ & Hlen & Hall).
  exists h', samples. split; [reflexivity|]. split; [rewrite Hlen; reflexivity|exact Hall].
Defined.
