(* ===== verification/Probes.v ===== *)
(** * Latency probes

    Model of [src/scripts/pipecomm_latency_probe.py] and [src/scripts/tcp_latency_probe.py]: the
    requests and the echo they send, how they read answers that arrive in pieces, the checks of
    the answers and the records they print.  The other end is a parameter; the router of
    [Router] is one. *)

From S2P Require Import Prelude PyValue Topology Routing Router.

(** ** Sockets *)

(** What is still to arrive, in pieces as the network delivers them, and what happens after
    that: the peer has closed the connection, or reading fails, for example with a timeout. *)
Record socket := Socket { sk_data : list string; sk_end : result () }.

(** [connection.recv(n)] for [1 <= n]: the next piece, at most [n] bytes of it; [""] at the end. *)
Fixpoint recv_go (n : nat) (data : list string) (ending : result ()) : result (string * list string) :=
  match data with
  | [] => _ ← ending; Ok ("", [])
  | piece :: rest =>
      if String.eqb piece "" then recv_go n rest ending
      else if (str_length piece <=? n)%nat then Ok (piece, rest)
      else Ok (str_take n piece, str_drop n piece :: rest)
  end.

Definition recv (n : nat) (sk : socket) : result (string * socket) :=
  r ← recv_go n (sk_data sk) (sk_end sk); Ok (r.1, Socket r.2 (sk_end sk)).

(** [while len(response) < 512] with [left] bytes to go. *)
Fixpoint read_line_go (left_ : nat) (response : string) (sk : socket) : result (string * socket) :=
  match left_ with
  | O => Err (RuntimeError "router response header exceeds 512 bytes")
  | S left_ =>
      r ← recv 1 sk;
      let '(byte, sk) := r in
      _ ← raise_if (String.eqb byte "") (RuntimeError "router closed the connection before its response");
      let response := response +:+ byte in
      if String.eqb byte nl then Ok (response, sk) else read_line_go left_ response sk
  end.

Definition read_line (sk : socket) : result (string * socket) := read_line_go 512 "" sk.

(** [while len(payload) < byte_count]: every round receives at least one byte. *)
Fixpoint read_exactly_go (fuel : nat) (closed : exn) (missing : nat) (payload : string) (sk : socket) : result (string * socket) :=
  match missing, fuel with
  | O, _ => Ok (payload, sk)
  | _, O => Err (TimeoutError "the peer sends nothing")
  | _, S fuel =>
      r ← recv missing sk;
      let '(part, sk) := r in
      _ ← raise_if (String.eqb part "") closed;
      read_exactly_go fuel closed (missing - str_length part) (payload +:+ part) sk
  end.

Definition read_exactly (closed : exn) (byte_count : Z) (sk : socket) : result (string * socket) :=
  read_exactly_go (Z.to_nat byte_count) closed (Z.to_nat byte_count) "" sk.

(** *** How the answer was cut into pieces does not matter *)

Definition incoming (sk : socket) : string := join "" (sk_data sk).

Lemma recv_go_spec n data ending :
  (0 < n)%nat →
  match recv_go n data ending with
  | Ok (part, rest) =>
      join "" data = part +:+ join "" rest ∧ (str_length part ≤ n)%nat ∧
      (part = "" → join "" data = "" ∧ ending = Ok () ∧ rest = [])
  | Err e => join "" data = "" ∧ ending = Err e
  end.
Proof.
  intros Hn. induction data as [|piece data IH]; cbn [recv_go].
  { destruct ending as [[]|e]; cbn; [|done]. split_and!; [done|lia|done]. }
  rewrite join_nothing_cons.
  destruct (String.eqb_spec piece "") as [->|Hp]; [exact IH|].
  destruct (Nat.leb_spec (str_length piece) n); [by split_and!|]. rewrite join_nothing_cons.
  split; [by rewrite <- str_app_assoc, str_take_drop|]. split; [rewrite str_length_take; lia|].
  intros He. apply (f_equal str_length) in He. rewrite str_length_take in He by lia. cbn in He. lia.
Qed.

Lemma recv_spec n sk :
  (0 < n)%nat →
  match recv n sk with
  | Ok (part, sk') =>
      incoming sk = part +:+ incoming sk' ∧ (str_length part ≤ n)%nat ∧ sk_end sk' = sk_end sk ∧
      (part = "" → incoming sk = "" ∧ sk_end sk = Ok ())
  | Err e => incoming sk = "" ∧ sk_end sk = Err e
  end.
Proof.
  intros Hn. unfold recv, incoming. pose proof (recv_go_spec n (sk_data sk) (sk_end sk) Hn) as H.
  destruct (recv_go n (sk_data sk) (sk_end sk)) as [[part rest]|e]; cbn [mbind result_bind fst snd sk_data sk_end]; [|done].
  destruct H as (H1 & H2 & H3). split_and!; [done..|]. intros Hp. apply H3 in Hp as (? & ? & _). done.
Qed.

(** Enough has arrived: exactly the first bytes are read. *)
Lemma read_exactly_go_Ok fuel closed missing payload sk a b :
  incoming sk = a +:+ b → str_length a = missing → (missing ≤ fuel)%nat →
  ∃ sk', read_exactly_go fuel closed missing payload sk = Ok (payload +:+ a, sk') ∧ incoming sk' = b ∧ sk_end sk' = sk_end sk.
Proof.
  revert missing payload sk a. induction fuel as [|fuel IH]; intros missing payload sk a Hin Hlen Hf.
  - destruct missing; [|lia]. destruct a; [|done]. exists sk. by rewrite str_app_nil_r.
  - destruct missing as [|k]; [destruct a; [|done]; exists sk; by rewrite str_app_nil_r|]. cbn [read_exactly_go].
    pose proof (recv_spec (S k) sk ltac:(lia)) as Hr. destruct (recv (S k) sk) as [[part sk1]|e]; cbn [mbind result_bind].
    + destruct Hr as (Hi & Hl & He & Hempty). destruct (String.eqb_spec part "") as [->|Hp].
      { destruct (Hempty eq_refl) as [H0 _]. rewrite H0 in Hin. destruct a; [done|discriminate Hin]. }
      cbn [raise_if mbind result_bind]. rewrite Hin in Hi.
      assert (Hcut : ∃ a', a = part +:+ a' ∧ incoming sk1 = a' +:+ b).
      { exists (str_drop (str_length part) a). assert (Hle : (str_length part ≤ str_length a)%nat) by lia.
        assert (Ha : a = part +:+ str_drop (str_length part) a).
        { rewrite <- (str_take_drop (str_length part) a) at 1. f_equal.
          apply (f_equal (str_take (str_length part))) in Hi. rewrite str_take_app in Hi. rewrite <- Hi.
          clear -Hle. revert a Hle. induction (str_length part) as [|n IHn]; intros [|c a] Hle; cbn in *; try done; [lia|]. f_equal. apply IHn. lia. }
        split; [done|]. rewrite Ha, str_app_assoc in Hi. apply (f_equal (str_drop (str_length part))) in Hi.
        by rewrite !str_drop_app in Hi. }
      destruct Hcut as (a' & -> & Hi'). rewrite str_length_app in Hlen.
      assert (str_length part ≠ 0%nat) by (by destruct part).
      destruct (IH (S k - str_length part)%nat (payload +:+ part) sk1 a' Hi') as (sk' & -> & H1 & H2); [lia|lia|].
      exists sk'. rewrite str_app_assoc, H2. done.
    + destruct Hr as [H0 _]. rewrite H0 in Hin. destruct a; [done|discriminate Hin].
Qed.

(** A line has arrived: exactly that line is read. *)
Lemma read_line_go_Ok left_ response sk line b :
  incoming sk = line +:+ nl +:+ b → lacks NL line = true → (str_length line < left_)%nat →
  ∃ sk', read_line_go left_ response sk = Ok (response +:+ line +:+ nl, sk') ∧ incoming sk' = b ∧ sk_end sk' = sk_end sk.
Proof.
  revert response sk line. induction left_ as [|left_ IH]; intros response sk line Hin Hline Hlen; [lia|]. cbn [read_line_go].
  pose proof (recv_spec 1 sk ltac:(lia)) as Hr. destruct (recv 1 sk) as [[byte sk1]|e]; cbn [mbind result_bind].
  2:{ destruct Hr as [H0 _]. rewrite H0 in Hin. destruct line; discriminate Hin. }
  destruct Hr as (Hi & Hl & He & Hempty). destruct byte as [|c [|c' byte]]; [|clear Hempty|cbn in Hl; lia].
  { destruct (Hempty eq_refl) as [H0 _]. rewrite H0 in Hin. destruct line; discriminate Hin. }
  change (String.eqb (String c "") "") with false. cbn [raise_if mbind result_bind]. rewrite Hin in Hi. destruct line as [|d line]; cbn in Hi.
  - injection Hi as <- Hi. change (String.eqb (String NL "") nl) with true. cbv iota. exists sk1. rewrite He. done.
  - injection Hi as <- Hi. cbn in Hline. apply andb_true_iff in Hline as [Hd Hline].
    assert (Hne : String.eqb (String d "") nl = false).
    { apply String.eqb_neq. intros [= ->]. by rewrite Ascii.eqb_refl in Hd. }
    rewrite Hne. cbn [str_length] in Hlen. destruct (IH (response +:+ String d "") sk1 line) as (sk' & -> & H1 & H2); [done|done|lia|].
    exists sk'. rewrite H2, He, str_app_assoc. done.
Qed.

Lemma read_line_Ok sk line b :
  incoming sk = line +:+ nl +:+ b → lacks NL line = true → (str_length line < 512)%nat →
  ∃ sk', read_line sk = Ok (line +:+ nl, sk') ∧ incoming sk' = b ∧ sk_end sk' = sk_end sk.
Proof. apply read_line_go_Ok. Qed.

Lemma read_exactly_Ok closed n sk a b :
  incoming sk = a +:+ b → Z.of_nat (str_length a) = n →
  ∃ sk', read_exactly closed n sk = Ok (a, sk') ∧ incoming sk' = b ∧ sk_end sk' = sk_end sk.
Proof. intros Hin <-. unfold read_exactly. rewrite Nat2Z.id. exact (read_exactly_go_Ok _ closed _ "" sk a b Hin eq_refl (le_n _)). Qed.

(** ** The state of a probe *)

(** [json.dumps(v, sort_keys=True)] of ASCII text: the default separators have a space. *)
Fixpoint json_spaced (v : pyval) : string :=
  match v with
  | PList l => "[" +:+ join ", " (json_spaced <$> l) +:+ "]"
  | PDict d => "{" +:+ join ", " ((λ kv, json_str kv.1 +:+ ": " +:+ json_spaced kv.2) <$> d) +:+ "}"
  | v => json_dumps v
  end.

Definition sorted_keys (d : pydict) : pydict := py_sorted (λ a b, String.leb a.1 b.1) d.

(** [repr] of bytes. *)
Fixpoint bytes_chars (quote : ascii) (s : string) : string :=
  match s with
  | EmptyString => EmptyString
  | String c s' =>
      (if (127 <=? ord c)%nat then "\x" +:+ String (hex_digit (ord c / 16)) (String (hex_digit (ord c mod 16)) "")
       else repr_chars quote (String c "")) +:+ bytes_chars quote s'
  end.

Definition repr_bytes (s : string) : string :=
  let quote := if contains "'" s && negb (contains (String DQUOTE "") s) then DQUOTE else "'"%char in
  "b" +:+ String quote "" +:+ bytes_chars quote s +:+ String quote "".

(** [text.encode("ascii")] *)
Definition encode_ascii (text : string) : result string :=
  match first_non_ascii 0 text with
  | None => Ok text
  | Some (i, _) => Err (ValueError ("'ascii' codec can't encode character in position " +:+ str_of_Z i +:+ ": ordinal not in range(128)"))
  end.

(** [bytes([fill]) * n] *)
Fixpoint repeat_byte (fill : ascii) (n : nat) : string :=
  match n with O => "" | S n => String fill (repeat_byte fill n) end.

Definition pattern (fill n : Z) : string := repeat_byte (ascii_of_nat (Z.to_nat fill)) (Z.to_nat n).

(** The other end of the connections, with a state of its own. *)
Record peer (W : Type) := Peer {
  pe_connect : W → W * result ();                     (** [socket.create_connection] *)
  pe_exchange : W → string → W * result socket;       (** [sendall] of a request, and what answers it *)
}.
Arguments pe_connect {W} _.
Arguments pe_exchange {W} _.

Record pstate (W : Type) := PState {
  ps_world : W;
  ps_reads : nat;                  (** readings taken of the clock *)
  ps_printed : list string;        (** the lines printed *)
}.
Arguments PState {W} _ _ _.
Arguments ps_world {W} _.
Arguments ps_reads {W} _.
Arguments ps_printed {W} _.

Definition P (W A : Type) : Type := pstate W → pstate W * result A.

#[export] Instance P_ret W : MRet (P W) := λ A a s, (s, Ok a).
#[export] Instance P_bind W : MBind (P W) := λ A B f m s,
  match m s with
  | (s', Ok a) => f a s'
  | (s', Err e) => (s', Err e)
  end.

Definition p_lift {W A} (r : result A) : P W A := λ s, (s, r).

Definition line_of (record : pydict) : string := json_spaced (PDict (sorted_keys record)).

Definition emit {W} (record : pydict) : P W unit := λ s,
  (PState (ps_world s) (ps_reads s) (ps_printed s ++ [line_of record]), Ok ()).

Fixpoint p_for {W A} (f : A → P W unit) (l : list A) : P W unit :=
  match l with [] => mret () | x :: r => f x ≫= λ _, p_for f r end.

Record arguments := Arguments {
  ar_reader : bool;                (** the mode *)
  ar_pipe : string;
  ar_bytes : Z;
  ar_count : Z;
  ar_fill : Z;
  ar_interval : Z;                 (** the pause after a write; only its sign matters here *)
}.

Section Probe.
Context {W : Type} (pe : peer W) (clock : nat → Z) (a : arguments).

Definition connect : P W unit := λ s,
  let '(w, r) := pe_connect pe (ps_world s) in (PState w (ps_reads s) (ps_printed s), r).

Definition now_ns : P W Z := λ s, (PState (ps_world s) (S (ps_reads s)) (ps_printed s), Ok (clock (ps_reads s))).

Definition sendall (request : string) : P W socket := λ s,
  let '(w, r) := pe_exchange pe (ps_world s) request in (PState w (ps_reads s) (ps_printed s), r).

Definition closed_early : exn := RuntimeError "router closed the connection during payload receive".

Definition request_header (op : string) : string := op +:+ " " +:+ ar_pipe a +:+ " " +:+ str_of_Z (ar_bytes a) +:+ nl.

Definition expected_header : string := "OK " +:+ str_of_Z (ar_bytes a) +:+ nl.

Definition issued_record (sequence request_started_ns request_issued_ns : Z) : pydict :=
  [("event", PStr "reader_issued"); ("sequence", PInt sequence);
   ("request_started_ns", PInt request_started_ns); ("request_issued_ns", PInt request_issued_ns)].

(** The record of a completed operation; [wait] names its last field. *)
Definition completed_record (event wait : string) (sequence request_started_ns request_issued_ns completed_ns : Z) : pydict :=
  [("event", PStr event); ("sequence", PInt sequence);
   ("request_started_ns", PInt request_started_ns); ("request_issued_ns", PInt request_issued_ns);
   ("completed_ns", PInt completed_ns); (wait, PInt (completed_ns - request_issued_ns))].

(** One round of [run_reader]. *)
Definition read_once (sequence : Z) : P W unit :=
  _ ← connect;
  request_started_ns ← now_ns;
  header ← p_lift (encode_ascii (request_header "R"));
  sk ← sendall header;
  request_issued_ns ← now_ns;
  _ ← emit (issued_record sequence request_started_ns request_issued_ns);
  response ← p_lift (read_line sk);
  _ ← p_lift (raise_if (negb (String.eqb response.1 expected_header))
        (RuntimeError ("unexpected read response: " +:+ repr_bytes response.1)));
  payload ← p_lift (read_exactly closed_early (ar_bytes a) response.2);
  completed_ns ← now_ns;
  _ ← p_lift (raise_if (negb (String.eqb payload.1 (pattern (ar_fill a) (ar_bytes a))))
        (RuntimeError "received payload differs from the probe pattern"));
  emit (completed_record "reader_completed" "router_read_wait_ns" sequence request_started_ns request_issued_ns completed_ns).

Definition run_reader : P W unit := p_for read_once (seqZ 0 (ar_count a)).

(** One round of [run_writer]; the pause after it changes nothing. *)
Definition write_once (sequence : Z) : P W unit :=
  _ ← connect;
  request_started_ns ← now_ns;
  header ← p_lift (encode_ascii (request_header "W"));
  sk ← sendall (header +:+ pattern (ar_fill a) (ar_bytes a));
  request_issued_ns ← now_ns;
  response ← p_lift (read_line sk);
  completed_ns ← now_ns;
  _ ← p_lift (raise_if (negb (String.eqb response.1 ("OK" +:+ nl)))
        (RuntimeError ("unexpected write response: " +:+ repr_bytes response.1)));
  emit (completed_record "writer_completed" "router_write_service_ns" sequence request_started_ns request_issued_ns completed_ns).

Definition run_writer : P W unit := p_for write_once (seqZ 0 (ar_count a)).

Definition check_arguments : result unit :=
  _ ← raise_if (negb ((1 <=? ar_bytes a) && (ar_bytes a <=? 65000))) (SystemExit "--bytes must be in 1..65000");
  _ ← raise_if (ar_count a <? 1) (SystemExit "--count must be positive");
  _ ← raise_if (negb ((0 <=? ar_fill a) && (ar_fill a <=? 255))) (SystemExit "--fill must be in 0..255");
  raise_if (ar_interval a <? 0) (SystemExit "--interval-ms must not be negative").

(** [except (OSError, RuntimeError)] *)
Definition reported (e : exn) : bool :=
  match e with OSError _ | FileNotFoundError _ | TimeoutError _ | RuntimeError _ => true | _ => false end.

(** The exit status. *)
Definition main : P W Z := λ s,
  match check_arguments with
  | Err e => (s, Err e)
  | Ok _ =>
      match (if ar_reader a then run_reader else run_writer) s with
      | (s', Ok _) => (s', Ok 0)
      | (s', Err e) => (s', if reported e then Ok 1 else Err e)
      end
  end.

End Probe.

(** ** A router as the other end *)

(** The router of one worker.  Its replies arrive cut into pieces; a read that has to wait for a
    payload is not answered before the socket times out. *)
Definition router_peer (r : router) (connect : gateway) (cut : string → list string) : peer pipes := {|
  pe_connect := λ q, (q, Ok ());
  pe_exchange := λ q request,
    match handle r connect q (Stamp 0 0) (Stamp 0 0) request with
    | Some h => (hd_pipes h, Ok (Socket (cut (hd_reply h)) (Ok ())))
    | None => (q, Ok (Socket [] (Err (TimeoutError "timed out"))))
    end;
|}.

Lemma length_pattern fill n : 0 ≤ n → Z.of_nat (str_length (pattern fill n)) = n.
Proof.
  intros Hn. unfold pattern. replace (str_length _) with (Z.to_nat n); [lia|].
  induction (Z.to_nat n) as [|k IH]; [done|]. cbn. by f_equal.
Qed.

Lemma pretty_go_length k x s : (x < 10 ^ N.of_nat k)%N → (str_length (pretty_N_go x s) ≤ k + str_length s)%nat.
Proof.
  revert x s. induction k as [|k IH]; intros x s Hx.
  - assert (x = 0%N) as -> by (cbn in Hx; lia). rewrite pretty_N_go_0. lia.
  - destruct (decide (0 < x)%N) as [H0|H0]; [|assert (x = 0%N) as -> by lia; rewrite pretty_N_go_0; lia].
    rewrite pretty_N_go_step by done. rewrite Nat2N.inj_succ, N.pow_succ_r' in Hx.
    specialize (IH (x `div` 10)%N (String (pretty_N_char (x `mod` 10)) s)). cbn [str_length] in IH.
    assert (x `div` 10 < 10 ^ N.of_nat k)%N by (apply N.Div0.div_lt_upper_bound; lia). specialize (IH H). lia.
Qed.

Lemma short_number n : 0 ≤ n ≤ 65000 → (str_length (str_of_Z n) < 500)%nat.
Proof.
  intros Hn. destruct (pretty_Z_cases n) as [[_ ->]|[? _]]; [|lia]. unfold pretty, pretty_N. case_decide; [cbn; lia|].
  assert (Hlt : (Z.to_N n < 10 ^ N.of_nat 5)%N) by (change (10 ^ N.of_nat 5)%N with 100000%N; lia).
  pose proof (pretty_go_length 5 (Z.to_N n) "" Hlt) as Hl. cbn [str_length] in Hl. lia.
Qed.

Lemma encode_ascii_Ok text : str_forallb (λ c, (ord c <=? 127)%nat) text = true → encode_ascii text = Ok text.
Proof.
  intros H. unfold encode_ascii. replace (first_non_ascii 0 text) with (None : option (Z * ascii)); [done|].
  generalize 0. induction text as [|c s IH]; intros i; [done|]. cbn [first_non_ascii str_forallb] in *.
  apply andb_true_iff in H as [Hc H]. apply Nat.leb_le in Hc. replace (127 <? ord c)%nat with false by (symmetry; apply Nat.ltb_ge; lia). by apply IH.
Qed.

Section Meeting.
Context (r : router) (gate : gateway) (cut : string → list string) (a : arguments).
Context (Hcut : ∀ s, join "" (cut s) = s).
Context (Hw : peer_for r W (ar_pipe a) = Ok (slot r)) (Hr : peer_for r R (ar_pipe a) = Ok (slot r)).
Context (Hn : 1 ≤ ar_bytes a ≤ 65000) (Hfit : Z.of_nat (str_length (ar_pipe a)) < 60000).

Abbreviation payload := (pattern (ar_fill a) (ar_bytes a)).
Abbreviation other := (router_peer r gate cut).

Definition request_of (op : operation) : request :=
  Request op (ar_pipe a) (ar_bytes a) (match op with W => payload | R => "" end) (slot r).

Lemma request_header_normalized op : request_header a (op_text op) = normalized_header (request_of op).
Proof using Type. done. Qed.

Lemma request_valid op : valid_request r (request_of op) ∧ header_fits (request_of op).
Proof using Hw Hr Hn Hfit.
  split.
  - split; [cbn; unfold MAX_REQUEST_BYTES; lia|]. split; [destruct op; cbn; [apply length_pattern; lia|done]|].
    by destruct op.
  - unfold header_fits, normalized_header. cbn [rq_operation rq_pipe rq_bytes request_of]. rewrite !str_length_app.
    pose proof (short_number (ar_bytes a) ltac:(lia)). assert (Hop : str_length (op_text op) = 1%nat) by (by destruct op).
    rewrite Hop. change (str_length nl) with 1%nat. change (str_length " ") with 1%nat. lia.
Qed.

Lemma request_encoded op : encode_ascii (request_header a (op_text op)) = Ok (request_header a (op_text op)).
Proof using Hw.
  apply encode_ascii_Ok. unfold request_header. rewrite !str_forallb_app. apply peer_for_chars in Hw.
  assert (Hp : ∀ s, str_forallb pipe_char s = true → str_forallb (λ c, (ord c <=? 127)%nat) s = true).
  { intros s. apply str_forallb_impl. intros c Hc%pipe_char_range. apply Nat.leb_le. lia. }
  rewrite (Hp (ar_pipe a)) by done. rewrite (Hp (str_of_Z (ar_bytes a))) by apply int_chars_pipe. by destruct op.
Qed.

Lemma handled_request op q :
  handle r gate q (Stamp 0 0) (Stamp 0 0) (request_header a (op_text op) +:+ (match op with W => payload | R => "" end)) =
  match handle_local q op (ar_pipe a) (match op with W => payload | R => "" end) (ar_bytes a) with
  | Some (q', reply) => Some (Handled q' reply [announce r (request_of op); Metric (metric r (request_of op) (Stamp 0 0) (Stamp 0 0));
                               completed (request_of op)] None)
  | None => None
  end.
Proof using Hw Hr Hn Hfit.
  destruct (request_valid op) as [Hv Hf]. pose proof (prepare_encode r (request_of op) "" Hv Hf) as Hp.
  rewrite str_app_nil_r in Hp. unfold handle. unfold encode in Hp. rewrite <- request_header_normalized in Hp.
  cbn [rq_payload request_of] in Hp. rewrite Hp. unfold perform. cbn [rq_peer request_of]. rewrite Z.eqb_refl.
  cbn [rq_operation rq_pipe rq_payload rq_bytes]. by destruct (handle_local _ _ _ _ _) as [[q' reply]|].
Qed.

(** The records of one operation whose first reading of the clock is the [i]th. *)
Definition written (clock : nat → Z) (sequence : Z) (i : nat) : pydict :=
  completed_record "writer_completed" "router_write_service_ns" sequence (clock i) (clock (S i)) (clock (S (S i))).

Definition received (clock : nat → Z) (sequence : Z) (i : nat) : list pydict :=
  [issued_record sequence (clock i) (clock (S i));
   completed_record "reader_completed" "router_read_wait_ns" sequence (clock i) (clock (S i)) (clock (S (S i)))].

Lemma write_once_Ok clock sequence s :
  write_once other clock a sequence s =
    (PState (<[ar_pipe a := queue (ps_world s) (ar_pipe a) ++ [payload]]> (ps_world s)) (S (S (S (ps_reads s))))
       (ps_printed s ++ [line_of (written clock sequence (ps_reads s))]), Ok ()).
Proof using Hcut Hw Hr Hn Hfit.
  destruct s as [q reads printed]. unfold write_once, mbind, P_bind, connect, now_ns, p_lift, sendall, emit.
  cbn [ps_world ps_reads ps_printed pe_connect pe_exchange router_peer]. change (request_header a "W") with (request_header a (op_text W)).
  rewrite (request_encoded W), (handled_request W). cbn [handle_local hd_pipes hd_reply].
  destruct (read_line_Ok (Socket (cut ("OK" +:+ nl)) (Ok ())) "OK" "") as (sk' & Hsk & _);
    [unfold incoming; cbn [sk_data]; by rewrite Hcut|done|cbn; lia|].
  rewrite Hsk. cbn [fst]. by rewrite String.eqb_refl.
Qed.

Lemma read_once_Ok clock sequence s rest :
  queue (ps_world s) (ar_pipe a) = payload :: rest →
  read_once other clock a sequence s =
    (PState (<[ar_pipe a := rest]> (ps_world s)) (S (S (S (ps_reads s))))
       (ps_printed s ++ (line_of <$> received clock sequence (ps_reads s))), Ok ()).
Proof using Hcut Hw Hr Hn Hfit.
  destruct s as [q reads printed]. cbn [ps_world]. intros Hq.
  unfold read_once, mbind, P_bind, connect, now_ns, p_lift, sendall, emit.
  cbn [ps_world ps_reads ps_printed pe_connect pe_exchange router_peer]. change (request_header a "R") with (request_header a (op_text R)).
  pose proof (handled_request R q) as Hh. rewrite str_app_nil_r in Hh. rewrite (request_encoded R), Hh. cbn [handle_local]. rewrite Hq, length_pattern, Z.eqb_refl by lia. cbn [hd_pipes hd_reply].
  destruct (read_line_Ok (Socket (cut ("OK " +:+ str_of_Z (ar_bytes a) +:+ nl +:+ payload)) (Ok ())) ("OK " +:+ str_of_Z (ar_bytes a)) payload)
    as (sk1 & Hsk1 & Hin1 & He1).
  { unfold incoming. cbn [sk_data]. by rewrite Hcut, str_app_assoc. }
  { assert (Hl : lacks NL (str_of_Z (ar_bytes a)) = true) by (by apply str_of_Z_lacks). unfold lacks in *.
    by rewrite str_forallb_app, Hl. }
  { rewrite str_length_app. pose proof (short_number (ar_bytes a) ltac:(lia)). cbn. lia. }
  rewrite Hsk1. cbn [fst snd]. rewrite str_app_assoc.
  change ("OK " +:+ str_of_Z (ar_bytes a) +:+ nl) with (expected_header a). rewrite String.eqb_refl. cbn [negb raise_if].
  destruct (read_exactly_Ok closed_early (ar_bytes a) sk1 payload "") as (sk2 & Hsk2 & _);
    [by rewrite Hin1, str_app_nil_r|apply length_pattern; lia|].
  rewrite Hsk2. cbn [fst snd]. rewrite String.eqb_refl. cbn [negb raise_if]. by rewrite <- app_assoc.
Qed.

Lemma queue_insert (q : pipes) name l : queue (<[name := l]> q) name = l.
Proof using Type. unfold queue. by rewrite lookup_insert_eq. Qed.

(** The records of a run from the [i]th reading of the clock on, three readings for each. *)
Fixpoint run_records (records : Z → nat → list pydict) (sequences : list Z) (i : nat) : list pydict :=
  match sequences with [] => [] | k :: rest => records k i ++ run_records records rest (S (S (S i))) end.

Lemma p_for_write clock sequences s :
  ∃ q, p_for (write_once other clock a) sequences s =
    (PState q (3 * length sequences + ps_reads s) (ps_printed s ++ (line_of <$> run_records (λ k i, [written clock k i]) sequences (ps_reads s))), Ok ()) ∧
    queue q (ar_pipe a) = queue (ps_world s) (ar_pipe a) ++ replicate (length sequences) payload.
Proof using Hcut Hw Hr Hn Hfit.
  revert s. induction sequences as [|k sequences IH]; intros s; cbn [p_for].
  - exists (ps_world s). cbn [length replicate run_records fmap list_fmap Nat.mul Nat.add]. rewrite !app_nil_r. by destruct s.
  - unfold mbind, P_bind. rewrite write_once_Ok.
    destruct (IH (PState (<[ar_pipe a := queue (ps_world s) (ar_pipe a) ++ [payload]]> (ps_world s)) (S (S (S (ps_reads s))))
       (ps_printed s ++ [line_of (written clock k (ps_reads s))]))) as (q & -> & Hq).
    cbn [ps_world ps_reads ps_printed] in *. exists q. rewrite queue_insert in Hq. split.
    + cbn [run_records length]. rewrite fmap_app, <- app_assoc. do 2 f_equal. lia.
    + rewrite Hq, <- app_assoc. done.
Qed.

Lemma p_for_read clock sequences s rest :
  queue (ps_world s) (ar_pipe a) = replicate (length sequences) payload ++ rest →
  ∃ q, p_for (read_once other clock a) sequences s =
    (PState q (3 * length sequences + ps_reads s) (ps_printed s ++ (line_of <$> run_records (received clock) sequences (ps_reads s))), Ok ()) ∧
    queue q (ar_pipe a) = rest.
Proof using Hcut Hw Hr Hn Hfit.
  revert s. induction sequences as [|k sequences IH]; intros s Hq; cbn [p_for].
  - exists (ps_world s). cbn [length replicate run_records fmap list_fmap Nat.mul Nat.add]. rewrite app_nil_r. by destruct s.
  - cbn [length replicate app] in Hq. unfold mbind, P_bind. rewrite (read_once_Ok _ _ _ _ Hq).
    destruct (IH (PState (<[ar_pipe a := replicate (length sequences) payload ++ rest]> (ps_world s)) (S (S (S (ps_reads s))))
       (ps_printed s ++ (line_of <$> received clock k (ps_reads s))))) as (q & -> & Hq'); [apply queue_insert|].
    cbn [ps_world ps_reads ps_printed] in *. exists q. split; [|done].
    cbn [run_records length]. rewrite fmap_app, <- app_assoc. do 2 f_equal. lia.
Qed.

End Meeting.

(** The two probes of one measurement. *)
Definition writer_of (a : arguments) : arguments := Arguments false (ar_pipe a) (ar_bytes a) (ar_count a) (ar_fill a) (ar_interval a).
Definition reader_of (a : arguments) : arguments := Arguments true (ar_pipe a) (ar_bytes a) (ar_count a) (ar_fill a) (ar_interval a).

(** Both runs, with the states they end in. *)
Lemma probes_run r gate cut a clock1 clock2 q :
  (∀ s, join "" (cut s) = s) → check_arguments a = Ok () → Z.of_nat (str_length (ar_pipe a)) < 60000 →
  peer_for r W (ar_pipe a) = Ok (slot r) → peer_for r R (ar_pipe a) = Ok (slot r) → queue q (ar_pipe a) = [] →
  ∃ q1 q2 i1 i2,
    main (router_peer r gate cut) clock1 (writer_of a) (PState q 0 []) =
      (PState q1 i1 (line_of <$> run_records (λ k i, [written clock1 k i]) (seqZ 0 (ar_count a)) 0), Ok 0) ∧
    main (router_peer r gate cut) clock2 (reader_of a) (PState q1 0 []) =
      (PState q2 i2 (line_of <$> run_records (received clock2) (seqZ 0 (ar_count a)) 0), Ok 0) ∧
    queue q2 (ar_pipe a) = [].
Proof.
  intros Hcut Hck Hfit Hw Hr Hq.
  assert (Hn : 1 ≤ ar_bytes a ≤ 65000).
  { unfold check_arguments in Hck. result_inv. bool_facts. lia. }
  destruct (p_for_write r gate cut (writer_of a) Hcut Hw Hr Hn Hfit clock1 (seqZ 0 (ar_count a)) (PState q 0 [])) as (q1 & H1 & Hq1).
  cbn [ps_world ps_reads ps_printed ar_pipe writer_of] in *. rewrite Hq in Hq1.
  destruct (p_for_read r gate cut (reader_of a) Hcut Hw Hr Hn Hfit clock2 (seqZ 0 (ar_count a)) (PState q1 0 []) []) as (q2 & H2 & Hq2);
    [cbn [ps_world ar_pipe reader_of]; by rewrite Hq1, app_nil_r|].
  cbn [ps_world ps_reads ps_printed ar_pipe reader_of] in *.
  exists q1, q2. eexists _, _. unfold main. change (check_arguments (writer_of a)) with (check_arguments a).
  change (check_arguments (reader_of a)) with (check_arguments a). rewrite Hck. cbn [ar_reader writer_of reader_of].
  unfold run_writer, run_reader. cbn [ar_count writer_of reader_of]. rewrite H1, H2. done.
Qed.

(** C36: the two probes agree with the router.  Against a router that hosts both ends of an idle
    pipe, and however its replies are cut into pieces, a writer probe and then a reader probe
    with the same accepted options both end with status 0: every request is understood, every
    payload comes back unchanged, the pipe is idle again, and what they print is exactly one
    record for each write and two for each read, numbered from 0, with the readings of their
    clocks. *)
Theorem probes_meet r gate cut a clock1 clock2 q :
  (∀ s, join "" (cut s) = s) → check_arguments a = Ok () → Z.of_nat (str_length (ar_pipe a)) < 60000 →
  peer_for r W (ar_pipe a) = Ok (slot r) → peer_for r R (ar_pipe a) = Ok (slot r) → queue q (ar_pipe a) = [] →
  ∃ q1 q2 i1 i2,
    main (router_peer r gate cut) clock1 (writer_of a) (PState q 0 []) =
      (PState q1 i1 (line_of <$> run_records (λ k i, [written clock1 k i]) (seqZ 0 (ar_count a)) 0), Ok 0) ∧
    main (router_peer r gate cut) clock2 (reader_of a) (PState q1 0 []) =
      (PState q2 i2 (line_of <$> run_records (received clock2) (seqZ 0 (ar_count a)) 0), Ok 0) ∧
    queue q2 (ar_pipe a) = [].
Proof. exact (probes_run r gate cut a clock1 clock2 q). Qed.

(** Byte by byte. *)
Definition bytewise (s : string) : list string := (λ c, String c "") <$> String.list_ascii_of_string s.

Lemma join_bytewise s : join "" (bytewise s) = s.
Proof. induction s as [|c s IH]; [done|]. unfold bytewise in *. cbn [String.list_ascii_of_string fmap list_fmap]. by rewrite join_nothing_cons, IH. Qed.

Definition demo_probe : arguments := Arguments true "buffer5_5_2_0" 4 2 90 0.

Lemma probes_meet_witness :
  ∃ q1 q2 i1 i2,
    main (router_peer (Router 0 {["5,5" := 0; "2,0" := 0]} ∅ ∅) (λ _ _, Err (OSError "")) bytewise) Z.of_nat (writer_of demo_probe) (PState ∅ 0 []) =
      (PState q1 i1 (line_of <$> run_records (λ k i, [written Z.of_nat k i]) [0; 1] 0), Ok 0) ∧
    main (router_peer (Router 0 {["5,5" := 0; "2,0" := 0]} ∅ ∅) (λ _ _, Err (OSError "")) bytewise) Z.of_nat (reader_of demo_probe) (PState q1 0 []) =
      (PState q2 i2 (line_of <$> run_records (received Z.of_nat) [0; 1] 0), Ok 0).
Proof.
  destruct (probes_meet (Router 0 {["5,5" := 0; "2,0" := 0]} ∅ ∅) (λ _ _, Err (OSError "")) bytewise demo_probe Z.of_nat Z.of_nat ∅)
    as (q1 & q2 & i1 & i2 & H1 & H2 & _); [exact join_bytewise|reflexivity|vm_compute; reflexivity..|].
  exists q1, q2, i1, i2. split; [exact H1|exact H2].
Defined.

(** ** The TCP probe *)

Module Tcp.

Definition closed_early : exn := RuntimeError "peer closed the TCP connection early".

(** [run_server] after the accepted connection: what it sent, and how it ended. *)
Fixpoint serve (byte_count : Z) (count : nat) (sk : socket) : list string * result () :=
  match count with
  | O => ([], Ok ())
  | S count =>
      match read_exactly closed_early byte_count sk with
      | Err e => ([], Err e)
      | Ok (payload, sk) => let '(sent, r) := serve byte_count count sk in (payload :: sent, r)
      end
  end.

Definition run_server (byte_count count : Z) (sk : socket) : list string * result () := serve byte_count (Z.to_nat count) sk.

(** The other end of one persistent connection. *)
Record server (W : Type) := Server {
  sv_connect : W → W * result ();                          (** [create_connection] *)
  sv_send : W → string → W * result (list string);         (** [sendall], and the pieces that arrive in answer *)
  sv_end : result ();                                      (** what follows the last piece *)
}.
Arguments sv_connect {W} _.
Arguments sv_send {W} _.
Arguments sv_end {W} _.

Record arguments := Arguments {
  ar_client : bool;
  ar_host : option string;
  ar_bytes : Z;
  ar_count : Z;
  ar_fill : Z;
}.

Section Client.
Context {W : Type} (sv : server W) (clock : nat → Z) (a : arguments).

Definition connect : P W unit := λ s,
  let '(w, r) := sv_connect sv (ps_world s) in (PState w (ps_reads s) (ps_printed s), r).

Definition sendall (sk : socket) (text : string) : P W socket := λ s,
  let '(w, r) := sv_send sv (ps_world s) text in
  (PState w (ps_reads s) (ps_printed s), pieces ← r; Ok (Socket (sk_data sk ++ pieces) (sk_end sk))).

Definition echo_record (sequence started_ns completed_ns : Z) : pydict :=
  [("sequence", PInt sequence); ("round_trip_ns", PInt (completed_ns - started_ns));
   ("started_ns", PInt started_ns); ("completed_ns", PInt completed_ns)].

(** One round; the connection goes on to the next. *)
Definition round_trip (sequence : Z) (sk : socket) : P W socket :=
  started_ns ← now_ns clock;
  sk ← sendall sk (pattern (ar_fill a) (ar_bytes a));
  echoed ← p_lift (read_exactly closed_early (ar_bytes a) sk);
  completed_ns ← now_ns clock;
  _ ← p_lift (raise_if (negb (String.eqb echoed.1 (pattern (ar_fill a) (ar_bytes a))))
        (RuntimeError "echoed TCP payload differs from the probe pattern"));
  _ ← emit (echo_record sequence started_ns completed_ns);
  mret (echoed.2 : socket).

Fixpoint round_trips (sequences : list Z) (sk : socket) : P W unit :=
  match sequences with [] => mret () | k :: rest => sk ← round_trip k sk; round_trips rest sk end.

Definition run_client : P W unit := _ ← connect; round_trips (seqZ 0 (ar_count a)) (Socket [] (sv_end sv)).

Definition check_arguments : result unit :=
  _ ← raise_if (ar_client a && match ar_host a with Some h => String.eqb h "" | None => true end)
        (SystemExit "--host is required for client mode");
  _ ← raise_if (negb ((1 <=? ar_bytes a) && (ar_bytes a <=? 65000))) (SystemExit "--bytes must be in 1..65000");
  _ ← raise_if (ar_count a <? 1) (SystemExit "--count must be positive");
  raise_if (negb ((0 <=? ar_fill a) && (ar_fill a <=? 255))) (SystemExit "--fill must be in 0..255").

(** The exit status of the client. *)
Definition client_main : P W Z := λ s,
  match check_arguments with
  | Err e => (s, Err e)
  | Ok _ =>
      match run_client s with
      | (s', Ok _) => (s', Ok 0)
      | (s', Err e) => (s', if reported e then Ok 1 else Err e)
      end
  end.

End Client.

(** What the server prints, what it sends, and its exit status: [bound] is how [bind] and [listen] end,
    [accepted] what [accept] gives within its 30 seconds. *)
Definition server_main (a : arguments) (bound : result ()) (accepted : result socket) : list string * list string * result Z :=
  let status (e : exn) : result Z := if reported e then Ok 1 else Err e in
  match check_arguments a with
  | Err e => ([], [], Err e)
  | Ok _ =>
      match bound with
      | Err e => ([], [], status e)
      | Ok _ =>
          let '(sent, r) := match accepted with Err e => ([], Err e) | Ok sk => run_server (ar_bytes a) (ar_count a) sk end in
          (["ready"], sent, match r with Ok _ => Ok 0 | Err e => status e end)
      end
  end.

(** *** Client and server *)

Lemma read_exactly_nothing closed n sk :
  incoming sk = "" → 0 < n → read_exactly closed n sk = Err (match sk_end sk with Ok _ => closed | Err e => e end).
Proof.
  intros Hin Hn. unfold read_exactly. destruct (Z.to_nat n) as [|k] eqn:E; [lia|]. cbn [read_exactly_go].
  pose proof (recv_spec (S k) sk ltac:(lia)) as Hr. destruct (recv (S k) sk) as [[part sk1]|e]; cbn [mbind result_bind].
  - destruct Hr as (Hi & _ & _ & Hempty). rewrite Hin in Hi. destruct part; [|discriminate Hi].
    destruct (Hempty eq_refl) as [_ ->]. done.
  - by destruct Hr as [_ ->].
Qed.

(** The echo of the first [k] of [count] payloads. *)
Lemma serve_payloads payload n count k sk :
  Z.of_nat (str_length payload) = n → 0 < n → incoming sk = join "" (replicate k payload) → (k ≤ count)%nat →
  (serve n count sk).1 = replicate k payload ∧ (k = count → (serve n count sk).2 = Ok ()).
Proof.
  intros Hlen Hn. revert k sk. induction count as [|count IH]; intros k sk Hin Hk; [by destruct k; [|lia]|]. cbn [serve].
  destruct k as [|k].
  - rewrite (read_exactly_nothing _ _ _ Hin Hn). done.
  - cbn [replicate] in Hin. rewrite join_nothing_cons in Hin. destruct (read_exactly_Ok closed_early n sk payload _ Hin Hlen) as (sk' & -> & Hin' & _).
    destruct (IH k sk' Hin' ltac:(lia)) as [H1 H2]. destruct (serve n count sk') as [sent r]. cbn [fst snd replicate] in *.
    rewrite H1. split; [done|]. intros [= ->]. auto.
Qed.

(** The server of this probe: what it was sent so far decides what it has sent, and what is new
    of that arrives in pieces. *)
Definition echo_server (byte_count count : Z) (cut : string → list string) : server (list string) := {|
  sv_connect := λ w, (w, Ok ());
  sv_send := λ w text,
    let sent w := (run_server byte_count count (Socket (w ≫= cut) (Err (TimeoutError "timed out")))).1 in
    (w ++ [text], Ok (drop (length (sent w)) (sent (w ++ [text])) ≫= cut));
  sv_end := Err (TimeoutError "timed out");
|}.

Section Echo.
Context (cut : string → list string) (Hcut : ∀ s, join "" (cut s) = s) (a : arguments) (Hn : 0 < ar_bytes a).

Abbreviation payload := (pattern (ar_fill a) (ar_bytes a)).

Lemma join_cut l : join "" (l ≫= cut) = join "" l.
Proof using Hcut. induction l as [|s l IH]; [done|]. rewrite bind_cons, join_app, join_nothing_cons. by rewrite Hcut, IH. Qed.

(** The records of a run from the [i]th reading of the clock on. *)
Fixpoint echo_records (clock : nat → Z) (sequences : list Z) (i : nat) : list pydict :=
  match sequences with [] => [] | k :: rest => echo_record k (clock i) (clock (S i)) :: echo_records clock rest (S (S i)) end.

Lemma server_sent count k :
  (k ≤ Z.to_nat count)%nat →
  (run_server (ar_bytes a) count (Socket (replicate k payload ≫= cut) (Err (TimeoutError "timed out")))).1 = replicate k payload.
Proof using Hcut Hn.
  intros Hk. apply serve_payloads; [apply length_pattern; lia|done| |done]. unfold incoming. cbn [sk_data]. apply join_cut.
Qed.

Lemma round_trips_Ok clock count sequences sk k i printed :
  incoming sk = "" → (k + length sequences ≤ Z.to_nat count)%nat →
  round_trips (echo_server (ar_bytes a) count cut) clock a sequences sk (PState (replicate k payload) i printed) =
    (PState (replicate (k + length sequences) payload) (2 * length sequences + i) (printed ++ (line_of <$> echo_records clock sequences i)), Ok ()).
Proof using Hcut Hn.
  revert sk k i printed. induction sequences as [|x sequences IH]; intros sk k i printed Hin Hk; cbn [round_trips].
  - cbn [length echo_records fmap list_fmap]. by rewrite app_nil_r, Nat.add_0_r.
  - cbn [length] in Hk. unfold round_trip, mbind, P_bind, now_ns, sendall, p_lift, emit.
    cbn [ps_world ps_reads ps_printed sv_send echo_server].
    assert (Hsnoc : replicate k payload ++ [payload] = replicate (S k) payload) by (by rewrite replicate_S_end).
    rewrite Hsnoc, !server_sent by lia. rewrite length_replicate.
    assert (Hnew : drop k (replicate (S k) payload) = [payload]) by (rewrite <- Hsnoc; apply drop_app_length'; by rewrite length_replicate).
    rewrite Hnew. assert (Hb : [payload] ≫= cut = cut payload) by (rewrite bind_cons; apply app_nil_r). rewrite Hb.
    cbn [mbind result_bind].
    destruct (read_exactly_Ok closed_early (ar_bytes a) (Socket (sk_data sk ++ cut payload) (sk_end sk)) payload "") as (sk' & Hsk & Hin' & He).
    { unfold incoming in *. cbn [sk_data]. by rewrite join_app, Hin, Hcut, str_app_nil_r. }
    { apply length_pattern. lia. }
    rewrite Hsk. cbn [fst snd]. rewrite String.eqb_refl. cbn [negb raise_if].
    unfold mret, P_ret. rewrite (IH sk' (S k)) by (done || lia).
    cbn [length echo_records fmap list_fmap]. rewrite <- app_assoc. do 2 f_equal; [f_equal|]; lia.
Qed.

End Echo.

(** The TCP probe agrees with its server: against a server started with the same payload size
    and at least as many rounds, and however the echoes and the payloads are cut into pieces, a
    client with accepted options ends with status 0, having sent its [count] payloads and printed
    one record for each, numbered from 0, whose round trip is the difference of two successive
    readings of its clock; and a server with the same options ends with status 0, having sent them back. *)
Theorem tcp_probe_echoed cut a clock count :
  (∀ s, join "" (cut s) = s) → check_arguments a = Ok () → ar_count a ≤ count →
  let n := Z.to_nat (ar_count a) in
  let sent := replicate n (pattern (ar_fill a) (ar_bytes a)) in
  client_main (echo_server (ar_bytes a) count cut) clock a (PState [] 0 []) =
    (PState sent (2 * n) (line_of <$> echo_records clock (seqZ 0 (ar_count a)) 0), Ok 0) ∧
  server_main a (Ok ()) (Ok (Socket (sent ≫= cut) (Ok ()))) = (["ready"], sent, Ok 0).
Proof.
  intros Hcut Hck Hcount n sent. pose proof Hck as Hck'. unfold check_arguments in Hck'. result_inv. bool_facts.
  split.
  - unfold client_main. rewrite Hck. unfold run_client, mbind, P_bind, connect. cbn [sv_connect echo_server ps_world ps_reads ps_printed].
    rewrite (round_trips_Ok cut Hcut a ltac:(lia) clock count (seqZ 0 (ar_count a)) _ 0 0 []); [|done|rewrite length_seqZ; lia].
    rewrite length_seqZ. cbn [Nat.add app]. by rewrite Nat.add_0_r.
  - unfold server_main. rewrite Hck. unfold run_server. destruct (serve_payloads (pattern (ar_fill a) (ar_bytes a)) (ar_bytes a) n n (Socket (sent ≫= cut) (Ok ()))) as [Hs Hd];
      [apply length_pattern; lia|lia|unfold incoming; cbn [sk_data]; by apply join_cut|lia|].
    specialize (Hd eq_refl). subst n. destruct (serve _ _ _). cbn [fst snd] in *. by subst.
Qed.

Definition demo_client : arguments := Arguments true (Some "transport-1") 4 2 90.

Lemma tcp_probe_echoed_witness :
  client_main (echo_server 4 2 bytewise) Z.of_nat demo_client (PState [] 0 []) =
    (PState ["ZZZZ"; "ZZZZ"] 4 (line_of <$> [echo_record 0 0 1; echo_record 1 2 3]), Ok 0) ∧
  server_main demo_client (Ok ()) (Ok (Socket (["ZZZZ"; "ZZZZ"] ≫= bytewise) (Ok ()))) = (["ready"], ["ZZZZ"; "ZZZZ"], Ok 0).
Proof.
  destruct (tcp_probe_echoed bytewise demo_client Z.of_nat 2 join_bytewise eq_refl ltac:(cbn; lia)) as [H1 H2].
  split; [exact H1|exact H2].
Defined.

End Tcp.
