(* ===== verification/Latency.v ===== *)
(** * Summaries of the latency probes

    Model of [src/scripts/summarize_pipecomm_latency_probe.py] and, in Module [TcpSummary], of
    [src/scripts/summarize_tcp_latency_probe.py]: the completed records of a log, the pairing of
    writer and reader records, the order statistics, and the summary file.  [json.loads] is an
    argument and floats are the interface of [Csv].  Sequence numbers and times are the integers
    the probes print: a float in their place, which Python would carry on with, is a [TypeError]
    here.  What [main] prints is its result. *)

From S2P Require Import Prelude PyValue Worker Host Csv Probes.

Section Summary.
Context {F : Type} `{!Floats F} (json_loads : string → result pyval).

(** ** Records *)

Abbreviation samples := (gmap Z pydict).

(** One line of [records]; a line that is no JSON is skipped. *)
Definition take_record (path expected_event : string) (acc : samples) (line : string) : result samples :=
  match json_loads line with
  | Err _ => Ok acc
  | Ok value =>
      record ← is_dict value ?! AttributeError;
      if negb (eq_str (dict_get_default "event" PNone record) expected_event) then Ok acc
      else
        sequence ← is_int (dict_get_default "sequence" PNone record) ?!
          ValueError (path +:+ ": completed record has no integer sequence");
        Ok (<[sequence := record]> acc)
  end.

Definition records (path expected_event text : string) : result samples :=
  fold_result (take_record path expected_event) ∅ (splitlines text).

(** ** Order statistics *)

(** The index of the 95th percentile among [n] ordered samples. *)
Definition p95_index (n : Z) : Z := Z.max 0 ((95 * n + 99) / 100 - 1).

Definition p95_sample (ordered : list Z) : result Z := ordered !! Z.to_nat (p95_index (zlen ordered)) ?! IndexError.

(** [x / 1_000_000] for an integer *)
Definition in_ms (ns : Z) : result F := f_ratio ns 1000000.

(** [statistics.median(ordered) / 1_000_000]: the median of an odd number of integers is one of them. *)
Definition median_ms (ordered : list Z) : result F :=
  let n := length ordered in
  if Nat.odd n then m ← ordered !! Nat.div2 n ?! IndexError; in_ms m
  else
    low ← ordered !! (Nat.div2 n - 1)%nat ?! ValueError "no median for empty data";
    high ← ordered !! Nat.div2 n ?! ValueError "no median for empty data";
    m ← f_ratio (low + high) 2; f_div m (f_of_Z 1000000).

Definition mean_ms (ordered : list Z) : result F :=
  mean ← f_div (f_of_Z (zsum ordered)) (f_of_Z (zlen ordered)); f_div mean (f_of_Z 1000000).

(** The five figures of ordered samples. *)
Definition figures (ordered : list Z) : result pydict :=
  lo ← head ordered ?! IndexError; min_ms ← in_ms lo;
  median ← median_ms ordered;
  mean ← mean_ms ordered;
  p95 ← p95_sample ordered; p95_ms ← in_ms p95;
  hi ← last ordered ?! IndexError; max_ms ← in_ms hi;
  Ok [("min_ms", f_value min_ms); ("median_ms", f_value median); ("mean_ms", f_value mean);
      ("p95_ms", f_value p95_ms); ("max_ms", f_value max_ms)].

Definition percentiles (values : list Z) : result pydict :=
  _ ← raise_if (zlen values =? 0) (ValueError "no samples");
  figures (py_sorted Z.leb values).

(** ** The summary *)

Definition time_of (k : string) (record : pydict) : result Z :=
  v ← dict_item k record; is_int v ?! TypeError.

Definition record_at (m : samples) (index : Z) : result pydict := m !! index ?! KeyError (str_of_Z index).

Definition delivery_of (reader writer : samples) (index : Z) : result Z :=
  r ← record_at reader index; completed ← time_of "completed_ns" r;
  w ← record_at writer index; issued ← time_of "request_issued_ns" w;
  Ok (completed - issued).

Definition field_at (m : samples) (k : string) (index : Z) : result Z := r ← record_at m index; time_of k r.

Definition common (reader writer : samples) : list Z := py_sorted Z.leb (elements (dom reader ∩ dom writer)).

Definition definitions : pydict :=
  [("delivery_ms", PStr "writer request submitted to reader payload available");
   ("router_write_service_ms", PStr "writer submission to local router acknowledgement");
   ("router_read_wait_ms", PStr "reader request submitted to router response")].

Definition summarize (reader writer : samples) : result pydict :=
  let pairs := common reader writer in
  _ ← raise_if (zlen pairs =? 0) (ValueError "no completed reader/writer sequence pairs");
  delivery ← mapM (delivery_of reader writer) pairs;
  _ ← raise_if (existsb (λ d, d <? 0) delivery)
        (ValueError "container monotonic clocks are not comparable in this environment");
  write_service ← mapM (field_at writer "router_write_service_ns") pairs;
  read_wait ← mapM (field_at reader "router_read_wait_ns") pairs;
  d ← percentiles delivery; w ← percentiles write_service; r ← percentiles read_wait;
  Ok [("samples", PInt (zlen pairs)); ("definition", PDict definitions);
      ("delivery", PDict d); ("router_write_service", PDict w); ("router_read_wait", PDict r)].

(** The file written, and the text printed. *)
Definition main (reader_path writer_path output : string) : H string :=
  reader_text ← h_read reader_path;
  reader ← h_lift (records reader_path "reader_completed" reader_text);
  writer_text ← h_read writer_path;
  writer ← h_lift (records writer_path "writer_completed" writer_text);
  summary ← h_lift (summarize reader writer);
  _ ← h_write output (json_indent 0 (PDict summary) +:+ nl);
  mret (json_indent 0 (PDict summary)).

End Summary.

(** ** The TCP probe *)

Module TcpSummary.
Section TcpSummary.
Context {F : Type} `{!Floats F} (json_loads : string → result pyval).

Definition take_sample (acc : list Z) (line : string) : result (list Z) :=
  match json_loads line with
  | Err _ => Ok acc
  | Ok value =>
      record ← is_dict value ?! AttributeError;
      Ok match is_int (dict_get_default "round_trip_ns" PNone record) with Some v => acc ++ [v] | None => acc end
  end.

Definition samples_of (text : string) : result (list Z) := fold_result take_sample [] (splitlines text).

Definition summarize (samples : list Z) : result pydict :=
  _ ← raise_if (zlen samples =? 0) (ValueError "no TCP round-trip records");
  round_trip ← figures (F:=F) (py_sorted Z.leb samples);
  Ok [("samples", PInt (zlen samples));
      ("definition", PStr "raw TCP echo round trip between the two transport services");
      ("round_trip", PDict round_trip)].

Definition main (input output : string) : H string :=
  text ← h_read input;
  samples ← h_lift (samples_of text);
  summary ← h_lift (summarize samples);
  _ ← h_write output (json_indent 0 (PDict summary) +:+ nl);
  mret (json_indent 0 (PDict summary)).

End TcpSummary.
End TcpSummary.

(** ** Ranks *)

Lemma p95_index_range n : 0 < n → 0 ≤ p95_index n < n ∧ 95 * n ≤ 100 * (p95_index n + 1) ∧ 100 * p95_index n < 95 * n.
Proof. intros Hn. unfold p95_index. pose proof (Z.div_mod (95 * n + 99) 100 ltac:(lia)). pose proof (Z.mod_pos_bound (95 * n + 99) 100 ltac:(lia)). lia. Qed.

Lemma leb_ordered l : ordered Z.leb (py_sorted Z.leb l).
Proof. apply py_sorted_ordered; intros; rewrite ?Z.leb_le in *; lia. Qed.

Lemma count_bound {A} (p : A → bool) l : count p l ≤ zlen l.
Proof. rewrite <- (count_all (λ _, true) l) by done. by apply count_impl. Qed.

(** In ordered samples, the one at index [i] has at least [i + 1] samples up to it and at most [i] below it. *)
Lemma ordered_rank l i x :
  ordered Z.leb l → l !! i = Some x →
  Z.of_nat i + 1 ≤ count (λ v, v <=? x) l ∧ count (λ v, v <? x) l ≤ Z.of_nat i.
Proof.
  intros Ho Hx. pose proof (lookup_lt_Some _ _ _ Hx) as Hi. rewrite <- (take_drop_middle l i x Hx), !count_app, !count_cons.
  rewrite Z.leb_refl, Z.ltb_irrefl.
  assert (Hlow : ∀ v, v ∈ take i l → v ≤ x).
  { intros v [j [Hj Hlt]%lookup_take_Some]%list_elem_of_lookup. apply Z.leb_le. by apply (Ho j i). }
  assert (Hhigh : ∀ v, v ∈ drop (S i) l → x ≤ v).
  { intros v [j Hj]%list_elem_of_lookup. rewrite lookup_drop in Hj. apply Z.leb_le. apply (Ho i (S i + j)%nat); [lia|done..]. }
  rewrite (count_all _ (take i l)), (count_none (λ v, v <? x) (drop (S i) l)).
  - pose proof (count_nonneg (λ v, v <=? x) (drop (S i) l)). pose proof (count_bound (λ v, v <? x) (take i l)).
    unfold zlen in *. rewrite length_take in *. lia.
  - intros v Hv. apply Z.ltb_ge. auto.
  - intros v Hv. apply Z.leb_le. auto.
Qed.

(** The 95th percentile is the nearest rank: at least 95% of the samples are up to it, and
    fewer than 95% below it. *)
Definition nearest_rank (p95 : Z) (values : list Z) : Prop :=
  p95 ∈ values ∧ 95 * zlen values ≤ 100 * count (λ v, v <=? p95) values ∧ 100 * count (λ v, v <? p95) values < 95 * zlen values.

Lemma p95_sample_rank values :
  values ≠ [] → ∃ p95, p95_sample (py_sorted Z.leb values) = Ok p95 ∧ nearest_rank p95 values.
Proof.
  intros Hne. pose proof (py_sorted_perm Z.leb values) as Hp. pose proof (leb_ordered values) as Ho.
  assert (Hlen : zlen (py_sorted Z.leb values) = zlen values) by (unfold zlen; by rewrite Hp).
  assert (0 < zlen values) by (destruct values; [done|unfold zlen; cbn [length]; lia]).
  destruct (p95_index_range (zlen values) ltac:(lia)) as (Hr & Hlo & Hhi).
  unfold p95_sample. rewrite Hlen.
  destruct (lookup_lt_is_Some_2 (py_sorted Z.leb values) (Z.to_nat (p95_index (zlen values)))) as [x Hx]; [unfold zlen in *; lia|].
  exists x. rewrite Hx. split; [done|]. destruct (ordered_rank _ _ _ Ho Hx) as [H1 H2]. split.
  - rewrite <- Hp. by eapply list_elem_of_lookup_2.
  - rewrite Hp in H1, H2. rewrite Z2Nat.id in H1, H2 by lia. lia.
Qed.

Lemma ordered_head_last l lo hi v :
  ordered Z.leb l → head l = Some lo → last l = Some hi → v ∈ l → lo ≤ v ≤ hi.
Proof.
  intros Ho Hlo Hhi [i Hi]%list_elem_of_lookup. rewrite head_lookup in Hlo. rewrite last_lookup in Hhi.
  pose proof (lookup_lt_Some _ _ _ Hi). split; apply Z.leb_le.
  - destruct i; [replace v with lo by congruence; apply Z.leb_refl|]. by apply (Ho 0%nat (S i)); [lia|..].
  - destruct (decide (i = pred (length l))) as [->|]; [replace v with hi by congruence; apply Z.leb_refl|].
    by apply (Ho i (pred (length l))); [lia|..].
Qed.

Lemma sorted_ends values :
  values ≠ [] → ∃ lo hi, head (py_sorted Z.leb values) = Some lo ∧ last (py_sorted Z.leb values) = Some hi ∧
    lo ∈ values ∧ hi ∈ values ∧ ∀ v, v ∈ values → lo ≤ v ≤ hi.
Proof.
  intros Hne. pose proof (py_sorted_perm Z.leb values) as Hp. pose proof (leb_ordered values) as Ho.
  destruct (py_sorted Z.leb values) as [|lo r] eqn:E; [by apply Permutation_nil_l in Hp|].
  destruct (last (lo :: r)) as [hi|] eqn:Eh; [|by apply last_None in Eh].
  exists lo, hi. split; [done|split; [done|]]. split; [rewrite <- Hp; left|split].
  - rewrite <- Hp. apply last_Some in Eh as [l' ->]. set_solver.
  - intros v Hv. rewrite <- Hp in Hv. by apply (ordered_head_last (lo :: r)).
Qed.

Lemma ordered_unique {A} (leb : A → A → bool) l1 l2 :
  (∀ x y, leb x y = true → leb y x = true → x = y) → ordered leb l1 → ordered leb l2 → l1 ≡ₚ l2 → l1 = l2.
Proof.
  intros Hanti. revert l2. induction l1 as [|x l1 IH]; intros l2 Ho1 Ho2 Hp; [by apply Permutation_nil_l in Hp|].
  destruct l2 as [|y l2]; [by apply Permutation_nil_r in Hp|].
  apply ordered_cons in Ho1 as [Hx Ho1]. apply ordered_cons in Ho2 as [Hy Ho2].
  assert (x = y) as <-.
  { assert (x ∈ y :: l2) as [->|Hxl]%elem_of_cons by (rewrite <- Hp; left); [done|].
    assert (y ∈ x :: l1) as [->|Hyl]%elem_of_cons by (rewrite Hp; left); auto. }
  f_equal. apply IH; [done..|]. by apply Permutation_cons_inv in Hp.
Qed.

Lemma leb_unique l1 l2 : ordered Z.leb l1 → l1 ≡ₚ l2 → ordered Z.leb l2 → l1 = l2.
Proof. intros. apply (ordered_unique Z.leb); [|done..]. intros x y. rewrite !Z.leb_le. lia. Qed.

#[export] Instance sorted_perm_proper : Proper ((≡ₚ) ==> (=)) (py_sorted Z.leb).
Proof. intros l1 l2 Hl. apply leb_unique; [apply leb_ordered| |apply leb_ordered]. by rewrite !py_sorted_perm. Qed.

Lemma seqZ_ordered s n : ordered Z.leb (seqZ s n).
Proof. intros i j x y Hij [-> _]%lookup_seqZ [-> _]%lookup_seqZ. apply Z.leb_le. lia. Qed.

(** The figures of a summary are the order statistics they are named after, whatever order the
    samples arrived in: without samples there are none; otherwise the minimum and the maximum
    are samples that bound every sample, the mean is taken over all of them, and the 95th
    percentile is the nearest rank, a sample that at least 95% of the samples do not exceed and
    fewer than 95% fall below. *)
Theorem percentiles_ranked {F} `{!Floats F} values :
  (values = [] → percentiles (F:=F) values = Err (ValueError "no samples")) ∧
  (∀ values', values' ≡ₚ values → percentiles (F:=F) values' = percentiles values) ∧
  (values ≠ [] → ∃ lo p95 hi,
     lo ∈ values ∧ hi ∈ values ∧ (∀ v, v ∈ values → lo ≤ v ≤ hi) ∧ nearest_rank p95 values ∧
     percentiles (F:=F) values =
       (min_ms ← in_ms lo; median ← median_ms (py_sorted Z.leb values); mean ← mean_ms values;
        p95_ms ← in_ms p95; max_ms ← in_ms hi;
        Ok [("min_ms", f_value min_ms); ("median_ms", f_value median); ("mean_ms", f_value mean);
            ("p95_ms", f_value p95_ms); ("max_ms", f_value max_ms)])).
Proof.
  split; [by intros ->|split].
  - intros values' Hp. unfold percentiles, zlen. by rewrite (Permutation_length Hp), (sorted_perm_proper _ _ Hp).
  - intros Hne. destruct (sorted_ends values Hne) as (lo & hi & Hlo & Hhi & Hilo & Hihi & Hb).
    destruct (p95_sample_rank values Hne) as (p95 & Hp95 & Hrank). exists lo, p95, hi. do 4 (split; [done|]).
    unfold percentiles. assert ((zlen values =? 0) = false) as -> by (destruct values; [done|]; apply Z.eqb_neq; unfold zlen; cbn [length]; lia).
    unfold figures. rewrite Hlo, Hhi, Hp95. cbn [raise_if mbind result_bind].
    assert (mean_ms (F:=F) (py_sorted Z.leb values) = mean_ms values) as -> by (unfold mean_ms, zlen; by rewrite py_sorted_perm).
    done.
Qed.

Lemma percentiles_ranked_witness :
  percentiles [7000000; 3000000; 5000000] = Ok [("min_ms", PInt 3); ("median_ms", PInt 5); ("mean_ms", PInt 5); ("p95_ms", PInt 7); ("max_ms", PInt 7)] ∧
  ∃ p95, nearest_rank p95 [7000000; 3000000; 5000000].
Proof.
  destruct (percentiles_ranked (F:=Z) [7000000; 3000000; 5000000]) as (_ & _ & H).
  destruct (H ltac:(discriminate)) as (lo & p95 & hi & _ & _ & _ & Hr & _). split; [vm_compute; reflexivity|exists p95; exact Hr].
Defined.

(** ** From the probes to the summary *)

Section FromProbes.
Context (json_loads : string → result pyval).

(** The log of a run holds its printed records, and the JSON reader reads each back. *)
Definition logged (text : string) (printed : list pydict) : Prop :=
  splitlines text = (line_of <$> printed) ∧
  ∀ record, record ∈ printed → json_loads (line_of record) = Ok (PDict (sorted_keys record)).

(** The records kept of a run: the last one of each operation. *)
Fixpoint kept (last_record : Z → nat → pydict) (sequences : list Z) (i : nat) (acc : gmap Z pydict) : gmap Z pydict :=
  match sequences with
  | [] => acc
  | k :: rest => kept last_record rest (S (S (S i))) (<[k := sorted_keys (last_record k i)]> acc)
  end.

Lemma kept_lookup last_record n s i acc k :
  kept last_record (seqZ s (Z.of_nat n)) i acc !! k =
    if (s <=? k) && (k <? s + Z.of_nat n) then Some (sorted_keys (last_record k (i + 3 * Z.to_nat (k - s))%nat)) else acc !! k.
Proof.
  revert s i acc. induction n as [|n IH]; intros s i acc.
  - cbn [seqZ kept]. change (seqZ s (Z.of_nat 0)) with (@nil Z). cbn [kept].
    replace ((s <=? k) && (k <? s + Z.of_nat 0)) with false; [done|]. symmetry. apply andb_false_iff. rewrite Z.leb_gt, Z.ltb_ge. lia.
  - rewrite seqZ_cons by lia. replace (Z.pred (Z.of_nat (S n))) with (Z.of_nat n) by lia. cbn [kept]. rewrite IH.
    destruct (decide (k = s)) as [->|Hk].
    + replace (Z.succ s <=? s) with false by (symmetry; apply Z.leb_gt; lia). cbn [andb].
      rewrite lookup_insert_eq, Z.leb_refl. replace (s <? s + Z.of_nat (S n)) with true by (symmetry; apply Z.ltb_lt; lia).
      cbn [andb]. by rewrite Z.sub_diag, Nat.add_0_r.
    + rewrite lookup_insert_ne by done.
      replace ((s <=? k) && (k <? s + Z.of_nat (S n))) with ((Z.succ s <=? k) && (k <? Z.succ s + Z.of_nat n))
        by (apply eq_true_iff_eq; rewrite !andb_true_iff, !Z.leb_le, !Z.ltb_lt; lia).
      destruct (_ && _) eqn:E; [|done]. apply andb_true_iff in E as [E1%Z.leb_le E2%Z.ltb_lt]. do 3 f_equal. lia.
Qed.

Lemma read_records path event (printed : Z → nat → list pydict) last_record sequences i acc :
  (∀ record, record ∈ run_records printed sequences i → json_loads (line_of record) = Ok (PDict (sorted_keys record))) →
  (∀ k j acc, (∀ record, record ∈ printed k j → json_loads (line_of record) = Ok (PDict (sorted_keys record))) →
     fold_result (take_record json_loads path event) acc (line_of <$> printed k j) = Ok (<[k := sorted_keys (last_record k j)]> acc)) →
  fold_result (take_record json_loads path event) acc (line_of <$> run_records printed sequences i) = Ok (kept last_record sequences i acc).
Proof using Type.
  intros Hj Hstep. revert i acc Hj. induction sequences as [|k sequences IH]; intros i acc Hj; [done|].
  cbn [run_records kept] in *. rewrite fmap_app, fold_result_app, Hstep by (intros; apply Hj; set_solver). cbn [mbind result_bind].
  apply IH. intros. apply Hj. set_solver.
Qed.

Lemma writer_records path text clock count :
  logged text (run_records (λ k i, [written clock k i]) (seqZ 0 count) 0) →
  records json_loads path "writer_completed" text = Ok (kept (written clock) (seqZ 0 count) 0 ∅).
Proof using Type.
  intros [Hl Hj]. unfold records. rewrite Hl. apply read_records; [done|]. intros k j acc Hk.
  cbn [fmap list_fmap fold_result]. unfold take_record. rewrite Hk by set_solver. done.
Qed.

Lemma reader_records path text clock count :
  logged text (run_records (received clock) (seqZ 0 count) 0) →
  records json_loads path "reader_completed" text =
    Ok (kept (λ k i, completed_record "reader_completed" "router_read_wait_ns" k (clock i) (clock (S i)) (clock (S (S i)))) (seqZ 0 count) 0 ∅).
Proof using Type.
  intros [Hl Hj]. unfold records. rewrite Hl. apply read_records; [done|]. intros k j acc Hk.
  unfold received. cbn [fmap list_fmap fold_result]. unfold take_record at 1. rewrite Hk by (unfold received; set_solver).
  cbn [is_dict from_option]. unfold take_record. rewrite Hk by (unfold received; set_solver). done.
Qed.

End FromProbes.

(** The readings of a clock by the operation [k], each of three. *)
Definition reading (clock : nat → Z) (j : nat) (k : Z) : Z := clock (3 * Z.to_nat k + j)%nat.

Lemma kept_common last1 last2 count :
  0 ≤ count → common (kept last1 (seqZ 0 count) 0 ∅) (kept last2 (seqZ 0 count) 0 ∅) = seqZ 0 count.
Proof.
  intros Hc. unfold common. apply leb_unique; [apply leb_ordered| |apply seqZ_ordered]. rewrite py_sorted_perm.
  apply NoDup_Permutation; [apply NoDup_elements|apply NoDup_seqZ|]. intros k.
  rewrite elem_of_elements, elem_of_intersection, !elem_of_dom, elem_of_seqZ.
  pose proof (kept_lookup last1 (Z.to_nat count) 0 0 ∅ k) as H1. pose proof (kept_lookup last2 (Z.to_nat count) 0 0 ∅ k) as H2.
  rewrite Z2Nat.id in H1, H2 by lia. rewrite H1, H2, lookup_empty.
  destruct ((0 <=? k) && (k <? 0 + count)) eqn:E.
  - apply andb_true_iff in E as [?%Z.leb_le ?%Z.ltb_lt]. split; [lia|eauto].
  - apply andb_false_iff in E. rewrite Z.leb_gt, Z.ltb_ge in E. split; [intros [[? [=]] _]|lia].
Qed.

Lemma kept_at last_record count k :
  k ∈ seqZ 0 count → record_at (kept last_record (seqZ 0 count) 0 ∅) k = Ok (sorted_keys (last_record k (3 * Z.to_nat k)%nat)).
Proof.
  intros [H0 H1]%elem_of_seqZ. unfold record_at. pose proof (kept_lookup last_record (Z.to_nat count) 0 0 ∅ k) as H.
  rewrite Z2Nat.id in H by lia. rewrite H.
  replace ((0 <=? k) && (k <? 0 + count)) with true by (symmetry; apply andb_true_iff; rewrite Z.leb_le, Z.ltb_lt; lia).
  by rewrite Z.sub_0_r.
Qed.

Section Paired.
Context {F : Type} `{!Floats F} (clock1 clock2 : nat → Z) (count : Z).

(** The samples of the pairs [0 .. count - 1]. *)
Definition deliveries : list Z := (λ k, reading clock2 2 k - reading clock1 1 k) <$> seqZ 0 count.
Definition write_services : list Z := (λ k, reading clock1 2 k - reading clock1 1 k) <$> seqZ 0 count.
Definition read_waits : list Z := (λ k, reading clock2 2 k - reading clock2 1 k) <$> seqZ 0 count.

Definition paired_summary : result pydict :=
  _ ← raise_if (existsb (λ d, d <? 0) deliveries)
        (ValueError "container monotonic clocks are not comparable in this environment");
  d ← percentiles (F:=F) deliveries; w ← percentiles (F:=F) write_services; r ← percentiles (F:=F) read_waits;
  Ok [("samples", PInt count); ("definition", PDict definitions);
      ("delivery", PDict d); ("router_write_service", PDict w); ("router_read_wait", PDict r)].

Lemma summarize_paired :
  1 ≤ count →
  summarize (F:=F)
    (kept (λ k i, completed_record "reader_completed" "router_read_wait_ns" k (clock2 i) (clock2 (S i)) (clock2 (S (S i)))) (seqZ 0 count) 0 ∅)
    (kept (written clock1) (seqZ 0 count) 0 ∅) = paired_summary.
Proof using Type.
  intros Hc. unfold summarize. rewrite kept_common by lia.
  assert (zlen (seqZ 0 count) = count) as -> by (unfold zlen; rewrite length_seqZ; lia).
  replace (count =? 0) with false by (symmetry; apply Z.eqb_neq; lia). cbn [raise_if mbind result_bind].
  assert (Hat : ∀ (clock : nat → Z) j k, (clock (j + 3 * Z.to_nat k)%nat) = reading clock j k) by (intros; unfold reading; f_equal; lia).
  unfold paired_summary, deliveries, write_services, read_waits.
  rewrite (mapM_result_pure (delivery_of _ _) (λ k, reading clock2 2 k - reading clock1 1 k)).
  2:{ intros k Hk. unfold delivery_of. rewrite !kept_at by done. cbn [mbind result_bind]. by rewrite <- !Hat. }
  rewrite (mapM_result_pure (field_at _ "router_write_service_ns") (λ k, reading clock1 2 k - reading clock1 1 k)).
  2:{ intros k Hk. unfold field_at. rewrite !kept_at by done. cbn [mbind result_bind]. by rewrite <- !Hat. }
  rewrite (mapM_result_pure (field_at _ "router_read_wait_ns") (λ k, reading clock2 2 k - reading clock2 1 k)).
  2:{ intros k Hk. unfold field_at. rewrite !kept_at by done. cbn [mbind result_bind]. by rewrite <- !Hat. }
  done.
Qed.

End Paired.

(** The summary measures what the probes printed.  From the logs of a writer and a reader run
    of [count] operations each, [main] pairs the operations by number and writes the file with
    exactly [count] samples: a delivery is the reader's third reading of its clock less the
    writer's second for the same operation, a write service and a read wait the third less the
    second of one probe; and it refuses clocks that show a delivery before its request. *)
Theorem probes_summarised {F} `{!Floats F} json_loads clock1 clock2 count rp wp output rtext wtext h :
  1 ≤ count →
  h_files h !! rp = Some rtext → h_files h !! wp = Some wtext →
  logged json_loads rtext (run_records (received clock2) (seqZ 0 count) 0) →
  logged json_loads wtext (run_records (λ k i, [written clock1 k i]) (seqZ 0 count) 0) →
  main (F:=F) json_loads rp wp output h =
    (summary ← h_lift (paired_summary (F:=F) clock1 clock2 count);
     _ ← h_write output (json_indent 0 (PDict summary) +:+ nl);
     mret (json_indent 0 (PDict summary))) h.
Proof.
  intros Hc Hr Hw Hlr Hlw. unfold main, mbind, H_bind, h_read, h_lift. rewrite Hr, Hw. cbn [of_option].
  rewrite (reader_records _ _ _ _ _ Hlr), (writer_records _ _ _ _ _ Hlw).
  by rewrite summarize_paired.
Qed.

(** A reader of exactly the lines of some records, for examples. *)
Definition reads_back (printed : list pydict) (text : string) : result pyval :=
  match list_find (λ record, line_of record = text) printed with
  | Some (_, record) => Ok (PDict (sorted_keys record))
  | None => Err (ValueError "Expecting value")
  end.

Definition log_of (printed : list pydict) : string := join "" ((λ record, line_of record +:+ nl) <$> printed).

Definition demo_written : list pydict := run_records (λ k i, [written Z.of_nat k i]) (seqZ 0 2) 0.
Definition demo_received : list pydict := run_records (received (λ i, Z.of_nat i * 5)) (seqZ 0 2) 0.

Lemma probes_summarised_witness :
  ∃ h, main (F:=Z) (reads_back (demo_written ++ demo_received)) "r.log" "w.log" "data/out.json"
         (Host (Filesystem {["data"]} {["r.log" := log_of demo_received; "w.log" := log_of demo_written]}) [] 0) =
       (h, Ok (json_indent 0 (PDict
         [("samples", PInt 2); ("definition", PDict definitions);
          ("delivery", PDict [("min_ms", PInt 0); ("median_ms", PInt 0); ("mean_ms", PInt 0); ("p95_ms", PInt 0); ("max_ms", PInt 0)]);
          ("router_write_service", PDict [("min_ms", PInt 0); ("median_ms", PInt 0); ("mean_ms", PInt 0); ("p95_ms", PInt 0); ("max_ms", PInt 0)]);
          ("router_read_wait", PDict [("min_ms", PInt 0); ("median_ms", PInt 0); ("mean_ms", PInt 0); ("p95_ms", PInt 0); ("max_ms", PInt 0)])]))).
Proof.
  rewrite (probes_summarised (reads_back (demo_written ++ demo_received)) Z.of_nat (λ i, Z.of_nat i * 5) 2 _ _ _ (log_of demo_received) (log_of demo_written)).
  - eexists. vm_compute. reflexivity.
  - lia.
  - reflexivity.
  - reflexivity.
  - split; [vm_compute; reflexivity|]. intros record Hrecord. repeat (apply elem_of_cons in Hrecord as [->|Hrecord]; [vm_compute; reflexivity|]).
    by apply elem_of_nil in Hrecord.
  - split; [vm_compute; reflexivity|]. intros record Hrecord. repeat (apply elem_of_cons in Hrecord as [->|Hrecord]; [vm_compute; reflexivity|]).
    by apply elem_of_nil in Hrecord.
Defined.

(** The round trips of [count] records: the differences of successive pairs of readings. *)
Definition round_trips (clock : nat → Z) (count : Z) : list Z :=
  (λ k, clock (2 * Z.to_nat k + 1)%nat - clock (2 * Z.to_nat k)%nat) <$> seqZ 0 count.

Lemma tcp_samples json_loads clock n s i acc :
  (∀ record, record ∈ Tcp.echo_records clock (seqZ s (Z.of_nat n)) i → json_loads (line_of record) = Ok (PDict (sorted_keys record))) →
  fold_result (TcpSummary.take_sample json_loads) acc (line_of <$> Tcp.echo_records clock (seqZ s (Z.of_nat n)) i) =
    Ok (acc ++ ((λ k, clock (i + 2 * Z.to_nat (k - s) + 1)%nat - clock (i + 2 * Z.to_nat (k - s))%nat) <$> seqZ s (Z.of_nat n))).
Proof.
  revert s i acc. induction n as [|n IH]; intros s i acc Hj.
  - change (seqZ s (Z.of_nat 0)) with (@nil Z). cbn. by rewrite app_nil_r.
  - rewrite seqZ_cons in * by lia. replace (Z.pred (Z.of_nat (S n))) with (Z.of_nat n) in * by lia.
    cbn [Tcp.echo_records] in *. rewrite !fmap_cons. cbn [fold_result]. unfold TcpSummary.take_sample at 1.
    rewrite Hj by set_solver. cbn [is_dict of_option mbind result_bind].
    change (is_int (dict_get_default "round_trip_ns" PNone (sorted_keys (Tcp.echo_record s (clock i) (clock (S i))))))
      with (Some (clock (S i) - clock i)). cbv iota. rewrite IH by set_solver. f_equal. rewrite <- app_assoc. f_equal.
    cbn [app]. f_equal; [repeat f_equal; lia|]. apply list_fmap_ext. intros j k [-> _]%lookup_seqZ. f_equal; f_equal; lia.
Qed.

(** From the log of a TCP client's run, [main] writes the figures of its round trips. *)
Theorem tcp_probe_summarised {F} `{!Floats F} json_loads clock count input output text h :
  0 ≤ count → h_files h !! input = Some text →
  logged json_loads text (Tcp.echo_records clock (seqZ 0 count) 0) →
  TcpSummary.main (F:=F) json_loads input output h =
    (summary ← h_lift (TcpSummary.summarize (F:=F) (round_trips clock count));
     _ ← h_write output (json_indent 0 (PDict summary) +:+ nl);
     mret (json_indent 0 (PDict summary))) h.
Proof.
  intros Hc Ht [Hl Hj]. unfold TcpSummary.main, mbind, H_bind, h_read, h_lift. rewrite Ht. cbn [of_option].
  unfold TcpSummary.samples_of. rewrite Hl. pose proof (tcp_samples json_loads clock (Z.to_nat count) 0 0 []) as H.
  rewrite Z2Nat.id in H by lia. rewrite (H Hj). cbn [app].
  replace ((λ k, _) <$> seqZ 0 count) with (round_trips clock count); [done|].
  unfold round_trips. apply list_fmap_ext. intros j k _. by rewrite Z.sub_0_r.
Qed.

Lemma tcp_probe_summarised_witness :
  ∃ h, TcpSummary.main (F:=Z) (reads_back (Tcp.echo_records Z.of_nat (seqZ 0 2) 0)) "t.log" "data/out.json"
         (Host (Filesystem {["data"]} {["t.log" := log_of (Tcp.echo_records Z.of_nat (seqZ 0 2) 0)]}) [] 0) =
       (h, Ok (json_indent 0 (PDict
         [("samples", PInt 2); ("definition", PStr "raw TCP echo round trip between the two transport services");
          ("round_trip", PDict [("min_ms", PInt 0); ("median_ms", PInt 0); ("mean_ms", PInt 0); ("p95_ms", PInt 0); ("max_ms", PInt 0)])]))).
Proof.
  rewrite (tcp_probe_summarised (reads_back (Tcp.echo_records Z.of_nat (seqZ 0 2) 0)) Z.of_nat 2 _ _ (log_of (Tcp.echo_records Z.of_nat (seqZ 0 2) 0))).
  - eexists. vm_compute. reflexivity.
  - lia.
  - reflexivity.
  - split; [vm_compute; reflexivity|]. intros record Hrecord. repeat (apply elem_of_cons in Hrecord as [->|Hrecord]; [vm_compute; reflexivity|]).
    by apply elem_of_nil in Hrecord.
Defined.
