(* ===== verification/Summaries.v ===== *)
(** * Summaries of run directories

    Models of the scripts that turn the artifacts of finished runs into tables: the totals of the
    router metrics (Section [Totals]), [src/scripts/summarize_functional_metrics.py] (Module
    [FunctionalMetrics]), [src/scripts/summarize_native_matrix.py] (Module [NativeMatrix]) and
    [src/scripts/collect_steady_matrix.py] (Module [SteadyMatrix]).  The order in which a directory
    lists its files is an argument; what a script prints is its result. *)

From S2P Require Import Prelude PyValue Csv Worker Proxy Feedback Host Swarm Remote MlpDpMatrix Probes Scalability.

(** ** Tables *)

(** How [csv] writes a value *)
Definition cell (v : pyval) : string := match v with PNone => "" | v => py_str v end.

(** One row of a [csv.DictWriter]: fields the row does not have are empty, others are refused. *)
Definition dict_row (fieldnames : list string) (row : pydict) : result (list string) :=
  _ ← raise_if (existsb (λ kv, negb (existsb (String.eqb kv.1) fieldnames)) row)
        (ValueError "dict contains fields not in fieldnames");
  Ok ((λ k, cell (dict_get_default k (PStr "") row)) <$> fieldnames).

(** [writer.writeheader(); writer.writerows(rows)] *)
Definition dict_table (fieldnames : list string) (rows : list pydict) : result string :=
  lines ← mapM (dict_row fieldnames) rows; Ok (write_rows (fieldnames :: lines)).

(** [[x for x in l if p(x)]] *)
Fixpoint select {A} (p : A → result bool) (l : list A) : result (list A) :=
  match l with
  | [] => Ok []
  | x :: l => b ← p x; rest ← select p l; Ok (if b : bool then x :: rest else rest)
  end.

(** [float(row[k])] *)
Definition float_item {F} `{!Floats F} (k : string) (row : pydict) : result F := v ← dict_item k row; f_of_value v.

(** The paths matched by a [glob] of [directory] for a prefix, anything and a suffix *)
Definition globbed (directory prefix suffix path : string) : bool :=
  match strip_prefix (path_div directory prefix) path with
  | Some rest => lacks "/" rest && endswith suffix rest
  | None => false
  end.

(** ** Router totals *)

Section Totals.
Context (json_loads : string → result pyval) (arrange : list string → list string).

(** The files matched by a [glob] of [directory] for the logs of its transports *)
Definition transport_logs (directory : string) (files : gmap string string) : list string :=
  arrange (filter (λ path, globbed directory "transport-" ".log" path = true) (elements (dom files))).

(** The events of one log *)
Definition log_events (log : string) : result (list pydict) :=
  mapM (λ body, v ← json_loads ("{" +:+ body +:+ "}"); is_dict v ?! TypeError) (scan metric_at log).

Definition is_operation (operation : string) (event : pydict) : result bool :=
  o ← dict_item "operation" event; Ok (eq_str o operation).

Definition is_cross_operation (operation : string) (event : pydict) : result bool :=
  c ← dict_item "cross_node" event; if truthy c then is_operation operation event else Ok false.

Record totals := Totals {
  to_events : Z;
  to_cross_writes : Z;
  to_cross_write_bytes : Z;
  to_cross_write_ns : Z;
  to_cross_read_ns : Z;
  to_read_ns : Z;
}.

Definition event_totals (events : list pydict) : result totals :=
  cross_writes ← select (is_cross_operation "W") events;
  cross_reads ← select (is_cross_operation "R") events;
  reads ← select (is_operation "R") events;
  bytes ← sum_int "bytes" cross_writes;
  elapsed ← sum_int "elapsed_ns" cross_writes;
  cross_wait ← sum_int "synchronization_wait_ns" cross_reads;
  wait ← sum_int "synchronization_wait_ns" reads;
  Ok (Totals (zlen events) (zlen cross_writes) bytes elapsed cross_wait wait).

Definition totals_of_logs (logs : list string) : result totals :=
  per_log ← mapM log_events logs; event_totals (concat per_log).

(** The logs of a directory, read in the order of its listing. *)
Definition directory_totals (directory : string) : H totals := λ h,
  (logs ← h_map h_read (transport_logs directory (h_files h)); h_lift (totals_of_logs logs)) h.

End Totals.

(** ** [summarize_functional_metrics.py] *)

Module FunctionalMetrics.
Section FunctionalMetrics.
Context {F : Type} `{!Floats F} (json_loads : string → result pyval) (arrange : list string → list string).

Definition mean (values : list F) : result F := f_fmean values.

Definition sample_stdev (values : list F) : result F :=
  if 1 <? zlen values then f_stdev values else Ok (f_lit 0 1).

Definition in_ms (ns : Z) : result F := f_ratio ns 1000000.

Definition router_metrics (directory : string) : H (list (string * F)) :=
  t ← directory_totals json_loads arrange directory;
  h_lift
    (service ← in_ms (to_cross_write_ns t);
     cross_sync ← in_ms (to_cross_read_ns t);
     sync ← in_ms (to_read_ns t);
     Ok [("pipecomm_events", f_of_Z (to_events t)); ("cross_write_count", f_of_Z (to_cross_writes t));
         ("cross_write_bytes", f_of_Z (to_cross_write_bytes t)); ("cross_write_service_ms", service);
         ("cross_read_sync_ms", cross_sync); ("pipecomm_sync_ms", sync)]).

Abbreviation sample := (list (string * F)).

(** The body of the loops: one repetition at one node count. *)
Definition take_sample (repetition : string) (node : Z) : H sample :=
  let directory := path_div repetition ("mlp-nodes" +:+ str_of_Z node) in
  text ← h_read (path_div directory "result.json");
  value ← h_lift (json_loads text);
  result_ ← h_lift (is_dict value ?! TypeError);
  status ← h_lift (dict_item "status" result_);
  _ ← h_lift (raise_if (negb (eq_str status "functional-ok"))
        (RuntimeError (directory +:+ " is not functional-ok: " +:+ py_str status)));
  let name := after_last "/" repetition in
  number ← h_lift (f_parse (default name (strip_prefix "rep-" name)));
  elapsed ← h_lift (float_item "measurement_elapsed_seconds" result_);
  first ← h_lift (float_item "first_interchiplet_command_seconds" result_);
  started ← h_lift (float_item "all_phase1_started_seconds" result_);
  metrics ← router_metrics directory;
  mret ([("repetition", number); ("measurement_elapsed_seconds", elapsed);
        ("first_interchiplet_command_seconds", first); ("all_phase1_started_seconds", started)] ++ metrics).

(** [{node: [] for node in nodes}] *)
Abbreviation samples := (list (Z * list sample)).

Definition no_samples (nodes : list Z) : samples :=
  foldl (λ d node, if existsb (λ p, p.1 =? node) d then d else d ++ [(node, [])]) [] nodes.

(** [samples[node].append(sample)] *)
Definition add_sample (d : samples) (node : Z) (s : sample) : samples :=
  (λ p, if p.1 =? node then (p.1, p.2 ++ [s]) else p) <$> d.

Definition repetitions (input_root : string) (fs : filesystem) : list string :=
  py_sorted String.leb (filter (λ path, globbed input_root "rep-" "" path = true) (elements (fs_dirs fs ∪ dom (fs_files fs)))).

Definition collect (input_root : string) (nodes : list Z) : H samples := λ h,
  h_fold (λ d repetition, h_fold (λ d node, s ← take_sample repetition node; mret (add_sample d node s)) d nodes)
    (no_samples nodes) (repetitions input_root (h_fs h)) h.

(** [[sample[field] for sample in values]] *)
Definition column (field : string) (values : list sample) : result (list F) := mapM (dict_item field) values.

Definition field_statistics (values : list sample) (row : sample) (field : string) : result sample :=
  if String.eqb field "repetition" then Ok row
  else
    numbers ← column field values;
    m ← mean numbers; s ← sample_stdev numbers;
    Ok (dict_set (field +:+ "_stdev") s (dict_set (field +:+ "_mean") m row)).

Definition summary_row (baseline : F) (entry : Z * list sample) : result sample :=
  let '(node, values) := entry in
  first ← head values ?! IndexError;
  row ← fold_result (field_statistics values) [("nodes", f_of_Z node); ("repetitions", f_of_Z (zlen values))] first.*1;
  elapsed ← dict_item "measurement_elapsed_seconds_mean" row;
  speedup ← f_div baseline elapsed;
  Ok (dict_set "speedup_mean" speedup row).

Definition summary_rows (d : samples) : result (list sample) :=
  one ← snd <$> find (λ p, p.1 =? 1) d ?! KeyError "1";
  numbers ← column "measurement_elapsed_seconds" one;
  baseline ← mean numbers;
  mapM (summary_row baseline) d.

Definition row_value (row : sample) : pydict := (λ kv, (kv.1, f_value kv.2)) <$> row.

Definition metric_definitions : pydict :=
  [("runtime", PStr "deployment through fixed post-startup observation window; excludes log collection and teardown");
   ("speedup", PStr "mean one-node runtime divided by mean runtime at this node count");
   ("cross_write_service", PStr "router-observed time to submit each cross-node PipeComm write through its local BaseIf gateway");
   ("pipecomm_sync", PStr "sum of router-observed blocking time for all PipeComm reads")].

Definition document (d : samples) (rows : list sample) : pyval :=
  PDict [("metric_definitions", PDict metric_definitions);
         ("samples", PDict ((λ p, (str_of_Z p.1, PList (PDict ∘ row_value <$> p.2))) <$> d));
         ("summary", PList (PDict ∘ row_value <$> rows))].

Definition main (input_root output_root : string) (nodes : list Z) : H (list string) :=
  d ← collect input_root nodes;
  rows ← h_lift (summary_rows d);
  _ ← h_mkdir output_root;
  _ ← h_write (path_div output_root "formal_metrics_summary.json") (json_indent 0 (document d rows));
  fields ← h_lift (head rows ?! IndexError);
  table ← h_lift (dict_table fields.*1 (row_value <$> rows));
  _ ← h_write (path_div output_root "formal_metrics_summary.csv") table;
  mret (json_spaced ∘ PDict ∘ row_value <$> rows).

End FunctionalMetrics.
End FunctionalMetrics.

(** ** [summarize_native_matrix.py] *)

Module NativeMatrix.
Section NativeMatrix.
Context {F : Type} `{!Floats F} (json_loads : string → result pyval) (arrange : list string → list string).

Definition rounded_ms (ns : Z) : result pyval := x ← f_ratio (F:=F) ns 1000000; Ok (f_value (f_round 6 x)).

Definition transport_totals (directory : string) : H pydict :=
  t ← directory_totals json_loads arrange directory;
  h_lift
    (service ← rounded_ms (to_cross_write_ns t);
     cross_sync ← rounded_ms (to_cross_read_ns t);
     sync ← rounded_ms (to_read_ns t);
     Ok [("pipecomm_events", PInt (to_events t)); ("cross_write_count", PInt (to_cross_writes t));
         ("cross_write_bytes", PInt (to_cross_write_bytes t)); ("cross_write_service_ms", service);
         ("cross_read_sync_ms", cross_sync); ("pipecomm_sync_ms", sync)]).

Definition collect_row (input_root workload : string) (node_count : Z) : H pydict :=
  let directory := path_div input_root (workload +:+ "-nodes" +:+ str_of_Z node_count) in
  text ← h_read (path_div directory "result.json");
  value ← h_lift (json_loads text);
  result_ ← h_lift (is_dict value ?! TypeError);
  status ← h_lift (dict_item "status" result_);
  _ ← h_lift (raise_if (negb (eq_str status "functional-ok")) (RuntimeError (directory +:+ " status is " +:+ py_str status)));
  elapsed ← h_lift (dict_item "measurement_elapsed_seconds" result_);
  first ← h_lift (dict_item "first_interchiplet_command_seconds" result_);
  started ← h_lift (dict_item "all_phase1_started_seconds" result_);
  metrics ← transport_totals directory;
  mret ([("workload", PStr workload); ("nodes", PInt node_count); ("status", status);
        ("measurement_elapsed_seconds", elapsed); ("first_interchiplet_command_seconds", first);
        ("all_phase1_started_seconds", started)] ++ metrics).

Definition with_speedup (baseline : F) (row : pydict) : result pydict :=
  elapsed ← float_item "measurement_elapsed_seconds" row;
  speedup ← f_div baseline elapsed;
  Ok (dict_set "speedup_vs_1node" (f_value (f_round 6 speedup)) row).

Definition summarize_workload (input_root : string) (nodes : list Z) (workload : string) : H (list pydict) :=
  rows ← h_map (collect_row input_root workload) nodes;
  first ← h_lift (head rows ?! IndexError);
  baseline ← h_lift (float_item "measurement_elapsed_seconds" first);
  h_lift (mapM (with_speedup baseline) rows).

Definition metric_definitions : pydict :=
  [("measurement_elapsed_seconds", PStr "deployment through the fixed 120-second post-startup observation; excludes log collection and teardown");
   ("speedup_vs_1node", PStr "same-workload one-node measurement elapsed time divided by this point's elapsed time");
   ("cross_write_service_ms", PStr "sum of local router service time for captured cross-node PipeComm writes");
   ("pipecomm_sync_ms", PStr "sum of captured router blocking time for PipeComm reads")].

Definition main (input_root : string) (workloads : list string) (nodes : list Z) : H string :=
  per_workload ← h_map (summarize_workload input_root nodes) workloads;
  let rows := concat per_workload in
  fields ← h_lift (head rows ?! IndexError);
  table ← h_lift (dict_table fields.*1 rows);
  let csv_path := path_div input_root "native_matrix_summary.csv" in
  _ ← h_write csv_path table;
  _ ← h_write (path_div input_root "native_matrix_summary.json")
        (json_indent 0 (PDict [("metric_definitions", PDict metric_definitions); ("rows", PList (PDict <$> rows))]));
  mret ("wrote " +:+ str_of_Z (zlen rows) +:+ " rows to " +:+ csv_path).

End NativeMatrix.
End NativeMatrix.

(** ** [collect_steady_matrix.py] *)

Module SteadyMatrix.
Section SteadyMatrix.
Context {F : Type} `{!Floats F} (json_loads : string → result pyval).

Definition node_at (s : string) : option (string * string) :=
  match number_at "mlp-dp-steady-" s with
  | Some (digits, String "-" rest) => Some (digits, rest)
  | _ => None
  end.

Definition node_count (path : string) : result Z :=
  match scan node_at path with
  | digits :: _ => py_int_exn digits
  | [] => Err (ValueError ("cannot determine node count from " +:+ path))
  end.

Definition collect_report (root : string) : H pydict :=
  text ← h_read (path_div (path_div root "measurement") "steady_summary.json");
  value ← h_lift (json_loads text);
  nodes ← h_lift (node_count root);
  report ← h_lift (is_dict value ?! TypeError);
  mret (dict_update [("nodes", PInt nodes)] report).

Definition row_nodes (row : pydict) : result Z := v ← dict_item "nodes" row; is_int v ?! TypeError.

(** [rows.sort] by the node count *)
Definition sort_rows (rows : list pydict) : result (list (Z * pydict)) :=
  keyed ← mapM (λ row, n ← row_nodes row; Ok (n, row)) rows; Ok (py_sorted (λ a b, a.1 <=? b.1) keyed).

Definition COLUMNS : list string :=
  ["nodes"; "steady_wall_seconds"; "normalized_steady_time"; "speedup_vs_one_node";
   "cross_node_sync_wall_union_seconds"; "cross_node_sync_overhead_percent"; "cross_node_read_events_in_window";
   "cross_node_read_bytes_in_window"; "coordinator_wall_seconds"; "boundary_rule"; "all_pipecomm_events"].

(** The body of the writing loop *)
Definition table_line (baseline : F) (row : pydict) : result (list string) :=
  steady ← float_item "steady_wall_seconds" row;
  normalized ← f_div steady baseline;
  let row := dict_set "normalized_steady_time" (f_value normalized) row in
  speedup ← f_div baseline steady;
  let row := dict_set "speedup_vs_one_node" (f_value speedup) row in
  Ok ((λ column, cell (dict_get_default column PNone row)) <$> COLUMNS).

(** The lines before the first row that fails, which the file keeps, and how the loop ended. *)
Fixpoint table_lines (baseline : F) (rows : list pydict) : list (list string) * result () :=
  match rows with
  | [] => ([], Ok ())
  | row :: rows =>
      match table_line baseline row with
      | Err e => ([], Err e)
      | Ok line => let '(lines, r) := table_lines baseline rows in (line :: lines, r)
      end
  end.

Definition main (output : string) (result_roots : list string) : H unit :=
  rows ← h_map collect_report result_roots;
  sorted ← h_lift (sort_rows rows);
  one ← h_lift (find (λ p, p.1 =? 1) sorted ?! StopIteration);
  value ← h_lift (dict_item "steady_wall_seconds" one.2);
  let '(lines, r) := match f_of_value value with
                     | Ok baseline => table_lines baseline sorted.*2
                     | Err e => ([], Err e)
                     end in
  _ ← h_write output (write_rows (COLUMNS :: lines));
  h_lift r.

End SteadyMatrix.
End SteadyMatrix.

(** ** The order of the logs *)

Lemma mapM_perm {A B} (f : A → result B) l l' k : l ≡ₚ l' → mapM f l = Ok k → ∃ k', mapM f l' = Ok k' ∧ k ≡ₚ k'.
Proof.
  intros Hl. revert k. induction Hl as [|x l l' _ IH|x y l|l1 l2 l3 _ IH1 _ IH2]; intros k H; [by eauto|..].
  - rewrite mapM_result_cons in *. apply bind_Ok in H as (a & Ha & (r & Hr & [= <-])%bind_Ok). destruct (IH _ Hr) as (k' & Hk & Hp).
    rewrite Ha, Hk. cbn [mbind result_bind]. eexists. split; [done|]. by rewrite Hp.
  - rewrite !mapM_result_cons in *. apply bind_Ok in H as (b & Hb & (r & (a & Ha & (r' & Hr & [= <-])%bind_Ok)%bind_Ok & [= <-])%bind_Ok).
    rewrite Ha, Hb, Hr. cbn [mbind result_bind]. eexists. split; [done|]. apply perm_swap.
  - destruct (IH1 _ H) as (k2 & H2 & Hp2), (IH2 _ H2) as (k3 & H3 & Hp3). exists k3. split; [done|]. by rewrite Hp2.
Qed.

Lemma select_perm {A} (p : A → result bool) l l' k : l ≡ₚ l' → select p l = Ok k → ∃ k', select p l' = Ok k' ∧ k ≡ₚ k'.
Proof.
  intros Hl. revert k. induction Hl as [|x l l' _ IH|x y l|l1 l2 l3 _ IH1 _ IH2]; intros k H; [by eauto|..].
  - cbn [select] in *. apply bind_Ok in H as (a & Ha & (r & Hr & [= <-])%bind_Ok). destruct (IH _ Hr) as (k' & Hk & Hp).
    rewrite Ha, Hk. cbn [mbind result_bind]. eexists. split; [done|]. destruct a; by rewrite Hp.
  - cbn [select] in *. apply bind_Ok in H as (b & Hb & (r & (a & Ha & (r' & Hr & [= <-])%bind_Ok)%bind_Ok & [= <-])%bind_Ok).
    rewrite Ha, Hb, Hr. cbn [mbind result_bind]. eexists. split; [done|]. destruct a, b; try done. apply perm_swap.
  - destruct (IH1 _ H) as (k2 & H2 & Hp2), (IH2 _ H2) as (k3 & H3 & Hp3). exists k3. split; [done|]. by rewrite Hp2.
Qed.

Lemma concat_perm {A} (l l' : list (list A)) : l ≡ₚ l' → concat l ≡ₚ concat l'.
Proof. induction 1; cbn [concat]; [done|by f_equiv|rewrite !app_assoc; f_equiv; apply Permutation_app_comm|by etrans]. Qed.

Lemma sum_int_perm k l l' z : l ≡ₚ l' → sum_int k l = Ok z → sum_int k l' = Ok z.
Proof.
  intros Hl H. unfold sum_int in *. apply bind_Ok in H as (zs & Hzs & [= <-]). destruct (mapM_perm _ _ _ _ Hl Hzs) as (zs' & -> & Hp).
  cbn [mbind result_bind]. by rewrite Hp.
Qed.

Lemma event_totals_perm events events' t : events ≡ₚ events' → event_totals events = Ok t → event_totals events' = Ok t.
Proof.
  intros Hl H. unfold event_totals in *. apply bind_Ok in H as (cw & Hcw & H). apply bind_Ok in H as (cr & Hcr & H).
  apply bind_Ok in H as (r & Hr & H). apply bind_Ok in H as (b & Hb & H). apply bind_Ok in H as (e & He & H).
  apply bind_Ok in H as (w1 & Hw1 & H). apply bind_Ok in H as (w2 & Hw2 & [= <-]).
  destruct (select_perm _ _ _ _ Hl Hcw) as (cw' & -> & Pcw), (select_perm _ _ _ _ Hl Hcr) as (cr' & -> & Pcr),
    (select_perm _ _ _ _ Hl Hr) as (r' & -> & Pr). cbn [mbind result_bind].
  rewrite (sum_int_perm _ _ _ _ Pcw Hb), (sum_int_perm _ _ _ _ Pcw He), (sum_int_perm _ _ _ _ Pcr Hw1), (sum_int_perm _ _ _ _ Pr Hw2).
  cbn [mbind result_bind]. by rewrite Hl, Pcw.
Qed.

Lemma totals_of_logs_perm json_loads logs logs' t :
  logs ≡ₚ logs' → totals_of_logs json_loads logs = Ok t → totals_of_logs json_loads logs' = Ok t.
Proof.
  intros Hl H. unfold totals_of_logs in *. apply bind_Ok in H as (per & Hper & H). destruct (mapM_perm _ _ _ _ Hl Hper) as (per' & -> & Hp).
  cbn [mbind result_bind]. eapply event_totals_perm; [by apply concat_perm|done].
Qed.

(** Reading files that are there gives their texts. *)
Lemma h_map_read h paths texts :
  Forall2 (λ path text, h_files h !! path = Some text) paths texts → h_map h_read paths h = (h, Ok texts).
Proof.
  induction 1 as [|path text paths texts Hp _ IH]; [done|]. cbn [h_map]. unfold mbind, H_bind, h_read in *. rewrite Hp. cbn [of_option].
  by rewrite IH.
Qed.

(** The totals of a directory are those of the texts of its transport logs, in any order. *)
Lemma directory_totals_of json_loads arrange directory h texts t :
  (∀ l, arrange l ≡ₚ l) →
  texts ≡ₚ (map_to_list (filter (λ pt, globbed directory "transport-" ".log" pt.1 = true) (h_files h))).*2 →
  totals_of_logs json_loads texts = Ok t →
  directory_totals json_loads arrange directory h = (h, Ok t).
Proof.
  intros Harr Ht Hok. unfold directory_totals.
  assert (∃ texts', Forall2 (λ path text, h_files h !! path = Some text) (transport_logs arrange directory (h_files h)) texts' ∧ texts ≡ₚ texts')
    as (texts' & Hf & Hp).
  { set (pairs := map_to_list _) in Ht.
    assert (Hpaths : transport_logs arrange directory (h_files h) ≡ₚ pairs.*1).
    { unfold transport_logs. rewrite Harr. apply NoDup_Permutation; [apply NoDup_filter, NoDup_elements|apply NoDup_fst_map_to_list|].
      intros path. rewrite list_elem_of_filter, elem_of_elements, elem_of_dom. subst pairs. split.
      - intros [Hg [text Htext]]. apply list_elem_of_fmap. exists (path, text). split; [done|]. by apply elem_of_map_to_list, map_lookup_filter_Some.
      - intros ((path' & text) & -> & Hin%elem_of_map_to_list)%list_elem_of_fmap. apply map_lookup_filter_Some in Hin as [Htext Hg]. eauto. }
    destruct (Permutation_map_inv _ _ Hpaths) as (l3 & -> & Hl3). exists l3.*2. split; [|by rewrite Ht, Hl3].
    apply Forall2_fmap, Forall_Forall2_diag, Forall_forall. intros [path text] Hin. rewrite <- Hl3 in Hin.
    by apply elem_of_map_to_list, map_lookup_filter_Some in Hin as [? _]. }
  unfold mbind, H_bind. rewrite (h_map_read _ _ _ Hf). unfold h_lift. by rewrite (totals_of_logs_perm _ _ _ _ Hp Hok).
Qed.

(** The table of the native matrix measures the router.  The transport totals of a run
    directory are computed from the records of all its transport logs and do not depend on the
    order in which the directory lists them: the count of the events, the cross-node writes and
    their bytes, and the three times are the sums over all logs, and both summary scripts report
    these sums. *)
Theorem transport_totals_order {F} `{!Floats F} json_loads arrange directory h texts t service cross_sync sync :
  (∀ l, arrange l ≡ₚ l) →
  texts ≡ₚ (map_to_list (filter (λ pt, globbed directory "transport-" ".log" pt.1 = true) (h_files h))).*2 →
  totals_of_logs json_loads texts = Ok t →
  f_ratio (F:=F) (to_cross_write_ns t) 1000000 = Ok service → f_ratio (to_cross_read_ns t) 1000000 = Ok cross_sync →
  f_ratio (to_read_ns t) 1000000 = Ok sync →
  NativeMatrix.transport_totals (F:=F) json_loads arrange directory h =
    (h, Ok [("pipecomm_events", PInt (to_events t)); ("cross_write_count", PInt (to_cross_writes t));
            ("cross_write_bytes", PInt (to_cross_write_bytes t)); ("cross_write_service_ms", f_value (f_round 6 service));
            ("cross_read_sync_ms", f_value (f_round 6 cross_sync)); ("pipecomm_sync_ms", f_value (f_round 6 sync))]) ∧
  FunctionalMetrics.router_metrics (F:=F) json_loads arrange directory h =
    (h, Ok [("pipecomm_events", f_of_Z (to_events t)); ("cross_write_count", f_of_Z (to_cross_writes t));
            ("cross_write_bytes", f_of_Z (to_cross_write_bytes t)); ("cross_write_service_ms", service);
            ("cross_read_sync_ms", cross_sync); ("pipecomm_sync_ms", sync)]).
Proof.
  intros Harr Ht Hok Hs Hc Hy. pose proof (directory_totals_of _ _ _ _ _ _ Harr Ht Hok) as Hd.
  unfold NativeMatrix.transport_totals, FunctionalMetrics.router_metrics, mbind, H_bind. rewrite Hd. unfold h_lift.
  unfold NativeMatrix.rounded_ms, FunctionalMetrics.in_ms. rewrite Hs, Hc, Hy. done.
Qed.

(** Two records and a reader of them, for examples. *)
Definition demo_event (operation : string) (bytes wait : Z) : pydict :=
  [("cross_node", PBool true); ("operation", PStr operation); ("bytes", PInt bytes);
   ("elapsed_ns", PInt (10 * wait)); ("synchronization_wait_ns", PInt wait)].

Definition demo_loads (text : string) : result pyval :=
  if String.eqb text "{w}" then Ok (PDict (demo_event "W" 4 3000000))
  else if String.eqb text "{r}" then Ok (PDict (demo_event "R" 4 5000000))
  else Err (ValueError "Expecting value").

Definition demo_run : gmap string string :=
  {["runs/transport-0.log" := "boot" +:+ nl +:+ "pipe-metric: {w}" +:+ nl; "runs/transport-1.log" := "pipe-metric: {r}" +:+ nl +:+ "pipe-metric: {w}";
    "runs/result.json" := "pipe-metric: {w}"]}.

Lemma transport_totals_order_witness :
  NativeMatrix.transport_totals (F:=Z) demo_loads (@reverse string) "runs" (Host (Filesystem ∅ demo_run) [] 0) =
    (Host (Filesystem ∅ demo_run) [] 0,
     Ok [("pipecomm_events", PInt 3); ("cross_write_count", PInt 2); ("cross_write_bytes", PInt 8);
         ("cross_write_service_ms", PInt 60); ("cross_read_sync_ms", PInt 5); ("pipecomm_sync_ms", PInt 5)]).
Proof.
  refine (proj1 (transport_totals_order (F:=Z) demo_loads (@reverse string) "runs" (Host (Filesystem ∅ demo_run) [] 0)
    ["boot" +:+ nl +:+ "pipe-metric: {w}" +:+ nl; "pipe-metric: {r}" +:+ nl +:+ "pipe-metric: {w}"] (Totals 3 2 8 60000000 5000000 5000000)
    60 5 5 (@reverse_Permutation string) _ _ _ _ _)); [|vm_compute; reflexivity..].
  vm_compute. first [reflexivity|apply perm_swap].
Defined.
