(* ===== verification/ScaleOut.v ===== *)
(** * The scale-out table

    Model of [src/scripts/summarize_dind_mlp_dp.py]: the timestamps of the Docker daemon, the key
    and value artifacts of a run, the final cycle count in the coordinator's log, the cells of
    one run, the selection of the run directories and the speedups.  [utc_offset] is the offset of
    the zone the process runs in.  A [--directory-pattern] with other fields than [nodes] is not
    modelled. *)

From S2P Require Import Prelude PyValue Csv Worker Proxy Feedback Host Swarm Remote Scalability Summaries.

(** ** Timestamps *)

Definition is_leap (year : Z) : bool := (year mod 4 =? 0) && (negb (year mod 100 =? 0) || (year mod 400 =? 0)).

Definition DAYS_IN_MONTH : list Z := [31; 28; 31; 30; 31; 30; 31; 31; 30; 31; 30; 31].

Definition days_in_month (year month : Z) : Z :=
  if (month =? 2) && is_leap year then 29 else nth (Z.to_nat (month - 1)) DAYS_IN_MONTH 0.

(** The days of the months before [month]. *)
Definition days_before_month (year month : Z) : Z := zsum (days_in_month year <$> seqZ 1 (month - 1)).

Definition days_before_year (year : Z) : Z :=
  let y := year - 1 in y * 365 + y / 4 - y / 100 + y / 400.

(** [date.toordinal] *)
Definition ordinal (year month day : Z) : Z := days_before_year year + days_before_month year month + day.

Definition EPOCH : Z := 719163.

Record civil := Civil { cv_year : Z; cv_month : Z; cv_day : Z; cv_hour : Z; cv_minute : Z; cv_second : Z }.

(** The seconds from 1970 to a date and time of day, both of one time zone. *)
Definition seconds_of (c : civil) : Z :=
  (ordinal (cv_year c) (cv_month c) (cv_day c) - EPOCH) * 86400 + cv_hour c * 3600 + cv_minute c * 60 + cv_second c.

(** A field of [strptime]: up to [width] digits with a value between the bounds. *)
Definition time_field (width : nat) (low high : Z) (text : string) : option Z :=
  if isdigit text && (str_length text <=? width)%nat then
    z ← py_int text; if (low <=? z) && (z <=? high) then Some z else None
  else None.

(** A day of the month may be one digit behind a space. *)
Definition day_field (text : string) : option Z :=
  match text with
  | String " " rest => time_field 1 1 9 rest
  | _ => time_field 2 1 31 text
  end.

(** [datetime.strptime] with the format of the script; letters match in either case. *)
Definition split_date (text : string) : option (string * string) :=
  match partition_on "T" text with
  | (date, Some time) => Some (date, time)
  | (_, None) => match partition_on "t" text with (date, Some time) => Some (date, time) | (_, None) => None end
  end.

Definition strptime (text : string) : result civil :=
  let fields :=
    '(date, time) ← split_date text;
    match split_on "-" date, split_on ":" time with
    | [y; m; d], [hh; mm; ss] =>
        year ← (if (str_length y =? 4)%nat then time_field 4 0 9999 y else None);
        month ← time_field 2 1 12 m; day ← day_field d;
        hour ← time_field 2 0 23 hh; minute ← time_field 2 0 59 mm; second ← time_field 2 0 61 ss;
        Some (Civil year month day hour minute second)
    | _, _ => None
    end in
  c ← fields ?! ValueError ("time data " +:+ repr_str text +:+ " does not match format '%Y-%m-%dT%H:%M:%S'");
  _ ← raise_if (cv_year c =? 0) (ValueError "year 0 is out of range");
  _ ← raise_if (days_in_month (cv_year c) (cv_month c) <? cv_day c) (ValueError "day is out of range for month");
  _ ← raise_if (59 <? cv_second c) (ValueError "second must be in 0..59");
  Ok c.

Section Script.
Context {F : Type} `{!Floats F} (utc_offset : Z → Z).   (** of a local time, in the zone of the process *)

(** A naive [datetime] is taken for local time by [timestamp]. *)
Definition parse_timestamp (value : string) : result F :=
  match partition_on "." (rstrip_by (Ascii.eqb "Z") value) with
  | (date_part, Some fraction) =>
      c ← strptime date_part;
      let base := seconds_of c - utc_offset (seconds_of c) in
      f ← f_parse ("0." +:+ fraction);
      Ok (f_add (f_of_Z base) f)
  | (_, None) => Err (ValueError "not enough values to unpack (expected 2, got 1)")
  end.

(** ** Artifacts *)

Abbreviation values := (list (string * string)).

Definition read_line (path : string) (acc : values) (line : string) : result values :=
  match partition_on "=" line with
  | (key, Some value) => Ok (dict_set key value acc)
  | (_, None) => Err (ValueError ("invalid key=value line in " +:+ path +:+ ": " +:+ repr_str line))
  end.

Definition read_key_values (path text : string) : result values := fold_result (read_line path) [] (splitlines text).

(** The part of the pattern behind the marker, at the first place it matches. *)
Definition elapsed_at (s : string) : option (string * string) :=
  match number_at "Benchmark elapses " s with
  | Some (digits, rest) => (λ rest, (digits, rest)) <$> strip_prefix " cycle" rest
  | None => None
  end.

Fixpoint search_elapsed (s : string) : option (string * string) :=
  match elapsed_at s with
  | Some found => Some found
  | None => match s with EmptyString => None | String _ s' => search_elapsed s' end
  end.

(** [FINAL_CYCLE_PATTERN] *)
Definition final_at (s : string) : option (string * string) :=
  match strip_prefix "**** End of Simulation ****" s with Some rest => search_elapsed rest | None => None end.

Definition completion_cycles (coordinator_log run_directory : string) : result Z :=
  match last (scan final_at coordinator_log) with
  | Some digits => py_int_exn digits
  | None => Err (RuntimeError (run_directory +:+ ": final benchmark cycle count is missing"))
  end.

(** ** One run *)

(** A row of the table: the node count and the duration are also used as numbers. *)
Record run_row := RunRow { rr_nodes : Z; rr_total : F; rr_cells : pydict }.

Definition metric (metrics : values) (k : string) : result Z := py_int_exn (dict_get_default k "0" metrics).

Definition metric_seconds (metrics : values) (k : string) : result F := ns ← metric metrics k; f_ratio ns 1000000000.

Definition percent_of (x total : F) : result pyval := p ← f_div (f_mul (f_of_Z 100) x) total; Ok (f_value p).

Definition count_cells (metrics : values) (ks : list string) : result pydict :=
  mapM (λ k, z ← metric metrics k; Ok (k, PInt z)) ks.

Definition scope_counts (scope : string) : list string :=
  [scope +:+ "_transport_pairs"; scope +:+ "_transport_unmatched_writes"; scope +:+ "_transport_unmatched_reads";
   scope +:+ "_bytes"; scope +:+ "_records"].

(** The cells of one scope: the dependency wait, the transport synchronization and the counts. *)
Definition scope_cells (metrics : values) (scope : string) (wait sync total : F) : result pydict :=
  wait_percent ← percent_of wait total;
  sync_percent ← percent_of sync total;
  counts ← count_cells metrics (scope_counts scope);
  Ok ([(scope +:+ "_dependency_wait_seconds", f_value wait); (scope +:+ "_dependency_wait_percent", wait_percent);
       (scope +:+ "_transport_sync_seconds", f_value sync); (scope +:+ "_transport_sync_overhead_percent", sync_percent)] ++ counts).

Definition NS3_COUNTS : list string :=
  ["ns3_normal_records"; "ns3_normal_source_sync_advance_cycles"; "ns3_normal_destination_network_delay_cycles";
   "ns3_normal_destination_sync_block_cycles"].

(** What [collect_run] makes of the three files. *)
Definition run_metrics (run_directory : string) (nodes : Z) (timing metrics : values) (coordinator_log : string) : result run_row :=
  _ ← raise_if (negb (bool_decide (dict_get "exit" timing = Some "0")))
        (RuntimeError (run_directory +:+ ": coordinator exit is not zero"));
  _ ← raise_if (negb (found (literal_at "End of Simulation") coordinator_log))
        (RuntimeError (run_directory +:+ ": natural-completion marker is missing"));
  final_cycles ← completion_cycles coordinator_log run_directory;
  finish ← (t ← dict_item "finish" timing; parse_timestamp t);
  start ← (t ← dict_item "start" timing; parse_timestamp t);
  let total := f_sub finish start in
  _ ← raise_if (negb (f_ltb (f_of_Z 0) total)) (RuntimeError (run_directory +:+ ": non-positive coordinator duration"));
  logical_wait ← metric_seconds metrics "cross_legosim_sync_wall_union_ns";
  physical_wait ← metric_seconds metrics "cross_physical_host_sync_wall_union_ns";
  logical_sync ← metric_seconds metrics "cross_legosim_transport_exposed_sync_wall_union_ns";
  physical_sync ← metric_seconds metrics "cross_physical_host_transport_exposed_sync_wall_union_ns";
  logical ← scope_cells metrics "cross_legosim" logical_wait logical_sync total;
  physical ← scope_cells metrics "cross_physical_host" physical_wait physical_sync total;
  ns3 ← count_cells metrics NS3_COUNTS;
  Ok (RunRow nodes total
        ([("nodes", PInt nodes); ("benchmark_completion_cycles", PInt final_cycles);
          ("total_simulation_seconds", f_value total)] ++ logical ++ physical ++ ns3)).

Definition collect_run (run_directory : string) (nodes : Z) : H run_row :=
  timing_text ← h_read (path_div run_directory "coordinator_timing.txt");
  timing ← h_lift (read_key_values (path_div run_directory "coordinator_timing.txt") timing_text);
  metrics_text ← h_read (path_div run_directory "metrics.txt");
  metrics ← h_lift (read_key_values (path_div run_directory "metrics.txt") metrics_text);
  coordinator_log ← h_read (path_div run_directory "coordinator.log");
  h_lift (run_metrics run_directory nodes timing metrics coordinator_log).

(** ** The script *)

(** An [ArgumentTypeError] ends the program with its message. *)
Definition parse_explicit_run (value : string) : result (Z * string) :=
  match partition_on "=" value with
  | (node_text, Some directory_text) =>
      _ ← raise_if (String.eqb node_text "" || String.eqb directory_text "")
            (SystemExit "--run must use NODES=RESULT_DIRECTORY, for example 4=/data/nodes4");
      nodes ← py_int node_text ?! SystemExit ("invalid node count in --run: " +:+ repr_str node_text);
      _ ← raise_if (nodes <=? 0) (SystemExit "--run node count must be positive");
      Ok (nodes, directory_text)
  | (_, None) => Err (SystemExit "--run must use NODES=RESULT_DIRECTORY, for example 4=/data/nodes4")
  end.

Record arguments := Arguments {
  ar_input_root : option string;
  ar_output : string;
  ar_nodes : list Z;
  ar_pattern : string;
  ar_runs : list string;                 (** the values of [--run] *)
}.

Definition NODE_CHOICES : list Z := [1; 2; 4; 8].

(** [pattern.format(nodes=nodes)] for a pattern without other replacement fields. *)
Definition format_nodes (pattern : string) (nodes : Z) : string := replace_all "{nodes}" (str_of_Z nodes) pattern.

(** The directories to collect, with their node counts. *)
Definition selected_runs (a : arguments) : result (list (Z * string)) :=
  explicit ← mapM parse_explicit_run (ar_runs a);
  _ ← raise_if (existsb (λ n, negb (existsb (Z.eqb n) NODE_CHOICES)) (ar_nodes a)) (SystemExit "argument --nodes: invalid choice");
  match explicit, ar_input_root a with
  | _ :: _, Some _ => Err (SystemExit "use either --run or --input-root/--directory-pattern, not both")
  | _ :: _, None =>
      _ ← raise_if (negb (bool_decide (NoDup explicit.*1))) (SystemExit "each --run node count may be specified only once");
      Ok explicit
  | [], None => Err (SystemExit "provide --run or --input-root")
  | [], Some root => Ok ((λ nodes, (nodes, path_div root (format_nodes (ar_pattern a) nodes))) <$> ar_nodes a)
  end.

Definition with_speedup (baseline : F) (row : run_row) : result pydict :=
  speedup ← f_div baseline (rr_total row);
  Ok (dict_set "speedup_vs_first_row" (f_value speedup) (rr_cells row)).

(** The finished rows of the table. *)
Definition speedup_rows (rows : list run_row) : result (list pydict) :=
  let sorted := py_sorted (λ a b, rr_nodes a <=? rr_nodes b) rows in
  first ← head sorted ?! IndexError;
  mapM (with_speedup (rr_total first)) sorted.

Definition main (a : arguments) : H unit :=
  runs ← h_lift (selected_runs a);
  rows ← h_map (λ run, collect_run run.2 run.1) runs;
  rows ← h_lift (speedup_rows rows);
  _ ← h_mkdir (parent_of (ar_output a));
  fields ← h_lift (head rows ?! IndexError);
  table ← h_lift (dict_table fields.*1 rows);
  h_write (ar_output a) table.

End Script.

(** ** Dates *)

Section Calendar.

Definition valid_date (year month day : Z) : Prop := 1 ≤ year ∧ 1 ≤ month ≤ 12 ∧ 1 ≤ day ≤ days_in_month year month.

Definition next_day (year month day : Z) : Z * Z * Z :=
  if day <? days_in_month year month then (year, month, day + 1)
  else if month <? 12 then (year, month + 1, 1) else (year + 1, 1, 1).

Lemma days_before_month_next year month :
  1 ≤ month → days_before_month year (month + 1) = days_before_month year month + days_in_month year month.
Proof.
  intros Hm. unfold days_before_month. replace (month + 1 - 1) with ((month - 1) + 1) by lia.
  rewrite seqZ_app by lia. rewrite fmap_app, zsum_app. replace (1 + (month - 1)) with month by lia.
  rewrite (seqZ_cons month 1), (seqZ_nil (Z.succ month)) by lia. unfold zsum at 2. cbn [fmap list_fmap foldr]. lia.
Qed.

Lemma days_of_year year : days_before_month year 12 + days_in_month year 12 = if is_leap year then 366 else 365.
Proof. unfold days_before_month, days_in_month. cbn. destruct (is_leap year); done. Qed.

Lemma days_before_year_next year : days_before_year (year + 1) = days_before_year year + (if is_leap year then 366 else 365).
Proof.
  unfold days_before_year, is_leap. replace (year + 1 - 1) with year by lia.
  destruct (Z.eqb_spec (year mod 4) 0), (Z.eqb_spec (year mod 100) 0), (Z.eqb_spec (year mod 400) 0); cbn [andb orb negb];
    Z.to_euclidean_division_equations; lia.
Qed.

(** The day after a date has the next number. *)
Lemma ordinal_next_day year month day y m d :
  valid_date year month day → next_day year month day = (y, m, d) → valid_date y m d ∧ ordinal y m d = ordinal year month day + 1.
Proof.
  intros (Hy & Hm & Hd). unfold next_day. destruct (Z.ltb_spec day (days_in_month year month)) as [Hlt|Hge].
  - intros [= <- <- <-]. split; [unfold valid_date; lia|unfold ordinal; lia].
  - assert (day = days_in_month year month) as -> by lia. assert (Hpos : ∀ y m, 1 ≤ m ≤ 12 → 1 ≤ days_in_month y m).
    { intros y' m' Hm'. unfold days_in_month. destruct ((m' =? 2) && is_leap y'); [lia|].
      assert (Hall : Forall (λ n, 1 ≤ n) DAYS_IN_MONTH) by (repeat constructor; lia).
      destruct (nth_in_or_default (Z.to_nat (m' - 1)) DAYS_IN_MONTH 0) as [Hin|Hn].
      - rewrite Forall_forall in Hall. apply Hall. by apply list_elem_of_In.
      - exfalso. assert (Hb : Forall (λ n, n ≠ 0) DAYS_IN_MONTH) by (repeat constructor; lia). rewrite Forall_forall in Hb.
        apply (Hb 0); [|done]. rewrite <- Hn. apply list_elem_of_In, nth_In. cbn. lia. }
    destruct (Z.ltb_spec month 12).
    + intros [= <- <- <-]. split; [unfold valid_date; specialize (Hpos year (month + 1)); lia|].
      unfold ordinal. rewrite days_before_month_next by lia. lia.
    + intros [= <- <- <-]. assert (month = 12) as -> by lia. split; [unfold valid_date; specialize (Hpos (year + 1) 1); lia|].
      unfold ordinal. rewrite days_before_year_next. pose proof (days_of_year year). change (days_before_month (year + 1) 1) with 0. lia.
Qed.

Lemma epoch_ordinal : ordinal 1970 1 1 = EPOCH.
Proof. reflexivity. Qed.

End Calendar.

(** ** Timestamps *)

Section Timestamps.

(** Decimal digits with leading zeros *)
Definition digit (z : Z) : string := String (ascii_of_nat (48 + Z.to_nat z)) "".
Definition pad2 (z : Z) : string := digit (z / 10) +:+ digit (z mod 10).
Definition pad4 (z : Z) : string := pad2 (z / 100) +:+ pad2 (z mod 100).

Definition valid_civil (c : civil) : Prop :=
  valid_date (cv_year c) (cv_month c) (cv_day c) ∧ cv_year c ≤ 9999 ∧
  0 ≤ cv_hour c ≤ 23 ∧ 0 ≤ cv_minute c ≤ 59 ∧ 0 ≤ cv_second c ≤ 59.

Definition date_text (c : civil) : string := pad4 (cv_year c) +:+ "-" +:+ pad2 (cv_month c) +:+ "-" +:+ pad2 (cv_day c).
Definition time_text (c : civil) : string := pad2 (cv_hour c) +:+ ":" +:+ pad2 (cv_minute c) +:+ ":" +:+ pad2 (cv_second c).

(** A time as the Docker daemon prints it, with a fraction of a second *)
Definition docker_text (c : civil) (fraction : string) : string :=
  date_text c +:+ "T" +:+ time_text c +:+ "." +:+ fraction +:+ "Z".

Lemma forallb_seqZ (p : Z → bool) n z : forallb p (seqZ 0 n) = true → 0 ≤ z < n → p z = true.
Proof. rewrite forallb_forall. intros H Hz. apply H, list_elem_of_In, elem_of_seqZ. lia. Qed.

Definition pad2_ok (z : Z) : bool :=
  bool_decide (py_int (pad2 z) = Some z) && isdigit (pad2 z) && (str_length (pad2 z) =? 2)%nat &&
  negb (startswith " " (pad2 z)).

Definition pad4_ok (z : Z) : bool := bool_decide (py_int (pad4 z) = Some z) && isdigit (pad4 z) && (str_length (pad4 z) =? 4)%nat.

Lemma pad2_fields z : 0 ≤ z < 100 → pad2_ok z = true.
Proof. apply forallb_seqZ. vm_compute. reflexivity. Qed.

Lemma pad4_fields z : 0 ≤ z < 10000 → pad4_ok z = true.
Proof. apply forallb_seqZ. vm_compute. reflexivity. Qed.

Lemma digits_lack c s : is_digit c = false → isdigit s = true → lacks c s = true.
Proof.
  intros Hc [_ Hs]%andb_true_iff. eapply str_forallb_impl; [|exact Hs]. intros a Ha. cbn.
  destruct (Ascii.eqb_spec a c); [congruence|done].
Qed.

Lemma pad2_digits z : 0 ≤ z < 100 → isdigit (pad2 z) = true.
Proof. intros Hz%pad2_fields. unfold pad2_ok in Hz. by bool_facts. Qed.

Lemma pad4_digits z : 0 ≤ z < 10000 → isdigit (pad4 z) = true.
Proof. intros Hz%pad4_fields. unfold pad4_ok in Hz. by bool_facts. Qed.

Lemma time_field_digits width low high text z :
  py_int text = Some z → isdigit text = true → str_length text = width → low ≤ z ≤ high → time_field width low high text = Some z.
Proof.
  intros Hz Hd Hl Hb. unfold time_field. rewrite Hd, Hl, Nat.leb_refl. cbn [andb]. rewrite Hz. cbn [mbind option_bind].
  by rewrite (proj2 (Z.leb_le _ _) (proj1 Hb)), (proj2 (Z.leb_le _ _) (proj2 Hb)).
Qed.

Lemma time_field_pad2 low high z : 0 ≤ z < 100 → low ≤ z ≤ high → time_field 2 low high (pad2 z) = Some z.
Proof.
  intros Hz%pad2_fields Hb. unfold pad2_ok in Hz. bool_facts. apply time_field_digits; [done..| |done]. by apply Nat.eqb_eq.
Qed.

Lemma time_field_pad4 low high z : 0 ≤ z < 10000 → low ≤ z ≤ high → time_field 4 low high (pad4 z) = Some z.
Proof.
  intros Hz%pad4_fields Hb. unfold pad4_ok in Hz. bool_facts. apply time_field_digits; [done..| |done]. by apply Nat.eqb_eq.
Qed.

Lemma day_field_pad2 z : 1 ≤ z ≤ 31 → day_field (pad2 z) = Some z.
Proof.
  intros Hz. pose proof (time_field_pad2 1 31 z ltac:(lia) Hz) as H. pose proof (pad2_fields z ltac:(lia)) as Hf.
  unfold pad2_ok in Hf. bool_facts. unfold day_field. destruct (pad2 z) as [|a r]; [done|].
  destruct (Ascii.eqb_spec a " ") as [->|Ha]; [exfalso; revert H1; unfold startswith; rewrite bool_decide_eq_true_2; [done|cbn; eauto]|].
  by destruct a as [[] [] [] [] [] [] [] []].
Qed.

Lemma pad2_lacks c z : is_digit c = false → 0 ≤ z < 100 → lacks c (pad2 z) = true.
Proof. intros Hc Hz. by apply digits_lack, pad2_digits. Qed.

Lemma pad4_lacks c z : is_digit c = false → 0 ≤ z < 10000 → lacks c (pad4 z) = true.
Proof. intros Hc Hz. by apply digits_lack, pad4_digits. Qed.

Lemma days_in_month_bound year month : days_in_month year month ≤ 31.
Proof.
  unfold days_in_month. destruct ((month =? 2) && is_leap year); [lia|].
  assert (Hall : Forall (λ n, n ≤ 31) DAYS_IN_MONTH) by (repeat constructor; lia). rewrite Forall_forall in Hall.
  destruct (nth_in_or_default (Z.to_nat (month - 1)) DAYS_IN_MONTH 0) as [Hin| ->]; [|lia]. apply Hall. by apply list_elem_of_In.
Qed.

Lemma strptime_text c : valid_civil c → strptime (date_text c +:+ "T" +:+ time_text c) = Ok c.
Proof.
  intros ((Hy & Hm & Hd) & Hy' & Hhh & Hmm & Hss). pose proof (days_in_month_bound (cv_year c) (cv_month c)).
  unfold strptime, split_date.
  assert (Hdash : lacks "T" (date_text c) = true).
  { unfold date_text, lacks. rewrite !str_forallb_app. fold (lacks "T" (pad4 (cv_year c))) (lacks "T" (pad2 (cv_month c))) (lacks "T" (pad2 (cv_day c))).
    rewrite pad4_lacks, !pad2_lacks by (done || lia). done. }
  change ("T" +:+ time_text c) with (String "T" (time_text c)). rewrite partition_on_app by done. cbn [mbind option_bind].
  unfold date_text. change ("-" +:+ pad2 (cv_month c) +:+ "-" +:+ pad2 (cv_day c)) with (String "-" (pad2 (cv_month c) +:+ String "-" (pad2 (cv_day c)))).
  rewrite (split_on_cons _ (pad4 _)) by (apply pad4_lacks; [done|lia]). rewrite split_on_cons by (apply pad2_lacks; [done|lia]). rewrite split_on_lacks by (apply pad2_lacks; [done|lia]).
  unfold time_text. change (":" +:+ pad2 (cv_minute c) +:+ ":" +:+ pad2 (cv_second c)) with (String ":" (pad2 (cv_minute c) +:+ String ":" (pad2 (cv_second c)))).
  rewrite !split_on_cons by (apply pad2_lacks; [done|lia]). rewrite split_on_lacks by (apply pad2_lacks; [done|lia]).
  assert (str_length (pad4 (cv_year c)) = 4%nat) as ->.
  { pose proof (pad4_fields (cv_year c) ltac:(lia)) as Hf. unfold pad4_ok in Hf. bool_facts. by apply Nat.eqb_eq. }
  cbn [Nat.eqb]. rewrite time_field_pad4, day_field_pad2, !time_field_pad2 by lia. cbn [mbind option_bind of_option result_bind cv_year cv_month cv_day cv_second].
  destruct (Z.eqb_spec (cv_year c) 0); [lia|]. destruct (Z.ltb_spec (days_in_month (cv_year c) (cv_month c)) (cv_day c)); [lia|].
  destruct (Z.ltb_spec 59 (cv_second c)); [lia|]. cbn [raise_if mbind result_bind]. by destruct c.
Qed.

Lemma date_time_lacks c a : valid_civil c → a = "."%char ∨ a = "Z"%char → lacks a (date_text c +:+ "T" +:+ time_text c) = true.
Proof.
  intros ((Hy & Hm & Hd) & Hy' & Hhh & Hmm & Hss) Ha. pose proof (days_in_month_bound (cv_year c) (cv_month c)).
  assert (Hdig : is_digit a = false) by (by destruct Ha as [-> | ->]).
  unfold date_text, time_text. unfold lacks. rewrite !str_forallb_app. fold (lacks a (pad4 (cv_year c))).
  rewrite pad4_lacks by (done || lia).
  repeat match goal with |- context [str_forallb _ (pad2 ?z)] => fold (lacks a (pad2 z)) end. rewrite !pad2_lacks by (done || lia).
  by destruct Ha as [-> | ->].
Qed.

(** A timestamp of the Docker daemon is read as the moment it shows, in the zone of the
    process: the text of any date from year 1 to 9999 and time of day, with a fraction of any number of
    digits, is understood, its whole seconds count the days of the calendar, in which the day
    after a date has the next number, and the fraction is added to them. *)
Theorem timestamp_understood {F} `{!Floats F} utc_offset c fraction (f : F) :
  valid_civil c → isdigit fraction = true → f_parse ("0." +:+ fraction) = Ok f →
  parse_timestamp utc_offset (docker_text c fraction) = Ok (f_add (f_of_Z (seconds_of c - utc_offset (seconds_of c))) f) ∧
  (∀ y m d, next_day (cv_year c) (cv_month c) (cv_day c) = (y, m, d) →
     seconds_of (Civil y m d (cv_hour c) (cv_minute c) (cv_second c)) = seconds_of c + 86400).
Proof.
  intros Hc Hfrac Hf. split.
  - unfold parse_timestamp, docker_text.
    assert (date_text c +:+ "T" +:+ time_text c +:+ "." +:+ fraction +:+ "Z" =
            ((date_text c +:+ "T" +:+ time_text c) +:+ String "." fraction) +:+ String "Z" "") as -> by (by rewrite !str_app_assoc).
    rewrite rstrip_by_last by done. rewrite rstrip_by_none, partition_on_app.
    + rewrite strptime_text by done. cbn [mbind result_bind]. by rewrite Hf.
    + apply date_time_lacks; [done|by left].
    + rewrite str_forallb_app. apply andb_true_iff. split.
      * pose proof (date_time_lacks c "Z" Hc (or_intror eq_refl)) as H. eapply str_forallb_impl; [|exact H].
        intros a Ha. by rewrite Ascii.eqb_sym.
      * cbn [str_forallb]. apply andb_true_iff. split; [done|]. apply andb_true_iff in Hfrac as [_ Hd].
        eapply str_forallb_impl; [|exact Hd]. intros a Ha. destruct (Ascii.eqb_spec "Z" a) as [<-|]; [by vm_compute in Ha|done].
  - intros y m d Hn. destruct Hc as (Hv & _). destruct (ordinal_next_day _ _ _ _ _ _ Hv Hn) as [_ H].
    unfold seconds_of. cbn [cv_year cv_month cv_day cv_hour cv_minute cv_second]. rewrite H. lia.
Qed.

(** Integers in place of floats, with texts truncated to their whole part *)
Definition truncating_floats : Floats Z := {|
  f_of_Z := f_of_Z; f_of_value := f_of_value; f_mul := f_mul; f_add := f_add; f_sub := f_sub; f_div := f_div; f_ratio := f_ratio;
  f_abs := f_abs; f_ltb := f_ltb; f_eqb := f_eqb; f_lit := f_lit; f_round := f_round; f_value := f_value; f_mean := f_mean;
  f_fmean := f_fmean; f_stdev := f_stdev; f_parse text := py_int_exn (partition_on "." text).1; f_repr := f_repr;
  f_fixed := f_fixed; f_sci := f_sci
|}.

Lemma timestamp_understood_witness :
  parse_timestamp (Floats0 := truncating_floats) (λ _, 0) "2024-02-29T23:59:58.000000000Z" = Ok 1709251198 ∧
  seconds_of (Civil 2024 3 1 23 59 58) = seconds_of (Civil 2024 2 29 23 59 58) + 86400.
Proof.
  destruct (timestamp_understood (Floats0 := truncating_floats) (λ _, 0) (Civil 2024 2 29 23 59 58) "000000000" 0) as [H1 H2];
    [unfold valid_civil, valid_date; vm_compute; repeat split; discriminate|reflexivity|vm_compute; reflexivity|].
  split; [etrans; [exact H1|vm_compute; reflexivity]|exact (H2 2024 3 1 eq_refl)].
Defined.

End Timestamps.

(** ** The final cycle count *)

Section LastMatch.
Context {A : Type} (at_ : string → option (A * string)).
Context (shrinks : ∀ s a rest, at_ s = Some (a, rest) → ∃ c b, s = String c b +:+ rest).

Lemma at_shorter s a rest : at_ s = Some (a, rest) → (str_length rest < str_length s)%nat.
Proof using shrinks. intros (c & b & ->)%shrinks. rewrite str_length_app. cbn [str_length]. lia. Qed.

(** The last match of a scan has no match behind it. *)
Lemma scan_last s a :
  last (scan at_ s) = Some a →
  ∃ pre here rest, s = pre +:+ here ∧ at_ here = Some (a, rest) ∧ scan at_ rest = [].
Proof using shrinks.
  unfold scan at 1. generalize (S (str_length s)) as fuel, (Nat.lt_succ_diag_r (str_length s)).
  intros fuel. revert s. induction fuel as [|fuel IH]; intros s Hf Hl; [lia|]. cbn [scan_go] in Hl.
  destruct (at_ s) as [[b rest]|] eqn:E.
  - pose proof (at_shorter _ _ _ E).
    destruct (shrinks _ _ _ E) as (c & t & Hs). destruct (scan_go at_ fuel rest) as [|x l] eqn:Er.
    + injection Hl as ->. exists "", s, rest. split; [done|]. split; [done|]. rewrite <- Er. symmetry. apply (scan_enough at_); [apply at_shorter|lia].
    + rewrite last_cons in Hl. destruct (last (x :: l)) as [y|] eqn:Ey; [|by apply last_None in Ey]. injection Hl as ->.
      destruct (IH rest ltac:(lia)) as (pre & here & r & -> & H1 & H2); [by rewrite Er|].
      exists (String c t +:+ pre), here, r. split; [|done]. by rewrite str_app_assoc.
  - destruct s as [|c s]; [done|]. cbn [str_length] in Hf. destruct (IH s ltac:(lia) Hl) as (pre & here & r & -> & H).
    exists (String c pre), here, r. by split.
Qed.

End LastMatch.

(** *** The pattern *)

Definition COMPLETED : string := "**** End of Simulation ****".

(** [log] holds the marker and behind it a cycle count. *)
Definition completes (log pre mid digits post : string) : Prop :=
  log = pre +:+ COMPLETED +:+ mid +:+ "Benchmark elapses " +:+ digits +:+ " cycle" +:+ post ∧ isdigit digits = true.

Lemma span_digits_spec s d r : span_digits s = (d, r) → s = d +:+ r ∧ str_forallb is_digit d = true.
Proof.
  revert d r. induction s as [|c s IH]; intros d r; cbn [span_digits]; [by intros [= <- <-]|].
  destruct (is_digit c) eqn:Ec; [|by intros [= <- <-]]. destruct (span_digits s) as [d' r'] eqn:E. intros [= <- <-].
  destruct (IH _ _ eq_refl) as [-> Hd]. split; [done|]. cbn [str_forallb]. by rewrite Ec.
Qed.

Lemma elapsed_at_Some s digits rest :
  elapsed_at s = Some (digits, rest) ↔ s = "Benchmark elapses " +:+ digits +:+ " cycle" +:+ rest ∧ isdigit digits = true.
Proof.
  unfold elapsed_at, number_at. split.
  - destruct (strip_prefix "Benchmark elapses " s) as [r|] eqn:E; [|done]. apply strip_prefix_Some in E as ->.
    destruct (span_digits r) as [d x] eqn:Ed. apply span_digits_spec in Ed as [-> Hd]. destruct (String.eqb_spec d ""); [done|].
    destruct (strip_prefix " cycle" x) as [y|] eqn:Ey; [|done]. apply strip_prefix_Some in Ey as ->. intros [= <- <-].
    split; [done|]. unfold isdigit. rewrite Hd. by destruct (String.eqb_spec d "").
  - intros [-> [Hne Hd]%andb_true_iff]. assert (strip_prefix "Benchmark elapses " ("Benchmark elapses " +:+ digits +:+ " cycle" +:+ rest)
      = Some (digits +:+ " cycle" +:+ rest)) as -> by (by apply strip_prefix_Some).
    rewrite span_digits_app by (done || by intros ? ? [= <- <-]). apply negb_true_iff in Hne. rewrite Hne.
    assert (strip_prefix " cycle" (" cycle" +:+ rest) = Some rest) as -> by (by apply strip_prefix_Some). done.
Qed.

Lemma search_elapsed_Some s digits rest :
  search_elapsed s = Some (digits, rest) → ∃ mid, s = mid +:+ "Benchmark elapses " +:+ digits +:+ " cycle" +:+ rest ∧ isdigit digits = true.
Proof.
  induction s as [|c s IH]; cbn [search_elapsed]; [done|]. destruct (elapsed_at (String c s)) as [[d r]|] eqn:E.
  - intros [= <- <-]. apply elapsed_at_Some in E as [-> Hd]. by exists "".
  - intros (mid & -> & Hd)%IH. by exists (String c mid).
Qed.

Lemma search_elapsed_None s : search_elapsed s = None → ∀ a rest, s = a +:+ rest → elapsed_at rest = None.
Proof.
  induction s as [|c s IH]; cbn [search_elapsed]; intros H a rest Hs; [by destruct a, rest|].
  destruct (elapsed_at (String c s)) as [?|] eqn:E; [done|]. destruct a as [|x a]; [cbn in Hs; by subst|].
  injection Hs as -> ->. by apply (IH H a rest).
Qed.

Lemma final_at_Some s digits rest : final_at s = Some (digits, rest) → ∃ mid, completes s "" mid digits rest.
Proof.
  unfold final_at. destruct (strip_prefix _ s) as [r|] eqn:E; [|done]. apply strip_prefix_Some in E as ->.
  intros (mid & -> & Hd)%search_elapsed_Some. by exists mid.
Qed.

Lemma final_at_shrinks s digits rest : final_at s = Some (digits, rest) → ∃ c b, s = String c b +:+ rest.
Proof.
  intros (mid & -> & _)%final_at_Some. exists "*"%char, ("*** End of Simulation ****" +:+ mid +:+ "Benchmark elapses " +:+ digits +:+ " cycle").
  change (String "*" ("*** End of Simulation ****" +:+ mid +:+ "Benchmark elapses " +:+ digits +:+ " cycle"))
    with (COMPLETED +:+ mid +:+ "Benchmark elapses " +:+ digits +:+ " cycle").
  by rewrite !str_app_assoc.
Qed.

Lemma scan_final_nil log : scan final_at log = [] ↔ ∀ pre mid digits post, ¬ completes log pre mid digits post.
Proof.
  rewrite scan_nil. split.
  - intros H pre mid digits post [-> Hd]. specialize (H pre _ eq_refl). unfold final_at in H.
    assert (strip_prefix "**** End of Simulation ****" (COMPLETED +:+ mid +:+ "Benchmark elapses " +:+ digits +:+ " cycle" +:+ post)
      = Some (mid +:+ "Benchmark elapses " +:+ digits +:+ " cycle" +:+ post)) as Hs by (by apply strip_prefix_Some).
    rewrite Hs in H. pose proof (search_elapsed_None _ H mid _ eq_refl) as He.
    assert (elapsed_at ("Benchmark elapses " +:+ digits +:+ " cycle" +:+ post) = Some (digits, post)) by (by apply elapsed_at_Some). congruence.
  - intros H a rest ->. destruct (final_at rest) as [[d r]|] eqn:E; [|done]. apply final_at_Some in E as (mid & -> & Hd).
    exfalso. apply (H a mid d r). by split.
Qed.

Lemma parse_digits_total acc last_digit s :
  str_forallb is_digit s = true → (s = "" → last_digit = true) → is_Some (parse_digits acc last_digit s).
Proof.
  revert acc last_digit. induction s as [|c s IH]; intros acc last_digit Hd Hl; cbn [parse_digits]; [rewrite Hl; eauto|].
  cbn [str_forallb] in Hd. apply andb_true_iff in Hd as [-> Hd]. by apply IH.
Qed.

Lemma digit_not_space c : is_digit c = true → is_space c = false.
Proof.
  intros H%is_digit_range. unfold is_space. apply orb_false_iff. split; apply andb_false_iff; right; apply Nat.leb_gt; lia.
Qed.

(** Digits are an integer. *)
Lemma py_int_digits s : isdigit s = true → is_Some (py_int s).
Proof.
  intros [Hne Hd]%andb_true_iff. unfold py_int. rewrite strip_no_space.
  2:{ eapply str_forallb_impl; [|exact Hd]. intros c Hc. by rewrite (digit_not_space _ Hc). }
  destruct s as [|c s]; [done|].
  assert (Hc : is_digit c = true) by (cbn [str_forallb] in Hd; by apply andb_true_iff in Hd as [? _]).
  destruct (Ascii.eqb_spec c "-") as [->|]; [done|]. destruct (Ascii.eqb_spec c "+") as [->|]; [done|].
  by apply parse_digits_total.
Qed.

Lemma completion_cycles_spec log run_directory :
  (∀ n, completion_cycles log run_directory = Ok n →
     ∃ pre mid digits post, completes log pre mid digits post ∧ py_int digits = Some n ∧
       ∀ pre' mid' digits' post', ¬ completes post pre' mid' digits' post') ∧
  ((∃ pre mid digits post, completes log pre mid digits post) → is_ok (completion_cycles log run_directory) = true).
Proof.
  unfold completion_cycles. split.
  - intros n. destruct (last (scan final_at log)) as [d|] eqn:E; [|done].
    apply (scan_last final_at) in E as (pre & here & rest & -> & H & Hnone); [|intros s a r; apply final_at_shrinks].
    apply final_at_Some in H as (mid & -> & Hd). intros Hn. exists pre, mid, d, rest.
    split; [by split|]. split; [unfold py_int_exn in Hn; by apply of_option_Ok in Hn|]. by apply scan_final_nil.
  - intros (pre & mid & digits & post & Hc). destruct (last (scan final_at log)) as [d|] eqn:E.
    + apply (scan_last final_at) in E as (p & here & rest & -> & H & _); [|intros s a r; apply final_at_shrinks].
      apply final_at_Some in H as (m & _ & Hd). unfold py_int_exn. by destruct (py_int_digits _ Hd) as [z ->].
    + apply last_None in E. by destruct (proj1 (scan_final_nil log) E pre mid digits post).
Qed.

Lemma run_metrics_Ok {F} `{!Floats F} utc_offset run_directory nodes timing metrics log (row : run_row (F:=F)) :
  run_metrics utc_offset run_directory nodes timing metrics log = Ok row →
  ∃ start finish n t1 t2,
    dict_get "exit" timing = Some "0" ∧ completion_cycles log run_directory = Ok n ∧
    dict_get "start" timing = Some start ∧ dict_get "finish" timing = Some finish ∧
    parse_timestamp utc_offset start = Ok t1 ∧ parse_timestamp utc_offset finish = Ok t2 ∧
    rr_total row = f_sub t2 t1 ∧ f_ltb (f_of_Z 0) (rr_total row) = true ∧ rr_nodes row = nodes ∧
    dict_get "benchmark_completion_cycles" (rr_cells row) = Some (PInt n).
Proof.
  unfold run_metrics. intros H. apply bind_Ok in H as (u1 & H1%raise_if_Ok & H). apply bind_Ok in H as (u2 & _ & H).
  apply bind_Ok in H as (n & Hn & H). apply bind_Ok in H as (t2 & (finish & Hfin & Ht2)%bind_Ok & H).
  apply bind_Ok in H as (t1 & (start & Hstart & Ht1)%bind_Ok & H). apply bind_Ok in H as (u3 & H3%raise_if_Ok & H).
  do 7 (apply bind_Ok in H as (? & _ & H)). injection H as <-. cbn [rr_total rr_nodes rr_cells].
  apply negb_false_iff, bool_decide_eq_true in H1. apply negb_false_iff in H3.
  exists start, finish, n, t1, t2. unfold dict_item in Hfin, Hstart. apply of_option_Ok in Hfin, Hstart. done.
Qed.


Lemma count_cells_keys metrics ks cells : count_cells metrics ks = Ok cells → cells.*1 = ks.
Proof.
  unfold count_cells. rewrite mapM_result_Ok. induction 1 as [|k c ks cells Hk _ IH]; [done|].
  apply bind_Ok in Hk as (z & _ & [= <-]). cbn. by rewrite IH.
Qed.

Lemma scope_cells_keys {F} `{!Floats F} metrics scope (wait sync total : F) cells :
  scope_cells metrics scope wait sync total = Ok cells →
  cells.*1 = [scope +:+ "_dependency_wait_seconds"; scope +:+ "_dependency_wait_percent"; scope +:+ "_transport_sync_seconds";
              scope +:+ "_transport_sync_overhead_percent"] ++ scope_counts scope.
Proof.
  unfold scope_cells. intros (wp & _ & (sp & _ & (counts & Hc%count_cells_keys & [= <-])%bind_Ok)%bind_Ok)%bind_Ok.
  cbn. by rewrite Hc.
Qed.

(** The columns of the table; [src/scripts/plot_mlp_dp_scaleout.py], which says it reads this table, asks
    for a column that is not among them. *)
Theorem row_columns {F} `{!Floats F} utc_offset run_directory nodes timing metrics log (row : run_row (F:=F)) :
  run_metrics utc_offset run_directory nodes timing metrics log = Ok row →
  (rr_cells row).*1 =
    ["nodes"; "benchmark_completion_cycles"; "total_simulation_seconds"] ++
    (["cross_legosim"; "cross_physical_host"] ≫= λ scope,
       [scope +:+ "_dependency_wait_seconds"; scope +:+ "_dependency_wait_percent"; scope +:+ "_transport_sync_seconds";
        scope +:+ "_transport_sync_overhead_percent"] ++ scope_counts scope) ++ NS3_COUNTS ∧
  ("cross_node_sync_overhead_percent" ∉ (rr_cells row).*1).
Proof.
  unfold run_metrics. intros H. do 10 (apply bind_Ok in H as (? & _ & H)).
  apply bind_Ok in H as (logical & Hl%scope_cells_keys & H). apply bind_Ok in H as (physical & Hp%scope_cells_keys & H).
  apply bind_Ok in H as (ns3 & Hn%count_cells_keys & [= <-]). cbn [rr_cells]. rewrite !fmap_cons, !fmap_app, Hl, Hp, Hn.
  split; [by rewrite <- !app_assoc|]. apply (bool_decide_unpack _). vm_compute. exact I.
Qed.

Definition demo_artifacts : gmap string string :=
  {["r/coordinator_timing.txt" := "start=2024-03-01T00:00:00.5Z" +:+ nl +:+ "finish=2024-03-01T00:01:40.5Z" +:+ nl +:+ "exit=0";
    "r/metrics.txt" := "cross_legosim_bytes=64";
    "r/coordinator.log" := "**** End of Simulation ****" +:+ nl +:+ "Benchmark elapses 7 cycle" +:+ nl +:+
                           "**** End of Simulation ****" +:+ nl +:+ "Benchmark elapses 42 cycle"]}.

Definition demo_row : result (run_row (F:=Z)) :=
  (collect_run (Floats0 := truncating_floats) (λ _, 0) "r" 4 (Host (Filesystem ∅ demo_artifacts) [] 0)).2.


Lemma row_columns_witness :
  ∃ row, run_metrics (F:=Z) (Floats0 := truncating_floats) (λ _, 0) "r" 4
      [("start", "2024-03-01T00:00:00.5Z"); ("finish", "2024-03-01T00:01:40.5Z"); ("exit", "0")] []
      "**** End of Simulation ****Benchmark elapses 7 cycle" = Ok row ∧
    ("cross_node_sync_overhead_percent" ∉ (rr_cells row).*1).
Proof.
  destruct (run_metrics (F:=Z) (Floats0 := truncating_floats) (λ _, 0) "r" 4
      [("start", "2024-03-01T00:00:00.5Z"); ("finish", "2024-03-01T00:01:40.5Z"); ("exit", "0")] []
      "**** End of Simulation ****Benchmark elapses 7 cycle") as [row|e] eqn:E; [|vm_compute in E; discriminate E].
  exists row. split; [done|]. exact (proj2 (row_columns (Floats0 := truncating_floats) _ _ _ _ _ _ row E)).
Defined.
