(* ===== verification/Reports.v ===== *)
(** * Reports and checks

    Models of [src/scripts/analyze_results.py] (Module [Analyze]), the report on the container
    experiments; [src/real/verify_workloads.py] (Module [Verify]), the check of the workload
    manifest against a checkout; and [src/real/mnsim_compat.py] (Module [Mnsim]), the stand-in
    for the accelerator model.  [json.loads], [yaml.safe_load] and the clock's text are arguments. *)

From S2P Require Import Prelude PyValue Csv Worker Proxy Steady Host Platform Swarm Experiments Latency.

(** ** [analyze_results.py] *)

Module Analyze.
Section Analyze.
Context {F : Type} `{!Floats F}.

(** One measurement: the columns other than the three keys. *)
Abbreviation measures := (list (string * F)).
Abbreviation groups := (list (string * Z * list measures)).

Definition pop_item (k : string) (r : csv_record) : result (option string * csv_record) :=
  v ← dict_item k r; Ok (v, dict_pop k r).

(** [groups[key].append(m)] *)
Fixpoint append_group (key : string * Z) (m : measures) (d : groups) : groups :=
  match d with
  | [] => [(key, [m])]
  | (key', l) :: d => if bool_decide (key' = key) then (key', l ++ [m]) :: d else (key', l) :: append_group key m d
  end.

Definition add_row (d : groups) (source_row : csv_record) : result groups :=
  '(benchmark, source_row) ← pop_item "benchmark" source_row;
  '(containers, source_row) ← pop_item "containers" source_row;
  node_count ← (t ← containers ?! TypeError; py_int_exn t);
  '(_, source_row) ← pop_item "repetition" source_row;
  m ← mapM (λ kv, t ← kv.2 ?! TypeError; x ← f_parse t; Ok (kv.1, x)) source_row;
  benchmark ← benchmark ?! TypeError;
  Ok (append_group (benchmark, node_count) m d).

Definition read_groups (text : string) : result groups := fold_result add_row [] (dict_rows text).

(** [groups[(benchmark, node_count)]] of a [defaultdict] *)
Fixpoint group_of (key : string * Z) (d : groups) : list measures :=
  match d with [] => [] | (key', l) :: d => if bool_decide (key' = key) then l else group_of key d end.

Definition average (rows : list measures) (column : string) : result F :=
  values ← mapM (dict_item column) rows; f_mean values.

Definition NODE_COUNTS : list Z := [1; 2; 4; 8].

(** The line of one benchmark and node count. *)
Definition report_line (d : groups) (benchmark : string) (baseline : F) (node_count : Z) : result string :=
  let rows := group_of (benchmark, node_count) d in
  total_time ← average rows "total_time_s";
  cross ← average rows "cross_machine_time_s";
  sync ← average rows "synchronization_time_s";
  efficiency ← f_div baseline (f_mul total_time (f_of_Z node_count));
  Ok ("| " +:+ benchmark +:+ " | " +:+ str_of_Z node_count +:+ " | " +:+ f_fixed 6 total_time +:+ " | " +:+
      f_fixed 6 cross +:+ " | " +:+ f_fixed 6 sync +:+ " | " +:+ f_fixed 3 efficiency +:+ " |").

Definition benchmark_lines (d : groups) (benchmark : string) : result (list string) :=
  baseline ← average (group_of (benchmark, 1) d) "total_time_s";
  mapM (report_line d benchmark baseline) NODE_COUNTS.

Definition benchmarks (d : groups) : list string := py_sorted String.leb (remove_dups (fst ∘ fst <$> d)).

Definition heading (repetitions : Z) : list string :=
  ["# Eight-workload Docker-node experiment results";
   "";
   "The workload names follow ODHS Table II. Inputs are reduced synthetic traces, not the paper's original large datasets.";
   "Each entry is the mean of " +:+ str_of_Z repetitions +:+ " independent Docker run(s) on this one host.";
   "Every configuration contains the same four CPU simlets and eight GPU simlets; only their Docker-node placement changes.";
   "";
   "| Benchmark | Nodes | Total time (s) | Cross-node communication (s) | Synchronization time (s) | Parallel efficiency |";
   "|---|---:|---:|---:|---:|---:|"].

Definition DEFINITIONS : list string :=
  ["";
   "## Metric definitions";
   "";
   "- Total time: CPU0 controller wall-clock interval from trace start to all four CPU workflows completing.";
   "- Cross-node communication: critical-path time consumed by application data transfers whose source and destination are in different Docker nodes; it includes ns-3-modeled link delay and RPC handling.";
   "- Synchronization time: critical-path controller wait for data-transfer completion and GPU replies.";
   "- Parallel efficiency: T1 / (Tn * n), separately for each benchmark.";
   "- Node mapping: 1 node co-locates all 12 simlets and ns-3. The 2-, 4-, and 8-node placements distribute the same simlets without proxy-only nodes; each multi-node placement has cross-node CPU-to-GPU traffic."].

Definition report (d : groups) : result (list string) :=
  repetitions ← (zlen ∘ snd) <$> (head d ?! StopIteration);
  lines ← mapM (benchmark_lines d) (benchmarks d);
  Ok (heading repetitions ++ concat lines ++ DEFINITIONS).

(** [summary_path.with_name(name)] *)
Definition with_name (path name : string) : string :=
  match rpartition_on "/" (path_str path) with Some (directory, _) => path_div directory name | None => name end.

Definition main (summary_path : string) : H unit :=
  text ← h_read summary_path;
  d ← h_lift (read_groups text);
  lines ← h_lift (report d);
  h_write (with_name summary_path "REPORT.md") (join nl lines +:+ nl).

End Analyze.
End Analyze.

(** ** [verify_workloads.py] *)

Module Verify.
Section Verify.
Context (json_loads yaml_load : string → result pyval).

(** [len(v)] *)
Definition len (v : pyval) : result Z :=
  match v with
  | PStr s => Ok (Z.of_nat (str_length s))
  | PList l => Ok (zlen l)
  | PDict d => Ok (zlen d)
  | _ => Err TypeError
  end.

Definition check_phase (name : string) (workload config : pydict) (phase : string) : result unit :=
  expected ← dict_item (phase +:+ "_processes") workload;
  actual ← len (dict_get_default phase (PList []) config);
  raise_if (negb (eq_int expected actual))
    (ValueError (name +:+ ": " +:+ phase +:+ " count is " +:+ str_of_Z actual +:+ ", expected " +:+ py_str expected)).

Definition check_workload (legosim_root : string) (entry : string * pyval) : H unit :=
  workload ← h_lift (is_dict entry.2 ?! TypeError);
  yaml ← h_lift (v ← dict_item "yaml" workload; is_str v ?! TypeError);
  let source := path_div legosim_root yaml in
  exists_ ← h_is_file source;
  _ ← h_lift (raise_if (negb exists_) (FileNotFoundError (entry.1 +:+ ": missing " +:+ source)));
  text ← h_read source;
  value ← h_lift (yaml_load text);
  config ← h_lift (is_dict value ?! AttributeError);
  _ ← h_lift (check_phase entry.1 workload config "phase1");
  h_lift (check_phase entry.1 workload config "phase2").

Definition main (legosim_root manifest : string) : H string :=
  text ← h_read manifest;
  value ← h_lift (json_loads text);
  document ← h_lift (is_dict value ?! TypeError);
  workloads ← h_lift (v ← dict_item "workloads" document; is_dict v ?! AttributeError);
  _ ← h_for (check_workload legosim_root) workloads;
  mret "native workload manifest: passed".

End Verify.
End Verify.

(** ** [mnsim_compat.py] *)

Module Mnsim.

Definition SOURCE_CALIBRATED_CYCLES : Z := 42892008.

Record arguments := Arguments {
  ar_workload : string;
  ar_id1 : Z;
  ar_id2 : Z;
  ar_payload_elements : Z;
  ar_element_bytes : Z;
  ar_output : string;
  ar_audit : string;
}.

Definition audit (a : arguments) (timestamp_utc : string) : pydict :=
  [("backend", PStr "source-calibrated-mnsim-compat-v1");
   ("calibration_source", PStr "MNSIMChiplet/result_0_2.res");
   ("calibrated_cycles", PInt SOURCE_CALIBRATED_CYCLES);
   ("workload", PStr (ar_workload a));
   ("chiplet", PList [PInt (ar_id1 a); PInt (ar_id2 a)]);
   ("payload_bytes", PInt (ar_payload_elements a * ar_element_bytes a));
   ("timestamp_utc", PStr timestamp_utc)].

Definition WORKLOADS : list string := ["mlp"; "resnet"; "bfs"].

Definition main (timestamp_utc : string) (a : arguments) : H unit :=
  _ ← h_lift (raise_if (negb (existsb (String.eqb (ar_workload a)) WORKLOADS)) (SystemExit "argument --workload: invalid choice"));
  _ ← h_lift (raise_if ((ar_payload_elements a <? 1) || (ar_element_bytes a <? 1)) (ValueError "payload dimensions must be positive"));
  _ ← h_write (ar_output a) (str_of_Z SOURCE_CALIBRATED_CYCLES +:+ nl);
  h_write (ar_audit a) (json_indent 0 (PDict (audit a timestamp_utc)) +:+ nl).

End Mnsim.

(** ** The report of a summary *)

Section Groups.
Import Analyze.

Lemma group_of_append {F} key key' m (d : list (string * Z * list (list (string * F)))) :
  group_of key (append_group key' m d) = group_of key d ++ (if bool_decide (key' = key) then [m] else []).
Proof.
  induction d as [|[k l] d IH]; cbn [append_group group_of]; [by destruct (bool_decide (key' = key))|].
  destruct (decide (k = key')) as [->|Hk].
  - rewrite (bool_decide_eq_true_2 (key' = key')) by done. cbn [group_of]. destruct (decide (key' = key)) as [->|Hn].
    + by rewrite bool_decide_eq_true_2.
    + by rewrite bool_decide_eq_false_2, app_nil_r by done.
  - rewrite (bool_decide_eq_false_2 (k = key')) by done. cbn [group_of]. destruct (decide (k = key)) as [->|Hn].
    + rewrite bool_decide_eq_true_2 by done. rewrite bool_decide_eq_false_2 by congruence. by rewrite app_nil_r.
    + by rewrite (bool_decide_eq_false_2 (k = key)) by done.
Qed.

Lemma append_group_keys {F} key m (d : list (string * Z * list (list (string * F)))) k :
  k ∈ (append_group key m d).*1 ↔ k ∈ d.*1 ∨ k = key.
Proof.
  induction d as [|[k' l] d IH]; cbn [append_group]; [cbn; set_solver|].
  destruct (decide (k' = key)) as [->|Hk]; [rewrite bool_decide_eq_true_2 by done; cbn; set_solver|].
  rewrite bool_decide_eq_false_2 by done. rewrite !fmap_cons, !elem_of_cons, IH. tauto.
Qed.

Lemma append_group_head {F} key m (d : list (string * Z * list (list (string * F)))) :
  fst <$> head (append_group key m d) = Some (default key (fst <$> head d)).
Proof. destruct d as [|[k l] d]; [done|]. cbn. by destruct (bool_decide (k = key)). Qed.

End Groups.

Section Grouped.
Context {F : Type}.
Import Analyze.

Definition key_of (r : row F) : string * Z := (rw_benchmark r, rw_containers r).

(** The measures of a row with an efficiency *)
Definition measures_of (r : row F) (e : F) : list (string * F) :=
  [("total_time_s", rw_total r); ("synchronization_time_s", rw_synchronization r); ("cross_machine_time_s", rw_cross r);
   ("synchronization_fraction", rw_fraction r); ("parallel_efficiency", e)].

(** The efficiency of a stored row *)
Definition efficiency_of (r : row F) : F := default (rw_total r) (rw_efficiency r).
Definition stored (rows : list (row F)) : Prop := ∀ r, r ∈ rows → is_Some (rw_efficiency r).

Definition grouped (rows : list (row F)) : list (string * Z * list (list (string * F))) :=
  foldl (λ d r, append_group (key_of r) (measures_of r (efficiency_of r)) d) [] rows.

(** The rows of one cell of the report *)
Definition entries (rows : list (row F)) (key : string * Z) : list (row F) := filter (λ r, key_of r = key) rows.

Lemma grouped_spec rows key :
  group_of key (grouped rows) = (λ r, measures_of r (efficiency_of r)) <$> entries rows key.
Proof using Type.
  unfold grouped, entries. induction rows as [|r rows IH] using rev_ind; [done|].
  rewrite foldl_snoc, group_of_append, IH, filter_app, fmap_app. f_equal. rewrite filter_cons, filter_nil.
  destruct (decide (key_of r = key)) as [<-|Hn]; [by rewrite bool_decide_eq_true_2|by rewrite bool_decide_eq_false_2].
Qed.

Lemma grouped_keys rows key : key ∈ (grouped rows).*1 ↔ key ∈ key_of <$> rows.
Proof using Type.
  unfold grouped. induction rows as [|r rows IH] using rev_ind; [done|].
  rewrite foldl_snoc, append_group_keys, IH, fmap_app, elem_of_app. cbn. set_solver.
Qed.

Lemma grouped_head rows : fst <$> head (grouped rows) = key_of <$> head rows.
Proof using Type.
  unfold grouped. induction rows as [|r rows IH] using rev_ind; [done|]. rewrite foldl_snoc, append_group_head, IH.
  by destruct rows.
Qed.
End Grouped.

Section ReportOfSummary.
Context {F : Type} `{!Floats F} `{!FloatText F}.
Import Analyze.

Lemma add_row_fields d (r : row F) e :
  rw_efficiency r = Some e → add_row d (name_fields FIELDS (row_fields r)) = Ok (append_group (key_of r) (measures_of r e) d).
Proof using All.
  intros He. destruct r as [b n k t s c f o]. cbn in He. subst o.
  unfold row_fields, key_of, measures_of. cbn [rw_benchmark rw_containers rw_repetition rw_total rw_synchronization rw_cross rw_fraction rw_efficiency default from_option fmap option_fmap option_map].
  unfold add_row, pop_item, dict_item. cbn [name_fields set_fields FIELDS head tail dict_set dict_get dict_pop String.eqb Ascii.eqb Bool.eqb of_option mbind result_bind].
  rewrite py_int_exn_str. cbn [mbind result_bind].
  rewrite !mapM_result_cons. cbn [snd of_option mbind result_bind]. unfold id. rewrite !f_parse_repr. cbn [mbind result_bind]. done.
Qed.

Lemma read_groups_summary rows : stored rows → read_groups (summary_text rows) = Ok (grouped rows).
Proof using All.
  intros Hs. unfold read_groups, summary_text, grouped. rewrite dict_rows_written; [|done|].
  - generalize ([] : list (string * Z * list (list (string * F)))). induction rows as [|r rows IH]; intros d; [done|].
    destruct (Hs r) as [e He]; [by left|]. rewrite !fmap_cons. cbn [fold_result foldl]. rewrite (add_row_fields _ _ _ He).
    unfold efficiency_of at 2. rewrite He. apply IH. intros r' Hr'. apply Hs. by right.
  - apply Forall_fmap, Forall_forall. by intros [].
Qed.

End ReportOfSummary.

(** ** Sorted names *)

Lemma string_leb_cons a s b t :
  String.leb (String a s) (String b t) =
    match N.compare (Ascii.N_of_ascii a) (Ascii.N_of_ascii b) with Lt => true | Eq => String.leb s t | Gt => false end.
Proof. unfold String.leb. cbn [String.compare]. unfold Ascii.compare. by destruct (N.compare _ _). Qed.

Lemma string_leb_trans s t u : String.leb s t = true → String.leb t u = true → String.leb s u = true.
Proof.
  revert t u. induction s as [|a s IH]; intros [|b t] [|c u]; try done. rewrite !string_leb_cons.
  destruct (N.compare_spec (Ascii.N_of_ascii a) (Ascii.N_of_ascii b)) as [H1|H1|H1], (N.compare_spec (Ascii.N_of_ascii b) (Ascii.N_of_ascii c)) as [H2|H2|H2];
    try done; intros Hst Htu; destruct (N.compare_spec (Ascii.N_of_ascii a) (Ascii.N_of_ascii c)) as [H3|H3|H3]; try lia; try done.
  by apply (IH t u).
Qed.

Lemma sorted_names l l' : l ≡ₚ l' → py_sorted String.leb l = py_sorted String.leb l'.
Proof.
  intros Hl. apply (ordered_unique String.leb); [apply String.leb_antisym|apply py_sorted_ordered..|].
  1,3: apply String.leb_total. 1,2: apply string_leb_trans. by rewrite !py_sorted_perm.
Qed.

Section Report.
Context {F : Type} `{!Floats F} `{!FloatText F}.
Import Analyze.

(** The report a reader expects from the rows: the means over the rows of each benchmark and
    node count, and the efficiency against the one-node mean. *)
Definition mean_of (f : row F → F) (rows : list (row F)) : result F := f_mean (f <$> rows).

Definition expected_line (rows : list (row F)) (benchmark : string) (baseline : F) (n : Z) : result string :=
  total ← mean_of rw_total (entries rows (benchmark, n));
  cross ← mean_of rw_cross (entries rows (benchmark, n));
  sync ← mean_of rw_synchronization (entries rows (benchmark, n));
  efficiency ← f_div baseline (f_mul total (f_of_Z n));
  Ok ("| " +:+ benchmark +:+ " | " +:+ str_of_Z n +:+ " | " +:+ f_fixed 6 total +:+ " | " +:+
      f_fixed 6 cross +:+ " | " +:+ f_fixed 6 sync +:+ " | " +:+ f_fixed 3 efficiency +:+ " |").

Definition expected_lines (rows : list (row F)) (benchmark : string) : result (list string) :=
  baseline ← mean_of rw_total (entries rows (benchmark, 1)); mapM (expected_line rows benchmark baseline) [1; 2; 4; 8].

Definition expected_report (rows : list (row F)) : result (list string) :=
  first ← head rows ?! StopIteration;
  lines ← mapM (expected_lines rows) (py_sorted String.leb (remove_dups (rw_benchmark <$> rows)));
  Ok (heading (zlen (entries rows (key_of first))) ++ concat lines ++ DEFINITIONS).

Lemma average_entries rows key column (f : row F → F) :
  (∀ r, dict_get column (measures_of r (efficiency_of r)) = Some (f r)) →
  average (group_of key (grouped rows)) column = mean_of f (entries rows key).
Proof using Type.
  intros Hf. unfold average, mean_of. rewrite grouped_spec.
  assert (mapM (dict_item column) ((λ r, measures_of r (efficiency_of r)) <$> entries rows key) = Ok (f <$> entries rows key)) as ->; [|done].
  induction (entries rows key) as [|r l IH]; [done|]. rewrite !fmap_cons, mapM_result_cons, IH.
  assert (dict_item column (measures_of r (efficiency_of r)) = Ok (f r)) as -> by (unfold dict_item; by rewrite Hf). done.
Qed.

Lemma mapM_ext {A B} (f g : A → result B) l : (∀ x, x ∈ l → f x = g x) → mapM f l = mapM g l.
Proof.
  induction l as [|x l IH]; intros H; [done|]. rewrite !mapM_result_cons, (H x) by (by left).
  rewrite IH; [done|]. intros y Hy. apply H. by right.
Qed.

Lemma report_grouped rows : report (grouped rows) = expected_report rows.
Proof using Type.
  unfold report, expected_report.
  assert (Hb : benchmarks (grouped rows) = py_sorted String.leb (remove_dups (rw_benchmark <$> rows))).
  { unfold benchmarks. apply sorted_names. apply NoDup_Permutation; [apply NoDup_remove_dups..|]. intros b. rewrite !elem_of_remove_dups.
    rewrite list_fmap_compose, !list_elem_of_fmap. split.
    - intros (key & -> & (r & -> & Hr)%grouped_keys%list_elem_of_fmap). eauto.
    - intros (r & -> & Hr). exists (key_of r). split; [done|]. apply grouped_keys, list_elem_of_fmap. eauto. }
  pose proof (grouped_head rows) as Hh. destruct rows as [|r rows]; [done|]. cbn [head] in Hh.
  destruct (grouped (r :: rows)) as [|[key l] d] eqn:E; [done|]. cbn [head fmap option_fmap option_map fst] in Hh. injection Hh as ->.
  cbn [head of_option fmap result_fmap mbind result_bind].
  assert (zlen l = zlen (entries (r :: rows) (key_of r))) as Hl.
  { pose proof (grouped_spec (r :: rows) (key_of r)) as Hg. rewrite E in Hg. cbn [group_of] in Hg.
    rewrite bool_decide_eq_true_2 in Hg by done. rewrite Hg. unfold zlen. by rewrite length_fmap. }
  change ((zlen ∘ snd) (key_of r, l)) with (zlen l). rewrite Hl, Hb, <- E.
  rewrite (mapM_ext _ (expected_lines (r :: rows))); [done|]. intros b _. unfold benchmark_lines, expected_lines.
  rewrite (average_entries _ _ "total_time_s" rw_total) by done. destruct (mean_of rw_total _) as [base|e]; [|done]. cbn [mbind result_bind].
  unfold NODE_COUNTS. apply mapM_ext. intros n _. unfold report_line, expected_line.
  rewrite (average_entries _ _ "total_time_s" rw_total), (average_entries _ _ "cross_machine_time_s" rw_cross),
    (average_entries _ _ "synchronization_time_s" rw_synchronization) by done. done.
Qed.


End Report.

(** A complete matrix of one benchmark, two repetitions each *)
Definition demo_rows : list (row Z) :=
  n ← [1; 2; 4; 8]; k ← [1; 2]; [Row "MLP" n k (240 / n + k) (10 * n) (5 * n) 4 (Some 1)].


(** ** The manifest *)

Section Manifest.
Context (json_loads yaml_load : string → result pyval) (root : string).
Import Verify.

Definition phase_matches (workload config : pydict) (phase : string) : Prop :=
  ∃ expected n, dict_get (phase +:+ "_processes") workload = Some expected ∧
    len (dict_get_default phase (PList []) config) = Ok n ∧ eq_int expected n = true.

(** The checkout has the file of a workload, with as many processes in each phase as the manifest says. *)
Definition workload_matches (files : gmap string string) (entry : string * pyval) : Prop :=
  ∃ workload yaml text config,
    entry.2 = PDict workload ∧ dict_get "yaml" workload = Some (PStr yaml) ∧
    files !! path_div root yaml = Some text ∧ yaml_load text = Ok (PDict config) ∧
    phase_matches workload config "phase1" ∧ phase_matches workload config "phase2".

Lemma check_phase_Ok name workload config phase u :
  check_phase name workload config phase = Ok u ↔ phase_matches workload config phase.
Proof using Type.
  unfold check_phase, phase_matches. split.
  - intros (expected & He & (n & Hn & H%raise_if_Ok)%bind_Ok)%bind_Ok. exists expected, n.
    unfold dict_item in He. apply of_option_Ok in He. split; [done|]. split; [done|]. by apply negb_false_iff.
  - intros (expected & n & He & Hn & H). unfold dict_item. rewrite He. cbn [of_option mbind result_bind]. rewrite Hn.
    cbn [mbind result_bind]. apply raise_if_Ok. by rewrite H.
Qed.

Lemma check_workload_Ok entry h h' u :
  check_workload yaml_load root entry h = (h', Ok u) ↔ h' = h ∧ workload_matches (h_files h) entry.
Proof using Type.
  unfold check_workload, workload_matches. split.
  - intros H. h_inv. apply h_is_file_Ok in Hm1 as [-> _]. apply h_read_Ok in Hm3 as [-> Htext]. apply of_option_Ok in Hr5, Hr1.
    apply bind_Ok in Hr4 as (v & Hv & Hyaml%of_option_Ok). unfold dict_item in Hv. apply of_option_Ok in Hv.
    apply check_phase_Ok in Hr0, Hr. destruct entry as [name e]; cbn [snd] in *. destruct e; try done. injection Hr5 as ->.
    destruct a4; try done. injection Hr1 as ->. destruct v; try done. injection Hyaml as ->. split; [done|].
    by eexists _, _, _, _.
  - intros (-> & workload & yaml & text & config & He & Hy & Ht & Hl & H1 & H2). destruct u.
    unfold mbind, H_bind, h_lift, h_is_file, h_read. rewrite He. cbn [is_dict of_option]. unfold dict_item. rewrite Hy.
    cbn [of_option mbind result_bind is_str]. rewrite Ht. rewrite bool_decide_eq_true_2 by eauto. cbn [negb raise_if of_option]. rewrite Hl.
    cbn [is_dict of_option]. by rewrite (proj2 (check_phase_Ok entry.1 workload config "phase1" ()) H1), (proj2 (check_phase_Ok entry.1 workload config "phase2" ()) H2).
Qed.

Lemma check_all_Ok workloads h h' u :
  h_for (check_workload yaml_load root) workloads h = (h', Ok u) ↔ h' = h ∧ ∀ entry, entry ∈ workloads → workload_matches (h_files h) entry.
Proof using Type.
  revert h. induction workloads as [|entry workloads IH]; intros h; cbn [h_for].
  - split; [intros [= <- _]; split; [done|set_solver]|]. intros [-> _]. by destruct u.
  - rewrite H_bind_Ok. split.
    + intros (h1 & [] & [-> Hm]%check_workload_Ok & [-> Hr]%IH). split; [done|]. intros e [->|He]%elem_of_cons; auto.
    + intros [-> H]. exists h, (). split; [apply check_workload_Ok; split; [done|apply H; by left]|].
      apply IH. split; [done|]. intros e He. apply H. by right.
Qed.

(** The workload check passes exactly when the checkout is the one the manifest describes:
    every workload of the manifest names a file of the checkout that loads as a mapping with, in
    each of the two phases, the number of processes the manifest expects; and it never changes a
    file. *)
Theorem manifest_verified manifest h h' :
  main json_loads yaml_load root manifest h = (h', Ok "native workload manifest: passed") ↔
  h' = h ∧ ∃ text document workloads,
    h_files h !! manifest = Some text ∧ json_loads text = Ok (PDict document) ∧
    dict_get "workloads" document = Some (PDict workloads) ∧
    ∀ entry, entry ∈ workloads → workload_matches (h_files h) entry.
Proof using Type.
  unfold main. split.
  - intros H. h_inv. apply h_read_Ok in Hm as [-> Htext]. apply of_option_Ok in Hr0. destruct a0; try done. injection Hr0 as ->.
    apply bind_Ok in Hr as (v & Hv & Hd%of_option_Ok). unfold dict_item in Hv. apply of_option_Ok in Hv. destruct v; try done.
    injection Hd as ->. apply check_all_Ok in Hm3 as [-> Hall]. injection H as <-. split; [done|]. by eexists _, _, _.
  - intros (-> & text & document & workloads & Ht & Hj & Hw & Hall). unfold mbind, H_bind, h_read, h_lift. rewrite Ht. cbn [of_option].
    rewrite Hj. cbn [is_dict of_option]. unfold dict_item. rewrite Hw. cbn [of_option mbind result_bind is_dict].
    by rewrite (proj2 (check_all_Ok workloads h h ()) (conj eq_refl Hall)).
Qed.

End Manifest.

(** A manifest of one workload, as the loaders return it *)
Definition demo_manifest : pydict :=
  [("workloads", PDict [("mlp", PDict [("yaml", PStr "mlp.yml"); ("phase1_processes", PInt 2); ("phase2_processes", PInt 0)])])].

Lemma manifest_verified_witness :
  ∀ h, h = Host (Filesystem ∅ {["up/mlp.yml" := "y"; "workloads.json" := "m"]}) [] 0 →
  Verify.main (λ _, Ok (PDict demo_manifest)) (λ _, Ok (PDict [("phase1", PList [PNone; PNone])])) "up" "workloads.json" h =
    (h, Ok "native workload manifest: passed").
Proof.
  intros h ->. apply (manifest_verified (λ _, Ok (PDict demo_manifest)) (λ _, Ok (PDict [("phase1", PList [PNone; PNone])]))).
  split; [done|]. eexists _, _, _. split; [reflexivity|]. split; [reflexivity|]. split; [reflexivity|].
  intros entry Hentry. apply elem_of_cons in Hentry as [->|Hentry]; [|by apply elem_of_nil in Hentry].
  eexists _, _, _, _. split; [reflexivity|]. split; [reflexivity|]. split; [reflexivity|]. split; [reflexivity|].
  split; eexists _, _; (split; [reflexivity|]); (split; [reflexivity|reflexivity]).
Defined.
