(* ===== verification/Maintenance.v ===== *)
(** * Container maintenance

    Models of [src/scripts/commit_cuda_bootstrap.py] (Module [CommitBootstrap]), which turns a
    finished container into an image, and of [src/scripts/diagnose_cuda_runtime.py] (Module
    [Diagnose]), which keeps the outcome of one local run.  Commands and [json.loads] are
    arguments; what [CommitBootstrap.main] prints is its result. *)

From S2P Require Import Prelude PyValue Worker Proxy Host Swarm.

(** ** [commit_cuda_bootstrap.py] *)

Module CommitBootstrap.
Section CommitBootstrap.
Context (json_loads : string → result pyval) (exec : capturing).

Definition inspect_command (container : string) : list string := ["docker"; "inspect"; container].
Definition commit_command (container image : string) : list string := ["docker"; "commit"; container; image].
Definition version_command (image : string) : list string :=
  ["docker"; "run"; "--rm"; "--entrypoint"; "nvcc"; image; "--version"].

(** [json.loads(text)[0]["State"]] *)
Definition state_of (text : string) : result pydict :=
  value ← json_loads text;
  entries ← is_list value ?! KeyError "0";
  inspect ← head entries ?! IndexError;
  d ← is_dict inspect ?! TypeError;
  v ← dict_item "State" d;
  is_dict v ?! TypeError.

(** The two refusals. *)
Definition check_state (container : string) (state : pydict) : result unit :=
  running ← dict_item "Running" state;
  _ ← raise_if (truthy running) (RuntimeError ("container " +:+ container +:+ " is still running"));
  code ← dict_item "ExitCode" state;
  raise_if (negb (eq_int code 0))
    (RuntimeError ("container " +:+ container +:+ " exited with " +:+ py_str code +:+ "; refusing to commit it")).

Definition main (container image : string) : H string :=
  text ← h_output exec (inspect_command container);
  state ← h_lift (state_of text);
  _ ← h_lift (check_state container state);
  _ ← h_run (quiet exec) (commit_command container image);
  _ ← h_run (quiet exec) (version_command image);
  mret ("created and verified " +:+ image).

End CommitBootstrap.
End CommitBootstrap.

(** ** [diagnose_cuda_runtime.py] *)

Module Diagnose.

Record arguments := Arguments {
  ar_image : string;
  ar_yaml : string;
  ar_width : Z;
  ar_flit_size : Z;
  ar_output : string;
}.

Definition command (a : arguments) : list string :=
  ["docker"; "run"; "--rm"; "--entrypoint"; "/usr/local/bin/legosim-run"; ar_image a;
   ar_yaml a; "-w"; str_of_Z (ar_width a); "-f"; str_of_Z (ar_flit_size a)].

(** A command with its exit status and its two streams. *)
Abbreviation streaming := (nat → list string → filesystem → filesystem * (Z * string * string)).

Definition h_streams (exec : streaming) (c : list string) : H (Z * string * string) := λ h,
  let '(fs, out) := exec (length (h_calls h)) c (h_fs h) in (Host fs (h_calls h ++ [c]) (h_reads h), Ok out).

Definition transcript (c : list string) (completed : Z * string * string) : string :=
  let '(returncode, stdout, stderr) := completed in
  "command: " +:+ join " " c +:+ nl +:+ "exit_code: " +:+ str_of_Z returncode +:+ nl +:+ nl +:+
  "--- stdout ---" +:+ nl +:+ stdout +:+ nl +:+ "--- stderr ---" +:+ nl +:+ stderr.

(** The exit status of the program. *)
Definition main (exec : streaming) (a : arguments) : H Z :=
  _ ← h_mkdir (parent_of (ar_output a));
  completed ← h_streams exec (command a);
  _ ← h_write (ar_output a) (transcript (command a) completed);
  mret (completed.1.1 : Z).

End Diagnose.

(** ** Laws *)

Section Bootstrap.
Context (json_loads : string → result pyval) (exec : capturing) (container image : string).
Import CommitBootstrap.

(** What the inspection of the container said: it was asked first, and it answered that the
    container has ended with status 0. *)
Definition finished_container (h : host) : Prop :=
  ∃ fs text state running code,
    exec (length (h_calls h)) (inspect_command container) (h_fs h) = (fs, (0, text)) ∧
    state_of json_loads text = Ok state ∧
    dict_get "Running" state = Some running ∧ truthy running = false ∧
    dict_get "ExitCode" state = Some code ∧ eq_int code 0 = true.

Lemma h_output_Ok command h h' text :
  h_output exec command h = (h', Ok text) →
  exec (length (h_calls h)) command (h_fs h) = (h_fs h', (0, text)) ∧ h_calls h' = h_calls h ++ [command].
Proof using Type.
  unfold h_output, h_capture, mbind, H_bind, h_lift, check_returncode.
  destruct (exec (length (h_calls h)) command (h_fs h)) as [fs [status out]]. cbn [fst snd].
  destruct (Z.eqb_spec status 0) as [->|]; [|done]. by intros [= <- <-].
Qed.

Lemma check_state_Ok state u :
  check_state container state = Ok u →
  ∃ running code, dict_get "Running" state = Some running ∧ truthy running = false ∧
    dict_get "ExitCode" state = Some code ∧ eq_int code 0 = true.
Proof using Type.
  intros (running & Hr & (u1 & H1%raise_if_Ok & (code & Hc & H2%raise_if_Ok)%bind_Ok)%bind_Ok)%bind_Ok.
  unfold dict_item in *. apply of_option_Ok in Hr, Hc. exists running, code. by apply negb_false_iff in H2.
Qed.

(** An image is made only from a container that has finished successfully: whatever happens, the
    commands run are an initial part of the inspection, the commit and the version check; the
    commit is among them only if the inspection said that the container ended with status 0;
    and a success is announced only after all three, with the compiler of the new image having
    answered. *)
Theorem committed_only_finished h :
  ∃ ran left_,
    [inspect_command container; commit_command container image; version_command image] = ran ++ left_ ∧
    h_calls (main json_loads exec container image h).1 = h_calls h ++ ran ∧
    ((1 < length ran)%nat → finished_container h) ∧
    (is_ok (main json_loads exec container image h).2 = true → left_ = []).
Proof using Type.
  assert (Hcap : h_calls (h_output exec (inspect_command container) h).1 = h_calls h ++ [inspect_command container]).
  { unfold h_output, h_capture, mbind, H_bind, h_lift.
    by destruct (exec (length (h_calls h)) (inspect_command container) (h_fs h)) as [fs out]. }
  destruct (h_output exec (inspect_command container) h) as [h1 [text|e]] eqn:E1; cbn [fst] in Hcap.
  2:{ unfold main, mbind, H_bind. rewrite E1. eexists [_], [_; _]. cbn. rewrite Hcap. split_and!; [done..|lia|done]. }
  pose proof (h_output_Ok _ _ _ _ E1) as [Hexec _].
  assert (Hmain : ∀ r, (state ← state_of json_loads text; check_state container state) = r →
    main json_loads exec container image h =
      match r with
      | Ok _ => (_ ← h_run (quiet exec) (commit_command container image); _ ← h_run (quiet exec) (version_command image);
                 mret ("created and verified " +:+ image)) h1
      | Err e => (h1, Err e)
      end).
  { intros r <-. unfold main, mbind, H_bind, result_bind, h_lift. rewrite E1.
    destruct (state_of json_loads text) as [state|e]; [|done]. by destruct (check_state container state). }
  destruct (state ← state_of json_loads text; check_state container state) as [u|e] eqn:E2; rewrite (Hmain _ eq_refl).
  2:{ eexists [_], [_; _]. cbn. rewrite Hcap. split_and!; [done..|lia|done]. }
  apply bind_Ok in E2 as (state & E2 & E3).
  assert (Hfin : finished_container h).
  { destruct (check_state_Ok _ _ E3) as (running & code & H1 & H2 & H3 & H4). by exists (h_fs h1), text, state, running, code. }
  assert (Hruns : runs (_ ← h_run (quiet exec) (commit_command container image); _ ← h_run (quiet exec) (version_command image);
                        mret ("created and verified " +:+ image)) [commit_command container image; version_command image]).
  { apply (runs_bind _ _ [_] [_]); [apply runs_run|]. intros _. apply (runs_bind _ _ [_] []); [apply runs_run|]. intros _. apply runs_ret. }
  destruct (Hruns h1) as (ran & left_ & Hsplit & Hcalls & Hok).
  exists (inspect_command container :: ran), left_. split_and!; [by rewrite Hsplit| |done|done].
  rewrite Hcalls, Hcap. by rewrite <- app_assoc.
Qed.

End Bootstrap.

(** The transcript of a run holds what it printed, and the program ends as the run did. *)
Theorem diagnosis_kept exec a h h' status :
  Diagnose.main exec a h = (h', Ok status) →
  ∃ fs stdout stderr,
    exec (length (h_calls h)) (Diagnose.command a) (mkdir (parent_of (Diagnose.ar_output a)) (h_fs h)).1 = (fs, (status, stdout, stderr)) ∧
    h_calls h' = h_calls h ++ [Diagnose.command a] ∧
    h_files h' !! Diagnose.ar_output a = Some (Diagnose.transcript (Diagnose.command a) (status, stdout, stderr)).
Proof.
  intros H. unfold Diagnose.main in H. h_inv. injection H as <- <-. unfold h_mkdir in Hm.
  destruct (bool_decide (is_Some (h_files h !! parent_of (Diagnose.ar_output a)))); [done|]. injection Hm as <- _.
  unfold Diagnose.h_streams in Hm0. cbn [h_calls h_fs h_reads] in Hm0.
  change (Filesystem ({[parent_of (Diagnose.ar_output a)]} ∪ fs_dirs (h_fs h)) (fs_files (h_fs h)))
    with (mkdir (parent_of (Diagnose.ar_output a)) (h_fs h)).1 in Hm0.
  destruct (exec (length (h_calls h)) (Diagnose.command a) _) as [fs [[code out] err]] eqn:E. injection Hm0 as <- <-.
  apply h_write_Ok in Hm1 as [Hcalls Hfs]. exists fs, out, err. split; [done|]. split; [done|].
  unfold h_files. rewrite Hfs. apply lookup_insert_eq.
Qed.

(** A container that ended well, in examples *)
Definition demo_state (text : string) : result pyval :=
  Ok (PList [PDict [("State", PDict [("Running", PBool false); ("ExitCode", PInt (if String.eqb text "bad" then 1 else 0))])]]).

Example committed_example :
  (CommitBootstrap.main demo_state (λ _ _ fs, (fs, (0, "good"))) "box" "img" (Host (Filesystem ∅ ∅) [] 0)) =
    (Host (Filesystem ∅ ∅) [["docker"; "inspect"; "box"]; ["docker"; "commit"; "box"; "img"];
       ["docker"; "run"; "--rm"; "--entrypoint"; "nvcc"; "img"; "--version"]] 0, Ok "created and verified img") ∧
  h_calls (CommitBootstrap.main demo_state (λ _ _ fs, (fs, (0, "bad"))) "box" "img" (Host (Filesystem ∅ ∅) [] 0)).1 =
    [["docker"; "inspect"; "box"]].
Proof. split; reflexivity. Qed.

Definition demo_diagnosis : Diagnose.arguments := Diagnose.Arguments "img" "/w.yml" 8 4 "logs/run.txt".

Lemma diagnosis_kept_witness :
  ∃ h, Diagnose.main (λ _ _ fs, (fs, (3, "out", "err"))) demo_diagnosis (Host (Filesystem ∅ ∅) [] 0) = (h, Ok 3) ∧
    h_files h !! "logs/run.txt" = Some (Diagnose.transcript (Diagnose.command demo_diagnosis) (3, "out", "err")).
Proof.
  destruct (Diagnose.main (λ _ _ fs, (fs, (3, "out", "err"))) demo_diagnosis (Host (Filesystem ∅ ∅) [] 0)) as [h r] eqn:E.
  assert (Hr : r = Ok 3) by (change r with (h, r).2; rewrite <- E; vm_compute; reflexivity). subst r. exists h. split; [done|].
  destruct (diagnosis_kept _ _ _ h 3 E) as (fs & out & err & H1 & _ & H2). injection H1 as _ <- <-. exact H2.
Defined.
