(* ===== verification/Collected.v ===== *)
(** * The collected metrics as a file

    Model of [main] of [src/scripts/collect_timing_metrics.py], which writes what [TimingMetrics]
    computes as lines of keys and values, and its agreement with
    [ScaleOut.read_key_values], which reads such a file for the scale-out table. *)

From S2P Require Import Prelude PyValue Intervals TimingMetrics Csv Worker Proxy Host Platform Swarm Scalability Probes ScaleOut.

(** ** Writing *)

Section Write.
Context (json_loads : string → result pyval).

Definition ns3_values (t : ns3_totals) : list (string * Z) :=
  [("ns3_records", ns3_records t); ("ns3_normal_records", ns3_normal_records t);
   ("ns3_special_records", ns3_special_records t); ("ns3_payload_bytes", ns3_payload_bytes t);
   ("ns3_normal_payload_bytes", ns3_normal_payload_bytes t);
   ("ns3_normal_source_sync_advance_cycles", ns3_source_sync t);
   ("ns3_normal_destination_network_delay_cycles", ns3_network_delay t);
   ("ns3_normal_destination_sync_block_cycles", ns3_sync_block t)].

Definition collected_values (log table : option string) : result (list (string * Z)) :=
  pipe ← collect_pipe_metrics json_loads log;
  ns3 ← collect_ns3_metrics (dict_rows <$> table);
  Ok (dict_update pipe (ns3_values ns3)).

Definition value_line (kv : string * Z) : string := kv.1 +:+ "=" +:+ str_of_Z kv.2 +:+ nl.

(** The lines in the order of their keys. *)
Definition values_text (values : list (string * Z)) : string :=
  join "" (value_line <$> py_sorted (λ a b, String.leb a.1 b.1) values).

(** The text of a file, when there is one. *)
Definition h_text (path : string) : H (option string) := λ h, (h, Ok (h_files h !! path)).

Definition main (transport_log output : string) (ns3_metrics : option string) : H unit :=
  log ← h_text transport_log;
  table ← match ns3_metrics with Some path => h_text path | None => mret None end;
  values ← h_lift (collected_values log table);
  _ ← h_mkdir (parent_of output);
  h_write output (values_text values).

End Write.

(** ** Reading it back *)

(** A key that survives the file: it has no equals sign and no line break. *)
Definition clean_key (k : string) : bool := lacks "=" k && str_forallb (λ c, negb (is_line_break c)) k.

Lemma splitlines_go_line cur l rest :
  str_forallb (λ c, negb (is_line_break c)) l = true →
  splitlines_go cur false (l +:+ String NL rest) = (cur +:+ l) :: splitlines_go "" false rest.
Proof.
  revert cur. induction l as [|c l IH]; intros cur Hl.
  - change ("" +:+ String NL rest) with (String NL rest). cbn [splitlines_go]. by rewrite str_app_nil_r.
  - cbn [str_forallb] in Hl. apply andb_true_iff in Hl as [Hc Hl]. apply negb_true_iff in Hc.
    change (String c l +:+ String NL rest) with (String c (l +:+ String NL rest)). cbn [splitlines_go andb].
    rewrite Hc, IH by done. by rewrite str_app_assoc.
Qed.

(** Whole lines are read back. *)
Lemma splitlines_lines lines :
  Forall (λ l, str_forallb (λ c, negb (is_line_break c)) l = true) lines →
  splitlines (join "" ((λ l, l +:+ nl) <$> lines)) = lines.
Proof.
  unfold splitlines. induction 1 as [|l lines Hl _ IH]; [done|]. rewrite fmap_cons, join_nothing_cons, str_app_assoc.
  change (nl +:+ ?s) with (String NL s). by rewrite splitlines_go_line, IH.
Qed.
Lemma dict_get_elem {A} k (v : A) d : dict_get k d = Some v → (k, v) ∈ d.
Proof.
  induction d as [|[k' v'] d IH]; [done|]. cbn [dict_get]. destruct (String.eqb_spec k' k) as [->|]; [|set_solver].
  intros [= ->]. set_solver.
Qed.

(** Keys with a property, after an update. *)
Lemma dict_update_keys {A} (P : string → Prop) (d1 d2 : list (string * A)) :
  Forall P d1.*1 → Forall P d2.*1 → Forall P (dict_update d1 d2).*1.
Proof.
  unfold dict_update. revert d1. induction d2 as [|[k v] d2 IH]; intros d1 H1 H2; [done|]. cbn [foldl fst snd].
  apply Forall_cons in H2 as [Hk H2]. apply IH; [|done]. rewrite dict_set_fst. case_bool_decide; [done|].
  rewrite Forall_app. split; [done|by repeat constructor].
Qed.

Section ReadBack.
Context (values : list (string * Z)) (Hkeys : NoDup values.*1) (Hclean : Forall (λ k, clean_key k = true) values.*1).

Abbreviation sorted := (py_sorted (λ a b : string * Z, String.leb a.1 b.1) values).
Abbreviation texts := ((λ kv : string * Z, (kv.1, str_of_Z kv.2)) <$> sorted).

Lemma values_lines : splitlines (values_text values) = (λ kv, kv.1 +:+ "=" +:+ str_of_Z kv.2) <$> sorted.
Proof using Hclean.
  unfold values_text. rewrite <- (splitlines_lines ((λ kv, kv.1 +:+ "=" +:+ str_of_Z kv.2) <$> sorted)).
  - rewrite <- list_fmap_compose. do 2 f_equal. apply list_fmap_ext. intros i [k z] _. unfold value_line. cbn. by rewrite !str_app_assoc.
  - apply Forall_fmap, Forall_forall. intros [k z] Hkz. cbn.
    assert (Hk : clean_key k = true).
    { rewrite Forall_forall in Hclean. apply Hclean, list_elem_of_fmap. exists (k, z). split; [done|]. by rewrite <- (py_sorted_perm (λ a b, String.leb a.1 b.1)). }
    apply andb_true_iff in Hk as [_ Hk]. rewrite str_forallb_app, Hk. cbn.
    eapply str_forallb_impl; [|apply str_of_Z_int_chars]. intros c Hc. apply int_char_no_space in Hc.
    apply negb_true_iff. revert Hc. unfold is_space, is_line_break. rewrite !orb_false_iff, !andb_false_iff, !Nat.leb_gt. lia.
Qed.

Lemma read_values path : read_key_values path (values_text values) = Ok texts.
Proof using Hkeys Hclean.
  unfold read_key_values. rewrite values_lines.
  assert (Hgo : ∀ l acc, Forall (λ k, clean_key k = true) l.*1 →
    fold_result (ScaleOut.read_line path) acc ((λ kv : string * Z, kv.1 +:+ "=" +:+ str_of_Z kv.2) <$> l) =
      Ok (dict_update acc ((λ kv, (kv.1, str_of_Z kv.2)) <$> l))).
  { induction l as [|[k z] l IH]; intros acc Hl; [done|]. apply Forall_cons in Hl as [Hk Hl]. rewrite !fmap_cons. cbn [fold_result fst snd].
    unfold ScaleOut.read_line at 1. apply andb_true_iff in Hk as [Hk _]. change ("=" +:+ str_of_Z z) with (String "=" (str_of_Z z)).
    rewrite Scalability.partition_on_app by done. by rewrite IH. }
  rewrite Hgo.
  - f_equal. rewrite dict_update_fresh; [done|]. cbn [app]. rewrite <- list_fmap_compose. cbn. by rewrite py_sorted_perm.
  - by rewrite py_sorted_perm.
Qed.

Lemma read_value path :
  ∃ vs, read_key_values path (values_text values) = Ok vs ∧ ∀ k, ScaleOut.metric vs k = Ok (default 0 (dict_get k values)).
Proof using Hkeys Hclean.
  exists texts. split; [apply read_values|]. intros k. unfold ScaleOut.metric, dict_get_default.
  assert (dict_get k texts = str_of_Z <$> dict_get k values) as ->; [|by destruct (dict_get k values); cbn; [apply py_int_exn_str|]].
  assert (Hfst : texts.*1 = sorted.*1) by by rewrite <- list_fmap_compose.
  destruct (dict_get k values) as [z|] eqn:Hk; cbn.
  - apply dict_get_In; [by rewrite Hfst, py_sorted_perm|]. apply list_elem_of_fmap. exists (k, z). split; [done|].
    rewrite py_sorted_perm. by apply dict_get_elem.
  - apply dict_get_None. rewrite Hfst, py_sorted_perm. intros (v & Hv)%list_elem_of_fmap. destruct v as [k' z]; cbn in Hv.
    destruct Hv as [-> Hv]. by rewrite (dict_get_In _ z) in Hk.
Qed.

End ReadBack.

(** What is collected survives the file. *)
Definition readable (values : list (string * Z)) : Prop :=
  NoDup values.*1 ∧ Forall (λ k, clean_key k = true) values.*1.

Lemma readable_update d1 d2 : readable d1 → Forall (λ k, clean_key k = true) d2.*1 → readable (dict_update d1 d2).
Proof. intros [Hnd Hc] H2. split; [by apply dict_update_NoDup|by apply dict_update_keys]. Qed.

Lemma counter_values_readable m : readable (counter_values m).
Proof. split; [|by repeat constructor]. apply (bool_decide_unpack _). by vm_compute. Qed.

Lemma values_readable pipe ns3 : readable pipe → readable (dict_update pipe (ns3_values ns3)).
Proof. intros Hp. apply readable_update; [done|by repeat constructor]. Qed.

Lemma collect_pipe_readable json_loads log values : collect_pipe_metrics json_loads log = Ok values → readable values.
Proof.
  assert (Ht : ∀ m t, readable m → readable (dict_update m (transport_values t))).
  { intros m t Hm. apply readable_update; [done|by repeat constructor]. }
  assert (Hi : ∀ m i, readable m → readable (dict_update m (interval_values i))).
  { intros m i Hm. apply readable_update; [done|by repeat constructor]. }
  destruct log as [log|]; cbn [collect_pipe_metrics].
  - intros (acc & _ & H)%bind_Ok. apply bind_Ok in H as (t & Ht' & H). apply bind_Ok in Ht' as (tr & _ & Htr).
    assert (t = transport_values tr) as -> by congruence. clear Htr.
    assert (values = dict_update (dict_update (counter_values acc.1) (interval_values acc.1)) (transport_values tr)) as -> by congruence.
    apply Ht, Hi, counter_values_readable.
  - intros (t & Ht' & H)%bind_Ok. apply bind_Ok in Ht' as (tr & _ & Htr).
    assert (t = transport_values tr) as -> by congruence. clear Htr.
    assert (values = dict_update (counter_values init_counters) (transport_values tr)) as -> by congruence.
    apply Ht, counter_values_readable.
Qed.

Lemma collected_readable json_loads log table values : collected_values json_loads log table = Ok values → readable values.
Proof.
  unfold collected_values. intros (pipe & Hpipe & H)%bind_Ok. apply bind_Ok in H as (ns3 & _ & H).
  assert (values = dict_update pipe (ns3_values ns3)) as -> by congruence.
  by apply values_readable, (collect_pipe_readable json_loads log).
Qed.

Lemma h_mkdir_files path h h' u : h_mkdir path h = (h', Ok u) → h_files h' = h_files h.
Proof. unfold h_mkdir. destruct (bool_decide _); [done|]. intros [= <-]. unfold mkdir. by repeat case_match. Qed.

(** C40: A successful run of the collector writes one file, the collected metrics; the scale-out script
    reads that file without an error, and every metric it asks for is the collected value, or zero
    when there is none. *)
Theorem metrics_read_back json_loads transport_log output ns3_metrics path h h' :
  main json_loads transport_log output ns3_metrics h = (h', Ok ()) →
  ∃ values text metrics,
    collected_values json_loads (h_files h !! transport_log) (ns3_metrics ≫= λ p, h_files h !! p) = Ok values ∧
    h_files h' = <[output := text]> (h_files h) ∧
    ScaleOut.read_key_values path text = Ok metrics ∧
    ∀ k, ScaleOut.metric metrics k = Ok (default 0 (dict_get k values)).
Proof.
  unfold main. intros (h1 & log & Hlog & H)%H_bind_Ok. injection Hlog as <- <-.
  apply H_bind_Ok in H as (h2 & table & Htable & H).
  assert (h2 = h ∧ table = ns3_metrics ≫= λ p, h_files h !! p) as [-> ->].
  { destruct ns3_metrics; by injection Htable as <- <-. }
  apply H_bind_Ok in H as (h3 & values & Hv & H). apply h_lift_Ok in Hv as [-> Hv].
  apply H_bind_Ok in H as (h4 & u & Hdir & H). apply h_mkdir_files in Hdir. apply h_write_Ok in H as [_ H].
  pose proof (collected_readable _ _ _ _ Hv) as [Hnd Hc].
  destruct (read_value values Hnd Hc path) as (metrics & Hread & Hmetric).
  exists values, (values_text values), metrics. split_and!; [done| |done|done].
  unfold h_files in *. by rewrite H, Hdir.
Qed.

Definition demo_files : gmap string string :=
  {["run/transport.log" := "boot" +:+ nl +:+ "pipe-metric: {}" +:+ nl;
    "run/ns3.csv" := "special,payload_bytes,source_sync_advance_cycles,destination_network_delay_cycles,destination_sync_block_cycles" +:+ nl
      +:+ "0,12,1,2,3" +:+ nl +:+ "1,4,0,0,0" +:+ nl]}.

Definition demo_event_loads (text : string) : result pyval :=
  if String.eqb text " {}" then Ok (PDict (demo_record "R" 1 0 1 9)) else Err (ValueError "Expecting value").

Lemma metrics_read_back_witness :
  ∃ h' text metrics,
    main demo_event_loads "run/transport.log" "out/metrics.txt" (Some "run/ns3.csv") (Host (Filesystem ∅ demo_files) [] 0) = (h', Ok ()) ∧
    h_files h' !! "out/metrics.txt" = Some text ∧ ScaleOut.read_key_values "m" text = Ok metrics ∧
    ScaleOut.metric metrics "ns3_payload_bytes" = Ok 16 ∧ ScaleOut.metric metrics "all_records" = Ok 1 ∧
    ScaleOut.metric metrics "absent" = Ok 0.
Proof.
  set (h := Host (Filesystem ∅ demo_files) [] 0).
  destruct (main demo_event_loads "run/transport.log" "out/metrics.txt" (Some "run/ns3.csv") h) as [h' r] eqn:E.
  assert (Hr : (main demo_event_loads "run/transport.log" "out/metrics.txt" (Some "run/ns3.csv") h).2 = Ok ()) by (vm_compute; reflexivity).
  rewrite E in Hr. cbn [snd] in Hr. subst r.
  destruct (metrics_read_back _ _ _ _ "m" _ _ E) as (values & text & metrics & Hv & Hf & Hread & Hm).
  assert (Hk : match collected_values demo_event_loads (h_files h !! "run/transport.log") (h_files h !! "run/ns3.csv") with
    | Ok vs => (λ k, dict_get k vs) <$> ["ns3_payload_bytes"; "all_records"; "absent"] | Err _ => [] end = [Some 16; Some 1; None])
    by (vm_compute; reflexivity).
  change (Some "run/ns3.csv" ≫= λ p, h_files h !! p) with (h_files h !! "run/ns3.csv") in Hv.
  rewrite Hv in Hk. cbn in Hk. injection Hk as H1 H2 H3.
  exists h', text, metrics. split_and!; [done| |done|..]; [|by rewrite Hm, ?H1, ?H2, ?H3..].
  rewrite Hf. apply lookup_insert_eq.
Defined.
