(* ===== verification/NativeFiles.v ===== *)
(** * The files of the native tool chain

    The generators under [src/real] hand their results on as JSON files: the placement
    ([generate_placement.py]) and the topology ([generate_simbricks_topology.py]) are read by the
    routing generator ([generate_simbricks_routing.py]), whose table the transport router
    ([simbricks_pipe_router.py]) and the stack generator read in turn.  The other files model
    what the generators compute; this one models the documents, what each reader takes out of
    them, and the chain of files from the generators to a running router. *)

From S2P Require Import Prelude PyValue Codec Json Worker Host Swarm Topology Placement Routing Router DistributedYaml SwarmStack Probes.

(** ** The documents written *)

(** The record of one placed process. *)
Definition placed_json (p : placed) : pydict :=
  [("phase", PStr (pl_phase p)); ("process_index", PInt (pl_process_index p));
   ("node_slot", PInt (pl_node_slot p)); ("node_label", PStr (pl_node_label p))]
  ++ match pl_coordinates p with Some (x, y) => [("coordinates", PList [PInt x; PInt y])] | None => [] end.

Definition placement_json (pl : placement) : pydict :=
  [("workload", PStr (pl_workload pl)); ("yaml", PStr (pl_yaml pl)); ("source", PDict (pl_source pl));
   ("swarm_nodes", PInt (pl_swarm_nodes pl)); ("placement_policy", PStr (pl_policy pl));
   ("processes", PList ((λ p, PDict (placed_json p)) <$> pl_processes pl))].

Definition worker_json (w : worker) : pydict :=
  [("slot", PInt (w_slot w)); ("hostname", PStr (w_hostname w)); ("simulated_ip", PStr (w_simulated_ip w))].

Definition channel_json (c : channel) : pydict :=
  [("id", PStr (ch_id c)); ("listener_slot", PInt (ch_listener_slot c)); ("connector_slot", PInt (ch_connector_slot c));
   ("listener_ip", PStr (ch_listener_ip c)); ("tcp_port", PInt (ch_tcp_port c));
   ("link_latency_ps", PInt (ch_link_latency_ps c)); ("sync_interval_ps", PInt (ch_sync_interval_ps c))].

Definition topology_json (t : topology) : pydict :=
  [("version", PInt (top_version t)); ("transport", PStr (top_transport t));
   ("workers", PList ((λ w, PDict (worker_json w)) <$> top_workers t));
   ("channels", PList ((λ c, PDict (channel_json c)) <$> top_channels t))].

(** [output.parent.mkdir(parents=True, exist_ok=True); output.write_text(json.dumps(document, indent=2) + "\n")] *)
Definition write_document (output : string) (document : pydict) : H unit :=
  _ ← h_mkdir (parent_of output);
  h_write output (json_indent 0 (PDict document) +:+ nl).

Definition placement_main (path_stem : string → string) (man : manifest) (load : string → result source_config)
    (args : Placement.arguments) (output : string) : H unit :=
  pl ← h_lift (Placement.main path_stem man load args);
  write_document output (placement_json pl).

Definition topology_main (args : Topology.arguments) (output : string) : H unit :=
  t ← h_lift (Topology.main args);
  write_document output (topology_json t).

(** ** The routing generator on its documents *)

(** [v[k]] with a text [k] *)
Definition subscript (k : string) (v : pyval) : result pyval :=
  match v with PDict d => dict_item k d | _ => Err TypeError end.

(** [v[i]] with a small natural number [i] *)
Definition index (i : nat) (v : pyval) : result pyval :=
  match v with
  | PList l => l !! i ?! IndexError
  | PStr s => c ← String.list_ascii_of_string s !! i ?! IndexError; Ok (PStr (String c ""))
  | PDict _ => Err (KeyError (str_of_Z (Z.of_nat i)))
  | _ => Err TypeError
  end.

(** One iteration of the placement loop: the dictionary keeps the order of insertion. *)
Definition add_process (m : list (string * Z)) (process : pyval) : result (list (string * Z)) :=
  d ← is_dict process ?! AttributeError;
  match dict_get_default "coordinates" PNone d with
  | PNone => Ok m
  | coordinates =>
      x ← index 0 coordinates;
      y ← index 1 coordinates;
      let key := py_str x +:+ "," +:+ py_str y in
      slot ← (v ← dict_item "node_slot" d; int_of v);
      let previous := dict_get_default key slot m in
      _ ← raise_if (negb (previous =? slot))
            (ValueError ("chiplet coordinate " +:+ key +:+ " was placed on multiple worker slots"));
      Ok (dict_set key previous m)
  end.

(** One iteration of the channel loop. *)
Definition add_channel (m : list (string * string)) (channel : pyval) : result (list (string * string)) :=
  left_ ← (v ← subscript "listener_slot" channel; int_of v);
  right_ ← (v ← subscript "connector_slot" channel; int_of v);
  id ← subscript "id" channel;
  Ok (dict_set (pair_key left_ right_) (py_str id) m).

Definition physical_entries (nodes : Z) (slots : list Z) : result (list (string * Z)) :=
  fold_result (λ m w, s ← slots !! Z.to_nat w ?! IndexError; Ok (dict_set (str_of_Z w) s m)) [] (seqZ 0 nodes).

Record tables := Tables {
  tb_nodes : Z;
  tb_physical_slots : list Z;
  tb_coordinate_to_slot : list (string * Z);
  tb_channel_by_pair : list (string * string);
}.

(** [main] from the two documents to the dictionaries it writes. *)
Definition routing_tables (placement topology : pyval) (worker_physical_slots : option string) : result tables :=
  nodes ← (v ← subscript "swarm_nodes" placement; int_of v);
  worker_count ← (v ← subscript "workers" topology; py_len v);
  _ ← raise_if (negb (worker_count =? nodes)) (ValueError "placement and topology disagree on worker count");
  slots ← physical_slots_of nodes worker_physical_slots;
  processes ← (v ← subscript "processes" placement; iterate v);
  coordinates ← fold_result add_process [] processes;
  channels ← (v ← subscript "channels" topology; iterate v);
  pairs ← fold_result add_channel [] channels;
  Ok (Tables nodes slots coordinates pairs).

Definition routing_document (placement topology : pyval) (tb : tables) : result pydict :=
  transport ← subscript "transport" topology;
  workload ← subscript "workload" placement;
  physical ← physical_entries (tb_nodes tb) (tb_physical_slots tb);
  Ok [("version", PInt 1); ("transport", transport); ("workload", workload);
      ("coordinate_to_worker_slot", PDict (prod_map id PInt <$> tb_coordinate_to_slot tb));
      ("worker_physical_slots", PDict (prod_map id PInt <$> physical));
      ("channel_by_worker_pair", PDict (prod_map id PStr <$> tb_channel_by_pair tb));
      ("gateway_base_port", PInt 9500)].

Section Readers.
Context (json_loads : string → result pyval).

(** [json.loads(path.read_text(encoding="utf-8"))] *)
Definition read_document (path : string) : H pyval :=
  text ← h_read path;
  h_lift (json_loads text).

Definition routing_main (placement_path topology_path output : string) (worker_physical_slots : option string) : H unit :=
  placement ← read_document placement_path;
  topology ← read_document topology_path;
  tb ← h_lift (routing_tables placement topology worker_physical_slots);
  _ ← h_mkdir (parent_of output);
  document ← h_lift (routing_document placement topology tb);
  h_write output (json_indent 0 (PDict document) +:+ nl).

(** The configuration of [main_async]; [Router.__init__] subscripts the document. *)
Definition router_start (own : Z) (routing_path : string) : H router :=
  routing ← read_document routing_path;
  d ← h_lift (is_dict routing ?! TypeError);
  h_lift (Router.init own d).

(** The three generators one after the other, as [run_real_swarm.py] and the matrix generators run them. *)
Definition generate_files (path_stem : string → string) (man : manifest) (load : string → result source_config)
    (pargs : Placement.arguments) (targs : Topology.arguments) (worker_physical_slots : option string)
    (placement_path topology_path routing_path : string) : H unit :=
  _ ← placement_main path_stem man load pargs placement_path;
  _ ← topology_main targs topology_path;
  routing_main placement_path topology_path routing_path worker_physical_slots.

End Readers.

(** ** The placement as [generate_distributed_yaml.py] reads it *)

(** [{item["process_index"]: item for item in placement["processes"] if item["phase"] == phase}]: the
    pairs in their order; a later one replaces an earlier one with an equal key. *)
Definition phase_items (placement : pyval) (phase : string) : result (list (pyval * pyval)) :=
  processes ← (v ← subscript "processes" placement; iterate v);
  fold_result (λ acc item,
    item_phase ← subscript "phase" item;
    if eq_str item_phase phase then k ← subscript "process_index" item; Ok (acc ++ [(k, item)]) else Ok acc) [] processes.

(** [f"worker-{placements_by_phase[phase][index]['node_slot']}:9300"] *)
Definition worker_host (placement : pyval) (phase : string) (i : Z) : result string :=
  items ← phase_items placement phase;
  match last (filter (λ ki, eq_int ki.1 i = true) items) with
  | Some (_, item) => slot ← subscript "node_slot" item; Ok ("worker-" +:+ py_str slot +:+ ":9300")
  | None => Err (KeyError (str_of_Z i))
  end.

(** ** The texts *)

(** The white space of [indent=2]. *)
Definition indented : style := Style indentation indentation indentation " ".

(** Mapping two functions that agree on the elements. *)
Lemma fmap_agree {A B} (f g : A → B) l : Forall (λ x, f x = g x) l → f <$> l = g <$> l.
Proof. rewrite Forall_forall. intros H. apply list_fmap_ext. intros i x Hx. apply H. by eapply list_elem_of_lookup_2. Qed.

Lemma json_indent_render level v : json_indent level v = render indented level v.
Proof.
  revert level. induction v as [| | | | |l IH|d IH] using pyval_nested_ind; intros level; try done.
  - destruct l as [|v l]; [done|]. cbn [json_indent render indented sy_open sy_item sy_close].
    rewrite (fmap_agree (json_indent (S level)) (render indented (S level))); [done|].
    eapply Forall_impl; [exact IH|]. cbn. auto.
  - destruct d as [|kv d]; [done|]. cbn [json_indent render indented sy_open sy_item sy_close sy_colon].
    rewrite (fmap_agree _ (λ kv, json_str kv.1 +:+ ":" +:+ " " +:+ render indented (S level) kv.2)); [done|].
    eapply Forall_impl; [exact IH|]. cbn. intros u ->. done.
Qed.

Lemma json_spaced_render level v : json_spaced v = render spaced level v.
Proof.
  revert level. induction v as [| | | | |l IH|d IH] using pyval_nested_ind; intros level; try done.
  - destruct l as [|v l]; [done|].
    change (render spaced level (PList (v :: l))) with ("[" +:+ join ", " (render spaced (S level) <$> v :: l) +:+ "]").
    rewrite <- (fmap_agree json_spaced (render spaced (S level))); [done|]. eapply Forall_impl; [exact IH|]. cbn. auto.
  - destruct d as [|kv d]; [done|].
    change (render spaced level (PDict (kv :: d))) with
      ("{" +:+ join ", " ((λ kv, json_str kv.1 +:+ ":" +:+ " " +:+ render spaced (S level) kv.2) <$> kv :: d) +:+ "}").
    rewrite <- (fmap_agree (λ kv, json_str kv.1 +:+ ": " +:+ json_spaced kv.2)); [done|].
    eapply Forall_impl; [exact IH|]. cbn. intros u Hu. by rewrite (Hu (S level)).
Qed.

Lemma blank_indentation level : blank (indentation level) = true.
Proof.
  unfold indentation. change (blank (join "" (replicate level "  ")) = true).
  induction level as [|level IH]; [done|]. cbn [replicate]. rewrite join_nothing_cons. exact IH.
Qed.

Lemma indented_blank : blank_style indented.
Proof. intros n. split_and!; [apply blank_indentation..|done]. Qed.

Lemma compact_blank : blank_style compact.
Proof. by intros n. Qed.

Lemma spaced_blank : blank_style spaced.
Proof. by intros n. Qed.

(** A file that holds a document is read as that document. *)
Lemma loads_indented float_of v : plain v = true → loads float_of (json_indent 0 v +:+ nl) = Ok v.
Proof.
  intros Hv. rewrite json_indent_render.
  exact (loads_render float_of indented indented_blank "" nl 0 v eq_refl eq_refl (plain_readable _ _ Hv)).
Qed.

(** What is printed behind white space, as behind [pipe-metric:], is read as that value. *)
Lemma loads_spaced float_of before v : blank before = true → plain v = true → loads float_of (before +:+ json_spaced v) = Ok v.
Proof.
  intros Hb Hv. rewrite (json_spaced_render 0). rewrite <- (str_app_nil_r (render spaced 0 v)).
  exact (loads_render float_of spaced spaced_blank before "" 0 v Hb eq_refl (plain_readable _ _ Hv)).
Qed.

(** A message on the wire is read as that message, with its line feed. *)
Lemma loads_compact float_of v : plain v = true → loads float_of (json_dumps v +:+ nl) = Ok v.
Proof.
  intros Hv. rewrite <- (render_compact 0).
  exact (loads_render float_of compact compact_blank "" nl 0 v eq_refl eq_refl (plain_readable _ _ Hv)).
Qed.

(** ** The documents are plain *)

Lemma plain_list l : plain (PList l) = forallb plain l.
Proof. done. Qed.

Lemma plain_dict (d : pydict) : NoDup d.*1 → (∀ v, v ∈ d.*2 → plain v = true) → plain (PDict d) = true.
Proof.
  intros Hnd Hd. cbn [plain]. rewrite bool_decide_eq_true_2 by done. cbn [andb]. apply forallb_forall.
  intros kv Hkv. apply Hd, list_elem_of_fmap. exists kv. split; [done|]. by apply list_elem_of_In.
Qed.

Lemma plain_entries {A} (f : A → pyval) (m : list (string * A)) :
  NoDup m.*1 → (∀ a, plain (f a) = true) → plain (PDict (prod_map id f <$> m)) = true.
Proof.
  intros Hnd Hf. apply plain_dict.
  - rewrite <- list_fmap_compose. exact Hnd.
  - intros v. rewrite <- list_fmap_compose. intros (kv & -> & _)%list_elem_of_fmap. apply Hf.
Qed.

Lemma plain_map {A} (f : A → pydict) l : (∀ a, plain (PDict (f a)) = true) → plain (PList ((λ a, PDict (f a)) <$> l)) = true.
Proof. intros Hf. cbn [plain]. induction l as [|a l IH]; [done|]. cbn [fmap list_fmap forallb]. by rewrite Hf, IH. Qed.

Lemma placed_plain p : plain (PDict (placed_json p)) = true.
Proof. unfold placed_json. by destruct (pl_coordinates p) as [[x y]|]. Qed.

Lemma placement_plain pl : plain (PDict (pl_source pl)) = true → plain (PDict (placement_json pl)) = true.
Proof.
  intros Hs. apply plain_dict; [apply (bool_decide_unpack _); reflexivity|].
  intros v Hv. cbn in Hv. repeat (apply elem_of_cons in Hv as [->|Hv]; [try done|]); [|by apply elem_of_nil in Hv].
  apply plain_map, placed_plain.
Qed.

Lemma topology_plain t : plain (PDict (topology_json t)) = true.
Proof.
  apply plain_dict; [apply (bool_decide_unpack _); reflexivity|].
  intros v Hv. cbn in Hv. repeat (apply elem_of_cons in Hv as [->|Hv]; [try done|]); [| |by apply elem_of_nil in Hv].
  - by apply plain_map.
  - by apply plain_map.
Qed.

(** ** Dictionaries in order and as finite maps *)

(** An insertion-ordered dictionary [l] with the entries of [m]. *)
Definition holds {A} (l : list (string * A)) (m : gmap string A) : Prop := NoDup l.*1 ∧ list_to_map l = m.

Lemma holds_nil {A} : holds (A:=A) [] ∅.
Proof. split; [constructor|done]. Qed.

Lemma holds_get {A} (l : list (string * A)) m k : holds l m → dict_get k l = m !! k.
Proof.
  intros [_ <-]. induction l as [|[k' v] l IH]; [done|]. cbn [dict_get list_to_map foldr uncurry].
  rewrite lookup_insert. destruct (String.eqb_spec k' k); by case_decide.
Qed.

Lemma holds_set {A} (l : list (string * A)) m k v : holds l m → holds (dict_set k v l) (<[k := v]> m).
Proof.
  intros [Hnd <-]. split; [by apply dict_set_NoDup|]. clear Hnd. induction l as [|[k' v'] l IH]; [done|].
  cbn [dict_set list_to_map foldr uncurry]. destruct (String.eqb_spec k' k) as [->|Hne].
  - cbn. by rewrite insert_insert_eq.
  - cbn. rewrite insert_insert_ne by done. f_equal. exact IH.
Qed.

(** Two computations with related results and the same errors. *)
Definition agree {A B} (R : A → B → Prop) (r : result A) (r' : result B) : Prop :=
  match r, r' with Ok a, Ok b => R a b | Err e, Err e' => e = e' | _, _ => False end.

Lemma agree_bind {A B A' B'} (R : A → B → Prop) (Q : A' → B' → Prop) r r' f g :
  agree R r r' → (∀ a b, R a b → agree Q (f a) (g b)) → agree Q (r ≫= f) (r' ≫= g).
Proof. destruct r, r'; cbn; [auto|done..|by intros ->]. Qed.

Lemma agree_fold {A B S T} (R : S → T → Prop) (f : S → A → result S) (g : T → B → result T) (h : B → A) l s t :
  (∀ b s t, R s t → agree R (f s (h b)) (g t b)) → R s t → agree R (fold_result f s (h <$> l)) (fold_result g t l).
Proof.
  intros Hstep. revert s t. induction l as [|b l IH]; intros s t Hst; [done|]. cbn [fmap list_fmap fold_result].
  pose proof (Hstep b s t Hst) as H. destruct (f s (h b)), (g t b); try done. by apply IH.
Qed.

Lemma agree_same {A} (r : result A) : agree eq r r.
Proof. by destruct r. Qed.

Lemma agree_Ok {A B} (R : A → B → Prop) r r' b : agree R r r' → r' = Ok b → ∃ a, r = Ok a ∧ R a b.
Proof. intros H ->. destruct r; [eauto|done]. Qed.

(** ** The generator on the documents computes the table of [Routing] *)

Lemma add_process_agrees p m g : holds m g → agree holds (add_process m (PDict (placed_json p))) (add_coordinate g p).
Proof.
  intros Hm. unfold add_process, add_coordinate, placed_json. destruct (pl_coordinates p) as [[x y]|]; [|done].
  cbn -[py_str dict_set]. change (py_str (PInt ?z)) with (str_of_Z z).
  change (str_of_Z x +:+ String "," (str_of_Z y)) with (coordinate_key x y).
  unfold dict_get_default. rewrite (holds_get _ _ _ Hm). destruct (g !! coordinate_key x y) as [previous|] eqn:Hg; cbn [default from_option id].
  - destruct (negb (previous =? pl_node_slot p)); cbn; [done|]. rewrite <- (insert_id g (coordinate_key x y) previous) by done.
    by apply holds_set.
  - rewrite Z.eqb_refl. cbn. by apply holds_set.
Qed.

Lemma add_channel_agrees cs m g :
  holds m g →
  ∃ m', fold_result add_channel m ((λ c, PDict (channel_json c)) <$> cs) = Ok m' ∧
    holds m' (foldl (λ m c, <[pair_key (ch_listener_slot c) (ch_connector_slot c) := ch_id c]> m) g cs).
Proof.
  revert m g. induction cs as [|c cs IH]; intros m g Hm; [by exists m|]. cbn [fmap list_fmap fold_result foldl].
  unfold add_channel at 1. cbn -[fold_result dict_set pair_key]. apply IH. by apply holds_set.
Qed.

Lemma physical_agrees nodes slots : agree holds (physical_entries nodes slots) (physical_by_worker nodes slots).
Proof.
  unfold physical_entries, physical_by_worker. rewrite <- (list_fmap_id (seqZ 0 nodes)) at 1.
  apply agree_fold; [|apply holds_nil]. intros w m g Hm. cbn [id]. destruct (slots !! Z.to_nat w); cbn; [by apply holds_set|done].
Qed.

(** The document is the table, its maps in the order of insertion. *)
Definition document_of (d : pydict) (rt : routing) : Prop :=
  ∃ coordinates physical pairs,
    d = [("version", PInt 1); ("transport", PStr (rt_transport rt)); ("workload", PStr (rt_workload rt));
         ("coordinate_to_worker_slot", PDict (prod_map id PInt <$> coordinates));
         ("worker_physical_slots", PDict (prod_map id PInt <$> physical));
         ("channel_by_worker_pair", PDict (prod_map id PStr <$> pairs));
         ("gateway_base_port", PInt (rt_gateway_base_port rt))] ∧
    holds coordinates (rt_coordinate_to_worker_slot rt) ∧ holds physical (rt_worker_physical_slots rt) ∧
    holds pairs (rt_channel_by_worker_pair rt).

(** On the documents of a placement and a topology, the generator refines [Routing.main]: the same
    table, or the same error. *)
Lemma routing_refines pl t arg :
  agree document_of
    (tb ← routing_tables (PDict (placement_json pl)) (PDict (topology_json t)) arg;
     routing_document (PDict (placement_json pl)) (PDict (topology_json t)) tb)
    (Routing.main pl t arg).
Proof.
  unfold routing_tables, Routing.main. cbn [subscript placement_json topology_json].
  cbn -[routing_document fold_result placed_json channel_json worker_json physical_slots_of coordinate_to_slot physical_by_worker zlen].
  unfold zlen. rewrite length_fmap. destruct (negb (Z.of_nat (length (top_workers t)) =? pl_swarm_nodes pl)); [done|].
  cbn [raise_if mbind result_bind]. destruct (physical_slots_of (pl_swarm_nodes pl) arg) as [slots|]; [|done]. cbn [mbind result_bind].
  pose proof (agree_fold holds add_process add_coordinate (λ p, PDict (placed_json p)) (pl_processes pl) [] ∅
    (λ p m g H, add_process_agrees p m g H) holds_nil) as Hc. unfold coordinate_to_slot.
  destruct (fold_result add_process [] _) as [coordinates|e], (fold_result add_coordinate ∅ _) as [gc|e']; try done.
  cbn [mbind result_bind]. destruct (add_channel_agrees (top_channels t) [] ∅ holds_nil) as (pairs & -> & Hp). cbn [mbind result_bind].
  unfold routing_document. cbn -[physical_entries physical_by_worker placed_json channel_json worker_json].
  pose proof (physical_agrees (pl_swarm_nodes pl) slots) as Hph.
  destruct (physical_entries _ _) as [physical|e], (physical_by_worker _ _) as [gp|e']; try done.
  cbn. exists coordinates, physical, pairs. done.
Qed.

Lemma document_plain d rt : document_of d rt → plain (PDict d) = true.
Proof.
  intros (coordinates & physical & pairs & -> & [Hc _] & [Hp _] & [Hq _]).
  apply plain_dict; [apply (bool_decide_unpack _); reflexivity|].
  intros v Hv. cbn in Hv. repeat (apply elem_of_cons in Hv as [->|Hv]; [try done|]); [by apply plain_entries..|by apply elem_of_nil in Hv].
Qed.

(** ** The router reads the table *)

(** The keys of the physical slots are the decimal texts of the workers. *)
Lemma physical_by_worker_keys nodes slots m k :
  physical_by_worker nodes slots = Ok m → is_Some (m !! k) → ∃ w, k = str_of_Z w.
Proof.
  unfold physical_by_worker. set (f := λ m w, _). intros Hm. revert k.
  apply (fold_result_inv f (λ _ m, ∀ k, is_Some (m !! k) → ∃ w, k = str_of_Z w) (seqZ 0 nodes) ∅ m); [| |done].
  - intros k Hk. rewrite lookup_empty in Hk. by destruct Hk.
  - intros pre w m1 m2 IH _ Hstep k Hk. unfold f in Hstep. apply bind_Ok in Hstep as (s & _ & [= <-]).
    destruct (decide (k = str_of_Z w)) as [->|Hne]; [eauto|]. rewrite lookup_insert_ne in Hk by done. auto.
Qed.

Lemma init_physical_Ok (l : list (string * Z)) (acc : gmap Z Z) :
  NoDup l.*1 → (∀ k, k ∈ l.*1 → ∃ w, k = str_of_Z w) →
  ∃ phys, fold_result (λ m kv, k ← py_int_exn kv.1; v ← int_of kv.2; Ok (<[k := v]> m)) acc (prod_map id PInt <$> l) = Ok phys ∧
    ∀ w, phys !! w = match (list_to_map l : gmap string Z) !! str_of_Z w with Some s => Some s | None => acc !! w end.
Proof.
  revert acc. induction l as [|[k s] l IH]; intros acc Hnd Hk; [by exists acc|].
  cbn in Hnd. apply NoDup_cons in Hnd as [Hfresh Hnd]. destruct (Hk k) as [w ->]; [set_solver|].
  cbn [fmap list_fmap fold_result prod_map fst snd id]. rewrite py_int_exn_str. cbn [mbind result_bind int_of].
  destruct (IH (<[w := s]> acc) Hnd) as (phys & -> & Hphys); [set_solver|]. exists phys. split; [done|].
  intros w'. rewrite Hphys. cbn [list_to_map foldr uncurry]. destruct (decide (w' = w)) as [->|Hne].
  - rewrite !lookup_insert_eq. apply not_elem_of_list_to_map in Hfresh. by rewrite Hfresh.
  - rewrite (lookup_insert_ne acc) by done. by rewrite lookup_insert_ne by (intros E; by apply str_of_Z_inj in E).
Qed.

(** What the router takes from the document of a table. *)
Lemma init_document pl t arg own d rt :
  Routing.main pl t arg = Ok rt → document_of d rt →
  ∃ r, Router.init own d = Ok r ∧ slot r = own ∧ coordinates r = rt_coordinate_to_worker_slot rt ∧
    gateway_ports r = init_gateway_ports own (rt_gateway_base_port rt) (rt_coordinate_to_worker_slot rt) ∧
    ∀ w, physical_slots r !! w = rt_worker_physical_slots rt !! str_of_Z w.
Proof.
  intros Hmain (coordinates & physical & pairs & -> & [Hc Hc'] & [Hp Hp'] & _).
  unfold Router.init. cbn -[init_coordinates init_physical_slots init_gateway_ports].
  unfold init_coordinates. rewrite init_fold_list by done. rewrite (right_id_L ∅ (∪)), Hc'.
  cbn -[init_physical_slots init_gateway_ports].
  destruct (init_physical_Ok physical ∅ Hp) as (phys & Hphys & Hlook).
  { intros k Hk. assert (Hs : is_Some (rt_worker_physical_slots rt !! k)).
    { rewrite <- Hp'. apply not_eq_None_Some. intros H. by apply not_elem_of_list_to_map in H. }
    unfold Routing.main in Hmain. result_inv.
    cbn [rt_worker_physical_slots] in Hs. by eapply physical_by_worker_keys. }
  unfold init_physical_slots. rewrite Hphys. cbn -[init_gateway_ports]. eexists. split; [reflexivity|]. cbn. split_and!; [done..|].
  intros w. rewrite Hlook, Hp', lookup_empty. by destruct (_ !! _).
Qed.

(** ** The placement is found again *)

Lemma phase_items_json pl phase :
  phase_items (PDict (placement_json pl)) phase =
  Ok ((λ p, (PInt (pl_process_index p), PDict (placed_json p))) <$> filter (λ p, pl_phase p = phase) (pl_processes pl)).
Proof.
  unfold phase_items. cbn -[fold_result placed_json]. generalize (pl_processes pl) as ps. intros ps.
  enough (∀ acc, fold_result (λ acc item,
    item_phase ← subscript "phase" item;
    if eq_str item_phase phase then k ← subscript "process_index" item; Ok (acc ++ [(k, item)]) else Ok acc)
    acc ((λ p, PDict (placed_json p)) <$> ps) =
    Ok (acc ++ ((λ p, (PInt (pl_process_index p), PDict (placed_json p))) <$> filter (λ p, pl_phase p = phase) ps))) as H by exact (H []).
  induction ps as [|p ps IH]; intros acc; [by rewrite app_nil_r|]. cbn [fmap list_fmap fold_result].
  change (subscript "phase" (PDict (placed_json p))) with (@Ok pyval (PStr (pl_phase p))).
  change (subscript "process_index" (PDict (placed_json p))) with (@Ok pyval (PInt (pl_process_index p))).
  cbn [mbind result_bind eq_str]. rewrite filter_cons. destruct (String.eqb_spec (pl_phase p) phase) as [He|He].
  - rewrite decide_True by done. cbn [fmap list_fmap]. rewrite IH, <- app_assoc. done.
  - rewrite decide_False by done. apply IH.
Qed.

Lemma filter_map {A B} (f : A → B) (p : B → bool) (l : list A) :
  filter (λ b, p b = true) (f <$> l) = f <$> filter (λ a, p (f a) = true) l.
Proof. induction l as [|a l IH]; [done|]. cbn [fmap list_fmap]. rewrite !filter_cons, IH. by repeat case_decide. Qed.

(** The worker the distributed YAML names is the one of the placement. *)
Lemma worker_host_json pl phase i :
  worker_host (PDict (placement_json pl)) phase i =
  (slot ← node_slot_of (pl_processes pl) phase i; Ok ("worker-" +:+ str_of_Z slot +:+ ":9300")).
Proof.
  unfold worker_host, node_slot_of. rewrite phase_items_json. cbn [mbind result_bind].
  rewrite (filter_map _ (λ ki, eq_int ki.1 i)), fmap_last, list_filter_filter.
  rewrite (list_filter_iff _ (λ p, pl_phase p = phase ∧ pl_process_index p = i)).
  - destruct (last _) as [p|]; [|done]. cbn [fmap option_fmap option_map].
    change (subscript "node_slot" (PDict (placed_json p))) with (@Ok pyval (PInt (pl_node_slot p))). done.
  - intros p. cbn [fst eq_int]. rewrite Z.eqb_eq. naive_solver.
Qed.

(** ** The chain of files *)

Section Chain.
Context (float_of : string → pyval).

Lemma write_document_Ok output d h h' u :
  write_document output d h = (h', Ok u) → h_files h' = <[output := json_indent 0 (PDict d) +:+ nl]> (h_files h).
Proof using Type.
  unfold write_document. intros (h1 & u1 & Hm & Hw)%H_bind_Ok. apply h_write_Ok in Hw as [_ Hw]. unfold h_files at 1. rewrite Hw.
  cbn [fs_files]. unfold h_mkdir in Hm. destruct (bool_decide _); [done|]. by injection Hm as <-.
Qed.

Lemma read_document_Ok path v h :
  h_files h !! path = Some (json_indent 0 v +:+ nl) → plain v = true → read_document (loads float_of) path h = (h, Ok v).
Proof using Type.
  intros Hp Hv. unfold read_document, mbind, H_bind, h_read, h_lift. rewrite Hp. cbn [of_option]. by rewrite loads_indented.
Qed.

(** The files of a placement and its topology are there. *)
Definition generated (pl : placement) (t : topology) (pp tp : string) (h : host) : Prop :=
  h_files h !! pp = Some (json_indent 0 (PDict (placement_json pl)) +:+ nl) ∧
  h_files h !! tp = Some (json_indent 0 (PDict (topology_json t)) +:+ nl) ∧ plain (PDict (pl_source pl)) = true.

(** The routing generator writes the document of the table [Routing.main] computes. *)
Lemma routing_main_Ok pl t pp tp rp arg h h' u :
  generated pl t pp tp h → routing_main (loads float_of) pp tp rp arg h = (h', Ok u) →
  ∃ rt d, Routing.main pl t arg = Ok rt ∧ document_of d rt ∧ h_files h' = <[rp := json_indent 0 (PDict d) +:+ nl]> (h_files h).
Proof using Type.
  intros (Hp & Ht & Hs) Hm. unfold routing_main in Hm.
  unfold mbind at 1, H_bind at 1 in Hm. rewrite (read_document_Ok _ _ _ Hp) in Hm by by apply placement_plain.
  unfold mbind at 1, H_bind at 1 in Hm. rewrite (read_document_Ok _ _ _ Ht) in Hm by apply topology_plain.
  pose proof (routing_refines pl t arg) as Hr.
  apply H_bind_Ok in Hm as (h1 & tb & [-> Htb]%h_lift_Ok & Hm). rewrite Htb in Hr. cbn [mbind result_bind] in Hr.
  apply H_bind_Ok in Hm as (h2 & u2 & Hd & Hm). apply H_bind_Ok in Hm as (h3 & d & [-> Hdoc]%h_lift_Ok & Hw).
  rewrite Hdoc in Hr. destruct (Routing.main pl t arg) as [rt|]; [|done]. exists rt, d. split_and!; [done|exact Hr|].
  eapply (write_document_Ok rp d h). unfold write_document, mbind, H_bind. by rewrite Hd, Hw.
Qed.

(** A router started on that file is configured with the table. *)
Lemma router_started pl t arg rt d rp own h :
  Routing.main pl t arg = Ok rt → document_of d rt → h_files h !! rp = Some (json_indent 0 (PDict d) +:+ nl) →
  ∃ r, router_start (loads float_of) own rp h = (h, Ok r) ∧ slot r = own ∧ resolves pl own r ∧
    ∀ w, physical_slots r !! w = rt_worker_physical_slots rt !! str_of_Z w.
Proof using Type.
  intros Hmain Hd Hf. destruct (init_document _ _ _ own _ _ Hmain Hd) as (r & Hr & Hs & Hc & Hg & Hp). exists r.
  split_and!; [|done| |done].
  - unfold router_start, mbind, H_bind. rewrite (read_document_Ok _ (PDict d)); [|done|by eapply document_plain].
    unfold h_lift. cbn [is_dict of_option]. by rewrite Hr.
  - by eapply configured_resolves.
Qed.

End Chain.

Lemma resolve_source_plain stem man args name path source :
  plain (PDict (man_source man)) = true → resolve_source stem man args = Ok (name, path, source) → plain (PDict source) = true.
Proof.
  intros Hm. unfold resolve_source. intros (u & _ & H)%bind_Ok. destruct (arg_source_yaml args); [by injection H as _ _ <-|].
  apply bind_Ok in H as (p & _ & [= _ _ <-]). done.
Qed.

(** The generators leave the files of their results. *)
Lemma generate_files_Ok float_of stem man load pargs targs arg pp tp rp h h' u :
  generate_files (loads float_of) stem man load pargs targs arg pp tp rp h = (h', Ok u) →
  pp ≠ tp → plain (PDict (man_source man)) = true →
  ∃ pl t rt d, Placement.main stem man load pargs = Ok pl ∧ Topology.main targs = Ok t ∧ Routing.main pl t arg = Ok rt ∧
    document_of d rt ∧ h_files h' !! rp = Some (json_indent 0 (PDict d) +:+ nl) ∧
    (pp ≠ rp → tp ≠ rp → generated pl t pp tp h').
Proof.
  intros Hg Hne Hman. unfold generate_files in Hg.
  apply H_bind_Ok in Hg as (h1 & u1 & H1 & Hg). apply H_bind_Ok in Hg as (h2 & u2 & H2 & H3).
  unfold placement_main in H1. apply H_bind_Ok in H1 as (h0 & pl & [-> Hpl]%h_lift_Ok & H1%write_document_Ok).
  unfold topology_main in H2. apply H_bind_Ok in H2 as (h0 & t & [-> Ht]%h_lift_Ok & H2%write_document_Ok).
  assert (Hs : plain (PDict (pl_source pl)) = true).
  { unfold Placement.main in Hpl. apply bind_Ok in Hpl as (u0 & _ & Hpl). apply bind_Ok in Hpl as ([[name path] source] & Hsrc & Hpl).
    apply bind_Ok in Hpl as (config & _ & Hpl). apply bind_Ok in Hpl as (ps & _ & [= <-]). by eapply resolve_source_plain. }
  assert (Hgen : generated pl t pp tp h2).
  { split_and!; [|by rewrite H2, lookup_insert_eq|done]. rewrite H2, lookup_insert_ne, H1 by done. by rewrite lookup_insert_eq. }
  destruct (routing_main_Ok float_of _ _ _ _ _ _ _ _ _ Hgen H3) as (rt & d & Hmain & Hd & Hf).
  exists pl, t, rt, d. split_and!; [done..|by rewrite Hf, lookup_insert_eq|]. intros Hpr Htr. destruct Hgen as (Hp & Ht' & _).
  split_and!; [| |done]; by rewrite Hf, lookup_insert_ne.
Qed.

(** ** Properties *)

(** C5: the files of the tool chain fit together.  Once the three generators have run, the topology
    has one worker per node and no chiplet coordinate is placed twice; a router started on any
    worker from the routing file they left comes up, and it resolves every pipe to the worker on
    which a process serving its destination (for a write) or its source (for a read) was placed,
    knows the port of every such peer and the physical host of every worker; and the generator of
    the distributed YAML finds in the placement file, for each process, the worker of its
    placement. *)
Theorem native_files_resolve float_of stem man load pargs targs arg pp tp rp h h' :
  generate_files (loads float_of) stem man load pargs targs arg pp tp rp h = (h', Ok ()) →
  pp ≠ tp → plain (PDict (man_source man)) = true →
  ∃ pl t, Placement.main stem man load pargs = Ok pl ∧ Topology.main targs = Ok t ∧
    zlen (top_workers t) = pl_swarm_nodes pl ∧ consistent (pl_processes pl) ∧
    (∀ own, ∃ r, router_start (loads float_of) own rp h' = (h', Ok r) ∧ slot r = own ∧ resolves pl own r ∧
       ∀ w slots, physical_slots_of (pl_swarm_nodes pl) arg = Ok slots → 0 ≤ w < pl_swarm_nodes pl →
         physical_slots r !! w = slots !! Z.to_nat w) ∧
    (pp ≠ rp → tp ≠ rp → ∀ phase i,
       (placement ← read_document (loads float_of) pp; h_lift (worker_host placement phase i)) h' =
       (h', slot ← node_slot_of (pl_processes pl) phase i; Ok ("worker-" +:+ str_of_Z slot +:+ ":9300"))).
Proof.
  intros Hg Hne Hman.
  destruct (generate_files_Ok _ _ _ _ _ _ _ _ _ _ _ _ _ Hg Hne Hman) as (pl & t & rt & d & Hpl & Ht & Hrt & Hd & Hf & Hgen).
  exists pl, t. split; [done|]. split; [done|].
  assert (Hrt' := Hrt). unfold Routing.main in Hrt'. result_inv. bool_facts. split; [done|]. split.
  { apply consistent_of_Ok. by rewrite Ha1. }
  split.
  - intros own. destruct (router_started float_of _ _ _ _ _ _ own _ Hrt Hd Hf) as (r & Hr & Hs & Hres & Hphys). exists r.
    split_and!; [done..|]. intros w slots Hslots Hw. rewrite Hphys. cbn [rt_worker_physical_slots].
    assert (slots = a0) as -> by congruence. by apply (physical_by_worker_Ok _ _ _ Ha2).
  - intros Hpr Htr phase i. destruct (Hgen Hpr Htr) as (Hp & _ & Hs). unfold mbind at 1, H_bind.
    rewrite (read_document_Ok float_of pp _ h' Hp) by by apply placement_plain. unfold h_lift. by rewrite worker_host_json.
Qed.

Definition demo_manifest : manifest := Manifest [] [].
Definition demo_placement_arguments : Placement.arguments := Placement.Arguments None (Some "mlp.yml") (Some "mlp") "communication-aware" 4.

Definition demo_generate : H unit :=
  generate_files (loads no_float) id demo_manifest (λ _, Ok demo_mlp) demo_placement_arguments (default_arguments 4) (Some "0,0,1,1")
    "run/placement.json" "run/topology.json" "run/routing.json".

Lemma native_files_resolve_witness :
  ∃ h' r, demo_generate (Host (Filesystem {["run"]} ∅) [] 0) = (h', Ok ()) ∧
    router_start (loads no_float) 3 "run/routing.json" h' = (h', Ok r) ∧
    physical_slots r !! 2 = Some 1 ∧
    (peer_for r R (pipe_name_of 5 5 0 0) = Ok 0 → gateway_ports r !! 0 = Some 9500).
Proof.
  destruct (demo_generate (Host (Filesystem {["run"]} ∅) [] 0)) as [h' u] eqn:E.
  assert (Hu : (demo_generate (Host (Filesystem {["run"]} ∅) [] 0)).2 = Ok ()) by (vm_compute; reflexivity).
  rewrite E in Hu. cbn [snd] in Hu. subst u. exists h'.
  destruct (native_files_resolve _ _ _ _ _ _ _ _ _ _ _ _ E) as (pl & t & Hpl & _ & _ & _ & Hr & _); [discriminate|reflexivity|].
  destruct (Hr 3) as (r & Hstart & _ & Hres & Hphys). exists r. split; [reflexivity|]. split; [exact Hstart|].
  assert (Hn : pl_swarm_nodes pl = 4) by (vm_compute in Hpl; by injection Hpl as <-).
  split; [exact (Hphys 2 [0; 0; 1; 1] ltac:(rewrite Hn; vm_compute; reflexivity) ltac:(rewrite Hn; lia))|].
  intros Hp. exact (proj2 (Hres R 5 5 0 0 0) Hp ltac:(discriminate)).
Defined.
