(* ===== verification/RouterLogs.v ===== *)
(** * The router's log and its readers

    [src/real/simbricks_pipe_router.py] prints one line for each step of a request and one record of
    each completed operation.  The records are read back from the log by the metric collector
    ([collect_timing_metrics.py]), the steady-state summary ([summarize_steady_measurement.py]), the
    data-parallel matrix ([run_mlp_dp_matrix.py]) and the matrix summaries
    ([summarize_native_matrix.py], [summarize_functional_metrics.py]), each with its own way of
    finding them.  This file models the printed text and shows that all of them find the same. *)

From S2P Require Import Prelude PyValue Intervals Csv Worker Proxy.
From S2P Require Import Feedback Experiments Host Traces Swarm Remote MlpDpMatrix Probes.
From S2P Require Import Scalability Summaries Json NativeFiles Collected Steady TimingMetrics Router.

(** ** The log *)

(** What [print] writes. *)
Definition print_output (o : output) : string :=
  match o with
  | Line text => text +:+ nl
  | Metric record => "pipe-metric: " +:+ json_dumps (PDict record) +:+ nl
  end.

Definition log_text (outputs : list output) : string := join "" (print_output <$> outputs).

Definition metric_records (outputs : list output) : list pydict :=
  outputs ≫= λ o, match o with Metric record => [record] | Line _ => [] end.

(** The request's header has no line break besides its own. *)
Definition clean_header (stream : string) : bool := no_break (rstrip_by (Ascii.eqb NL) (cut_line stream).1).

(** ** Texts without a record *)

(** Every occurrence of the marker has a [c], a colon and a space in a row: the state after reading a
    text is how much of these three has just been seen; [None] if all of them. *)
Definition step (state : nat) (c : ascii) : option nat :=
  if Ascii.eqb c "c"%char then Some 1%nat
  else if Ascii.eqb c ":"%char then Some (if (state =? 1)%nat then 2 else 0)%nat
  else if Ascii.eqb c " "%char && (state =? 2)%nat then None
  else Some 0%nat.

Fixpoint walk (state : nat) (s : string) : option nat :=
  match s with
  | "" => Some state
  | String c s' => state' ← step state c; walk state' s'
  end.

Lemma walk_app st a b : walk st (a +:+ b) = (st' ← walk st a; walk st' b).
Proof. revert st. induction a as [|c a IH]; intros st; [done|]. cbn. destruct (step st c); cbn; [apply IH|done]. Qed.

Lemma walk_marker st s r : strip_prefix "pipe-metric: " s = Some r → walk st s = None.
Proof.
  intros ->%strip_prefix_Some. rewrite walk_app. destruct st as [|[|[|st]]]; reflexivity.
Qed.

(** A text that the walk gets through has no marker. *)
Lemma walk_no_marker st s a b : is_Some (walk st s) → s = a +:+ b → strip_prefix "pipe-metric: " b = None.
Proof.
  intros Hw ->. rewrite walk_app in Hw. destruct (walk st a) as [st'|]; [|by destruct Hw].
  destruct (strip_prefix _ b) eqn:E; [|done]. apply (walk_marker st') in E. cbn in Hw. rewrite E in Hw. by destruct Hw.
Qed.

(** Without a colon the walk never gets to its third state. *)
Lemma walk_no_colon st s : (st ≤ 1)%nat → lacks ":" s = true → ∃ st', walk st s = Some st' ∧ (st' ≤ 1)%nat.
Proof.
  revert st. induction s as [|c s IH]; intros st Hst Hs; [by exists st|]. unfold lacks in *. cbn in Hs |- *.
  apply andb_true_iff in Hs as [Hc Hs]. unfold step. destruct (Ascii.eqb c "c"); [by apply IH; [lia|]|].
  destruct (Ascii.eqb c ":"); [done|]. replace ((st =? 2)%nat) with false by (symmetry; apply Nat.eqb_neq; lia).
  rewrite andb_false_r. apply IH; [lia|done].
Qed.

Lemma walk_no_space st s : lacks " " s = true → is_Some (walk st s).
Proof.
  revert st. induction s as [|c s IH]; intros st Hs; [by exists st|]. unfold lacks in *. cbn in Hs |- *.
  apply andb_true_iff in Hs as [Hc%negb_true_iff Hs]. unfold step. rewrite Hc. cbn [andb].
  destruct (Ascii.eqb c "c"); [by apply IH|]. destruct (Ascii.eqb c ":"); by apply IH.
Qed.

(** A line that no reader takes for a record. *)
Definition quiet (text : string) : Prop := no_break text = true ∧ is_Some (walk 0 text).

Lemma quiet_app a b : quiet a → walk 0 a = Some 0%nat → quiet b → quiet (a +:+ b).
Proof. intros [Ha _] Hw [Hb Hwb]. split; [by rewrite no_break_app, Ha, Hb|]. by rewrite walk_app, Hw. Qed.

(** A text without a colon, followed by one that starts with another character. *)
Lemma quiet_plain a c b :
  no_break a = true → lacks ":" a = true → Ascii.eqb c ":" = false → quiet (String c b) → quiet (a +:+ String c b).
Proof.
  intros Ha Hc Hne [Hb Hw]. split; [by rewrite no_break_app, Ha, Hb|]. rewrite walk_app.
  destruct (walk_no_colon 0 a ltac:(lia) Hc) as (st & -> & Hst). cbn [mbind option_bind]. cbn [walk] in *.
  enough (step st c = step 0 c) as -> by done. unfold step. rewrite Hne.
  destruct st as [|[|st]]; [done|done|lia].
Qed.

Lemma quiet_no_space a : no_break a = true → lacks " " a = true → quiet a.
Proof. intros Ha Hs. split; [done|by apply walk_no_space]. Qed.

Lemma quiet_no_colon a : no_break a = true → lacks ":" a = true → quiet a.
Proof. intros Ha Hs. split; [done|]. by destruct (walk_no_colon 0 a ltac:(lia) Hs) as (st & -> & _). Qed.

(** ** What the handler prints *)

Lemma lacks_pipe c s : str_forallb pipe_char s = true → pipe_char c = false → lacks c s = true.
Proof.
  intros Hs Hc. eapply str_forallb_impl; [|exact Hs]. intros a Ha. cbn. destruct (Ascii.eqb_spec a c) as [->|]; [congruence|done].
Qed.

Lemma no_break_pipe s : str_forallb pipe_char s = true → no_break s = true.
Proof. apply str_forallb_impl. intros c. by destruct c as [[] [] [] [] [] [] [] []]. Qed.

(** A constant in front. *)
Lemma quiet_front a b : no_break a = true → walk 0 a = Some 0%nat → quiet b → quiet (a +:+ b).
Proof. intros Ha Hw Hb. apply quiet_app; [split; [done|by rewrite Hw]|done|done]. Qed.

(** A field without a colon in front of a constant that starts with another character. *)
Definition not_colon (k : string) : bool := match k with String c _ => negb (Ascii.eqb c ":") | "" => false end.

Lemma quiet_field a k b :
  no_break a = true → lacks ":" a = true → not_colon k = true → quiet (k +:+ b) → quiet (a +:+ k +:+ b).
Proof. intros Ha Hc Hk. destruct k as [|c k]; [done|]. apply quiet_plain; [done|done|]. by apply negb_true_iff. Qed.

Lemma int_field z : no_break (str_of_Z z) = true ∧ lacks ":" (str_of_Z z) = true.
Proof. split; [apply no_break_str_of_Z|by apply str_of_Z_lacks]. Qed.

Lemma pipe_field a : str_forallb pipe_char a = true → no_break a = true ∧ lacks ":" a = true.
Proof. intros Ha. split; [by apply no_break_pipe|by apply (lacks_pipe ":")]. Qed.

(** A constant, then a field, then a constant again, ... *)
Ltac quiet_front := apply quiet_front; [reflexivity|reflexivity|].
Ltac quiet_field := apply quiet_field; [apply int_field || (by apply pipe_field)..|reflexivity|].

Lemma quiet_operation a op k b :
  no_break a = true → walk 0 a = Some 0%nat → not_colon k = true → quiet (k +:+ b) → quiet (a +:+ op_text op +:+ k +:+ b).
Proof. intros Ha Hw Hk Hb. apply quiet_front; [done..|]. by destruct op; apply quiet_field. Qed.

Definition line_of_output (o : output) : string := match o with Line text => text | Metric _ => "" end.

Lemma quiet_announce r rq : str_forallb pipe_char (rq_pipe rq) = true → quiet (line_of_output (announce r rq)).
Proof.
  intros Hp. unfold announce, line_of_output. apply quiet_operation; [reflexivity..|].
  quiet_front. quiet_field. quiet_front. quiet_field. quiet_front. quiet_field. quiet_front.
  apply quiet_no_colon; apply int_field.
Qed.

Lemma quiet_completed rq : str_forallb pipe_char (rq_pipe rq) = true → quiet (line_of_output (completed rq)).
Proof.
  intros Hp. unfold completed, line_of_output. apply quiet_operation; [reflexivity..|].
  quiet_front. quiet_field. quiet_front. apply quiet_no_colon; apply int_field.
Qed.

(** *** Rejections *)

Lemma no_break_repr s : no_break (repr_str s) = true ∧ (lacks " " s = true → lacks " " (repr_str s) = true).
Proof.
  unfold repr_str. set (quote := if _ && _ then DQUOTE else "'"%char).
  assert (Hq : quote = DQUOTE ∨ quote = "'"%char) by (subst quote; destruct (_ && _); auto). clearbody quote.
  assert (H : no_break (repr_chars quote s) = true ∧ (lacks " " s = true → lacks " " (repr_chars quote s) = true)).
  { induction s as [|c s [IHb IHs]]; [done|]. cbn [repr_chars]. rewrite no_break_app, IHb, andb_true_r. unfold lacks in *.
    rewrite str_forallb_app. split.
    - destruct Hq as [-> | ->]; by destruct c as [[] [] [] [] [] [] [] []].
    - intros Hl. cbn [str_forallb] in Hl. apply andb_true_iff in Hl as [Hc Hl]. rewrite IHs, andb_true_r by done.
      revert Hc. destruct Hq as [-> | ->]; by destruct c as [[] [] [] [] [] [] [] []]. }
  destruct H as [Hb Hs]. unfold lacks in *. rewrite !no_break_app, Hb. split; [by destruct Hq as [-> | ->]|].
  intros Hl. rewrite !str_forallb_app, Hs by done. by destruct Hq as [-> | ->].
Qed.

Lemma forallb_take p n s : str_forallb p s = true → str_forallb p (str_take n s) = true.
Proof.
  rewrite <- (str_take_drop n s) at 1. rewrite str_forallb_app. by intros [? _]%andb_true_iff.
Qed.

Lemma forallb_split p c s w : str_forallb p s = true → w ∈ split_on c s → str_forallb p w = true.
Proof.
  revert w. induction s as [|a s IH]; intros w Hs; cbn [split_on]; [by intros ->%list_elem_of_singleton|].
  cbn in Hs. apply andb_true_iff in Hs as [Ha Hs]. destruct (Ascii.eqb a c).
  - intros [->|Hw]%elem_of_cons; [done|by apply IH].
  - destruct (split_on c s) as [|w' ws] eqn:E; [by apply split_on_nonnil in E|].
    intros [->|Hw]%elem_of_cons; [cbn; rewrite Ha; apply IH; [done|set_solver]|apply IH; [done|set_solver]].
Qed.

Lemma rpartition_Some c s l r : rpartition_on c s = Some (l, r) → s = l +:+ String c r.
Proof.
  revert l r. induction s as [|a s IH]; intros l r; [done|]. cbn [rpartition_on].
  destruct (rpartition_on c s) as [[l' r']|] eqn:E.
  - intros [= <- <-]. by rewrite (IH _ _ eq_refl).
  - destruct (Ascii.eqb_spec a c) as [->|]; [by intros [= <- <-]|done].
Qed.

Lemma forallb_after_last p c s : str_forallb p s = true → str_forallb p (after_last c s) = true.
Proof.
  unfold after_last. destruct (rpartition_on c s) as [[l r]|] eqn:E; [|done]. apply rpartition_Some in E as ->.
  rewrite str_forallb_app. intros [_ H]%andb_true_iff. cbn in H. by apply andb_true_iff in H as [_ H].
Qed.

Definition hex_pair (c : ascii) : string := String (hex_digit (ord c / 16)) (String (hex_digit (ord c mod 16)) "").

Lemma hex_pair_field c : no_break (hex_pair c) && lacks ":" (hex_pair c) = true.
Proof. destruct c as [[] [] [] [] [] [] [] []]; vm_compute; reflexivity. Qed.

(** Digits leave the walk in its first state. *)
Lemma walk_int z : walk 0 (str_of_Z z) = Some 0%nat.
Proof.
  pose proof (str_of_Z_int_chars z) as Hz. revert Hz. generalize (str_of_Z z) as s.
  induction s as [|c s IH]; [done|]. cbn. intros [Hc Hs]%andb_true_iff.
  replace (step 0 c) with (Some 0%nat) by (clear -Hc; by destruct c as [[] [] [] [] [] [] [] []]). by apply IH.
Qed.

Lemma quiet_decode line e : decode_ascii line = Err e → quiet (exn_str e).
Proof.
  unfold decode_ascii. destruct (first_non_ascii 0 _) as [[i c]|]; [|done]. intros [= <-]. cbn [exn_str].
  change (quiet ("'ascii' codec can't decode byte 0x" +:+ hex_pair c +:+ " in position " +:+ str_of_Z i +:+ ": ordinal not in range(128)")).
  destruct (proj1 (andb_true_iff _ _) (hex_pair_field c)) as [Hb Hc].
  quiet_front. apply quiet_field; [exact Hb|exact Hc|reflexivity|]. quiet_front.
  apply quiet_front; [apply no_break_str_of_Z|apply walk_int|]. split; [reflexivity|by eexists].
Qed.

Lemma quiet_const m : no_break m = true → walk 0 m = Some 0%nat → quiet m.
Proof. intros Hb Hw. split; [done|by rewrite Hw]. Qed.

(** The fields of a header are texts between spaces. *)
Lemma header_fields line op path text :
  parse_header line = Ok (op, path, text) → no_break (rstrip_by (Ascii.eqb NL) line) = true →
  no_break path = true ∧ lacks " " path = true ∧ lacks " " text = true.
Proof.
  unfold parse_header. intros (l & Hd & Hh)%bind_Ok Hclean.
  assert (l = line) as -> by (unfold decode_ascii in Hd; destruct (first_non_ascii 0 line) as [[]|]; by simplify_eq).
  set (h := rstrip_by _ _) in *. pose proof (split_on_lacks_elem " " h) as Hsp. pose proof (λ w, forallb_split _ " " h w Hclean) as Hnb.
  destruct (split_on " " h) as [|o [|p [|b [|]]]]; try done. apply bind_Ok in Hh as (op' & _ & [= _ <- <-]).
  split_and!; [apply Hnb; set_solver|apply Hsp; set_solver|apply Hsp; set_solver].
Qed.

Lemma match_pipe_name_groups name a b c d :
  match_pipe_name name = Some (a, b, c, d) →
  str_forallb pipe_char a = true ∧ str_forallb pipe_char b = true ∧ str_forallb pipe_char c = true ∧ str_forallb pipe_char d = true.
Proof.
  unfold match_pipe_name. destruct (strip_prefix "buffer" name) as [rest|]; [|done]. cbn [mbind option_bind].
  destruct (split_on "_" rest) as [|a' [|b' [|c' [|d' [|]]]]]; try done.
  destruct (signed_digits a' && _ && _ && _) eqn:Hs; [|done]. intros [= <- <- <- <-]. bool_facts.
  split_and!; by apply signed_digits_chars.
Qed.

Lemma quiet_peer r op name e :
  peer_for r op name = Err e → no_break name = true → lacks " " name = true → quiet (exn_str e).
Proof.
  unfold peer_for. intros [[_ <-]%of_option_Err|([[[a b] c] d] & Hm & [_ <-]%of_option_Err)]%bind_Err Hb Hs; cbn [exn_str].
  - quiet_front. by apply quiet_no_space.
  - quiet_front. apply of_option_Ok in Hm. pose proof (match_pipe_name_groups _ _ _ _ _ Hm) as (Ha & Hb' & Hc & Hd).
    assert (Hq : ∀ x y, str_forallb pipe_char x = true → str_forallb pipe_char y = true → quiet (x +:+ "," +:+ y)).
    { intros x y Hx Hy. quiet_field. quiet_front. apply quiet_no_colon; by apply pipe_field. }
    destruct op; by apply Hq.
Qed.

Lemma quiet_readline s e : readline s = Err e → quiet (exn_str e).
Proof. unfold readline. destruct (cut_line s) as [l [r|]], (_ <? _)%nat; intros H; cbn in H; simplify_eq; by apply quiet_const. Qed.

Lemma quiet_readexactly n s e : readexactly n s = Err e → quiet (exn_str e).
Proof.
  unfold readexactly. destruct (_ <? _)%nat; intros H; cbn in H; [|done]. injection H as <-. cbn [exn_str].
  quiet_field. quiet_front. apply (quiet_plain _ " "); [apply int_field..|reflexivity|by apply quiet_const].
Qed.

(** The line a rejected request is reported with. *)
Lemma quiet_prepare r stream e : clean_header stream = true → prepare r stream = Err e → quiet (exn_str e).
Proof.
  unfold clean_header, prepare. intros Hclean [He|([line rest] & Hl & H)]%bind_Err.
  { by eapply quiet_readline. }
  assert (line = (cut_line stream).1) as ->.
  { unfold readline in Hl. destruct (cut_line stream) as [l [r'|]], (_ <? _)%nat; cbn in Hl; by simplify_eq. }
  apply bind_Err in H as [He|([[op path] text] & Hh & H)].
  { unfold parse_header in He. apply bind_Err in He as [He|(l & _ & He)]; [by eapply quiet_decode|].
    destruct (split_on _ _) as [|o [|p [|b [|]]]]; try (injection He as <-; by apply quiet_const).
    destruct (parse_operation o); cbn in He; simplify_eq. by apply quiet_const. }
  destruct (header_fields _ _ _ _ Hh Hclean) as (Hpb & Hps & Hts). clear Hh Hclean.
  apply bind_Err in H as [[_ <-]%of_option_Err|(n & _ & H)].
  { cbn [exn_str]. quiet_front. destruct (no_break_repr text) as [Hb Hs]. apply quiet_no_space; apply forallb_take; [done|by apply Hs]. }
  apply bind_Err in H as [[_ <-]%raise_if_Err|(u & _ & H)]; [by apply quiet_const|].
  apply bind_Err in H as [H|(pr & _ & H)]; [destruct op; [by eapply quiet_readexactly|done]|].
  apply bind_Err in H as [H|(peer & _ & H)]; [|done].
  eapply quiet_peer; [done|by apply forallb_after_last|by apply forallb_after_last].
Qed.

(** *** All the lines *)

(** What is printed is a line that no reader takes for a record, or the record of an operation. *)
Definition good_output (o : output) : Prop :=
  match o with
  | Line text => quiet text ∧ ∃ rest, text = "pipe-router: " +:+ rest
  | Metric record => ∃ r rq started finished, record = metric r rq started finished
  end.

Lemma quiet_perform r connect q rq e :
  (∀ port sent e, connect port sent = Err e → quiet (exn_str e)) → perform r connect q rq = Some (Err e) → quiet (exn_str e).
Proof.
  intros Hc. unfold perform. destruct (_ =? _); [destruct (handle_local _ _ _ _ _); [by intros [=]|done]|]. intros [= H].
  destruct (forward _ _ _ _ _ _) as [reply|e'] eqn:Hf; [done|]. injection H as <-.
  unfold forward in Hf. apply bind_Err in Hf as [[_ <-]%of_option_Err|(port & _ & Hf)].
  { cbn [exn_str]. quiet_front. apply quiet_no_colon; apply int_field. }
  apply bind_Err in Hf as [Hf|(stream & _ & Hf)]; [by eapply Hc|].
  apply bind_Err in Hf as [Hf|(response & _ & Hf)]; [by eapply quiet_readline|]. cbv zeta in Hf.
  destruct (String.eqb response.1 _); [done|]. destruct (String.eqb response.1 _); [|done].
  apply bind_Err in Hf as [Hf|(d & _ & [=])]. by eapply quiet_readexactly.
Qed.

Lemma good_rejected q printed e :
  quiet (exn_str e) → Forall good_output printed → Forall good_output (hd_output (rejected q printed e)).
Proof.
  intros He Hp. assert (Hr : good_output (Line ("pipe-router: rejected request: " +:+ exn_str e))).
  { split; [by quiet_front|]. by eexists ("rejected request: " +:+ _). }
  assert (Hg : good_output (Line ("pipe-router: gateway unavailable: " +:+ exn_str e))).
  { split; [by quiet_front|]. by eexists ("gateway unavailable: " +:+ _). }
  destruct e; cbn [rejected hd_output]; try done; apply Forall_app; by split; [|apply Forall_singleton].
Qed.

Lemma handle_prints r connect q started finished stream h :
  clean_header stream = true → (∀ port sent e, connect port sent = Err e → quiet (exn_str e)) →
  handle r connect q started finished stream = Some h → Forall good_output (hd_output h).
Proof.
  intros Hclean Hc. unfold handle. destruct (prepare r stream) as [[rq rest]|e] eqn:Hp.
  2:{ intros [= <-]. apply good_rejected; [by eapply quiet_prepare|constructor]. }
  apply prepare_Ok in Hp as (_ & _ & Hpeer%peer_for_chars).
  assert (Ha : good_output (announce r rq)) by (split; [exact (quiet_announce r rq Hpeer)|by eexists]).
  assert (Hd : good_output (completed rq)) by (split; [exact (quiet_completed rq Hpeer)|by eexists]).
  intros (outcome & Hper & [= <-])%bind_Some. destruct outcome as [[q' reply]|e].
  - apply Forall_cons; split; [done|]. apply Forall_cons; split; [by repeat eexists|]. by apply Forall_singleton.
  - apply good_rejected; [by eapply quiet_perform|by apply Forall_singleton].
Qed.

(** ** Reading the log *)

Definition line_text (o : output) : string :=
  match o with Line text => text | Metric record => "pipe-metric: " +:+ json_dumps (PDict record) end.

Lemma metric_plain r rq started finished : plain (PDict (metric r rq started finished)) = true.
Proof. reflexivity. Qed.

Lemma good_line o : good_output o → no_break (line_text o) = true.
Proof.
  destruct o as [text|record]; [by intros [[Hb _] _]|]. intros (r & rq & s & f & ->). unfold line_text.
  rewrite no_break_app, <- (render_compact 0), no_break_render; [done|by intros|apply metric_plain].
Qed.

Lemma log_lines outputs : Forall good_output outputs → splitlines (log_text outputs) = line_text <$> outputs.
Proof.
  intros Hg. rewrite <- (splitlines_lines (line_text <$> outputs)) at 1.
  - f_equal. unfold log_text. f_equal. rewrite <- list_fmap_compose. apply list_fmap_ext. intros i o _.
    destruct o; cbn; [done|]. by rewrite !str_app_assoc.
  - apply Forall_fmap. eapply Forall_impl; [exact Hg|]. apply good_line.
Qed.

Section Readers.
Context (float_of : string → pyval).

Lemma loads_metric before r rq s f :
  blank before = true → loads float_of (before +:+ json_dumps (PDict (metric r rq s f))) = Ok (PDict (metric r rq s f)).
Proof using Type.
  intros Hb. rewrite <- (render_compact 0). rewrite <- (str_app_nil_r (render compact 0 _)).
  apply (loads_render float_of compact compact_blank before ""); [done..|]. apply plain_readable, metric_plain.
Qed.

Lemma loads_record r rq s f : loads float_of (json_dumps (PDict (metric r rq s f))) = Ok (PDict (metric r rq s f)).
Proof using Type. exact (loads_metric "" r rq s f eq_refl). Qed.

(** The collector *)
Lemma count_lines outputs acc :
  Forall good_output outputs →
  fold_result (count_line (loads float_of)) acc (line_text <$> outputs) =
  (m ← fold_result add_to_groups acc.1 (metric_records outputs); Ok (m, acc.2 ++ metric_records outputs)).
Proof using Type.
  intros Hg. revert acc. induction Hg as [|o outputs Ho Hg IH]; intros [m records]; [cbn; by rewrite app_nil_r|].
  cbn [fmap list_fmap fold_result]. destruct o as [text|record].
  - destruct Ho as [_ [rest ->]]. change (count_line _ (m, records) (line_text (Line ("pipe-router: " +:+ rest)))) with (@Ok (counters * list pydict) (m, records)).
    cbn [mbind result_bind]. apply IH.
  - destruct Ho as (r & rq & s & f & ->). unfold count_line at 1.
    change (metric_payload (line_text (Metric (metric r rq s f)))) with (Some (" " +:+ json_dumps (PDict (metric r rq s f)))).
    cbv beta iota. rewrite loads_metric by done. cbn [is_dict of_option mbind result_bind fst snd].
    change (metric_records (Metric (metric r rq s f) :: outputs)) with (metric r rq s f :: metric_records outputs).
    cbn [fold_result]. destruct (add_to_groups m (metric r rq s f)) as [m'|e]; [|done]. cbn [mbind result_bind].
    rewrite IH. cbn [fst snd]. by rewrite <- app_assoc.
Qed.

(** The two searches inside a line *)
Lemma after_marker_None s : is_Some (walk 0 s) → after_marker "pipe-metric: " s = None.
Proof using Type.
  intros Hw. assert (H : ∀ a b, s = a +:+ b → strip_prefix "pipe-metric: " b = None) by (intros a b; by apply (walk_no_marker 0)).
  clear Hw. induction s as [|c s IH]; [done|]. cbn [after_marker]. rewrite (H "" (String c s) eq_refl).
  apply IH. intros a b ->. by apply (H (String c a)).
Qed.

Lemma after_first_marker p s : after_first p s = after_marker p s.
Proof using Type. induction s as [|c s IH]; cbn; [done|]. by rewrite IH. Qed.

Lemma after_marker_record s : after_marker "pipe-metric: " ("pipe-metric: " +:+ s) = Some s.
Proof using Type. reflexivity. Qed.

Lemma log_metrics_records outputs :
  Forall good_output outputs → log_metrics (loads float_of) (log_text outputs) = Ok (metric_records outputs).
Proof using Type.
  intros Hg. unfold log_metrics. rewrite log_lines by done.
  enough (∀ acc, fold_result (λ acc line, match after_marker "pipe-metric: " line with
    | None => Ok acc
    | Some text => v ← loads float_of text; d ← is_dict v ?! TypeError; Ok (acc ++ [d])
    end) acc (line_text <$> outputs) = Ok (acc ++ metric_records outputs)) as H by apply (H []).
  induction Hg as [|o outputs Ho Hg IH]; intros acc; [by rewrite app_nil_r|]. cbn [fmap list_fmap fold_result].
  destruct o as [text|record].
  - destruct Ho as [[_ Hw] _]. unfold line_text at 1. rewrite after_marker_None by done. apply IH.
  - destruct Ho as (r & rq & s & f & ->). unfold line_text at 1. rewrite after_marker_record.
    rewrite loads_record. cbn [is_dict of_option mbind result_bind]. rewrite IH, <- app_assoc. done.
Qed.

Lemma parse_lines_records outputs :
  Forall good_output outputs →
  splitlines (log_text outputs) ≫= parse_line (loads float_of) = PDict <$> metric_records outputs.
Proof using Type.
  intros Hg. rewrite log_lines by done. induction Hg as [|o outputs Ho Hg IH]; [done|].
  cbn [fmap list_fmap mbind list_bind]. rewrite IH. destruct o as [text|record].
  - destruct Ho as [[_ Hw] _]. unfold parse_line, line_text. by rewrite after_first_marker, after_marker_None.
  - destruct Ho as (r & rq & s & f & ->). unfold parse_line, line_text. rewrite after_first_marker, after_marker_record.
    by rewrite loads_record.
Qed.

(** *** The regular expression of the summaries *)

Lemma scan_skip {A} (at_ : string → option (A * string)) c s : at_ (String c s) = None → Prelude.scan at_ (String c s) = Prelude.scan at_ s.
Proof using Type. intros H. unfold Prelude.scan. cbn [str_length scan_go]. by rewrite H. Qed.

Lemma scan_match {A} (at_ : string → option (A * string)) s a rest :
  (∀ s a rest, at_ s = Some (a, rest) → (str_length rest < str_length s)%nat) →
  at_ s = Some (a, rest) → Prelude.scan at_ s = a :: Prelude.scan at_ rest.
Proof using Type.
  intros Hat Hs. unfold Prelude.scan at 1. cbn [scan_go]. rewrite Hs. f_equal. apply scan_enough; [done|by eapply Hat].
Qed.

Lemma span_line_length s : (str_length (span_line s).1 + str_length (span_line s).2 = str_length s)%nat.
Proof using Type.
  induction s as [|c s IH]; [done|]. cbn [span_line]. destruct (Ascii.eqb c NL); [done|].
  destruct (span_line s) as [l r]. cbn in *. lia.
Qed.

Lemma metric_at_shrinks s a rest : metric_at s = Some (a, rest) → (str_length rest < str_length s)%nat.
Proof using Type.
  unfold metric_at. destruct (strip_prefix _ s) as [r|] eqn:E; [|done]. apply strip_prefix_Some in E as ->.
  destruct (span_line r) as [l r'] eqn:El. pose proof (span_line_length r) as Hl. rewrite El in Hl. cbn [fst snd] in Hl.
  destruct (rpartition_on "}" l) as [[body after]|] eqn:Er; [|done]. apply rpartition_Some in Er as ->.
  destruct (String.eqb body ""); [done|]. intros [= <- <-]. rewrite str_length_app in *. cbn [str_length] in *.
  rewrite str_length_app. lia.
Qed.

(** A text without line feeds that begins a text begins its first line. *)
Lemma prefix_of_line p r a b : lacks NL p = true → p +:+ r = a +:+ String NL b → ∃ r', a = p +:+ r'.
Proof using Type.
  revert a. induction p as [|c p IH]; intros a Hp He; [by exists a|]. unfold lacks in Hp. cbn in Hp.
  apply andb_true_iff in Hp as [Hc Hp]. destruct a as [|c' a]; cbn in He; injection He as -> He; [done|].
  destruct (IH a Hp He) as [r' ->]. by exists r'.
Qed.

Lemma scan_quiet a b : is_Some (walk 0 a) → Prelude.scan metric_at (a +:+ nl +:+ b) = Prelude.scan metric_at b.
Proof using Type.
  intros Hw. assert (H : ∀ a1 a2, a = a1 +:+ a2 → metric_at (a2 +:+ nl +:+ b) = None).
  { intros a1 a2 Ha. unfold metric_at. destruct (strip_prefix _ _) as [r|] eqn:E; [|done]. apply strip_prefix_Some in E.
    symmetry in E. apply (prefix_of_line _ _ a2 b) in E as [r' ->]; [|done].
    pose proof (walk_no_marker 0 a a1 _ Hw Ha) as Hn. rewrite (proj2 (strip_prefix_Some "pipe-metric: " _ ("{" +:+ r'))) in Hn by done. done. }
  clear Hw. induction a as [|c a IH].
  - apply scan_skip. apply (H "" "" eq_refl).
  - change (String c a +:+ nl +:+ b) with (String c (a +:+ nl +:+ b)). rewrite scan_skip by apply (H "" _ eq_refl).
    apply IH. intros a1 a2 ->. by apply (H (String c a1)).
Qed.

Lemma span_line_app a b : lacks NL a = true → span_line (a +:+ nl +:+ b) = (a, nl +:+ b).
Proof using Type.
  unfold lacks. induction a as [|c a IH]; [done|]. cbn. intros [Hc%negb_true_iff Ha]%andb_true_iff. rewrite Hc.
  change (a +:+ String NL b) with (a +:+ nl +:+ b). by rewrite IH.
Qed.

Lemma scan_record body b :
  lacks NL body = true → body ≠ "" →
  Prelude.scan metric_at ("pipe-metric: " +:+ ("{" +:+ body +:+ "}") +:+ nl +:+ b) = body :: Prelude.scan metric_at b.
Proof using Type.
  intros Hb Hne. rewrite (scan_match _ _ body (nl +:+ b)); [|apply metric_at_shrinks|].
  - reflexivity.
  - unfold metric_at. rewrite (proj2 (strip_prefix_Some "pipe-metric: {" _ (body +:+ "}" +:+ nl +:+ b))) by by rewrite !str_app_assoc.
    rewrite <- str_app_assoc, span_line_app.
    + change (body +:+ "}") with (body +:+ String "}" ""). rewrite rpartition_on_app by done. by rewrite (proj2 (String.eqb_neq body "") Hne).
    + unfold lacks in *. by rewrite str_forallb_app, Hb.
Qed.

Lemma log_events_records outputs :
  Forall good_output outputs → log_events (loads float_of) (log_text outputs) = Ok (metric_records outputs).
Proof using Type.
  intros Hg. unfold log_events. induction Hg as [|o outputs Ho Hg IH]; [done|].
  unfold log_text in *. rewrite fmap_cons, join_nothing_cons. destruct o as [text|record]; cbn [print_output].
  - destruct Ho as [[_ Hw] _]. rewrite str_app_assoc, scan_quiet by done. exact IH.
  - pose proof (good_line _ Ho) as Hb. destruct Ho as (r & rq & s & f & ->). unfold line_text in Hb.
    change (json_dumps (PDict (metric r rq s f))) with
      ("{" +:+ join "," ((λ kv, json_str kv.1 +:+ ":" +:+ json_dumps kv.2) <$> metric r rq s f) +:+ "}") in *.
    set (body := join "," _) in *. rewrite !no_break_app, !andb_true_iff in Hb. destruct Hb as (_ & _ & Hb & _).
    rewrite !str_app_assoc, <- (str_app_assoc "{"), <- (str_app_assoc ("{" +:+ body)), (str_app_assoc "{").
    rewrite scan_record; [|by apply no_break_lacks|done].
    change (metric_records (Metric (metric r rq s f) :: outputs)) with (metric r rq s f :: metric_records outputs).
    assert (Hl : loads float_of ("{" +:+ body +:+ "}") = Ok (PDict (metric r rq s f))) by exact (loads_record r rq s f).
    cbn [mapM]. rewrite Hl.
    cbn [is_dict of_option mbind result_bind] in *. by rewrite IH.
Qed.

End Readers.

(** ** The collector succeeds on the router's records *)

Definition is_metric (record : pydict) : Prop := ∃ r rq started finished, record = metric r rq started finished.

Lemma metric_records_all outputs : Forall good_output outputs → Forall is_metric (metric_records outputs).
Proof.
  induction 1 as [|o outputs Ho _ IH]; [constructor|]. destruct o as [text|record]; [done|].
  destruct Ho as (r & rq & s & f & ->). by apply Forall_cons; split; [repeat eexists|].
Qed.

(** Every group has a counter. *)
Definition full {A} (m : gmap string A) : Prop := Forall (λ g, is_Some (m !! g)) groups.

Lemma full_insert {A} (m : gmap string A) k a : full m → full (<[k := a]> m).
Proof. intros Hm. eapply Forall_impl; [exact Hm|]. intros g Hg. cbn. rewrite lookup_insert. by case_decide. Qed.

Lemma selected_known scope g : g ∈ selected_groups scope → g ∈ groups.
Proof.
  unfold selected_groups. destruct (String.eqb scope "same_logical_worker"); [set_solver|].
  destruct (String.eqb scope "cross_physical_host"); set_solver.
Qed.

Lemma add_to_groups_total m record : is_metric record → full m → ∃ m', add_to_groups m record = Ok m' ∧ full m'.
Proof.
  intros (r & rq & s & f & ->) Hm. unfold add_to_groups. rewrite metric_scope. cbn [mbind result_bind].
  set (scope := scope_text _). pose proof (selected_known scope) as Hsel. revert m Hm Hsel.
  induction (selected_groups scope) as [|g gs IH]; intros m Hm Hsel; [by exists m|]. cbn [fold_result].
  assert (Hg : is_Some (m !! g)) by (apply (proj1 (Forall_forall _ _) Hm), Hsel; set_solver). destruct Hg as [c Hc].
  unfold add_to_group at 1. rewrite Hc. cbn [of_option mbind result_bind].
  change (add_record c (metric r rq s f)) with
    (@Ok counter (Counter (ct_records c + 1) (ct_bytes c + rq_bytes rq) (ct_elapsed_ns c + (monotonic_ns f - monotonic_ns s))
      (ct_sync_wait_ns c + match rq_operation rq with R => monotonic_ns f - monotonic_ns s | W => 0 end)
      (ct_writes c + bool_int (eq_str (PStr (op_text (rq_operation rq))) "W"))
      (ct_reads c + bool_int (eq_str (PStr (op_text (rq_operation rq))) "R")) (ct_intervals c))).
  cbn [mbind result_bind]. apply IH; [by apply full_insert|]. intros g' Hg'. apply Hsel. set_solver.
Qed.

Lemma add_all_total records m :
  Forall is_metric records → full m → ∃ m', fold_result add_to_groups m records = Ok m' ∧ full m'.
Proof.
  intros Hr. revert m. induction Hr as [|record records Hrec _ IH]; intros m Hm; [by exists m|].
  destruct (add_to_groups_total m record Hrec Hm) as (m' & Hm' & Hfull). cbn [fold_result]. rewrite Hm'. by apply IH.
Qed.

(** Every transfer holds records of the log. *)
Lemma append_to_all (P : pydict → Prop) m k record :
  P record → (∀ k, Forall P (default [] (m !! k))) → ∀ k', Forall P (default [] (append_to m k record !! k')).
Proof.
  intros Hr Hm k'. unfold append_to. rewrite lookup_insert. case_decide; [|apply Hm]. cbn.
  apply Forall_app; split; [apply Hm|by apply Forall_singleton].
Qed.

Lemma collect_transfers_all (P : pydict → Prop) records :
  Forall P records → ∀ k, Forall P (default [] ((collect_transfers records).1 !! k)) ∧ Forall P (default [] ((collect_transfers records).2 !! k)).
Proof.
  intros Hr. unfold collect_transfers.
  enough (∀ acc, (∀ k, Forall P (default [] (acc.1 !! k)) ∧ Forall P (default [] (acc.2 !! k))) →
    ∀ k, Forall P (default [] ((foldl sort_transfer acc records).1 !! k)) ∧ Forall P (default [] ((foldl sort_transfer acc records).2 !! k))) as H.
  { apply H. intros k. cbn. rewrite lookup_empty. split; constructor. }
  induction Hr as [|record records Hrec _ IH]; intros acc Hacc; [done|]. cbn [foldl]. apply IH.
  unfold sort_transfer. destruct (transfer_key record) as [k|]; [|done].
  destruct (eq_str _ "W"); [|destruct (eq_str _ "R"); [|done]]; intros k'; (split; cbn [fst snd]).
  - apply append_to_all; [done|]. intros. apply Hacc.
  - apply Hacc.
  - apply Hacc.
  - apply append_to_all; [done|]. intros. apply Hacc.
Qed.

Lemma sort_items_total name items :
  Forall is_metric items → name = "started_unix_ns" ∨ name = "finished_unix_ns" → ∃ l, sort_items name items = Ok l ∧ Forall is_metric l.
Proof.
  intros Hi Hn. assert (H : ∃ l, sort_items name items = Ok l).
  { unfold sort_items. assert (Hm : ∃ keyed, mapM (λ item, t ← get_int item name (-1); Ok (t, item)) items = Ok keyed).
    { induction Hi as [|item items (r & rq & s & f & ->) _ [keyed IH]]; [by exists []|]. cbn [mapM].
      assert (Ht : ∃ t, get_int (metric r rq s f) name (-1) = Ok t) by (destruct Hn as [-> | ->]; by eexists). destruct Ht as [t ->].
      cbn [mbind result_bind]. rewrite IH. by eexists. }
    destruct Hm as [keyed ->]. by eexists. }
  destruct H as [l Hl]. exists l. split; [done|]. by rewrite (sort_items_perm _ _ _ Hl).
Qed.

Lemma pair_steps_total pairs acc : Forall (λ p, is_metric p.1) pairs → is_ok (fold_result pair_step acc pairs) = true.
Proof.
  intros Hp. revert acc. induction Hp as [|p pairs (r & rq & s & f & Hm) _ IH]; intros acc; [done|]. cbn [fold_result].
  unfold pair_step at 1. destruct (exposed p.1 p.2) as [i|]; [|apply IH]. rewrite Hm, metric_scope. apply IH.
Qed.

Lemma key_step_total writes reads t k :
  Forall is_metric (default [] (writes !! k)) → Forall is_metric (default [] (reads !! k)) →
  is_ok (key_step writes reads t k) = true.
Proof.
  intros Hw Hr. unfold key_step. destruct (sort_items_total "started_unix_ns" _ Hw) as (w & -> & Hw'); [by left|].
  destruct (sort_items_total "finished_unix_ns" _ Hr) as (r & -> & Hr'); [by right|]. cbn [mbind result_bind].
  pose proof (pair_steps_total (zip w r) (t, 0)) as Hp. destruct (fold_result pair_step (t, 0) (zip w r)) as [matched|e].
  2:{ exfalso. discriminate Hp. apply Forall_forall. intros [a b] Ha%elem_of_zip_l. by apply (proj1 (Forall_forall _ _) Hw'). }
  cbn [mbind result_bind]. destruct (head (w ++ r)) as [source|] eqn:Hh; [|done].
  assert (Hs : is_metric source).
  { apply (proj1 (Forall_forall _ _) (proj2 (Forall_app _ _ _) (conj Hw' Hr'))). destruct (w ++ r); [done|]. injection Hh as ->. set_solver. }
  destruct Hs as (ro & rq & st & fi & ->). by rewrite metric_scope.
Qed.

Lemma collect_transport_total records : Forall is_metric records → ∃ t, collect_transport records = Ok t.
Proof.
  intros Hr. pose proof (collect_transfers_all is_metric records Hr) as Hall. unfold collect_transport.
  destruct (collect_transfers records) as [writes reads]. cbn [fst snd] in Hall. generalize init_transport as t.
  induction (all_keys writes reads) as [|k ks IH]; intros t; [by exists t|]. cbn [fold_result].
  destruct (Hall k) as [Hw Hrd]. pose proof (key_step_total writes reads t k Hw Hrd) as Hk.
  destruct (key_step writes reads t k) as [t'|]; [apply IH|done].
Qed.

Lemma mapM_objects records : mapM (λ v, is_dict v ?! AttributeError) (PDict <$> records) = Ok records.
Proof. apply mapM_result_Ok. induction records as [|record records IH]; by constructor. Qed.

(** ** Properties *)

(** A line printed by the handler of some router for some request: the header has no line break of
    its own, and the errors of the gateway connection are no records. *)
Definition printed (o : output) : Prop :=
  ∃ r connect q started finished stream h,
    clean_header stream = true ∧ (∀ port sent e, connect port sent = Err e → quiet (exn_str e)) ∧
    handle r connect q started finished stream = Some h ∧ o ∈ hd_output h.

Lemma printed_good o : printed o → good_output o.
Proof.
  intros (r & connect & q & started & finished & stream & h & Hclean & Hc & Hh & Ho).
  pose proof (handle_prints _ _ _ _ _ _ _ Hclean Hc Hh) as Hg. by apply (proj1 (Forall_forall _ _) Hg).
Qed.

(** C13: every reader of the router's log takes the same records out of it, those that were printed.
    Of any interleaving of lines printed by routers for accepted and rejected requests, the metric
    collector, the steady-state summary, the data-parallel matrix and the regular expression of
    the summaries find exactly the records, in their order, whatever the rejected requests
    contained besides line breaks; and the collector succeeds: its result is made of the counters
    and the transfers of these records. *)
Theorem router_log_collected float_of path outputs :
  Forall printed outputs →
  (∃ m t, fold_result add_to_groups init_counters (metric_records outputs) = Ok m ∧
     collect_transport (metric_records outputs) = Ok t ∧
     collect_pipe_metrics (loads float_of) (Some (log_text outputs)) =
       Ok (dict_update (dict_update (counter_values m) (interval_values m)) (transport_values t))) ∧
  log_metrics (loads float_of) (log_text outputs) = Ok (metric_records outputs) ∧
  log_events (loads float_of) (log_text outputs) = Ok (metric_records outputs) ∧
  parse_records (loads float_of) path (log_text outputs) =
    (if zlen (metric_records outputs) =? 0 then Err (ValueError ("no PipeComm metric records found in " +:+ path))
     else Ok (metric_records outputs)).
Proof.
  intros Hp. assert (Hg : Forall good_output outputs) by (eapply Forall_impl; [exact Hp|apply printed_good]).
  pose proof (metric_records_all _ Hg) as Hm. split_and!.
  - destruct (add_all_total (metric_records outputs) init_counters Hm) as (m & Hadd & _).
    { apply (bool_decide_unpack _). vm_compute. reflexivity. }
    destruct (collect_transport_total _ Hm) as [t Ht]. exists m, t. split_and!; [done..|].
    unfold collect_pipe_metrics. rewrite log_lines, count_lines by done. cbn [fst snd]. rewrite Hadd. cbn [mbind result_bind fst snd app].
    unfold collect_exposed_transport_metrics. by rewrite Ht.
  - by apply log_metrics_records.
  - by apply log_events_records.
  - unfold parse_records. rewrite parse_lines_records by done. unfold zlen at 1. rewrite length_fmap.
    change (Z.of_nat (length (metric_records outputs))) with (zlen (metric_records outputs)).
    destruct (zlen (metric_records outputs) =? 0); [done|]. cbn [raise_if mbind result_bind].
    apply mapM_objects.
Qed.

Lemma printed_by r connect q started finished stream :
  clean_header stream = true → (∀ port sent e, connect port sent = Err e → quiet (exn_str e)) →
  Forall printed (default [] (hd_output <$> handle r connect q started finished stream)).
Proof.
  intros Hclean Hc. destruct (handle r connect q started finished stream) as [h|] eqn:E; [|constructor].
  apply Forall_forall. intros o Ho. by exists r, connect, q, started, finished, stream, h.
Qed.

(** A write and its read at a router that hosts both chiplets, and a request it rejects. *)
Definition demo_router : router := Router 0 {["5,5" := 0; "0,1" := 0]} ∅ ∅.
Definition demo_refused : gateway := λ _ _, Err (OSError "refused").

Definition demo_outputs : list output :=
  default [] (hd_output <$> handle demo_router demo_refused ∅ (Stamp 0 100) (Stamp 7 107) ("W buffer5_5_0_1 3" +:+ nl +:+ "abc")) ++
  default [] (hd_output <$> handle demo_router demo_refused ∅ (Stamp 0 100) (Stamp 7 107) ("W pipe-metric: 3" +:+ nl)) ++
  default [] (hd_output <$> handle demo_router demo_refused {["buffer5_5_0_1" := ["abc"]]} (Stamp 0 103) (Stamp 9 112) ("R buffer5_5_0_1 3" +:+ nl)).

Lemma router_log_collected_witness :
  ∃ m t, fold_result add_to_groups init_counters (metric_records demo_outputs) = Ok m ∧
    collect_transport (metric_records demo_outputs) = Ok t ∧ zlen (metric_records demo_outputs) = 2 ∧
    log_events (loads no_float) (log_text demo_outputs) = Ok (metric_records demo_outputs).
Proof.
  assert (Hp : Forall printed demo_outputs).
  { assert (Hq : ∀ port sent e, demo_refused port sent = Err e → quiet (exn_str e)) by (intros port sent e [= <-]; by apply quiet_const).
    apply Forall_app; split; [|apply Forall_app; split]; (apply printed_by; [reflexivity|exact Hq]). }
  destruct (router_log_collected no_float "log" demo_outputs Hp) as ((m & t & Hm & Ht & _) & _ & Hev & _).
  exists m, t. split; [exact Hm|]. split; [exact Ht|]. split; [vm_compute; reflexivity|exact Hev].
Defined.

(** The restriction on line breaks is needed.  The fields of a header are separated by spaces only,
    so a pipe name may hold a carriage return; the refusal prints it as it is, and the collector,
    whose lines also end there, reads what follows as a record of a completed operation. *)
Definition forged_outputs : list output :=
  default [] (hd_output <$> handle demo_router demo_refused ∅ (Stamp 0 100) (Stamp 7 107)
    ("R " +:+ String (ascii_of_nat 13) ("pipe-metric:{}" +:+ " 0" +:+ nl))).

Example forged_request_unclean :
  clean_header ("R " +:+ String (ascii_of_nat 13) ("pipe-metric:{}" +:+ " 0" +:+ nl)) = false ∧
  metric_records forged_outputs = [].
Proof. split; vm_compute; reflexivity. Qed.

Example forged_record_collected :
  (values ← collect_pipe_metrics (loads no_float) (Some (log_text forged_outputs)); Ok (dict_get "all_records" values)) = Ok (Some 1).
Proof. vm_compute. reflexivity. Qed.
