(* ===== verification/ProbeLogs.v ===== *)
(** * From the probes to the latency summary

    [src/scripts/pipecomm_latency_probe.py] prints its records as JSON lines, which
    [src/scripts/summarize_pipecomm_latency_probe.py] reads from the two log files of a
    measurement; [src/scripts/tcp_latency_probe.py] and [summarize_tcp_latency_probe.py] do the
    same for TCP.  [Probes] and [Latency] model the scripts; here the log is the printed text,
    read with the JSON decoder of [Json]. *)

From S2P Require Import Prelude PyValue Json Worker Host Csv Router Collected NativeFiles Probes Latency.

(** The records of a probe are printed on one line each, and read back. *)
Definition printable (record : pydict) : Prop := plain (PDict (sorted_keys record)) = true.

(** What a probe printed, as the log it is redirected to. *)
Definition printed_log (lines : list string) : string := join "" ((λ l, l +:+ nl) <$> lines).

Lemma line_of_no_break record : printable record → no_break (line_of record) = true.
Proof. intros Hr. unfold line_of. rewrite (json_spaced_render 0). by apply no_break_render. Qed.

Lemma logged_printed float_of records :
  Forall printable records → logged (loads float_of) (printed_log (line_of <$> records)) records.
Proof.
  intros Hr. split.
  - apply splitlines_lines, Forall_fmap. eapply Forall_impl; [exact Hr|]. apply line_of_no_break.
  - intros record Hin. refine (loads_spaced float_of "" (PDict (sorted_keys record)) eq_refl _). by apply (proj1 (Forall_forall _ _) Hr).
Qed.

Lemma run_records_printable printed sequences i :
  (∀ k j, Forall printable (printed k j)) → Forall printable (run_records printed sequences i).
Proof. intros Hp. revert i. induction sequences as [|k ks IH]; intros i; [constructor|]. cbn [run_records]. apply Forall_app. auto. Qed.

Lemma written_printable clock k i : Forall printable [written clock k i].
Proof. by apply Forall_singleton. Qed.

Lemma received_printable clock k i : Forall printable (received clock k i).
Proof. by apply Forall_cons; split; [|apply Forall_singleton]. Qed.

(** The TCP client's log *)
Lemma echo_records_printable clock sequences i : Forall printable (Tcp.echo_records clock sequences i).
Proof. revert i. induction sequences as [|k ks IH]; intros i; [constructor|]. cbn [Tcp.echo_records]. by apply Forall_cons. Qed.

(** C37: the measured latency, from the probes to the summary.  Against a router that hosts both ends
    of an idle pipe, and however its replies are cut into pieces, a writer probe and then a reader
    probe with the same accepted options end with status 0; and when the lines they printed are
    the two log files, the summary script reads every one of them, pairs the operations by number
    and writes the figures of exactly the readings of the two clocks: a delivery is the reader's
    third reading less the writer's second for the same operation, a write service and a read
    wait the third less the second of one probe; clocks that show a delivery before its request
    are refused. *)
Theorem latency_measured {F} `{!Floats F} float_of r gate cut a clock1 clock2 q :
  (∀ s, join "" (cut s) = s) → check_arguments a = Ok () → Z.of_nat (str_length (ar_pipe a)) < 60000 →
  peer_for r W (ar_pipe a) = Ok (slot r) → peer_for r R (ar_pipe a) = Ok (slot r) → queue q (ar_pipe a) = [] →
  ∃ s1 s2,
    Probes.main (router_peer r gate cut) clock1 (writer_of a) (PState q 0 []) = (s1, Ok 0) ∧
    Probes.main (router_peer r gate cut) clock2 (reader_of a) (PState (ps_world s1) 0 []) = (s2, Ok 0) ∧
    ∀ rp wp output h,
      h_files h !! rp = Some (printed_log (ps_printed s2)) → h_files h !! wp = Some (printed_log (ps_printed s1)) →
      Latency.main (F:=F) (loads float_of) rp wp output h =
        (summary ← h_lift (paired_summary (F:=F) clock1 clock2 (ar_count a));
         _ ← h_write output (json_indent 0 (PDict summary) +:+ nl);
         mret (json_indent 0 (PDict summary))) h.
Proof.
  intros Hcut Hck Hfit Hw Hr Hq.
  destruct (probes_run r gate cut a clock1 clock2 q Hcut Hck Hfit Hw Hr Hq) as (q1 & q2 & i1 & i2 & H1 & H2 & _).
  eexists _, _. split; [exact H1|]. split; [exact H2|]. intros rp wp output h Hrp Hwp. cbn [ps_printed] in *.
  assert (Hc : 1 ≤ ar_count a) by (unfold check_arguments in Hck; result_inv; bool_facts; lia).
  eapply probes_summarised; [done|exact Hrp|exact Hwp| |]; apply logged_printed, run_records_printable;
    [apply received_printable|apply written_printable].
Qed.

Definition demo_local : router := Router 0 {["5,5" := 0; "2,0" := 0]} ∅ ∅.

Lemma latency_measured_witness :
  ∃ s1 s2 h,
    Probes.main (router_peer demo_local (λ _ _, Err (OSError "")) bytewise) Z.of_nat (writer_of demo_probe) (PState ∅ 0 []) = (s1, Ok 0) ∧
    Probes.main (router_peer demo_local (λ _ _, Err (OSError "")) bytewise) (λ i, Z.of_nat i * 5) (reader_of demo_probe) (PState (ps_world s1) 0 []) = (s2, Ok 0) ∧
    Latency.main (F:=Z) (loads no_float) "r.log" "w.log" "data/out.json"
      (Host (Filesystem {["data"]} {["r.log" := printed_log (ps_printed s2); "w.log" := printed_log (ps_printed s1)]}) [] 0) =
    (h, Ok (json_indent 0 (PDict
       [("samples", PInt 2); ("definition", PDict definitions);
        ("delivery", PDict [("min_ms", PInt 0); ("median_ms", PInt 0); ("mean_ms", PInt 0); ("p95_ms", PInt 0); ("max_ms", PInt 0)]);
        ("router_write_service", PDict [("min_ms", PInt 0); ("median_ms", PInt 0); ("mean_ms", PInt 0); ("p95_ms", PInt 0); ("max_ms", PInt 0)]);
        ("router_read_wait", PDict [("min_ms", PInt 0); ("median_ms", PInt 0); ("mean_ms", PInt 0); ("p95_ms", PInt 0); ("max_ms", PInt 0)])]))).
Proof.
  destruct (latency_measured (F:=Z) no_float demo_local (λ _ _, Err (OSError "")) bytewise demo_probe Z.of_nat (λ i, Z.of_nat i * 5) ∅)
    as (s1 & s2 & H1 & H2 & H); [exact join_bytewise|reflexivity|vm_compute; reflexivity..|].
  exists s1, s2. rewrite (H "r.log" "w.log" "data/out.json") by reflexivity. eexists. split; [exact H1|]. split; [exact H2|]. reflexivity.
Defined.

(** The same for the TCP client. *)
Lemma tcp_latency_measured {F} `{!Floats F} float_of clock count input output h :
  0 ≤ count → h_files h !! input = Some (printed_log (line_of <$> Tcp.echo_records clock (seqZ 0 count) 0)) →
  TcpSummary.main (F:=F) (loads float_of) input output h =
    (summary ← h_lift (TcpSummary.summarize (F:=F) (round_trips clock count));
     _ ← h_write output (json_indent 0 (PDict summary) +:+ nl);
     mret (json_indent 0 (PDict summary))) h.
Proof. intros Hc Hf. eapply tcp_probe_summarised; [done|exact Hf|]. apply logged_printed, echo_records_printable. Qed.
