(* ===== verification/Wire.v ===== *)
(** * The worker protocol on the wire

    The proxy ([src/real/process_proxy.py]) and the worker ([src/real/worker.py]) exchange JSON
    messages, one on each line of their connection.  [Proxy] and [Worker] relate the messages; here
    the connection is the text that is sent, and each side reads its lines with the decoder of
    [Json]. *)

From S2P Require Import Prelude PyValue Codec Broker Json Worker Proxy WorkerTasks NativeFiles.

(** [write_json] and [send]: a message on the connection. *)
Definition wire (frames : list pydict) : string := join "" (Input.frame_text <$> frames).

(** [stream.readline()]: the line with its line feed, and what follows. *)
Definition read_line (stream : string) : string * string :=
  let '(line, rest) := cut_line stream in (line, default "" rest).

Section Session.
Context (float_of : string → pyval).

Definition read_message (stream : string) : result (pyval * string) :=
  let '(line, rest) := read_line stream in
  message ← loads float_of line;
  Ok (message, rest).

(** The loop before [started]; what follows it. *)
Fixpoint await_text (fuel : nat) (stream : string) : result string :=
  match fuel with
  | O => Err (RuntimeError "fuel")
  | S fuel =>
      message_rest ← read_message stream;
      started ← is_dict message_rest.1 ?! AttributeError;
      let op := dict_get_default "op" PNone started in
      if eq_str op "diagnostic" then _ ← dict_item "text" started; await_text fuel message_rest.2
      else if eq_str op "started" then Ok message_rest.2
      else Err (RuntimeError (py_str (dict_get_default "error" (PStr "remote worker rejected process") started)))
  end.

(** The loop after it. *)
Fixpoint relay_text (fuel : nat) (stream : string) (o : written) : written * result Z :=
  match fuel with
  | O => (o, Err (RuntimeError "fuel"))
  | S fuel =>
      match message_rest ← read_message stream; response ← is_dict message_rest.1 ?! TypeError; op ← dict_item "op" response;
            Ok (response, op, message_rest.2) with
      | Err e => (o, Err e)
      | Ok (response, op, rest) =>
          if eq_str op "output" then
            match relay_output response o with
            | Ok o' => relay_text fuel rest o'
            | Err e => (o, Err e)
            end
          else if eq_str op "diagnostic" then
            match dict_item "text" response with Ok _ => relay_text fuel rest o | Err e => (o, Err e) end
          else if eq_str op "exit" then
            (o, code ← dict_item "returncode" response; int_of code)
          else (o, Err (RuntimeError (py_str (dict_get_default "error"
                  (PStr ("unexpected worker response: " +:+ py_str op)) response))))
      end
  end.

(** One round for each line. *)
Definition session_text (stream : string) : written * result Z :=
  match await_text (S (str_length stream)) stream with
  | Err e => (Written "" "", Err e)
  | Ok rest => relay_text (S (str_length rest)) rest (Written "" "")
  end.

(** ** Lines *)

Lemma read_message_frame f rest : plain (PDict f) = true → read_message (Input.frame_text f +:+ rest) = Ok (PDict f, rest).
Proof using Type.
  intros Hf. unfold read_message, read_line, Input.frame_text. rewrite str_app_assoc, cut_line_app.
  - cbn [default from_option id]. by rewrite loads_compact.
  - apply (no_break_lacks (json_dumps (PDict f))). rewrite <- (render_compact 0). by apply no_break_render.
Qed.

Lemma wire_cons f frames : wire (f :: frames) = Input.frame_text f +:+ wire frames.
Proof using Type. unfold wire. by rewrite fmap_cons, join_nothing_cons. Qed.

Lemma frame_text_length f : (1 ≤ str_length (Input.frame_text f))%nat.
Proof using Type. unfold Input.frame_text. rewrite str_length_app. cbn. lia. Qed.

Lemma read_message_end : read_message "" = Err end_of_stream.
Proof using Type. reflexivity. Qed.

(** ** The text of a session is the session *)

Lemma relay_wire frames fuel o :
  Forall (λ f, plain (PDict f) = true) frames → (length frames < fuel)%nat → relay_text fuel (wire frames) o = relay frames o.
Proof using Type.
  intros Hp. revert fuel o. induction Hp as [|f frames Hf _ IH]; intros [|fuel] o Hl; cbn [length] in Hl; try lia; [done|].
  cbn [relay_text relay]. rewrite wire_cons, read_message_frame by done. cbn [mbind result_bind fst snd is_dict of_option].
  destruct (dict_item "op" f) as [op|e]; [|done]. cbn [mbind result_bind].
  destruct (eq_str op "output"); [destruct (relay_output f o); [apply IH; lia|done]|].
  destruct (eq_str op "diagnostic"); [destruct (dict_item "text" f); [apply IH; lia|done]|done].
Qed.

Lemma await_wire frames fuel :
  Forall (λ f, plain (PDict f) = true) frames → (length frames < fuel)%nat →
  await_text fuel (wire frames) = (rest ← await_started frames; Ok (wire rest)).
Proof using Type.
  intros Hp. revert fuel. induction Hp as [|f frames Hf _ IH]; intros [|fuel] Hl; cbn [length] in Hl; try lia; [done|].
  cbn [await_text await_started]. rewrite wire_cons, read_message_frame by done. cbn [mbind result_bind fst snd is_dict of_option].
  destruct (eq_str _ "diagnostic"); [destruct (dict_item "text" f); [apply IH; lia|done]|]. by destruct (eq_str _ "started").
Qed.

Lemma wire_length frames : (length frames ≤ str_length (wire frames))%nat.
Proof using Type.
  induction frames as [|f frames IH]; [done|]. rewrite wire_cons, str_length_app. cbn [length]. pose proof (frame_text_length f). lia.
Qed.

Lemma await_started_suffix frames rest : await_started frames = Ok rest → ∃ before, frames = before ++ rest.
Proof using Type.
  induction frames as [|f frames IH]; [done|]. cbn [await_started]. destruct (eq_str _ "diagnostic").
  - intros (t & _ & [before ->]%IH)%bind_Ok. by exists (f :: before).
  - destruct (eq_str _ "started"); [|done]. intros [= ->]. by exists [f].
Qed.

(** What the proxy does with the text of a worker's frames is what [Proxy.session] does with the frames. *)
Lemma session_wire frames : Forall (λ f, plain (PDict f) = true) frames → session_text (wire frames) = session frames.
Proof using Type.
  intros Hp. unfold session_text, session. pose proof (wire_length frames). rewrite await_wire by (done || lia).
  destruct (await_started frames) as [rest|e] eqn:E; [|done]. cbn [mbind result_bind].
  pose proof (wire_length rest). apply relay_wire; [|lia].
  apply await_started_suffix in E as [before ->]. by apply Forall_app in Hp as [_ Hp].
Qed.

(** Neither loop runs out of fuel, whatever the text: a line that is not empty makes it shorter, and the end of the
    stream is an error of the decoder. *)
Lemma read_message_shrinks stream v rest : read_message stream = Ok (v, rest) → (str_length rest < str_length stream)%nat.
Proof using Type.
  unfold read_message, read_line. destruct (cut_line stream) as [line r] eqn:E. intros (m & Hm & [= _ <-])%bind_Ok.
  destruct stream as [|c stream]; [by injection E as <- <-|]. cbn [str_length].
  assert (H : (str_length (default "" (cut_line (String c stream)).2) ≤ str_length stream)%nat).
  { clear. revert c. induction stream as [|d stream IH]; intros c; [cbn; by destruct (Ascii.eqb c NL)|]. cbn [cut_line].
    destruct (Ascii.eqb c NL); [done|]. specialize (IH d). cbn [cut_line] in IH.
    destruct (Ascii.eqb d NL); cbn [snd default from_option id str_length] in *; [lia|].
    destruct (cut_line stream) as [l r']. cbn [snd] in *. lia. }
  rewrite E in H. cbn [snd] in H. lia.
Qed.

Lemma relay_text_enough fuel fuel' stream o :
  (str_length stream < fuel)%nat → (fuel ≤ fuel')%nat → relay_text fuel' stream o = relay_text fuel stream o.
Proof using Type.
  revert fuel' stream o. induction fuel as [|fuel IH]; intros [|fuel'] stream o Hs Hf; try lia. cbn [relay_text].
  destruct (read_message stream) as [[v rest]|e] eqn:E; [|done]. apply read_message_shrinks in E. cbn [mbind result_bind fst snd].
  destruct (is_dict v ?! TypeError) as [response|]; [|done]. cbn [mbind result_bind].
  destruct (dict_item "op" response) as [op|]; [|done]. cbn [mbind result_bind].
  destruct (eq_str op "output"); [destruct (relay_output response o); [apply IH; lia|done]|].
  destruct (eq_str op "diagnostic"); [destruct (dict_item "text" response); [apply IH; lia|done]|done].
Qed.

Lemma await_text_enough fuel fuel' stream :
  (str_length stream < fuel)%nat → (fuel ≤ fuel')%nat → await_text fuel' stream = await_text fuel stream.
Proof using Type.
  revert fuel' stream. induction fuel as [|fuel IH]; intros [|fuel'] stream Hs Hf; try lia. cbn [await_text].
  destruct (read_message stream) as [[v rest]|e] eqn:E; [|done]. apply read_message_shrinks in E. cbn [mbind result_bind fst snd].
  destruct (is_dict v ?! AttributeError) as [started|]; [|done]. cbn [mbind result_bind].
  destruct (eq_str _ "diagnostic"); [destruct (dict_item "text" started); [apply IH; lia|done]|done].
Qed.

End Session.

(** ** The messages are plain *)

Lemma worker_frames_plain w root raw inbox fs :
  Forall (λ f, plain (PDict f) = true) (ss_frames (Worker.handle w root raw inbox fs)).
Proof.
  assert (Hout : ∀ chunks, Forall (λ f, plain (PDict f) = true) ((λ c, output_frame c.1 c.2) <$> chunks)).
  { intros chunks. apply Forall_fmap, Forall_forall. by intros c _. }
  destruct (worker_frames w root raw inbox fs) as [(e & ->)|[(t & e & ->)|[(t & p & chunks & e & ->)|(t & p & chunks & rc & ->)]]];
    repeat (apply Forall_cons; split; [done|]); [constructor..| |]; apply Forall_app; split; try apply Hout; by apply Forall_singleton.
Qed.

Lemma child_environment_plain environ : plain (PDict (child_environment environ)) = true.
Proof.
  unfold child_environment.
  enough (∀ names d, plain (PDict d) = true → plain (PDict (foldl (forward_variable environ) d names)) = true) as H by by apply H.
  induction names as [|name names IH]; intros d Hd; [done|]. cbn [foldl]. apply IH. unfold forward_variable.
  destruct (dict_get name environ) as [[|c v]|]; [done| |done]. cbn [plain] in *. apply andb_true_iff in Hd as [Hnd%bool_decide_eq_true Hd].
  rewrite bool_decide_eq_true_2 by by apply dict_set_NoDup. cbn [andb]. clear Hnd. induction d as [|[k u] d IHd]; [done|].
  cbn [dict_set forallb snd] in *. apply andb_true_iff in Hd as [Hu Hd]. destruct (String.eqb k name); cbn [forallb snd]; [by rewrite Hd|by rewrite Hu, IHd].
Qed.

Lemma spawn_plain environ read a host port request : Proxy.prepare environ read a = Ok (host, port, request) → plain (PDict request) = true.
Proof.
  unfold Proxy.prepare. intros (staged & Hs & H)%bind_Ok. apply bind_Ok in H as (hp & _ & [= _ _ <-]).
  assert (Hstrs : ∀ l, plain (PList (PStr <$> l)) = true) by (intros l; cbn [plain]; induction l; [done|done]).
  assert (Hst : plain (PList staged) = true).
  { cbn [plain]. apply mapM_result_Ok in Hs. induction Hs as [|spec v specs vs Hv _ IH]; [done|]. cbn [forallb].
    rewrite IH, andb_true_r. unfold parse_stage_file in Hv. apply bind_Ok in Hv as ([source destination] & _ & Hv).
    apply bind_Ok in Hv as (u & _ & Hv). apply bind_Ok in Hv as (u' & _ & Hv). by apply bind_Ok in Hv as (data & _ & [= <-]). }
  apply plain_dict; [apply (bool_decide_unpack _); reflexivity|]. intros v Hv. cbn in Hv.
  repeat (apply elem_of_cons in Hv as [->|Hv];
    [first [done | apply Hstrs | by destruct (ar_max_cta a) | by destruct (ar_max_instructions a) | apply child_environment_plain]|]).
  by apply elem_of_nil in Hv.
Qed.

(** ** The request *)

Lemma read_request_spawn float_of w request :
  w_json_loads w = loads float_of → plain (PDict request) = true → decode_utf8 (Input.frame_text request) = Ok (Input.frame_text request) →
  read_request w (Input.frame_text request) =
    (sp ← read_spawn (w_environ w) request;
     env ← resolve_endpoints w (sp_environment sp);
     s ← read_staging request (sp_process_id sp);
     Ok (Spawn (sp_process_id sp) (sp_command sp) (sp_arguments sp) env, s)).
Proof. intros Hw Hp Hu. unfold read_request. rewrite Hu, Hw. unfold Input.frame_text. cbn [mbind result_bind]. by rewrite loads_compact. Qed.

Lemma check_limit_optional request name o :
  dict_get name request = Some (Proxy.optional_int o) → ∀ v, check_limit request name = Ok v → v = PInt <$> o.
Proof.
  unfold check_limit, optional, dict_get_default. intros -> v. cbn [default from_option id]. destruct o as [n|]; cbn [Proxy.optional_int].
  - intros (u & _ & [= <-])%bind_Ok. done.
  - by intros [= <-].
Qed.

Lemma read_staging_spawn environ a staged process_id st :
  read_staging (spawn_frame environ a staged) process_id = Ok st →
  sg_pre_copy st = ar_pre_copy a ∧ sg_shared_assets st = ar_shared_asset a ∧ sg_staged_files st = staged ∧
  sg_max_cta st = PInt <$> ar_max_cta a ∧ sg_max_instructions st = PInt <$> ar_max_instructions a.
Proof.
  unfold read_staging. intros (cta & Hc & H)%bind_Ok. apply bind_Ok in H as (ins & Hi & H).
  apply check_limit_optional with (o := ar_max_cta a) in Hc as ->; [|done]. apply check_limit_optional with (o := ar_max_instructions a) in Hi as ->; [|done].
  apply bind_Ok in H as (assets & Ha & H). apply bind_Ok in H as (assets' & Ha' & H). apply bind_Ok in H as (st' & Hs & H).
  apply bind_Ok in H as (u & _ & [= <-]). cbn [sg_pre_copy sg_shared_assets sg_staged_files sg_max_cta sg_max_instructions].
  injection Ha as <-. injection Hs as <-. split_and!; [done| |done..].
  apply mapM_result_Ok in Ha'. revert assets' Ha'. generalize (ar_shared_asset a) as l. induction l as [|x l IH]; intros k Hk.
  - by inversion Hk.
  - apply Forall2_cons_inv_l in Hk as (y & k' & Hy & Hk & ->). injection Hy as <-. by rewrite (IH _ Hk).
Qed.

(** ** Properties *)


Definition demo_options : Proxy.arguments := Arguments "worker-1:9300" "p0" "" [] ["bench.txt:bench.txt"] None None "sim" ["5"; "5"].

Definition demo_world : world :=
  World [] (loads no_float) (λ _ _, None) Z.of_nat (λ _ _ _ fs, (fs, 0)) (λ _ _, (0, ""))
    (λ _ _ _ _ _, Ok (Child 7 [("stdout", "a"); ("stderr", "b"); ("stdout", "c")] id 3 0)).


(** ** The broker's client *)

(** What one client writes another reads, over the text of their connections to the broker. *)
Theorem client_round_trip_on_wire float_of limit pipe data w r m :
  client_request Write pipe (Some data) None = Ok w →
  client_request Read pipe None (Some (Z.of_nat (str_length data))) = Ok r →
  decode_utf8 (Input.frame_text w) = Ok (Input.frame_text w) → decode_utf8 (Input.frame_text r) = Ok (Input.frame_text r) →
  Z.of_nat (str_length data) ≤ limit → decode_utf8 data = Ok data → Broker.queue m pipe = [] →
  ∃ rw rr m1 m2 reply,
    prepare_json (loads float_of) limit (Input.frame_text w) = Ok rw ∧ prepare_json (loads float_of) limit (Input.frame_text r) = Ok rr ∧
    exchange m rw = Some (m1, write_reply rw) ∧ exchange m1 rr = Some (m2, reply) ∧ Broker.queue m2 pipe = [] ∧
    (response ← loads float_of reply; response ← is_dict response ?! AttributeError; client_output Read response) = Ok data.
Proof.
  intros Hw Hr Uw Ur Hl Hd Hq.
  assert (Jw : loads float_of (Input.frame_text w) = Ok (PDict w)) by (injection Hw as <-; by apply loads_compact).
  assert (Jr : loads float_of (Input.frame_text r) = Ok (PDict r)) by (injection Hr as <-; by apply loads_compact).
  destruct (client_round_trip (loads float_of) limit pipe data w r _ _ m Hw Hr Uw Ur Jw Jr Hl Hd Hq)
    as (rw & rr & m1 & m2 & H1 & H2 & H3 & H4 & H5 & H6).
  exists rw, rr, m1, m2. eexists. split_and!; [done..|exact H4|done|]. by rewrite loads_compact.
Qed.
