(* ===== verification/RegressionTests.v ===== *)
(** * The repository's regression tests on the model

    The inputs of the unit tests of [src/tests/] and their assertions, evaluated with the definitions
    of the components they exercise.  Every assertion about a value the model has is here; what the
    tests say about the exit status of a process or the parsed YAML text is not. *)

From S2P Require Import Prelude PyValue Intervals TimingMetrics Csv Worker Proxy Json Collected Feedback Host Topology Placement Routing DistributedYaml Patches Matrices NativeFiles.

Definition csv_lines (rows : list string) : string := join "" ((λ row, row +:+ nl) <$> rows).

(** [self.assertEqual(values[key], value)] for each expected entry. *)
Definition holds (values : list (string * Z)) (expected : list (string * Z)) : bool :=
  forallb (λ kv : string * Z, bool_decide (dict_get kv.1 values = Some kv.2)) expected.

(** ** [test_collect_timing_metrics.py] *)
Module CollectNs3MetricsTest.

Definition header : string :=
  "trace_id,src_node,dst_node,model_dst_node,descriptor,special,flits," +:+
  "payload_bytes,src_cycle,dst_cycle,forward_tx_finish_cycle," +:+
  "forward_arrival_cycle,source_sync_advance_cycles," +:+
  "destination_network_delay_cycles,destination_sync_block_cycles," +:+
  "ack_tx_finish_cycle,ack_arrival_cycle".
Definition normal : string := "0,0,1,1,0,0,2,64,0,0,1,2,1,2,2,,".
Definition special : string := "1,1,0,0,131072,1,1,32,0,0,1,2,1,2,2,3,4".

Example counts_total_and_normal_payloads_separately :
  ns3_values <$> collect_ns3_metrics (Some (dict_rows (csv_lines [header; normal; special]))) =
  Ok [("ns3_records", 2); ("ns3_normal_records", 1); ("ns3_special_records", 1);
      ("ns3_payload_bytes", 96); ("ns3_normal_payload_bytes", 64);
      ("ns3_normal_source_sync_advance_cycles", 1); ("ns3_normal_destination_network_delay_cycles", 2);
      ("ns3_normal_destination_sync_block_cycles", 2)].
Proof. vm_compute. reflexivity. Qed.

End CollectNs3MetricsTest.

(** ** [test_timing_feedback_and_transport_scopes.py] *)
Module TransportScopeMetricsTest.

(** The log: [json.dumps] with its default separators behind the marker. *)
Definition transport_log (records : list pydict) : string :=
  csv_lines ((λ record, "pipe-metric: " +:+ render spaced 0 (PDict record)) <$> records).

Definition collected (records : list pydict) : result (list (string * Z)) :=
  collect_pipe_metrics (loads no_float) (Some (transport_log records)).

Definition read_record (bytes source peer : Z) (scope : string) (started finished : Z) : pydict :=
  [("operation", PStr "R"); ("bytes", PInt bytes); ("source_slot", PInt source); ("peer_slot", PInt peer);
   ("transport_scope", PStr scope); ("started_unix_ns", PInt started); ("finished_unix_ns", PInt finished);
   ("elapsed_ns", PInt (finished - started)); ("synchronization_wait_ns", PInt (finished - started))].

Definition scope_records : list pydict :=
  [read_record 8 0 0 "same_logical_worker" 0 10;
   read_record 16 0 1 "cross_legosim_same_physical_host" 5 20;
   read_record 32 1 2 "cross_physical_host" 30 40].

Example records_are_counted_in_the_correct_scope :
  (λ values, holds values
    [("same_logical_worker_records", 1); ("cross_legosim_records", 2); ("cross_physical_host_records", 1);
     ("cross_legosim_bytes", 48); ("cross_physical_host_bytes", 32); ("all_sync_wall_union_ns", 30);
     ("cross_legosim_sync_wall_union_ns", 25); ("cross_physical_host_sync_wall_union_ns", 10)])
  <$> collected scope_records = Ok true.
Proof. vm_compute. reflexivity. Qed.

Definition transfer_record (operation : string) (source peer started finished : Z) : pydict :=
  [("operation", PStr operation); ("pipe_name", PStr "buffer0_0_1_0"); ("bytes", PInt 64);
   ("source_slot", PInt source); ("peer_slot", PInt peer); ("transport_scope", PStr "cross_physical_host");
   ("started_unix_ns", PInt started); ("finished_unix_ns", PInt finished)].

Example transfer_pairing_excludes_producer_compute_before_write :
  (λ values, holds values
    [("cross_physical_host_transport_pairs", 1);
     ("cross_physical_host_transport_exposed_sync_wall_sum_ns", 10);
     ("cross_physical_host_transport_exposed_sync_wall_union_ns", 10);
     ("cross_physical_host_transport_unmatched_writes", 0);
     ("cross_physical_host_transport_unmatched_reads", 0)])
  <$> collected [transfer_record "W" 0 1 90 95; transfer_record "R" 1 0 10 100] = Ok true.
Proof. vm_compute. reflexivity. Qed.

End TransportScopeMetricsTest.

Module TimingFeedbackValidationTest.
Import Timing.

Definition phase_two : directory := Directory "proc_r1_p2_t0"
  {["phase2_input_bench.txt" := csv_lines ["0 0 0 1 1 0"; "2 0 1 2 1 0"];
    "phase2_delayInfo.txt" := csv_lines ["0 0 1 0 2 1 2"; "2 1 2 0 2 1 2"];
    "phase2_metrics.csv" := csv_lines
      [CollectNs3MetricsTest.header; "0,0,1,1,0,0,1,32,0,0,1,2,1,2,2,,"; "1,1,2,2,0,0,1,32,2,0,3,4,1,2,4,,"];
    "phase2_summary.json" := render spaced 0 (PDict [("phase2_backend", PStr "ns-3")])]}.

Definition coordinator_log : string :=
  csv_lines ["**** Round 1 Phase 1 ****"; "Load 0 delay records."; "**** Round 2 Phase 1 ****"; "Load 2 delay records."].

Example phase_two_records_match_and_next_round_loads_delay_info :
  (λ a : artifact, (a.1.1, a.1.2)) <$> phase_two_directories [phase_two] = [(1, 0)] ∧
  validate_round (loads no_float) d_name 1 phase_two = Ok 2 ∧
  load_counts_by_round coordinator_log = {[1 := 0; 2 := 2]}.
Proof. split_and!; vm_compute; reflexivity. Qed.

End TimingFeedbackValidationTest.

(** ** [test_patch_mlp_mnsim_runtime.py] *)
Module MnsimRuntimePatchTest.

Definition source_text : string :=
  csv_lines ["// Compatibility MNSIM task"; code "system(`python3 /opt/chipsystemsim-distributed/mnsim_compat.py`);"].
Definition image : filesystem := Filesystem ∅ {[MnsimRuntime.SOURCE := source_text]}.

Example prepatched_compatibility_source_is_accepted_unchanged : MnsimRuntime.main image = (image, Ok tt).
Proof. vm_compute. reflexivity. Qed.

End MnsimRuntimePatchTest.

(** ** [test_matmul_dp_generation.py] *)
Module MatmulDpGenerationTest.
Import Matmul.

(** The options of [generate_distributed_yaml.py] in [commands], with the defaults of the generator. *)
Definition yaml_options (localize : bool) : options :=
  Options false (Some "/opt/legosim/artifact/matmul") [] false true 1 "128Gbps" 1 100000 localize
    None (Some 1) false (Some 1) None None.

(** The three documents the test reads for a node and a rank count: the placement and the routing
    as texts read back with [json.loads], and the phases of the workload. *)
Record generated := Generated { gn_placement : pydict; gn_routing : pydict; gn_workload : source_config }.

Definition reread (document : pydict) : result pydict :=
  v ← loads no_float (json_indent 0 (PDict document) +:+ nl); is_dict v ?! TypeError.

Definition generate_point (node_count rank_count : Z) (localize : bool) : result generated :=
  _ ← raise_if (unsupported rank_count node_count) (ValueError "node count produces an unsupported block partition");
  placement_ ← reread (placement node_count rank_count);
  t ← Topology.main (default_arguments node_count);
  topology ← reread (topology_json t);
  tb ← routing_tables (PDict placement_) (PDict topology) None;
  routing_ ← routing_document (PDict placement_) (PDict topology) tb;
  routing_ ← reread routing_;
  placed_ ← mapM placed_of (placement_items node_count rank_count);
  workload ← DistributedYaml.main (yaml_options localize)
               (SourceConfig (phase1_processes rank_count) [popnet_process]) placed_;
  Ok (Generated placement_ routing_ workload).

Definition entries (role : string) (placement_ : pydict) : list pydict :=
  match dict_get_default "processes" PNone placement_ with
  | PList items =>
      omap (λ v, item ← is_dict v; if eq_str (dict_get_default "role" PNone item) role then Some item else None) items
  | _ => []
  end.

Definition field (key : string) (d : pydict) : pyval := dict_get_default key PNone d.

Definition phase2_args (c : source_config) : list pyval :=
  match phase2 c with p :: _ => match field "args" p with PList args => args | _ => [] end | [] => [] end.

Definition processes_of (placement_ : pydict) : list pyval :=
  match field "processes" placement_ with PList items => items | _ => [] end.

(** What the test checks about one point. *)
Definition summary (g : generated) : pyval * pyval * Z * list pyval * list pyval * bool :=
  (field "global_matrix" (gn_placement g), field "gpu_ranks" (gn_placement g), zlen (phase1 (gn_workload g)),
   field "node_slot" <$> entries "gpgpu-block-rank" (gn_placement g),
   match field "worker_physical_slots" (gn_routing g) with PDict d => d.*2 | _ => [] end,
   existsb (λ v, match v with PStr s => contains "ns3_phase2_runner.py" s | _ => false end) (phase2_args (gn_workload g))).

Definition expected (node_count rank_count : Z) : pyval * pyval * Z * list pyval * list pyval * bool :=
  (PDict [("rows", PInt 480); ("inner", PInt 64); ("columns", PInt 64)], PInt rank_count, rank_count + 1,
   (λ rank, PInt (rank / (rank_count / node_count))) <$> seqZ 0 rank_count,
   replicate (Z.to_nat node_count) (PInt 0), true).

Definition NODES : list Z := [1; 2; 4; 8].

Example all_scale_points_keep_global_work_and_two_ranks_per_worker :
  mapM (λ n, summary <$> generate_point n (n * 2) false) NODES = Ok ((λ n, expected n (n * 2)) <$> NODES).
Proof. vm_compute. reflexivity. Qed.

Example fixed_simlet_count_changes_only_placement :
  mapM (λ n, summary <$> generate_point n 16 false) NODES = Ok ((λ n, expected n 16) <$> NODES).
Proof. vm_compute. reflexivity. Qed.

Example paper_scale_32_simlet_matrix_keeps_15_rows_per_rank :
  mapM (λ n, g ← generate_point n 32 false;
    Ok (zlen (entries "gpgpu-block-rank" (gn_placement g)),
        existsb (λ item, match field "coordinates" item with PList [PInt 5; PInt 5] => true | _ => false end)
          (entries "gpgpu-block-rank" (gn_placement g)))) NODES
  = Ok [(32, false); (32, false); (32, false); (32, false)] ∧ GLOBAL_ROWS / 32 = 15.
Proof. split; vm_compute; reflexivity. Qed.

Example local_counterfactual_changes_only_ns3_timing_arguments :
  (λ g, (field "gpu_ranks" (gn_placement g), zlen (processes_of (gn_placement g)),
         forallb (λ text, existsb (λ v, eq_str v text) (phase2_args (gn_workload g)))
           ["--worker-routing"; "/run/config/routing.json"; "--localize-cross-worker-network"]))
  <$> generate_point 4 32 true = Ok (PInt 32, 34, true).
Proof. vm_compute. reflexivity. Qed.

End MatmulDpGenerationTest.
